(* ===== verification/_CoqProject ===== *)
-Q . S2P
Prelude.v
GoValue.v
Sql.v
Health.v
Queue.v
QueueRefine.v
Idempotency.v
Crypto.v
GatewayStore.v
MTStore.v
Config.v
Maintenance.v
RateGuard.v
Regex.v
MTGuard.v
Lock.v
Http.v
Mux.v
Typing.v
BotSession.v
BotProxy.v
BotApp.v
MTSession.v
MTWire.v
MTClient.v
MTApp.v
MTRefine.v
Serve.v
PyFormat.v
Gotd.v
Migrate.v
Sdk.v
Command.v
Consumer.v
