(* ===== verification/Prelude.v ===== *)
(** * A verification of the tg-session-gateway

    The gateway is a single Go binary that owns Telegram bot and user sessions
    on behalf of many consumers.  Its Bot API plane polls getUpdates once per
    bot, keeps the updates in a persistent queue and proxies every other call
    through a rate guard; its MTProto plane does the same for user sessions.
    This library models the code under src/internal/, the command line
    (src/cmd/tggw), the consumer SDK (src/pkg/client) and the example consumer,
    and proves what they rely on.

    ** Files

    - [Prelude] (this file): rationals for float64, instants, lists, tactics
      and the hint database [gw].
    - [GoValue]: the Go run-time values the code passes around ([any], maps,
      JSON, int64 text).
    - [Sql]: tables as row lists with primary keys, and a [faults] oracle that
      says which statement of a call fails.
    - [Health] (internal/health): storage health, crash-loop tracker, heartbeat.
    - [Queue], [QueueRefine] (internal/store/queue.go): the update queue and
      its refinement of a durable log.
    - [Idempotency] (the idempotency part of internal/store/gateway.go and
      mt.go): the class [IdemStore], the SQL that implements it and what any
      such store guarantees.
    - [Crypto] (internal/cryptoutil): key handling and envelopes over the
      class [Fernet]; the cipher itself is not under src/ and is a parameter.
    - [GatewayStore], [MTStore] (internal/store/gateway.go, mt.go): the two
      stores, each an instance of [IdemStore].
    - [Config] (internal/config): environment parsing, defaults, validation.
    - [Maintenance] (internal/store/db.go): integrity check and quarantine,
      migrations, backups and retention over a directory of files.
    - [RateGuard], [Regex], [MTGuard] (internal/rateguard): token buckets, the
      two guards and FLOOD_WAIT parsing.
    - [Lock] (internal/lock): session ownership over the class [Backend] of
      what a build's lock file functions promise, with the flock and the
      LockFileEx instance.
    - [Http], [Typing], [BotSession], [BotProxy] (internal/botapi: client.go,
      typing.go, session.go, proxy.go): the Bot API plane.  [BotSession] holds
      the manager state that [BotProxy] runs requests against.
    - [Mux]: the routing rules of net/http's ServeMux and query strings, used
      by both applications.
    - [BotApp] (internal/botapi/app.go): routes, body formats, admin handlers,
      probes, metrics, boot and shutdown of the Bot API plane.
    - [MTSession] (internal/mtproto/sessions.go): the MTProto sessions, their
      supervisors, the update pump and the lifecycle calls.
    - [MTWire] (internal/mtproto/serialize.go, coerce.go): the Telegram types
      the code matches on, to JSON and back.
    - [MTClient] (internal/mtproto/client.go): the class [Client], the
      adapters that call it and an instance that records the calls.
    - [MTApp] (internal/mtproto/app.go): routing, dispatch, getUpdates, the
      WebSocket push, admin handlers, probes and housekeeping, over
      [MTSession] and any [Client].
    - [MTRefine]: the MTProto plane, from the arriving update to the getUpdates
      answer and across process restarts, as a log of numbered updates.
    - [Serve] (RunServe, ListenAndServe and Shutdown of both applications,
      internal/tracing): the life cycle of the serving process over the class
      [Plane], with an instance per plane.
    - [PyFormat] (internal/mtproto/pyformat): runes, the markdown and HTML
      passes, the builder calls and entity merging.
    - [Gotd] (internal/mtproto/gotd_client.go): the client that turns each
      method into raw Telegram requests, an instance of [Client] over an
      arbitrary remote side.
    - [Migrate] (internal/migrate): the conversion of old session files into
      sealed gotd sessions, and its report.
    - [Sdk] (pkg/client): the client's calls over any transport, and over
      [BotApp] and [MTApp] as the transport.
    - [Command] (cmd/tggw, with OpenGateway, OpenMT and the constructors of
      both applications): subcommands, start-up checks, exit codes, over a
      [host] that outlives the process.
    - [Consumer] (examples/go-consumer): the echo loop over [Sdk].

    ** Conventions

    - A definition has the name of the Go function, method or type it
      translates; a goroutine loop is one function per iteration.
    - State is passed explicitly.  Objects shared through pointers (sessions,
      typing loops) live in a heap indexed by numbers.
    - float64 is an exact rational; an instant is an integer of nanoseconds
      ([Z]) or seconds ([Q], through [secs]).  int64 conversions wrap
      ([wrap64]) or truncate ([f2i], [qtrunc]) as Go's do.
    - What the code cannot decide (clock readings, entropy, which SQL
      statement fails, the answers of the network, what other goroutines do
      during a sleep) is an argument, so theorems hold for all of it.
    - [None] is an error return or, where the doc comment says so, a run-time
      panic.  A JSON document is a text up to parsing; strings.ToLower is the
      ASCII one.
    - Loops that wait ([pull_loop], [admission_loop], [poll_offset],
      [poll_legacy]) consume a list of wake-ups and return [None] while still
      waiting; that they return is proved separately ([pull_returns],
      [mt_get_updates_returns], [queued_write_settles], whose bound is
      timeout/2 + 1 turns since every turn waits a full 2 s slice or exactly
      until the guard is free).

    ** What is proved

    - Delivery: the queue refines a durable log across restarts; crash points
      of [Ack] and of the poller's batch lose nothing; [Pull] delivers only
      unacknowledged updates and returns; the queue's invariant; an MTProto
      update is stored before it is delivered and redelivered until
      acknowledged; the whole MTProto plane refines a log across restarts of
      the process, so that an update answers the pull at its own number until
      a higher offset acknowledges it; every serialised update is encodable.
    - Ownership: at most one live poller per alias over any calls and poller
      steps; at most one process holds a session lock, with no stale window;
      gateway-owned methods are answered locally; an MTProto client connects
      only under its session lock, and never again after a terminal error.
    - Access: no handler of either plane acts without its secret, the public
      listener has no operator handler when the admin port is separate, and
      what one Bot API request sends upstream goes out under one session's
      token.
    - HTTP: multipart and form bodies reach Telegram byte for byte, oversize
      bodies are refused, a boot in safe mode starts nothing until it is
      acknowledged.
    - End to end: repeated SDK pulls hand over the queue's pending updates in
      order and once each; a keyed SDK send repeated within the window sends
      nothing more; a registered bot is polled again after a restart.
    - Process: a gateway starts only with a valid configuration, a key from
      the environment and a mounted data directory, and never writes a key
      file; after its signal it exits within 25 seconds, closed and without
      cutting a request off before that time, with every poller cancelled,
      every session lock free and every live session's state saved; a
      migration report without required logins means that every
      registered session opens with its old key, and running it again changes
      nothing.
    - Dispatch: a proxied method makes at most one effective client call, to
      the chat its arguments name, which is the chat the guard paces; reply
      markups survive the round trip through JSON.  The raw requests behind it
      are reads followed by at most one write.
    - Formatting: every text in every mode formats without a panic, agrees
      with a rune-at-a-time reference, and text without mark-up is verbatim.
    - Pacing: per-chat and bot-wide bounds on granted writes, waiting suffices,
      429s are honoured, learnt and persisted; adaptive FLOOD_WAIT backoff;
      typing never takes a token.
    - Idempotency: exclusive grants, suppression after completion (at the
      stores), and exactly-once keyed sends at the proxy.
    - Storage: token and blob round trips, backoffs across restarts,
      migrations in order, quarantine and restore, sticky degradation, safe
      mode on crash loops.
    - Divergences of the code from its documentation, each as a theorem on the
      model (for example [raw_refusal_loses_send],
      [multipart_bypasses_ownership], [resume_leaves_poller_dead],
      [pull_can_miss_a_wakeup], [backup_panics_below_keep],
      [refused_send_burns_key], [restart_reuses_sequences],
      [zero_ttl_purges_store], [legacy_ack_deletes_undelivered],
      [crash_sends_twice], [second_start_refused],
      [healthcheck_ignores_heartbeat], [windows_python_guard_blind],
      [restart_beyond_replay_repeats], [push_before_replay_repeats],
      [long_request_cut], [admin_listener_error_unnoticed]).

    ** Not modelled

    The sockets behind the listeners and the timers that call the modelled
    ticks; the OpenTelemetry exporter; log lines, usage texts and the layout of
    printed reports; the Windows variants of the mount check and of terminate
    (the commands are those of the Unix build): library or system calls with no
    logic of their own.  Floating-point rounding and the multipart metric
    counter are left out.  In [MTRefine] the numbers stay below 2^53, which a
    float64 holds exactly, and a restart finds at most the 5000 waiting updates
    the replay reads; what happens beyond is stated there. *)
From Stdlib Require Import QArith Lqa.
From stdpp Require Import base list strings gmap sorting.

Declare Scope go_scope.
Delimit Scope go_scope with go.

(** ** Exact rationals for float64 quantities *)

Definition qle (x y : Q) : bool := Qle_bool x y.

Definition qlt (x y : Q) : bool := negb (Qle_bool y x).

Definition fmax (x y : Q) : Q := if qle x y then y else x.

Definition fmin (x y : Q) : Q := if qle x y then x else y.

Infix "<=?" := qle : go_scope.
Infix "<?" := qlt : go_scope.

(** [int64(f)] and [int(f)] of an in-range float64: truncation towards zero. *)
Definition qtrunc (q : Q) : Z := Z.quot (Qnum q) (Zpos (Qden q)).

(** Clock readings are [time.Now().UnixNano()]; [secs] is the float64 second
    count the code derives from them. *)
Definition secs (ns : Z) : Q := ns # 1000000000.

(** [time.Duration(s * float64(time.Second))]. *)
Definition duration (s : Q) : Z := qtrunc (s * inject_Z 1000000000).

Definition int64_min : Z := (- 2 ^ 63)%Z.

Definition int64_max : Z := (2 ^ 63 - 1)%Z.

Definition in_int64 (z : Z) : bool := (int64_min <=? z)%Z && (z <=? int64_max)%Z.

(** Two's-complement wrap-around of int64 arithmetic. *)
Definition wrap64 (z : Z) : Z := ((z + 2 ^ 63) mod 2 ^ 64 - 2 ^ 63)%Z.

Lemma qleP x y : reflect (x <= y)%Q (qle x y).
Proof.
  unfold qle. destruct (Qle_bool x y) eqn:E; constructor.
  - by apply Qle_bool_iff.
  - intros H%Qle_bool_iff. congruence.
Qed.

Lemma qltP x y : reflect (x < y)%Q (qlt x y).
Proof.
  unfold qlt. destruct (Qle_bool y x) eqn:E; constructor.
  - apply Qle_bool_iff in E. lra.
  - apply Qnot_le_lt. intros H%Qle_bool_iff. congruence.
Qed.

(** Case analysis on every float comparison in sight, then linear arithmetic. *)
Ltac qcase :=
  match goal with
  | |- context [qle ?x ?y] => destruct (qleP x y)
  | |- context [qlt ?x ?y] => destruct (qltP x y)
  | H : context [qle ?x ?y] |- _ => destruct (qleP x y)
  | H : context [qlt ?x ?y] |- _ => destruct (qltP x y)
  end.

Ltac qsolve :=
  unfold fmax, fmin in *;
  repeat (qcase; simpl in * );
  simplify_eq; try done; try lra.

Lemma fmax_l x y : (x <= fmax x y)%Q.
Proof. qsolve. Qed.

Lemma fmax_r x y : (y <= fmax x y)%Q.
Proof. qsolve. Qed.

Lemma fmax_lub x y z : (x <= z)%Q → (y <= z)%Q → (fmax x y <= z)%Q.
Proof. intros. qsolve. Qed.

Lemma fmin_l x y : (fmin x y <= x)%Q.
Proof. qsolve. Qed.

Lemma fmin_r x y : (fmin x y <= y)%Q.
Proof. qsolve. Qed.

Lemma qlt_true x y : (x < y)%Q → qlt x y = true.
Proof. intros. by destruct (qltP x y). Qed.

Lemma qlt_false x y : (y <= x)%Q → qlt x y = false.
Proof. intros. destruct (qltP x y); [lra|done]. Qed.

Lemma qle_true x y : (x <= y)%Q → qle x y = true.
Proof. intros. by destruct (qleP x y). Qed.

Lemma qle_false x y : (y < x)%Q → qle x y = false.
Proof. intros. destruct (qleP x y); [lra|done]. Qed.

Lemma wrap64_id z : in_int64 z = true → wrap64 z = z.
Proof.
  unfold in_int64, int64_min, int64_max, wrap64. intros H.
  rewrite Z.mod_small; lia.
Qed.

Lemma wrap64_range z : in_int64 (wrap64 z) = true.
Proof.
  unfold in_int64, int64_min, int64_max, wrap64.
  pose proof (Z.mod_pos_bound (z + 2 ^ 63) (2 ^ 64) ltac:(lia)). lia.
Qed.

Lemma secs_mono a b : (a <= b)%Z → (secs a <= secs b)%Q.
Proof. intros. unfold secs, Qle; simpl. lia. Qed.

Lemma secs_lt a b : (a < b)%Z ↔ (secs a < secs b)%Q.
Proof. unfold secs, Qlt; simpl. lia. Qed.

(** ** Lists with boolean predicates

    Tables, queues and channels are lists; SQL [WHERE] clauses and Go loops
    filter them with boolean tests. *)

Abbreviation bfilter := List.filter.

Section bool_lists.
Context {A : Type}.
Implicit Types (p q : A → bool) (l : list A) (x : A).

Lemma elem_of_bfilter p l x : x ∈ bfilter p l ↔ x ∈ l ∧ p x = true.
Proof. rewrite !list_elem_of_In. apply List.filter_In. Qed.

Lemma bfilter_app p l1 l2 : bfilter p (l1 ++ l2) = bfilter p l1 ++ bfilter p l2.
Proof. apply List.filter_app. Qed.

Lemma bfilter_all p l : (∀ x, x ∈ l → p x = true) → bfilter p l = l.
Proof.
  induction l as [|y l IH]; simpl; intros H; [done|].
  rewrite H by left. f_equal. apply IH. intros z Hz. apply H. by right.
Qed.

Lemma bfilter_none p l : (∀ x, x ∈ l → p x = false) → bfilter p l = [].
Proof.
  induction l as [|y l IH]; simpl; intros H; [done|].
  rewrite H by left. apply IH. intros z Hz. apply H. by right.
Qed.

Lemma bfilter_ext p q l : (∀ x, x ∈ l → p x = q x) → bfilter p l = bfilter q l.
Proof.
  induction l as [|y l IH]; simpl; intros H; [done|].
  rewrite H by left. rewrite IH; [done|]. intros z Hz. apply H. by right.
Qed.

Lemma bfilter_bfilter p q l : bfilter p (bfilter q l) = bfilter (λ x, q x && p x) l.
Proof. induction l as [|y l IH]; simpl; [done|]. destruct (q y), (p y) eqn:E; simpl; rewrite ?E, ?IH; done. Qed.

Lemma bfilter_sublist p l : sublist (bfilter p l) l.
Proof. induction l; simpl; [constructor|]. destruct (p _); by constructor. Qed.

Lemma bfilter_length p l : length (bfilter p l) ≤ length l.
Proof. apply sublist_length, bfilter_sublist. Qed.

Lemma bfilter_Permutation p l1 l2 : l1 ≡ₚ l2 → bfilter p l1 ≡ₚ bfilter p l2.
Proof.
  induction 1; simpl.
  - done.
  - destruct (p x); by rewrite ?IHPermutation.
  - destruct (p x), (p y); try done. constructor.
  - by etrans.
Qed.
End bool_lists.

Lemma bfilter_fmap {A B} (f : A → B) (p : B → bool) (l : list A) :
  bfilter p (f <$> l) = f <$> bfilter (λ x, p (f x)) l.
Proof. induction l as [|x l IH]; csimpl; [done|]. rewrite IH. by destruct (p (f x)). Qed.

Lemma StronglySorted_fmap_inv {A B} (f : A → B) (R : relation B) (l : list A) :
  StronglySorted R (f <$> l) → StronglySorted (λ x y, R (f x) (f y)) l.
Proof.
  induction l as [|x l IH]; csimpl; [constructor|]. intros H. apply StronglySorted_inv in H as [H1 H2].
  constructor; [by apply IH|]. exact (proj1 (Forall_fmap f _ l) H2).
Qed.

Lemma StronglySorted_bfilter {A} (R : relation A) (p : A → bool) (l : list A) :
  StronglySorted R l → StronglySorted R (bfilter p l).
Proof.
  induction 1 as [|x l Hs IH Hx]; simpl; [constructor|]. destruct (p x); [|done].
  constructor; [done|]. apply Forall_forall. intros y [Hy _]%elem_of_bfilter.
  rewrite Forall_forall in Hx. by apply Hx.
Qed.

Lemma NoDup_fmap_bfilter {A B} (f : A → B) (p : A → bool) (l : list A) :
  NoDup (f <$> l) → NoDup (f <$> bfilter p l).
Proof. intros H. eapply sublist_NoDup; [done|]. apply fmap_sublist, bfilter_sublist. Qed.

Lemma omap_length_le {A B} (f : A → option B) (l : list A) : length (omap f l) ≤ length l.
Proof.
  induction l as [|x l IH]; csimpl; [done|]. destruct (f x); simpl; [by apply le_n_S|by apply le_S].
Qed.

(** Pop from the front while the test holds: the [for q.Len() > 0] loops. *)
Fixpoint drop_while {A} (p : A → bool) (l : list A) : list A :=
  match l with
  | [] => []
  | x :: l' => if p x then drop_while p l' else l
  end.

Fixpoint take_while {A} (p : A → bool) (l : list A) : list A :=
  match l with
  | [] => []
  | x :: l' => if p x then x :: take_while p l' else []
  end.

Lemma take_drop_while {A} (p : A → bool) l : take_while p l ++ drop_while p l = l.
Proof. induction l as [|x l IH]; simpl; [done|]. destruct (p x); simpl; by f_equal. Qed.

Lemma take_while_all {A} (p : A → bool) l x : x ∈ take_while p l → p x = true.
Proof.
  induction l as [|y l IH]; simpl; [by rewrite elem_of_nil|].
  destruct (p y) eqn:E; rewrite ?elem_of_cons, ?elem_of_nil; naive_solver.
Qed.

Lemma drop_while_suffix {A} (p : A → bool) l : drop_while p l `suffix_of` l.
Proof. exists (take_while p l). by rewrite take_drop_while. Qed.

Lemma drop_while_sublist {A} (p : A → bool) l : sublist (drop_while p l) l.
Proof. induction l as [|y l IH]; simpl; [constructor|]. destruct (p y); by constructor. Qed.

Lemma elem_of_drop_while {A} (p : A → bool) l x : x ∈ drop_while p l → x ∈ l.
Proof. intros H. eapply elem_of_sublist; [done|]. apply drop_while_sublist. Qed.

(** On a list sorted by an integer key, popping the front is filtering. *)
Lemma drop_while_sorted {A} (key : A → Z) (b : Z) l :
  StronglySorted (λ x y, key x < key y)%Z l →
  drop_while (λ x, key x <=? b)%Z l = bfilter (λ x, b <? key x)%Z l.
Proof.
  induction 1 as [|x l Hs IH Hx]; simpl; [done|].
  destruct (key x <=? b)%Z eqn:E.
  - rewrite IH. by destruct (Z.ltb_spec b (key x)); [lia|].
  - destruct (Z.ltb_spec b (key x)); [|lia]. f_equal. symmetry. apply bfilter_all.
    intros y Hy. rewrite Forall_forall in Hx. specialize (Hx y Hy). lia.
Qed.

Lemma Forall_bfilter {A} (P : A → Prop) (p : A → bool) l : Forall P l → Forall P (bfilter p l).
Proof. rewrite !Forall_forall. intros H x [Hx _]%elem_of_bfilter. by apply H. Qed.

Lemma bfilter_idem {A} (p : A → bool) l : bfilter p (bfilter p l) = bfilter p l.
Proof. apply bfilter_all. by intros x [_ H]%elem_of_bfilter. Qed.

Lemma StronglySorted_take {A} (R : relation A) n l : StronglySorted R l → StronglySorted R (take n l).
Proof.
  intros H. revert n. induction H as [|x l Hs IH Hx]; intros [|n]; try (by constructor). cbn. constructor; [apply IH|by apply Forall_take].
Qed.

Lemma bfilter_drop_while {A} (key : A → Z) (b : Z) (l : list A) :
  bfilter (λ x, b <? key x)%Z (drop_while (λ x, key x <=? b)%Z l) = bfilter (λ x, b <? key x)%Z l.
Proof.
  induction l as [|x l IH]; [done|]. simpl. destruct (Z.leb_spec (key x) b) as [Hx|Hx].
  - rewrite IH. by destruct (Z.ltb_spec b (key x)); [lia|].
  - done.
Qed.

(** ** Stable sort by an integer key: [ORDER BY] and [sort.Ints] *)

Fixpoint insert_by {A} (key : A → Z) (x : A) (l : list A) : list A :=
  match l with
  | [] => [x]
  | y :: l' => if (key x <=? key y)%Z then x :: l else y :: insert_by key x l'
  end.

Fixpoint sort_by {A} (key : A → Z) (l : list A) : list A :=
  match l with
  | [] => []
  | x :: l' => insert_by key x (sort_by key l')
  end.

Lemma insert_by_Permutation {A} (key : A → Z) x l : insert_by key x l ≡ₚ x :: l.
Proof.
  induction l as [|y l IH]; simpl; [done|]. destruct (_ <=? _)%Z; [done|].
  rewrite IH. constructor.
Qed.

Lemma sort_by_Permutation {A} (key : A → Z) l : sort_by key l ≡ₚ l.
Proof. induction l as [|x l IH]; simpl; [done|]. by rewrite insert_by_Permutation, IH. Qed.

Lemma insert_by_sorted {A} (key : A → Z) x l :
  StronglySorted (λ x y, key x ≤ key y)%Z l →
  StronglySorted (λ x y, key x ≤ key y)%Z (insert_by key x l).
Proof.
  induction 1 as [|y l Hs IH Hy]; simpl; [repeat constructor|].
  destruct (key x <=? key y)%Z eqn:E.
  - constructor; [by constructor|]. constructor; [lia|].
    eapply Forall_impl; [done|]. simpl. intros. lia.
  - constructor; [done|]. apply Forall_forall. intros z.
    rewrite (insert_by_Permutation key x l), elem_of_cons.
    rewrite Forall_forall in Hy. intros [->|Hz]; [lia|by apply Hy].
Qed.

Lemma sort_by_sorted {A} (key : A → Z) l :
  StronglySorted (λ x y, key x ≤ key y)%Z (sort_by key l).
Proof. induction l; simpl; [constructor|]. by apply insert_by_sorted. Qed.

Lemma sort_by_id {A} (key : A → Z) l :
  StronglySorted (λ x y, key x ≤ key y)%Z l → sort_by key l = l.
Proof.
  induction 1 as [|x l Hs IH Hx]; simpl; [done|]. rewrite IH.
  destruct l as [|y l]; simpl; [done|]. inversion_clear Hx.
  by destruct (Z.leb_spec (key x) (key y)); [|lia].
Qed.

Lemma elem_of_sort_by {A} (key : A → Z) l x : x ∈ sort_by key l ↔ x ∈ l.
Proof. by rewrite sort_by_Permutation. Qed.

(** ** Automation *)

Create HintDb gw discriminated.

#[export] Hint Resolve fmax_l fmax_r fmin_l fmin_r fmax_lub Qle_refl : gw.
#[export] Hint Resolve bfilter_sublist drop_while_sublist NoDup_fmap_bfilter : gw.

Ltac split_ands := repeat match goal with |- _ ∧ _ => split end.

(** Destruct the scrutinee of the outermost [if]/[match] on a boolean or option. *)
Ltac bcase :=
  match goal with
  | |- context [if ?b then _ else _] => destruct b eqn:?
  | H : context [if ?b then _ else _] |- _ => destruct b eqn:?
  end.
