(* ===== verification/GoValue.v ===== *)
(** * Go values, strings and decimal conversions

    The dynamic values ([any], [map[string]any]) that updates, request bodies
    and JSON documents are made of, the string functions of the Go standard
    library the gateway calls, and the integer conversions shared by the
    components (internal/store/queue.go, internal/botapi/typing.go,
    internal/rateguard/mt.go, internal/mtproto/sessions.go). *)
From Stdlib Require Import QArith Lqa Ascii String.
From stdpp Require Import base list strings gmap.
From S2P Require Import Prelude.
Open Scope Z_scope.

(** ** Bytes and strings *)

Definition code (c : ascii) : Z := Z.of_N (N_of_ascii c).

Definition chr (z : Z) : ascii := ascii_of_N (Z.to_N z).

Definition is_digit (c : ascii) : bool := (48 <=? code c) && (code c <=? 57).

Definition lower_ascii (c : ascii) : ascii :=
  if (65 <=? code c) && (code c <=? 90) then chr (code c + 32) else c.

(** [strings.ToLower] on ASCII text. *)
Fixpoint to_lower (s : string) : string :=
  match s with
  | EmptyString => EmptyString
  | String c s' => String (lower_ascii c) (to_lower s')
  end.

Definition has_prefix (p s : string) : bool := String.prefix p s.

Fixpoint sdrop (n : nat) (s : string) : string :=
  match n, s with
  | S n', String _ s' => sdrop n' s'
  | _, _ => s
  end.

Fixpoint stake (n : nat) (s : string) : string :=
  match n, s with
  | S n', String c s' => String c (stake n' s')
  | _, _ => EmptyString
  end.

(** [strings.TrimPrefix]. *)
Definition trim_prefix (p s : string) : string :=
  if has_prefix p s then sdrop (String.length p) s else s.

Fixpoint all_digits (s : string) : bool :=
  match s with
  | EmptyString => true
  | String c s' => is_digit c && all_digits s'
  end.

(** [strings.Contains] of one character. *)
Fixpoint has_char (c : ascii) (s : string) : bool :=
  match s with
  | EmptyString => false
  | String d s' => (d =? c)%char || has_char c s'
  end.

(** [strings.Cut] at a one-byte separator. *)
Fixpoint cut_at (sep : ascii) (s : string) : option (string * string) :=
  match s with
  | EmptyString => None
  | String c s' =>
      if (c =? sep)%char then Some ("", s')
      else match cut_at sep s' with Some (a, b) => Some (String c a, b) | None => None end
  end.

(** A switch over string literals. *)
Definition smem (s : string) (l : list string) : bool := existsb (String.eqb s) l.

(** ** Decimal text *)

Fixpoint parse_digits (s : string) (acc : Z) : option Z :=
  match s with
  | EmptyString => Some acc
  | String c s' => if is_digit c then parse_digits s' (acc * 10 + (code c - 48)) else None
  end.

Definition parse_nat (s : string) : option Z :=
  match s with EmptyString => None | _ => parse_digits s 0 end.

(** [strconv.ParseInt(s, 10, 64)]. *)
Definition parse_int64 (s : string) : option Z :=
  let signed :=
    match s with
    | String "-" s' => Z.opp <$> parse_nat s'
    | String "+" s' => parse_nat s'
    | _ => parse_nat s
    end in
  match signed with
  | Some z => if in_int64 z then Some z else None
  | None => None
  end.

(** The buffer-filling loop of [itoa]/[itoa64]: at most 24 digits. *)
Fixpoint itoa_loop (fuel : nat) (n : Z) (buf : string) : string :=
  match fuel with
  | O => buf
  | S f => if n >? 0 then itoa_loop f (n / 10) (String (chr (48 + n mod 10)) buf) else buf
  end.

Definition itoa (n : Z) : string :=
  if n =? 0 then "0" else
  let neg := n <? 0 in
  let n' := if neg then wrap64 (- n) else n in
  let buf := itoa_loop 24 n' "" in
  if neg then String "-" buf else buf.

(** [strconv.FormatInt(n, 10)] of an int64. *)
Definition FormatInt (n : Z) : string :=
  if n =? 0 then "0" else if n <? 0 then String "-" (itoa_loop 24 (- n) "") else itoa_loop 24 n "".

(** [atoi] of rateguard/mt.go: stops at the first non-digit; Go [int] wraps. *)
Fixpoint atoi_from (s : string) (n : Z) : Z :=
  match s with
  | EmptyString => n
  | String c s' => if is_digit c then atoi_from s' (wrap64 (n * 10 + (code c - 48))) else n
  end.

Definition atoi (s : string) : Z := atoi_from s 0.

(** ** Dynamic values *)

Inductive any : Type :=
| ANil
| ABool (b : bool)
| AFloat (f : Q)
| AInt64 (n : Z)
| AInt (n : Z)
| ANumber (s : string)
| AStr (s : string)
| AList (l : list any)
| AMap (m : list (string * any))
| AOpaque.

(** A [map[string]any]; the first binding of a key is the live one. *)
Abbreviation obj := (list (string * any)).

Fixpoint mget {V} (m : list (string * V)) (k : string) : option V :=
  match m with
  | [] => None
  | (k', v) :: m' => if String.eqb k' k then Some v else mget m' k
  end.

(** [m[k]] in a single-value context: the zero value [nil] when absent. *)
Definition mget1 (m : obj) (k : string) : any := default ANil (mget m k).

Fixpoint mset {V} (m : list (string * V)) (k : string) (v : V) : list (string * V) :=
  match m with
  | [] => [(k, v)]
  | (k', v') :: m' => if String.eqb k' k then (k, v) :: m' else (k', v') :: mset m' k v
  end.

Definition mdel {V} (m : list (string * V)) (k : string) : list (string * V) :=
  bfilter (λ kv, negb (String.eqb (fst kv) k)) m.

(** [int64(f)] on amd64: truncation, the indefinite value out of range. *)
Definition f2i (f : Q) : Z :=
  let z := qtrunc f in if in_int64 z then z else int64_min.

(** ** JSON documents up to parsing

    A stored JSON text is represented by the document it parses to, or marked
    unparsable.  Encoding turns every integer into a JSON number, which
    decodes as float64; it fails on values JSON cannot express. *)
Inductive json_text : Type :=
| JText (v : any)
| JBad (raw : string).

Fixpoint jnorm (v : any) : any :=
  match v with
  | AInt64 n | AInt n => AFloat (inject_Z n)
  | ANumber s => match parse_int64 s with Some n => AFloat (inject_Z n) | None => ANumber s end
  | AList l => AList (map jnorm l)
  | AMap m => AMap (map (λ kv, (fst kv, jnorm (snd kv))) m)
  | _ => v
  end.

Fixpoint json_ok (v : any) : bool :=
  match v with
  | AOpaque => false
  | AList l => forallb json_ok l
  | AMap m => forallb (λ kv, json_ok (snd kv)) m
  | _ => true
  end.

(** [json.Marshal] of a map. *)
Definition json_marshal (m : obj) : option json_text :=
  if json_ok (AMap m) then Some (JText (jnorm (AMap m))) else None.

(** [json.Unmarshal] into a [map[string]any]; JSON null leaves the nil map. *)
Definition json_unmarshal (t : json_text) : option obj :=
  match t with
  | JText (AMap m) => Some m
  | JText ANil => Some []
  | _ => None
  end.

(** Values produced by [json.Unmarshal]: every number is a float64. *)
Fixpoint decoded (v : any) : bool :=
  match v with
  | AInt64 _ | AInt _ | ANumber _ | AOpaque => false
  | AList l => forallb decoded l
  | AMap m => forallb (λ kv, decoded (snd kv)) m
  | _ => true
  end.

(** ** The integer views of a dynamic value *)

(** [toInt64] of store/queue.go. *)
Definition toInt64 (v : any) : option Z :=
  match v with
  | AFloat f => Some (f2i f)
  | AInt64 n => Some n
  | AInt n => Some n
  | ANumber s => parse_int64 s
  | _ => None
  end.

(** [cloneMap] (store) and [cloneMapAny] (botapi): value semantics make the
    copy the map itself; writes to the copy never reach the original. *)
Definition cloneMap (m : obj) : obj := m.

(** [anyToInt64] of mtproto/sessions.go. *)
Definition anyToInt64 (v : any) : option Z :=
  match v with
  | AInt64 n => Some n
  | AInt n => Some n
  | AFloat f => Some (f2i f)
  | _ => None
  end.

(** [anyToFloat] of mtproto/sessions.go. *)
Definition anyToFloat (v : any) : option Q :=
  match v with
  | AFloat f => Some f
  | AInt64 n => Some (inject_Z n)
  | AInt n => Some (inject_Z n)
  | _ => None
  end.

(** ** Lemmas *)

(** Concatenation of Go strings. *)
Lemma append_assoc a b c : (a +:+ b) +:+ c = a +:+ (b +:+ c).
Proof. induction a as [|x a IH]; [done|]. change (String x ((a +:+ b) +:+ c) = String x (a +:+ (b +:+ c))). by rewrite IH. Qed.

Lemma append_cons c a b : String c a +:+ b = String c (a +:+ b).
Proof. done. Qed.

Lemma append_nil_r a : a +:+ "" = a.
Proof. induction a as [|x a IH]; [done|]. change (String x (a +:+ "") = String x a). by rewrite IH. Qed.

Lemma has_prefix_true p s : has_prefix p s = true → s = p +:+ sdrop (String.length p) s.
Proof.
  revert s. induction p as [|c p IH]; intros s H; [done|]. destruct s as [|d s]; [done|].
  unfold has_prefix in *. simpl in H. destruct (ascii_dec c d) as [->|]; [|done]. rewrite append_cons. simpl. f_equal. by apply IH.
Qed.

(** The text ends in what is left after trimming. *)
Lemma trim_prefix_suffix p s : ∃ pre, s = pre +:+ trim_prefix p s.
Proof. unfold trim_prefix. destruct (has_prefix p s) eqn:E; [exists p; by apply has_prefix_true|by exists ""]. Qed.

Lemma stake_sdrop n s : stake n s +:+ sdrop n s = s.
Proof. revert s. induction n as [|n IH]; intros [|c s]; try done. cbn [stake sdrop]. by rewrite append_cons, IH. Qed.

Lemma cut_at_some c s a b : cut_at c s = Some (a, b) → s = a +:+ String c b.
Proof.
  revert a b. induction s as [|d s IH]; intros a b; simpl; [done|]. destruct (Ascii.eqb_spec d c) as [->|Hne]; [by intros [= <- <-]|].
  destruct (cut_at c s) as [[x y]|]; [|done]. intros [= <- <-]. by rewrite append_cons, (IH x y).
Qed.

Lemma cut_at_app c a b : has_char c a = false → cut_at c (a +:+ String c b) = Some (a, b).
Proof.
  induction a as [|d a IH]; [by simpl; rewrite Ascii.eqb_refl|]. cbn [has_char]. intros [Hd Ha]%orb_false_iff.
  rewrite append_cons. simpl. by rewrite Hd, IH.
Qed.

Lemma trim_prefix_app p s : trim_prefix p (p +:+ s) = s.
Proof.
  assert (has_prefix p (p +:+ s) = true ∧ sdrop (String.length p) (p +:+ s) = s) as [H1 H2].
  { induction p as [|c p IH]; [by destruct s|]. unfold has_prefix in *. rewrite append_cons. simpl. by destruct (ascii_dec c c). }
  unfold trim_prefix. by rewrite H1.
Qed.

Lemma code_chr z : 0 <= z < 256 → code (chr z) = z.
Proof.
  intros H. unfold code, chr. rewrite N_ascii_embedding by lia. lia.
Qed.

Lemma is_digit_chr d : 0 <= d < 10 → is_digit (chr (48 + d)) = true.
Proof. intros. unfold is_digit. rewrite code_chr by lia. lia. Qed.

Lemma parse_itoa_loop fuel n buf :
  0 <= n < 10 ^ Z.of_nat fuel →
  parse_digits (itoa_loop fuel n buf) 0 = parse_digits buf n.
Proof.
  revert n buf. induction fuel as [|f IH]; intros n buf Hn.
  - simpl. replace n with 0 by (simpl in Hn; lia). done.
  - cbn [itoa_loop]. destruct (Z.gtb_spec n 0).
    + rewrite IH.
      * cbn [parse_digits]. rewrite is_digit_chr by (apply Z.mod_pos_bound; lia).
        rewrite code_chr by (pose proof (Z.mod_pos_bound n 10); lia).
        f_equal. pose proof (Z.div_mod n 10). lia.
      * split; [apply Z.div_pos; lia|]. apply Z.div_lt_upper_bound; [lia|].
        rewrite Nat2Z.inj_succ, Z.pow_succ_r in Hn by lia. lia.
    + replace n with 0 by lia. done.
Qed.

Lemma itoa_loop_head fuel n :
  0 < n < 10 ^ Z.of_nat fuel →
  ∃ d s, itoa_loop fuel n "" = String (chr (48 + d)) s ∧ 0 <= d < 10.
Proof.
  intros Hn. remember "" as buf eqn:Hb. clear Hb. revert n buf Hn.
  induction fuel as [|f IH]; intros n buf Hn; [simpl in Hn; lia|].
  cbn [itoa_loop]. destruct (Z.gtb_spec n 0); [|lia].
  destruct (decide (n < 10)).
  - rewrite Z.div_small, Z.mod_small by lia. exists n, buf. split; [|lia].
    by destruct f.
  - apply IH. split; [apply Z.div_str_pos; lia|]. apply Z.div_lt_upper_bound; [lia|].
    rewrite Nat2Z.inj_succ, Z.pow_succ_r in Hn by lia. lia.
Qed.

Lemma parse_nat_itoa_loop n :
  0 < n <= 2 ^ 63 → parse_nat (itoa_loop 24 n "") = Some n.
Proof.
  intros Hn.
  assert (0 < n < 10 ^ Z.of_nat 24) as Hb by (simpl; lia).
  destruct (itoa_loop_head 24 n Hb) as (d & s & He & Hd).
  unfold parse_nat. rewrite He, <-He. rewrite parse_itoa_loop by lia. done.
Qed.

Lemma chr_digit_ne d c : 0 <= d < 10 → is_digit c = false → chr (48 + d) ≠ c.
Proof. intros Hd Hc <-. by rewrite is_digit_chr in Hc. Qed.

Lemma parse_int64_digit d s :
  0 <= d < 10 →
  parse_int64 (String (chr (48 + d)) s) =
  match parse_nat (String (chr (48 + d)) s) with
  | Some z => if in_int64 z then Some z else None
  | None => None
  end.
Proof.
  intros Hd.
  assert (chr (48 + d) ≠ "-"%char) as H1 by (by apply chr_digit_ne).
  assert (chr (48 + d) ≠ "+"%char) as H2 by (by apply chr_digit_ne).
  unfold parse_int64. destruct (chr (48 + d)) as [[] [] [] [] [] [] [] []]; done.
Qed.

(** Integers survive the trip through a JSON number. *)
Lemma f2i_inject n : in_int64 n = true → f2i (inject_Z n) = n.
Proof. intros Hn. unfold f2i. assert (qtrunc (inject_Z n) = n) as -> by apply Z.quot_1_r. by rewrite Hn. Qed.

Lemma mget_mset_eq {V} (m : list (string * V)) k v : mget (mset m k v) k = Some v.
Proof.
  induction m as [|[k' v'] m IH]; simpl; [by rewrite String.eqb_refl|].
  destruct (String.eqb k' k) eqn:E; simpl; [by rewrite String.eqb_refl|by rewrite E].
Qed.

Lemma mget_mset_ne {V} (m : list (string * V)) k k' v :
  k ≠ k' → mget (mset m k v) k' = mget m k'.
Proof.
  intros Hne. induction m as [|[k0 v0] m IH]; simpl.
  - by destruct (String.eqb_spec k k').
  - destruct (String.eqb_spec k0 k) as [->|]; simpl.
    + by destruct (String.eqb_spec k k').
    + destruct (String.eqb k0 k'); [done|apply IH].
Qed.


(** Induction over nested values. *)
Lemma any_nested_ind (P : any → Prop) :
  P ANil → (∀ b, P (ABool b)) → (∀ f, P (AFloat f)) → (∀ n, P (AInt64 n)) →
  (∀ n, P (AInt n)) → (∀ s, P (ANumber s)) → (∀ s, P (AStr s)) →
  (∀ l, Forall P l → P (AList l)) →
  (∀ m, Forall (λ kv, P (snd kv)) m → P (AMap m)) →
  P AOpaque → ∀ v, P v.
Proof.
  intros Hn Hb Hf Hi64 Hi Hnum Hs Hl Hm Ho. fix IH 1. intros v. destruct v.
  - exact Hn.
  - apply Hb.
  - apply Hf.
  - apply Hi64.
  - apply Hi.
  - apply Hnum.
  - apply Hs.
  - apply Hl. induction l; constructor; [apply IH|done].
  - apply Hm. induction m as [|[k v] m IHm]; constructor; [apply IH|done].
  - exact Ho.
Qed.

Lemma decoded_jnorm v : decoded v = true → jnorm v = v.
Proof.
  induction v as [| | | | | | |l IH|m IH|] using any_nested_ind; simpl; try done.
  - intros H. f_equal. induction IH as [|x l Hx Hl IHl]; simpl in *; [done|].
    apply andb_true_iff in H as [H1 H2]. f_equal; auto.
  - intros H. f_equal. induction IH as [|[k x] m Hx Hl IHl]; simpl in *; [done|].
    apply andb_true_iff in H as [H1 H2]. rewrite Hx by done. f_equal; auto.
Qed.

Lemma decoded_json_ok v : decoded v = true → json_ok v = true.
Proof.
  induction v as [| | | | | | |l IH|m IH|] using any_nested_ind; simpl; try done.
  - intros H. induction IH as [|x l Hx Hl IHl]; simpl in *; [done|].
    apply andb_true_iff in H as [H1 H2]. by rewrite Hx, IHl.
  - intros H. induction IH as [|[k x] m Hx Hl IHl]; simpl in *; [done|].
    apply andb_true_iff in H as [H1 H2]. by rewrite Hx, IHl.
Qed.

Lemma json_roundtrip m :
  decoded (AMap m) = true → json_marshal m = Some (JText (AMap m)).
Proof.
  intros H. unfold json_marshal. rewrite decoded_json_ok by done.
  by rewrite decoded_jnorm.
Qed.

Lemma json_ok_mset u k v : json_ok (AMap u) = true → json_ok v = true → json_ok (AMap (mset u k v)) = true.
Proof.
  simpl. intros Hu Hv. induction u as [|[k' v'] u IH]; simpl in *; [by rewrite Hv|].
  apply andb_true_iff in Hu as [H1 H2]. destruct (k' =? k)%string; simpl; [by rewrite Hv|]. by rewrite H1, IH.
Qed.

#[export] Hint Resolve mget_mset_eq json_roundtrip : gw.

Lemma parse_digits_all s acc v : parse_digits s acc = Some v → all_digits s = true.
Proof.
  revert acc. induction s as [|c s IH]; intros acc; simpl; [done|].
  destruct (is_digit c); [|done]. apply IH.
Qed.

Lemma parse_digits_ge s acc v : 0 <= acc → parse_digits s acc = Some v → acc <= v.
Proof.
  revert acc. induction s as [|c s IH]; intros acc Hacc; simpl; [intros [= ->]; lia|].
  destruct (is_digit c) eqn:E; [|done]. intros H. apply IH in H; unfold is_digit in E; lia.
Qed.

Lemma atoi_parse s acc v :
  0 <= acc → parse_digits s acc = Some v → v <= int64_max → atoi_from s acc = v.
Proof.
  revert acc. induction s as [|c s IH]; intros acc Hacc; simpl; [by intros [= ->]|].
  destruct (is_digit c) eqn:E; [|done]. intros H Hv.
  assert (0 <= acc * 10 + (code c - 48)) as H0 by (unfold is_digit in E; lia).
  pose proof (parse_digits_ge _ _ _ H0 H). rewrite wrap64_id; [by apply IH|].
  unfold in_int64, int64_min. lia.
Qed.

(** What [itoa] prints of a natural number. *)
Lemma itoa_nat n :
  0 <= n <= int64_max →
  all_digits (itoa n) = true ∧ itoa n ≠ "" ∧ atoi (itoa n) = n ∧ parse_nat (itoa n) = Some n.
Proof.
  intros Hn. unfold itoa. destruct (Z.eqb_spec n 0) as [->|Hne]; [done|].
  destruct (Z.ltb_spec n 0); [lia|].
  assert (0 < n <= 2 ^ 63) as Hb by (unfold int64_max in Hn; lia).
  pose proof (parse_nat_itoa_loop n Hb) as Hp.
  destruct (itoa_loop 24 n "") as [|c s] eqn:E; [done|]. simpl in Hp.
  split_ands; [by eapply (parse_digits_all _ 0)|done| |done].
  apply (atoi_parse _ 0); [lia|done|lia].
Qed.

(** Chat ids survive their decimal text: parsing what [itoa] prints gives
    the number back for every int64 but the least one, whose negation wraps to
    itself so that only the sign is printed. *)
Theorem itoa_roundtrip n :
  int64_min < n <= int64_max →
  parse_int64 (itoa n) = Some n ∧ itoa int64_min = "-".
Proof.
  intros Hn. split; [|vm_compute; reflexivity].
  assert (in_int64 n = true) as Hr by (unfold in_int64; lia).
  unfold itoa. destruct (Z.eqb_spec n 0) as [->|Hne]; [done|]. destruct (Z.ltb_spec n 0) as [Hneg|Hpos].
  - rewrite wrap64_id by (unfold in_int64, int64_min, int64_max in *; lia).
    unfold parse_int64. rewrite parse_nat_itoa_loop by (unfold int64_min in Hn; lia).
    simpl. rewrite Z.opp_involutive. by rewrite Hr.
  - assert (0 < n < 10 ^ Z.of_nat 24) as Hb by (unfold int64_max in Hn; simpl; lia).
    destruct (itoa_loop_head 24 n Hb) as (d & s & He & Hd).
    rewrite He, parse_int64_digit by done. rewrite <-He.
    rewrite parse_nat_itoa_loop by (unfold int64_max in Hn; lia). by rewrite Hr.
Qed.

Lemma itoa_roundtrip_witness : parse_int64 (itoa (-1001234567890)) = Some (-1001234567890).
Proof. apply itoa_roundtrip. vm_compute. split; [reflexivity|discriminate]. Defined.

Lemma parse_FormatInt n : in_int64 n = true → parse_int64 (FormatInt n) = Some n.
Proof.
  intros Hr. assert (int64_min <= n <= int64_max) as Hn by (unfold in_int64 in Hr; lia).
  unfold FormatInt. destruct (Z.eqb_spec n 0) as [->|Hne]; [done|]. destruct (Z.ltb_spec n 0) as [Hneg|Hpos].
  - unfold parse_int64. rewrite parse_nat_itoa_loop by (unfold int64_min in Hn; lia).
    simpl. rewrite Z.opp_involutive. by rewrite Hr.
  - assert (0 < n < 10 ^ Z.of_nat 24) as Hb by (unfold int64_max in Hn; simpl; lia).
    destruct (itoa_loop_head 24 n Hb) as (d & s & He & Hd).
    rewrite He, parse_int64_digit by done. rewrite <-He.
    rewrite parse_nat_itoa_loop by (unfold int64_max in Hn; lia). by rewrite Hr.
Qed.
