(* ===== verification/Sql.v ===== *)
(** * The SQL statements the stores issue

    A table is the list of its rows in rowid order.  The statements of
    internal/store are compositions of the operators below; a table with a
    PRIMARY KEY is one whose keys are pairwise distinct ([keyed]).  A call
    that issues several statements takes a [faults] oracle that says which of
    them fail, so every error branch of the Go code is reachable. *)
From stdpp Require Import base list strings gmap.
From S2P Require Import Prelude.
Open Scope Z_scope.

(** [f k = true]: the [k]-th statement of the call returns an error. *)
Abbreviation faults := (nat → bool).

Definition no_faults : faults := λ _, false.

Section tables.
Context {R : Type}.
Implicit Types (p : R → bool) (t : list R).

(** [DELETE FROM t WHERE p]. *)
Definition delete_where p t : list R := bfilter (λ r, negb (p r)) t.

(** [UPDATE t SET ... WHERE p]. *)
Definition update_where p (f : R → R) t : list R := map (λ r, if p r then f r else r) t.

(** [RowsAffected] of the statements above; also [SELECT COUNT( * )]. *)
Definition count_where p t : Z := Z.of_nat (length (bfilter p t)).

(** [QueryRow(... WHERE p).Scan]: the first matching row. *)
Definition select_one p t : option R := List.find p t.

(** [LIMIT n]: a negative bound means no bound in SQLite. *)
Definition limit (n : Z) t : list R := if n <? 0 then t else take (Z.to_nat n) t.

Context {K : Type} `{EqDecision K} (pk : R → K).

Definition has_key (k : K) (r : R) : bool := bool_decide (pk r = k).

(** [INSERT ... ON CONFLICT DO NOTHING] / [INSERT OR IGNORE]. *)
Definition insert_or_ignore (r : R) t : list R :=
  if existsb (has_key (pk r)) t then t else t ++ [r].

(** [INSERT ... ON CONFLICT(pk) DO UPDATE SET f]. *)
Definition upsert (r : R) (f : R → R) t : list R :=
  if existsb (has_key (pk r)) t then update_where (has_key (pk r)) f t else t ++ [r].

Definition keyed t : Prop := NoDup (pk <$> t).

Lemma has_key_spec k r : has_key k r = true ↔ pk r = k.
Proof. apply bool_decide_eq_true. Qed.

Lemma elem_of_delete p t r : r ∈ delete_where p t ↔ r ∈ t ∧ p r = false.
Proof. unfold delete_where. rewrite elem_of_bfilter, negb_true_iff. done. Qed.

Lemma delete_keyed p t : keyed t → keyed (delete_where p t).
Proof. apply NoDup_fmap_bfilter. Qed.

Lemma update_keyed p f t : (∀ r, pk (f r) = pk r) → keyed t → keyed (update_where p f t).
Proof.
  intros Hf. unfold keyed. replace (pk <$> update_where p f t) with (pk <$> t); [done|].
  induction t as [|r t IH]; csimpl; [done|]. rewrite IH. f_equal. by destruct (p r).
Qed.

Lemma existsb_key k t : existsb (has_key k) t = true ↔ k ∈ pk <$> t.
Proof.
  rewrite existsb_exists, list_elem_of_fmap. split.
  - intros (r & H1 & H2%has_key_spec). exists r. by rewrite list_elem_of_In.
  - intros (r & -> & H). exists r. rewrite <-list_elem_of_In. split; [done|]. by apply has_key_spec.
Qed.

Lemma existsb_key_false k t : existsb (has_key k) t = false ↔ k ∉ pk <$> t.
Proof. rewrite <-existsb_key. by destruct (existsb _ _). Qed.

Lemma insert_keyed r t : keyed t → keyed (insert_or_ignore r t).
Proof.
  intros H. unfold insert_or_ignore. destruct (existsb _ _) eqn:E; [done|].
  apply existsb_key_false in E. unfold keyed. rewrite fmap_app, NoDup_app.
  split_ands; [done| |by apply NoDup_singleton].
  intros k Hk Hk'. apply list_elem_of_singleton in Hk' as ->. done.
Qed.

Lemma upsert_keyed r f t : (∀ r, pk (f r) = pk r) → keyed t → keyed (upsert r f t).
Proof.
  intros Hf H. unfold upsert. destruct (existsb _ _) eqn:E; [by apply update_keyed|].
  pose proof (insert_keyed r t H) as Hi. unfold insert_or_ignore in Hi. by rewrite E in Hi.
Qed.

(** Row lookup by primary key. *)
Definition row_of (k : K) t : option R := select_one (has_key k) t.

Lemma row_of_Some k t r : row_of k t = Some r → r ∈ t ∧ pk r = k.
Proof.
  unfold row_of, select_one. intros H%List.find_some. rewrite list_elem_of_In.
  by rewrite has_key_spec in H.
Qed.

Lemma row_of_None k t : row_of k t = None ↔ k ∉ pk <$> t.
Proof.
  rewrite <-existsb_key_false. unfold row_of, select_one.
  induction t as [|r t IH]; simpl; [done|]. by destruct (has_key k r).
Qed.

Lemma row_of_elem t r : keyed t → r ∈ t → row_of (pk r) t = Some r.
Proof.
  unfold keyed, row_of, select_one. induction t as [|x t IH]; csimpl; [by intros _ ?%elem_of_nil|].
  rewrite NoDup_cons. intros [H1 H2] [->|Hr]%elem_of_cons; [by rewrite (proj2 (has_key_spec (pk x) x) eq_refl)|].
  destruct (has_key (pk r) x) eqn:E; [|by apply IH]. apply has_key_spec in E. destruct H1. rewrite E. by apply list_elem_of_fmap_2.
Qed.

Lemma row_of_app k t r : row_of k (t ++ [r]) =
  match row_of k t with Some r' => Some r' | None => if has_key k r then Some r else None end.
Proof. unfold row_of, select_one. induction t as [|x t IH]; simpl; [done|]. by destruct (has_key k x). Qed.

Lemma row_of_delete k p t :
  keyed t →
  row_of k (delete_where p t) =
  match row_of k t with Some r => if p r then None else Some r | None => None end.
Proof.
  unfold row_of, select_one, keyed, delete_where. induction t as [|r t IH]; csimpl; [done|].
  rewrite NoDup_cons. intros [H1 H2].
  destruct (p r) eqn:Ep; simpl; destruct (has_key k r) eqn:Ek; simpl.
  - rewrite IH by done. apply has_key_spec in Ek as <-.
    destruct (List.find _ t) eqn:Ef; [|by rewrite Ep].
    exfalso. apply H1. apply List.find_some in Ef as [Hin Hk].
    apply has_key_spec in Hk. rewrite <-Hk. apply list_elem_of_fmap. exists r0.
    by rewrite list_elem_of_In.
  - by apply IH.
  - by rewrite Ep.
  - by apply IH.
Qed.

Lemma row_of_update k p f t :
  (∀ r, pk (f r) = pk r) →
  row_of k (update_where p f t) = (λ r, if p r then f r else r) <$> row_of k t.
Proof.
  intros Hf. unfold row_of, select_one, update_where. induction t as [|r t IH]; simpl; [done|].
  assert (has_key k (if p r then f r else r) = has_key k r) as ->.
  { unfold has_key. destruct (p r); [by rewrite Hf|done]. }
  by destruct (has_key k r).
Qed.

Lemma row_of_insert k r t :
  row_of k (insert_or_ignore r t) =
  match row_of k t with
  | Some r' => Some r'
  | None => if has_key k r then Some r else None
  end.
Proof.
  unfold insert_or_ignore. destruct (existsb _ _) eqn:E; [|apply row_of_app].
  destruct (row_of k t) eqn:Er; [done|]. destruct (has_key k r) eqn:Ek; [|done].
  apply has_key_spec in Ek as <-. apply row_of_None in Er.
  by apply existsb_key in E.
Qed.

Lemma row_of_upsert k r f t :
  (∀ r, pk (f r) = pk r) →
  row_of k (upsert r f t) =
  if has_key k r
  then Some (match row_of k t with Some r' => f r' | None => r end)
  else row_of k t.
Proof.
  intros Hf. unfold upsert. destruct (existsb _ _) eqn:E.
  - rewrite row_of_update by done. destruct (has_key k r) eqn:Ek.
    + apply has_key_spec in Ek as <-. destruct (row_of (pk r) t) eqn:Er; simpl.
      * apply row_of_Some in Er as [_ Er]. unfold has_key. by rewrite bool_decide_true.
      * apply row_of_None in Er. by apply existsb_key in E.
    + destruct (row_of k t) eqn:Er; simpl; [|done]. apply row_of_Some in Er as [_ <-].
      unfold has_key in *. apply bool_decide_eq_false in Ek. rewrite bool_decide_false; congruence.
  - rewrite row_of_app. destruct (row_of k t) eqn:Er; [|done].
    destruct (has_key k r) eqn:Ek; [|done].
    apply has_key_spec in Ek as <-. apply existsb_key_false, row_of_None in E. congruence.
Qed.

Lemma count_key_zero k t : keyed t → row_of k t = None → bfilter (has_key k) t = [].
Proof.
  intros _ H. apply row_of_None in H. apply bfilter_none. intros r Hr.
  unfold has_key. apply bool_decide_eq_false. intros <-. apply H.
  by apply list_elem_of_fmap_2.
Qed.

(** At most one row of a keyed table matches a test that fixes the key. *)
Lemma count_key_one k p t :
  keyed t →
  count_where (λ r, has_key k r && p r) t =
  match row_of k t with Some r => if p r then 1 else 0 | None => 0 end.
Proof.
  unfold count_where, row_of, select_one, keyed. induction t as [|r t IH]; csimpl; [done|].
  rewrite NoDup_cons. intros [H1 H2]. destruct (has_key k r) eqn:Ek; simpl.
  - assert (bfilter (λ r, has_key k r && p r) t = []) as Hnil.
    { apply bfilter_none. intros x Hx. apply has_key_spec in Ek as <-.
      destruct (has_key (pk r) x) eqn:Ex; [|done]. apply has_key_spec in Ex.
      destruct H1. rewrite <-Ex. by apply list_elem_of_fmap_2. }
    destruct (p r); simpl; by rewrite Hnil.
  - by apply IH.
Qed.
End tables.

#[export] Hint Resolve delete_keyed insert_keyed : gw.
