(* ===== verification/Health.v ===== *)
(** * Process and storage health (internal/health/health.go)

    The visible storage state that degrades /readyz, the crash-loop boot
    tracker that arms safe mode, and the heartbeat behind /healthz. *)
From Stdlib Require Import QArith Lqa Ascii String.
From stdpp Require Import base list strings gmap sorting.
From S2P Require Import Prelude GoValue.
Open Scope Z_scope.

(** ** Storage health *)
Module Storage.

Record t := {
  PersistFailures : Z;
  CorruptRows : Z;
  QuarantinedFiles : Z;
  reasons : gset string;
  LastPersistError : string;
  LastMaintenanceAt : Q
}.

Definition NewStorage : t :=
  {| PersistFailures := 0; CorruptRows := 0; QuarantinedFiles := 0;
     reasons := ∅; LastPersistError := ""; LastMaintenanceAt := 0 |}.

Definition NotePersistFailure (where_ err : string) (s : t) : t :=
  {| PersistFailures := PersistFailures s + 1;
     CorruptRows := CorruptRows s;
     QuarantinedFiles := QuarantinedFiles s;
     reasons := {[ "persist:" +:+ where_ ]} ∪ reasons s;
     LastPersistError := where_ +:+ ": " +:+ err;
     LastMaintenanceAt := LastMaintenanceAt s |}.

Definition NoteCorruptRow (s : t) : t :=
  {| PersistFailures := PersistFailures s;
     CorruptRows := CorruptRows s + 1;
     QuarantinedFiles := QuarantinedFiles s;
     reasons := reasons s;
     LastPersistError := LastPersistError s;
     LastMaintenanceAt := LastMaintenanceAt s |}.

(** Everything after the last slash. *)
Fixpoint filepathBase_from (p : string) (best : string) : string :=
  match p with
  | EmptyString => best
  | String c p' => filepathBase_from p' (if Ascii.eqb c "/"%char then p' else best)
  end.

Definition filepathBase (p : string) : string := filepathBase_from p p.

Definition NoteQuarantine (path : string) (s : t) : t :=
  {| PersistFailures := PersistFailures s;
     CorruptRows := CorruptRows s;
     QuarantinedFiles := QuarantinedFiles s + 1;
     reasons := {[ "quarantined:" +:+ filepathBase path ]} ∪ reasons s;
     LastPersistError := LastPersistError s;
     LastMaintenanceAt := LastMaintenanceAt s |}.

Definition NoteMaintenanceDone (at_ns : Z) (s : t) : t :=
  {| PersistFailures := PersistFailures s;
     CorruptRows := CorruptRows s;
     QuarantinedFiles := QuarantinedFiles s;
     reasons := reasons s;
     LastPersistError := LastPersistError s;
     LastMaintenanceAt := secs at_ns |}.

(** The inner loop of [sortStrings]: [x] sifts left past every larger left
    neighbour; [rp] is the sorted prefix, last element first. *)
Fixpoint sift (x : string) (rp : list string) : list string :=
  match rp with
  | [] => [x]
  | y :: rp' => if String.ltb x y then y :: sift x rp' else x :: rp
  end.

Definition sortStrings (s : list string) : list string :=
  rev (fold_left (λ rp x, sift x rp) s []).

Fixpoint join_rest (keys : list string) : string :=
  match keys with
  | [] => ""
  | k :: keys' => ", " +:+ k +:+ join_rest keys'
  end.

Definition joinSorted (m : gset string) : string :=
  match sortStrings (elements m) with
  | [] => ""
  | k :: keys => k +:+ join_rest keys
  end.

Definition Degraded (s : t) : string := joinSorted (reasons s).

Definition nilIfEmpty (s : string) : any := if String.eqb s "" then ANil else AStr s.

(** The /readyz body. *)
Definition Snapshot (s : t) : obj :=
  let last := LastPersistError s in
  [("degraded_reason", nilIfEmpty (joinSorted (reasons s)));
   ("persist_failures", AInt (PersistFailures s));
   ("corrupt_rows", AInt (CorruptRows s));
   ("quarantined_files", AInt (QuarantinedFiles s));
   ("last_persist_error", AStr (stake 200 last))].

(** The operations that touch the state, as a step relation. *)
Inductive step : t → t → Prop :=
| step_persist w e s : step s (NotePersistFailure w e s)
| step_corrupt s : step s (NoteCorruptRow s)
| step_quarantine p s : step s (NoteQuarantine p s)
| step_maint n s : step s (NoteMaintenanceDone n s).

Lemma append_eq_empty (a b : string) : (a +:+ b)%string = "" ↔ a = "" ∧ b = "".
Proof. destruct a; simpl; naive_solver. Qed.

Lemma sift_Permutation x rp : sift x rp ≡ₚ x :: rp.
Proof.
  induction rp as [|y rp IH]; simpl; [done|].
  destruct (String.ltb x y); [|done]. rewrite IH. constructor.
Qed.

Lemma sortStrings_Permutation l : sortStrings l ≡ₚ l.
Proof.
  unfold sortStrings. rewrite <-Permutation_rev.
  assert (∀ rp, fold_left (λ rp x, sift x rp) l rp ≡ₚ rp ++ l) as H.
  { induction l as [|x l IH]; intros rp; simpl; [by rewrite app_nil_r|].
    rewrite IH, sift_Permutation. by rewrite <-Permutation_middle. }
  by rewrite H.
Qed.

Definition string_le (x y : string) : Prop := String.ltb y x = false.

Lemma ltb_trans_false x y z : string_le x y → string_le y z → string_le x z.
Proof.
  unfold string_le, String.ltb. revert y z.
  induction x as [|a x IH]; intros [|b y] [|c z]; simpl; try done.
  destruct (Ascii.compare b a) eqn:E1; try done;
    destruct (Ascii.compare c b) eqn:E2; try done.
  - apply Ascii.compare_eq_iff in E1 as ->. apply Ascii.compare_eq_iff in E2 as ->.
    assert (Ascii.compare a a = Eq) as -> by apply N.compare_refl. apply IH.
  - apply Ascii.compare_eq_iff in E1 as ->. by rewrite E2.
  - apply Ascii.compare_eq_iff in E2 as ->. by rewrite E1.
  - assert (Ascii.compare c a = Gt) as ->; [|done].
    unfold Ascii.compare in *. rewrite N.compare_gt_iff in *. lia.
Qed.

Lemma ltb_total x y : String.ltb x y = true → string_le x y.
Proof.
  unfold string_le, String.ltb. rewrite (String.compare_antisym x y).
  by destruct (String.compare y x).
Qed.

Lemma sift_sorted x rp :
  StronglySorted (λ a b, string_le b a) rp → StronglySorted (λ a b, string_le b a) (sift x rp).
Proof.
  induction 1 as [|y rp Hs IH Hy]; simpl; [repeat constructor|].
  destruct (String.ltb x y) eqn:E.
  - constructor; [done|]. apply Forall_forall. intros z.
    rewrite (sift_Permutation x rp), elem_of_cons. rewrite Forall_forall in Hy.
    intros [->|Hz]; [by apply ltb_total|by apply Hy].
  - constructor; [by constructor|]. constructor; [done|].
    eapply Forall_impl; [exact Hy|]. intros z Hz. exact (ltb_trans_false z y x Hz E).
Qed.

Lemma sortStrings_sorted l : StronglySorted string_le (sortStrings l).
Proof.
  unfold sortStrings.
  assert (∀ rp, StronglySorted (λ a b, string_le b a) rp →
     StronglySorted (λ a b, string_le b a) (fold_left (λ rp x, sift x rp) l rp)) as H.
  { induction l as [|x l IH]; intros rp Hrp; simpl; [done|]. apply IH. by apply sift_sorted. }
  specialize (H [] ltac:(constructor)).
  induction H as [|x k Hs IH Hx]; simpl; [constructor|].
  apply StronglySorted_app; split_ands; [|done|repeat constructor].
  intros y z Hy Hz. apply list_elem_of_singleton in Hz as ->.
  rewrite Forall_forall in Hx. apply Hx. by rewrite Permutation_rev.
Qed.

(** A reason, once recorded, is never removed by any operation. *)
Lemma step_reasons s s' : step s s' → reasons s ⊆ reasons s'.
Proof. destruct 1; simpl; set_solver. Qed.

(** Every recorded reason is a non-empty string. *)
Definition named (s : t) : Prop := "" ∉ reasons s.

Lemma step_named s s' : step s s' → named s → named s'.
Proof. unfold named. destruct 1; simpl; set_solver. Qed.

Lemma Degraded_empty s : named s → Degraded s = "" ↔ reasons s = ∅.
Proof.
  intros Hn. unfold Degraded, joinSorted. split.
  - intros H. destruct (sortStrings (elements (reasons s))) as [|k keys] eqn:E.
    + apply leibniz_equiv, elements_empty_iff, Permutation_nil.
      rewrite <-E. apply sortStrings_Permutation.
    + apply append_eq_empty in H as [-> _]. destruct Hn.
      apply elem_of_elements. rewrite <-sortStrings_Permutation, E. left.
  - intros ->. by rewrite elements_empty.
Qed.

(** The degraded verdict is sticky: after a persistence failure or a
    quarantine, no sequence of later operations makes the storage look
    healthy again; /readyz stays degraded until the process restarts. *)
Inductive steps : t → t → Prop :=
| steps_refl s : steps s s
| steps_cons s s' s'' : step s s' → steps s' s'' → steps s s''.

Lemma steps_reasons s s' : steps s s' → reasons s ⊆ reasons s'.
Proof. induction 1 as [|s s' s'' H _ IH]; [done|]. apply step_reasons in H. set_solver. Qed.

Lemma steps_named s s' : steps s s' → named s → named s'.
Proof. induction 1; eauto using step_named. Qed.

(** Storage trouble is never hidden: once a persistence failure or a
    quarantined file is recorded, no sequence of later operations empties the
    degraded reason that turns /readyz into a 503; and a storage nothing was
    noted against reports the empty reason. *)
Theorem degraded_is_sticky s w e p s' :
  named s →
  steps (NotePersistFailure w e s) s' ∨ steps (NoteQuarantine p s) s' →
  Degraded s' ≠ "" ∧ Degraded NewStorage = "".
Proof.
  intros Hn H. split; [|by vm_compute].
  assert (named s' ∧ reasons s' ≠ ∅) as [Hn' Hr].
  { destruct H as [H|H]; (split; [eapply steps_named; [done|]|apply steps_reasons in H]);
      unfold named in *; simpl in *; set_solver. }
  by rewrite Degraded_empty.
Qed.

Lemma degraded_is_sticky_witness :
  Degraded (NoteCorruptRow (NotePersistFailure "queue.push:b1" "disk full" NewStorage)) ≠ "".
Proof.
  apply (degraded_is_sticky NewStorage "queue.push:b1" "disk full" "").
  - unfold named. simpl. set_solver.
  - left. eapply steps_cons; [apply step_corrupt|apply steps_refl].
Defined.

End Storage.

(** ** Crash-loop safe mode *)
Module BootTracker.

Record t := { Path : string; WindowS : Q; MaxBoots : Z }.

(** The zero-value defaults [RecordBoot] fills in. *)
Definition with_defaults (b : t) : t :=
  {| Path := Path b;
     WindowS := if Qeq_bool (WindowS b) 0 then 600 else WindowS b;
     MaxBoots := if MaxBoots b =? 0 then 5 else MaxBoots b |}.

(** The history file: [None] when missing or unreadable as JSON. *)
Abbreviation history := (option (list Q)).

(** [now.Sub(time.Unix(int64(b), 0)).Seconds()]. *)
Definition age (now : Z) (b : Q) : Q := secs (now - qtrunc b * 1000000000).

Definition last50 (l : list Q) : list Q := drop (length l - 50) l.

(** One boot: returns (safe mode, boots in window) and the new history;
    [wr] says whether the file write succeeds. *)
Definition RecordBoot (b : t) (now : Z) (wr : bool) (file : history) : bool * Z * history :=
  let b := with_defaults b in
  let boots := default [] file in
  let kept := bfilter (λ x, qlt (age now x) (WindowS b)) boots in
  let kept := kept ++ [secs now] in
  let kept := if Nat.ltb 50 (length kept) then last50 kept else kept in
  let n := Z.of_nat (length kept) in
  (MaxBoots b <? n, n, if wr then Some kept else file).

Definition Clear (file : history) : history := None.

(** A sequence of boots at the given clock readings, all writes succeeding:
    the safe-mode verdict of the last one and the resulting history. *)
Fixpoint boot_run (b : t) (times : list Z) (verdict : bool) (file : history) : bool * history :=
  match times with
  | [] => (verdict, file)
  | now :: times' =>
      let '(safe, _, file') := RecordBoot b now true file in
      boot_run b times' safe file'
  end.

Lemma qtrunc_secs t : 0 <= t → qtrunc (secs t) = t / 1000000000.
Proof. intros. unfold qtrunc, secs; simpl. rewrite Z.quot_div_nonneg; lia. Qed.

(** [t] is still inside the window at [now]. *)
Definition fresh (b : t) (now t : Z) : Prop :=
  (secs (now - t / 1000000000 * 1000000000) < WindowS (with_defaults b))%Q.

Lemma RecordBoot_fresh b now ts :
  Forall (λ t, 0 <= t ∧ fresh b now t) ts →
  RecordBoot b now true (Some (secs <$> ts)) =
  let k := drop (length ts + 1 - 50) (ts ++ [now]) in
  (MaxBoots (with_defaults b) <? Z.of_nat (length k), Z.of_nat (length k), Some (secs <$> k)).
Proof.
  intros Hts. unfold RecordBoot. simpl default.
  rewrite bfilter_all.
  2:{ intros x Hx. apply list_elem_of_fmap in Hx as (t & -> & Ht).
      rewrite Forall_forall in Hts. destruct (Hts t Ht) as [H0 Hf].
      apply qlt_true. unfold age. rewrite qtrunc_secs by done. exact Hf. }
  replace ((secs <$> ts) ++ [secs now]) with (secs <$> (ts ++ [now])) by (by rewrite fmap_app).
  rewrite length_fmap, length_app. simpl length.
  destruct (Nat.ltb_spec 50 (length ts + 1)).
  - unfold last50. rewrite length_fmap, length_app. simpl length.
    rewrite <-fmap_drop, length_fmap. done.
  - replace (length ts + 1 - 50)%nat with 0%nat by lia. rewrite drop_0.
    by rewrite length_fmap.
Qed.

Lemma boot_run_fresh b times ts v last :
  (length ts <= 50)%nat →
  Forall (λ t, 0 <= t ∧ t <= last ∧ fresh b last t) (ts ++ times) →
  times ≠ [] →
  fst (boot_run b times v (Some (secs <$> ts))) =
  (MaxBoots (with_defaults b) <? Z.of_nat (length (ts ++ times) `min` 50)).
Proof.
  revert ts v. induction times as [|now times IH]; intros ts v Hlen Hall Hne; [done|].
  cbn [boot_run]. rewrite RecordBoot_fresh.
  2:{ apply Forall_app in Hall as [Hts Hn]. inversion_clear Hn as [|? ? (Hn0 & Hn1 & _) _].
      eapply Forall_impl; [done|]. simpl. intros t (H0 & H1 & Hf). split; [done|].
      unfold fresh in *. eapply Qle_lt_trans; [|done]. apply secs_mono. lia. }
  cbn zeta. set (k := drop _ _).
  assert (length k = (length ts + 1) `min` 50)%nat as Hk.
  { unfold k. rewrite length_drop, length_app. simpl. lia. }
  assert (Forall (λ t, 0 <= t ∧ t <= last ∧ fresh b last t) (k ++ times)) as Hk'.
  { rewrite (cons_middle now) in Hall. rewrite (assoc_L (++)) in Hall.
    apply Forall_app in Hall as [H1 H2]. apply Forall_app. split; [|done]. by apply Forall_drop. }
  destruct times as [|t2 times].
  - simpl. rewrite Hk, length_app. done.
  - rewrite IH; [|lia|done|done]. rewrite !length_app, Hk. simpl. f_equal. lia.
Qed.

Lemma boot_run_sparse b times last v :
  (0 < WindowS (with_defaults b))%Q → (1 <= MaxBoots (with_defaults b)) →
  Forall (λ t, 0 <= t) (last :: times) →
  StronglySorted (λ t t', WindowS (with_defaults b) <= secs (t' - t))%Q (last :: times) →
  v = false →
  fst (boot_run b times v (Some [secs last])) = false.
Proof.
  intros HW HM. revert last v. induction times as [|now times IH]; intros last v Hpos Hs Hv; [done|].
  cbn [boot_run]. inversion_clear Hpos as [|? ? Hl Hpos'].
  inversion_clear Hs as [|? ? Hs' Hf]. inversion_clear Hf as [|? ? Hgap _].
  unfold RecordBoot. simpl default. simpl bfilter. unfold age. rewrite qtrunc_secs by done.
  rewrite qlt_false.
  2:{ eapply Qle_trans; [exact Hgap|]. apply secs_mono. pose proof (Z.mul_div_le last 1000000000). lia. }
  apply IH; [done|done|]. apply Z.ltb_ge. exact HM.
Qed.

(** A crash loop arms safe mode exactly when it should: for boots whose
    clock readings all still lie in the window of the last one (starting from
    no history), the last boot reports safe mode iff more than [MaxBoots]
    boots happened (the history itself is capped at 50 entries). *)
Theorem crash_loop_arms_safe_mode b times last :
  Forall (λ t, 0 <= t ∧ t <= last ∧ fresh b last t) times → times ≠ [] →
  fst (boot_run b times false None) =
  (MaxBoots (with_defaults b) <? Z.of_nat (length times `min` 50)).
Proof.
  intros Hall Hne. destruct times as [|t0 times]; [done|].
  exact (boot_run_fresh b (t0 :: times) [] false last ltac:(simpl; lia) Hall Hne).
Qed.

Lemma crash_loop_arms_safe_mode_witness :
  fst (boot_run {| Path := ""; WindowS := 0; MaxBoots := 0 |}
    (map (λ k, 1700000000000000000 + k * 7000000000) [0; 1; 2; 3; 4; 5]) false None) = true.
Proof.
  rewrite (crash_loop_arms_safe_mode _ _ (1700000000000000000 + 5 * 7000000000)).
  - reflexivity.
  - repeat constructor; vm_compute; congruence.
  - discriminate.
Defined.

(** Boots spaced at least a window apart never arm safe mode, however
    many there are. *)
Theorem sparse_boots_stay_out_of_safe_mode b t0 times :
  (0 < WindowS (with_defaults b))%Q → 1 <= MaxBoots (with_defaults b) →
  Forall (λ t, 0 <= t) (t0 :: times) →
  StronglySorted (λ t t', WindowS (with_defaults b) <= secs (t' - t))%Q (t0 :: times) →
  fst (boot_run b (t0 :: times) false None) = false.
Proof.
  intros HW HM Hpos Hs. cbn [boot_run]. unfold RecordBoot. simpl default. simpl bfilter.
  cbn iota. apply boot_run_sparse; [done|done|done|done|]. apply Z.ltb_ge. exact HM.
Qed.

Lemma sparse_boots_stay_out_of_safe_mode_witness :
  fst (boot_run {| Path := ""; WindowS := 0; MaxBoots := 0 |}
    [1700000000000000000; 1700000600000000000; 1700001200000000000] false None) = false.
Proof.
  apply sparse_boots_stay_out_of_safe_mode; repeat constructor; vm_compute; congruence.
Defined.

End BootTracker.

(** ** Heartbeat *)
Module Beat.

(** [last] is the reading stored by the last tick. *)
Definition Lag (last now : Z) : Q := secs (now - last).

Definition Alive (last now : Z) : bool := qlt (Lag last now) 5.

End Beat.
