(* ===== verification/Queue.v ===== *)
(** * The durable update queue (internal/store/queue.go)

    The bounded in-memory deque with its SQLite mirror: [OpenQueue] /
    [loadFromDB], [PushAll], [Pull], [Ack], TTL pruning and the admin view.
    The state is the Go struct; queue.db is a separate [disk] shared by all
    aliases; the storage-health object is threaded beside it ([world]).  Each
    locked section reads the clock once.  [None] results are run-time panics. *)
From Stdlib Require Import QArith Lqa String.
From stdpp Require Import base list strings gmap sorting.
From S2P Require Import Prelude GoValue Sql Health.
Open Scope Z_scope.

Record QueuedUpdate := { UpdateID : Z; Update : obj; Enqueued : Z }.

(** The tables of queue.db. *)
Record row := { r_alias : string; r_uid : Z; r_json : json_text; r_at : Q }.

Definition row_key (r : row) : string * Z := (r_alias r, r_uid r).

Record disk := { update_queue : list row; consumer_offsets : list (string * Z) }.

Record world := { dsk : disk; hs : Storage.t }.

Record Queue := {
  maxsize : Z;
  overflow : string;
  ttlS : Q;
  q : list QueuedUpdate;
  seen : gset Z;
  consumerOffset : Z;
  newData : nat;            (** generation of the broadcast channel *)
  dropped : Z;
  expired : Z;
  db : bool;                (** [q.db != nil] *)
  botAlias : string;
  unloadedBacklog : Z;
  health : bool             (** [q.health != nil] *)
}.

Definition ids (l : list QueuedUpdate) : list Z := UpdateID <$> l.

(** Field updates. *)
Definition with_mem (s : Queue) (l : list QueuedUpdate) (sn : gset Z) : Queue :=
  {| maxsize := maxsize s; overflow := overflow s; ttlS := ttlS s; q := l; seen := sn;
     consumerOffset := consumerOffset s; newData := newData s; dropped := dropped s;
     expired := expired s; db := db s; botAlias := botAlias s;
     unloadedBacklog := unloadedBacklog s; health := health s |}.

Definition with_counts (s : Queue) (d e : Z) : Queue :=
  {| maxsize := maxsize s; overflow := overflow s; ttlS := ttlS s; q := q s; seen := seen s;
     consumerOffset := consumerOffset s; newData := newData s; dropped := d;
     expired := e; db := db s; botAlias := botAlias s;
     unloadedBacklog := unloadedBacklog s; health := health s |}.

Definition with_offset (s : Queue) (o : Z) : Queue :=
  {| maxsize := maxsize s; overflow := overflow s; ttlS := ttlS s; q := q s; seen := seen s;
     consumerOffset := o; newData := newData s; dropped := dropped s;
     expired := expired s; db := db s; botAlias := botAlias s;
     unloadedBacklog := unloadedBacklog s; health := health s |}.

Definition with_backlog (s : Queue) (n : Z) : Queue :=
  {| maxsize := maxsize s; overflow := overflow s; ttlS := ttlS s; q := q s; seen := seen s;
     consumerOffset := consumerOffset s; newData := newData s; dropped := dropped s;
     expired := expired s; db := db s; botAlias := botAlias s;
     unloadedBacklog := n; health := health s |}.

Definition with_db (s : Queue) (b : bool) : Queue :=
  {| maxsize := maxsize s; overflow := overflow s; ttlS := ttlS s; q := q s; seen := seen s;
     consumerOffset := consumerOffset s; newData := newData s; dropped := dropped s;
     expired := expired s; db := b; botAlias := botAlias s;
     unloadedBacklog := unloadedBacklog s; health := health s |}.

(** [close(q.newData); q.newData = make(...)]: every current waiter wakes. *)
Definition signalLocked (s : Queue) : Queue :=
  {| maxsize := maxsize s; overflow := overflow s; ttlS := ttlS s; q := q s; seen := seen s;
     consumerOffset := consumerOffset s; newData := S (newData s); dropped := dropped s;
     expired := expired s; db := db s; botAlias := botAlias s;
     unloadedBacklog := unloadedBacklog s; health := health s |}.

Definition set_rows (w : world) (rows : list row) : world :=
  {| dsk := {| update_queue := rows; consumer_offsets := consumer_offsets (dsk w) |}; hs := hs w |}.

Definition set_offsets (w : world) (offs : list (string * Z)) : world :=
  {| dsk := {| update_queue := update_queue (dsk w); consumer_offsets := offs |}; hs := hs w |}.

Definition notePersistFailure (s : Queue) (where_ err : string) (w : world) : world :=
  if health s
  then {| dsk := dsk w; hs := Storage.NotePersistFailure where_ err (hs w) |}
  else w.

Definition of_alias (a : string) (r : row) : bool := String.eqb (r_alias r) a.

(** ** TTL pruning *)

(** [Enqueued.After(cutoff)] fails. *)
Definition stale (s : Queue) (now : Z) (u : QueuedUpdate) : bool :=
  negb (now - duration (ttlS s) <? Enqueued u).

Definition pruneExpiredLocked (now : Z) (f : faults) (s : Queue) (w : world) : Queue * world :=
  if qle (ttlS s) 0 then (s, w) else
  let gone := take_while (stale s now) (q s) in
  let s' := with_mem s (drop_while (stale s now) (q s)) (seen s ∖ list_to_set (ids gone)) in
  let s'' := with_counts s' (dropped s) (expired s + Z.of_nat (length gone)) in
  let w' := if db s && negb (f 0%nat)
            then set_rows w (delete_where
                   (λ r, of_alias (botAlias s) r && qlt (r_at r) (secs now - ttlS s))
                   (update_queue (dsk w)))
            else w in
  (s'', w').

(** ** Poller side *)

(** The update id and document of one incoming update; a missing id is
    synthesized after the newest queued one. *)
Definition identify (s : Queue) (u : obj) : Z * obj :=
  match toInt64 (mget1 u "update_id") with
  | Some uid => (uid, u)
  | None =>
      let uid := wrap64 (match last (q s) with
                         | Some e => UpdateID e
                         | None => consumerOffset s
                         end + 1) in
      (uid, mset (cloneMap u) "update_id" (AInt64 uid))
  end.

(** Make room when the deque is full: [None] is the panic of removing the
    front of an empty list. *)
Definition evict (s : Queue) : option Queue :=
  match q s with
  | [] => None
  | old :: rest =>
      Some (with_counts (with_mem s rest (seen s ∖ {[ UpdateID old ]})) (dropped s + 1) (expired s))
  end.

Definition append_update (s : Queue) (now uid : Z) (u : obj) : Queue :=
  with_mem s (q s ++ [{| UpdateID := uid; Update := u; Enqueued := now |}]) ({[ uid ]} ∪ seen s).

Definition batch_add (batch : list (Z * json_text)) (uid : Z) (u : obj) : list (Z * json_text) :=
  match json_marshal u with Some raw => batch ++ [(uid, raw)] | None => batch end.

(** The update loop: the queue, the rows to persist, and whether the
    reject_new policy stopped it. *)
Fixpoint push_loop (now : Z) (ups : list obj) (s : Queue) (batch : list (Z * json_text))
    : option (Queue * list (Z * json_text) * bool) :=
  match ups with
  | [] => Some (s, batch, false)
  | u :: ups' =>
      let '(uid, u') := identify s u in
      if bool_decide (uid ∈ seen s) then push_loop now ups' s batch
      else if maxsize s <=? Z.of_nat (length (q s)) then
        if String.eqb (overflow s) "reject_new" then Some (s, batch, true)
        else match evict s with
             | None => None
             | Some s' => push_loop now ups' (append_update s' now uid u') (batch_add batch uid u')
             end
      else push_loop now ups' (append_update s now uid u') (batch_add batch uid u')
  end.

Definition mk_row (s : Queue) (at_ : Q) (p : Z * json_text) : row :=
  {| r_alias := botAlias s; r_uid := fst p; r_json := snd p; r_at := at_ |}.

(** The transaction body: one INSERT OR IGNORE per row, errors ignored. *)
Fixpoint insert_batch (s : Queue) (at_ : Q) (f : faults) (k : nat)
    (batch : list (Z * json_text)) (rows : list row) : list row :=
  match batch with
  | [] => rows
  | p :: batch' =>
      insert_batch s at_ f (S k) batch'
        (if f k then rows else insert_or_ignore row_key (mk_row s at_ p) rows)
  end.

(** Statement 1 is Begin, 2 Prepare, 3 Commit, 4 onwards the INSERTs;
    statement 0 belongs to pruning.  [wall] is the reading taken when the
    transaction starts. *)
Definition persist_batch (s : Queue) (batch : list (Z * json_text)) (wall : Z) (f : faults)
    (w : world) : world :=
  let fail := notePersistFailure s ("queue.push:" +:+ botAlias s) "sqlite" w in
  if db s && negb (Nat.eqb (length batch) 0) then
    if f 1%nat then fail
    else if f 2%nat then fail
    else if f 3%nat then fail
    else set_rows w (insert_batch s (secs wall) f 4 batch (update_queue (dsk w)))
  else w.

(** [true] is ErrQueueOverflow. *)
Definition PushAll (now wall : Z) (f : faults) (ups : list obj) (s : Queue) (w : world)
    : option (bool * Queue * world) :=
  let '(s, w) := pruneExpiredLocked now f s w in
  match push_loop now ups s [] with
  | None => None
  | Some (s, batch, over) =>
      let s := signalLocked s in
      if over then Some (true, s, w)
      else Some (false, s, persist_batch s batch wall f w)
  end.

(** ** Consumer side *)

(** The SQL of [Ack]: the intermediate states of queue.db, in order. *)
Definition ack_rows (a : string) (acked : Z) (d : disk) : disk :=
  {| update_queue := delete_where (λ r, of_alias a r && (r_uid r <=? acked)) (update_queue d);
     consumer_offsets := consumer_offsets d |}.

Definition ack_offset (a : string) (acked : Z) (d : disk) : disk :=
  {| update_queue := update_queue d;
     consumer_offsets := upsert fst (a, acked) (λ kv, (fst kv, acked)) (consumer_offsets d) |}.

Definition Ack (lastSeen : Z) (f : faults) (s : Queue) (w : world) : Queue * world :=
  let off := if consumerOffset s <? lastSeen then lastSeen else consumerOffset s in
  let gone := take_while (λ u, UpdateID u <=? off) (q s) in
  let s' := with_offset (with_mem s (drop_while (λ u, UpdateID u <=? off) (q s))
                                  (seen s ∖ list_to_set (ids gone))) off in
  let fail w := notePersistFailure s ("queue.ack:" +:+ botAlias s) "sqlite" w in
  let w' :=
    if db s then
      if f 0%nat then fail w
      else
        let w1 := {| dsk := ack_rows (botAlias s) off (dsk w); hs := hs w |} in
        if f 1%nat then fail w1
        else {| dsk := ack_offset (botAlias s) off (dsk w1); hs := hs w1 |}
    else w in
  (s', w').

(** One locked scan of [Pull]. *)
Definition pull_scan (limit_ : Z) (s : Queue) : list obj :=
  take (Z.to_nat limit_) (Update <$> bfilter (λ u, consumerOffset s <? UpdateID u) (q s)).

(** How one wait of [Pull] ended: the broadcast channel was closed (the
    queue then is [s]), the timer fired, or the request was cancelled. *)
Inductive wakeup := NewData (s : Queue) | TimerFired | Cancelled.

(** The long-poll loop.  [evs] holds, per iteration, the clock reading of the
    deadline check and how the wait that follows ends.  [None]: still
    blocked when the events run out. *)
Fixpoint pull_loop (deadline limit_ : Z) (s : Queue) (evs : list (Z * wakeup)) : option (list obj) :=
  match pull_scan limit_ s with
  | (_ :: _) as out => Some out
  | [] =>
      match evs with
      | [] => None
      | (now, ev) :: evs' =>
          if deadline - now <=? 0 then Some []
          else match ev with
               | NewData s' => pull_loop deadline limit_ s' evs'
               | TimerFired => Some []
               | Cancelled => Some []
               end
      end
  end.

Definition Pull (offset : option Z) (timeout : Q) (limit_ now : Z) (f : faults)
    (s : Queue) (w : world) (evs : list (Z * wakeup)) : option (list obj) * Queue * world :=
  let '(s, w) := match offset with
                 | Some o => Ack (wrap64 (o - 1)) f s w
                 | None => (s, w)
                 end in
  let limit_ := if limit_ <=? 0 then 100 else limit_ in
  (pull_loop (now + duration timeout) limit_ s evs, s, w).

(** ** Restart *)

Definition NewQueue (maxsize_ : Z) (overflow_ : string) (ttl : Q) (alias : string) (h : bool) : Queue :=
  {| maxsize := maxsize_; overflow := overflow_; ttlS := ttl; q := []; seen := ∅;
     consumerOffset := 0; newData := 0; dropped := 0; expired := 0; db := false;
     botAlias := alias; unloadedBacklog := 0; health := h |}.

(** [time.Now().Add(-time.Duration((wallNow() - enqueuedAt) * 1e9))]. *)
Definition backfill (now : Z) (at_ : Q) : Z := now - duration (secs now - at_).

Fixpoint load_rows (now : Z) (rows : list row) (s : Queue) (h : Storage.t) (loaded : Z)
    : Queue * Storage.t * Z :=
  match rows with
  | [] => (s, h, loaded)
  | r :: rows' =>
      match json_unmarshal (r_json r) with
      | None => load_rows now rows' s (if health s then Storage.NoteCorruptRow h else h) loaded
      | Some u =>
          let e := {| UpdateID := r_uid r; Update := u; Enqueued := backfill now (r_at r) |} in
          load_rows now rows' (with_mem s (q s ++ [e]) ({[ r_uid r ]} ∪ seen s)) h (loaded + 1)
      end
  end.

(** The backlog query. *)
Definition backlog (s : Queue) (cutoff : Q) (d : disk) : list row :=
  limit (maxsize s) (sort_by r_uid (bfilter
    (λ r, of_alias (botAlias s) r && (consumerOffset s <? r_uid r) && qlt cutoff (r_at r))
    (update_queue d))).

Definition loadFromDB (now : Z) (f : faults) (s : Queue) (w : world) : Queue * world :=
  let s := match row_of fst (botAlias s) (consumer_offsets (dsk w)) with
           | Some (_, off) => if f 0%nat then s else with_offset s off
           | None => s
           end in
  let cutoff := if qlt 0 (ttlS s) then (secs now - ttlS s)%Q else 0%Q in
  if f 1%nat then (s, w) else
  let '(s, h, loaded) := load_rows now (backlog s cutoff (dsk w)) s (hs w) 0 in
  let mine r := of_alias (botAlias s) r in
  let w := {| dsk := dsk w; hs := h |} in
  let w := if f 2%nat then w
           else set_rows w (delete_where (λ r, mine r && (r_uid r <=? consumerOffset s))
                                         (update_queue (dsk w))) in
  let total := if f 3%nat then 0
               else count_where (λ r, mine r && (consumerOffset s <? r_uid r))
                                (update_queue (dsk w)) in
  (with_backlog s (Z.max 0 (total - loaded)), w).

(** [persist = false] is the empty path (memory-only queue); a failing Open or
    CREATE TABLE (statements 4 and 5) is the error result.  The disk argument
    is queue.db after the boot integrity gate. *)
Definition OpenQueue (maxsize_ : Z) (overflow_ : string) (ttl : Q) (persist : bool)
    (alias : string) (h : bool) (now : Z) (f : faults) (w : world) : option (Queue * world) :=
  let s := NewQueue maxsize_ overflow_ ttl alias h in
  if negb persist then Some (s, w)
  else if f 4%nat || f 5%nat then None
  else Some (loadFromDB now f (with_db s true) w).

(** ** Views *)

Definition Depth (s : Queue) : Z := Z.of_nat (length (q s)).

Definition UnloadedBacklog (s : Queue) : Z := unloadedBacklog s.

Definition Persistent (s : Queue) : bool := db s.

Definition Close (s : Queue) : Queue := if db s then with_db s false else s.

Definition round1 (f : Q) : Q := inject_Z (qtrunc (f * 10 + (1 # 2))) / 10.

Definition max_age (now : Z) (l : list QueuedUpdate) : Q :=
  fold_left (λ m u, let age := secs (now - Enqueued u) in if qlt m age then age else m) l 0%Q.

Definition Stats (now : Z) (s : Queue) : obj :=
  [("depth", AInt (Depth s)); ("dropped_oldest", AInt (dropped s));
   ("expired_by_ttl", AInt (expired s)); ("max_age_s", AFloat (round1 (max_age now (q s))));
   ("consumer_offset", AInt64 (consumerOffset s)); ("persistent", ABool (db s))].

(** ** Invariant *)

Record wf (s : Queue) : Prop := {
  wf_max : 1 <= maxsize s;
  wf_nodup : NoDup (ids (q s));
  wf_seen : seen s = list_to_set (ids (q s));
  wf_len : Z.of_nat (length (q s)) <= maxsize s
}.

Record disk_ok (d : disk) : Prop := {
  rows_keyed : keyed row_key (update_queue d);
  offsets_keyed : keyed fst (consumer_offsets d)
}.

(** What every event the queue can see does to it: a poller batch, a consumer
    ack, process death followed by a reopen at any clock reading, and a close;
    statements may fail arbitrarily. *)
Inductive qstep : Queue * world → Queue * world → Prop :=
| q_push now wall f ups s w over s' w' :
    PushAll now wall f ups s w = Some (over, s', w') → qstep (s, w) (s', w')
| q_ack n f s w : qstep (s, w) (Ack n f s w)
| q_reopen now f s w s' w' :
    OpenQueue (maxsize s) (overflow s) (ttlS s) true (botAlias s) (health s) now f w = Some (s', w') →
    qstep (s, w) (s', w')
| q_close s w : qstep (s, w) (Close s, w).

Inductive reachable (s0 : Queue) (w0 : world) : Queue * world → Prop :=
| reach_init : reachable s0 w0 (s0, w0)
| reach_step x y : reachable s0 w0 x → qstep x y → reachable s0 w0 y.

(** ** Lemmas *)

Lemma ids_split p l : ids l = ids (take_while p l) ++ ids (drop_while p l).
Proof. unfold ids. by rewrite <-fmap_app, take_drop_while. Qed.

Lemma NoDup_ids_drop p l : NoDup (ids l) → NoDup (ids (drop_while p l)).
Proof. rewrite (ids_split p l), NoDup_app. naive_solver. Qed.

Lemma seen_drop p l :
  NoDup (ids l) →
  (list_to_set (ids l) : gset Z) ∖ list_to_set (ids (take_while p l)) =
  list_to_set (ids (drop_while p l)).
Proof.
  intros H. rewrite (ids_split p l) in H |- *. apply NoDup_app in H as (_ & H & _).
  rewrite list_to_set_app_L. apply set_eq. intros x. rewrite elem_of_difference, elem_of_union, !elem_of_list_to_set.
  naive_solver.
Qed.

Lemma wf_drop s p :
  wf s →
  wf (with_mem s (drop_while p (q s)) (seen s ∖ list_to_set (ids (take_while p (q s))))).
Proof.
  intros [Hm Hn Hs Hl]. constructor; simpl; [done|by apply NoDup_ids_drop| |].
  - rewrite Hs. by apply seen_drop.
  - pose proof (sublist_length _ _ (drop_while_sublist p (q s))). lia.
Qed.

Lemma prune_wf now f s w : wf s → wf (fst (pruneExpiredLocked now f s w)).
Proof.
  intros H. unfold pruneExpiredLocked. destruct (qle _ _); [done|].
  destruct (wf_drop s (stale s now) H) as [H1 H2 H3 H4]. by constructor.
Qed.

Lemma prune_disk now f s w :
  disk_ok (dsk w) → disk_ok (dsk (snd (pruneExpiredLocked now f s w))).
Proof.
  intros [H1 H2]. unfold pruneExpiredLocked. destruct (qle _ _); [done|]. simpl.
  destruct (_ && _); [|done]. constructor; simpl; [by apply delete_keyed|done].
Qed.

Lemma evict_wf s :
  wf s → q s ≠ [] →
  ∃ s', evict s = Some s' ∧ wf s' ∧ Z.of_nat (length (q s')) < maxsize s' ∧ maxsize s' = maxsize s ∧
        ∀ x, x ∈ seen s' → x ∈ seen s.
Proof.
  intros [Hm Hn Hs Hl] Hne. unfold evict. destruct (q s) as [|old rest] eqn:E; [done|].
  eexists; split; [done|]. unfold ids in *. simpl in *. apply NoDup_cons in Hn as [Hn1 Hn2].
  split_ands; simpl; [|lia|done|set_solver].
  constructor; simpl; [done|done| |lia]. unfold ids. rewrite Hs. simpl. apply set_eq. intros x.
  rewrite elem_of_difference, elem_of_union, !elem_of_singleton, !elem_of_list_to_set.
  split; [naive_solver|]. intros Hx. split; [by right|]. by intros ->.
Qed.

Lemma append_wf s now uid u :
  wf s → uid ∉ seen s → Z.of_nat (length (q s)) < maxsize s → wf (append_update s now uid u).
Proof.
  intros [Hm Hn Hs Hl] Hu Hlt. unfold append_update. constructor; simpl.
  - done.
  - unfold ids in *. rewrite fmap_app. simpl. apply NoDup_app. split_ands; [done| |apply NoDup_singleton].
    intros x Hx Hx'%list_elem_of_singleton. subst. rewrite Hs in Hu. by apply Hu, elem_of_list_to_set.
  - unfold ids in *. rewrite fmap_app, list_to_set_app_L, Hs. simpl. set_solver.
  - rewrite length_app. simpl. lia.
Qed.

(** The loop never panics on a well-formed queue and keeps it well formed. *)
Lemma push_loop_wf now ups s batch :
  wf s → ∃ s' b o, push_loop now ups s batch = Some (s', b, o) ∧ wf s'.
Proof.
  revert s batch. induction ups as [|u ups IH]; intros s batch H; cbn [push_loop]; [by eauto 10|].
  destruct (identify s u) as [uid u']. case_bool_decide as Hu; [by apply IH|].
  destruct (Z.leb_spec (maxsize s) (Z.of_nat (length (q s)))).
  - destruct (String.eqb _ _); [by eauto 10|].
    destruct (evict_wf s H) as (s' & -> & Hs' & Hlt & Hmax & Hsub).
    { destruct H as [Hm _ _ _]. destruct (q s); [simpl in *; lia|done]. }
    apply IH. apply append_wf; auto.
  - apply IH. apply append_wf; auto.
Qed.

Lemma insert_batch_keyed s at_ f k batch rows :
  keyed row_key rows → keyed row_key (insert_batch s at_ f k batch rows).
Proof.
  revert k rows. induction batch as [|p batch IH]; intros k rows H; simpl; [done|].
  apply IH. destruct (f k); [done|]. by apply insert_keyed.
Qed.

Lemma notePersistFailure_disk s a b w : dsk (notePersistFailure s a b w) = dsk w.
Proof. unfold notePersistFailure. by destruct (health s). Qed.

Lemma persist_disk s batch wall f w :
  disk_ok (dsk w) → disk_ok (dsk (persist_batch s batch wall f w)).
Proof.
  intros [H1 H2]. unfold persist_batch.
  destruct (_ && _); [|done]. destruct (f 1%nat), (f 2%nat), (f 3%nat);
    rewrite ?notePersistFailure_disk; try done.
  constructor; simpl; [by apply insert_batch_keyed|done].
Qed.

Lemma PushAll_wf now wall f ups s w :
  wf s → disk_ok (dsk w) →
  ∃ over s' w', PushAll now wall f ups s w = Some (over, s', w') ∧ wf s' ∧ disk_ok (dsk w').
Proof.
  intros H Hd. unfold PushAll.
  pose proof (prune_wf now f s w H) as Hs. pose proof (prune_disk now f s w Hd) as Hw.
  destruct (pruneExpiredLocked now f s w) as [s1 w1]. simpl in *.
  destruct (push_loop_wf now ups s1 [] Hs) as (s2 & b & o & -> & Hs2).
  assert (wf (signalLocked s2)) by (destruct Hs2; by constructor).
  destruct o; do 3 eexists; (split; [done|]); split; auto using persist_disk.
Qed.

Lemma Ack_wf n f s w : wf s → wf (fst (Ack n f s w)).
Proof.
  intros H. unfold Ack. simpl.
  set (off := if consumerOffset s <? n then n else consumerOffset s).
  destruct (wf_drop s (λ u, UpdateID u <=? off) H) as [H1 H2 H3 H4]. by constructor.
Qed.

Lemma ack_disk_ok a n d : disk_ok d → disk_ok (ack_rows a n d) ∧ disk_ok (ack_offset a n (ack_rows a n d)).
Proof.
  intros [H1 H2]. split; constructor; simpl; try done; try (by apply delete_keyed).
  by apply upsert_keyed.
Qed.

Lemma Ack_disk n f s w : disk_ok (dsk w) → disk_ok (dsk (snd (Ack n f s w))).
Proof.
  intros H. unfold Ack. simpl. destruct (db s); [|done].
  set (off := if consumerOffset s <? n then n else consumerOffset s).
  destruct (ack_disk_ok (botAlias s) off (dsk w) H).
  destruct (f 0%nat); [by rewrite notePersistFailure_disk|].
  destruct (f 1%nat); [by rewrite notePersistFailure_disk|done].
Qed.

(** Loading keeps the invariant when the rows fit and carry distinct ids. *)
Lemma load_rows_wf now rows s h n :
  wf s → NoDup (ids (q s) ++ (r_uid <$> rows)) →
  Z.of_nat (length (q s)) + Z.of_nat (length rows) <= maxsize s →
  let '(s', _, _) := load_rows now rows s h n in
  wf s' ∧ maxsize s' = maxsize s ∧ consumerOffset s' = consumerOffset s ∧
  botAlias s' = botAlias s ∧ db s' = db s.
Proof.
  revert s h n. induction rows as [|r rows IH]; intros s h n H Hnd Hlen; cbn [load_rows]; [done|].
  csimpl in *. destruct (json_unmarshal (r_json r)) as [u|].
  - set (s1 := with_mem s _ _). specialize (IH s1 h (n + 1)).
    assert (wf s1) as Hs1.
    { apply (append_wf s (backfill now (r_at r)) (r_uid r) u H); [|lia].
      rewrite (wf_seen _ H). rewrite elem_of_list_to_set.
      apply NoDup_app in Hnd as (_ & Hd & _). intros Hin. apply (Hd _ Hin). left. }
    destruct (load_rows now rows s1 h (n + 1)) as [[s' h'] n'].
    apply IH; [done| |].
    + unfold s1. simpl. unfold ids in *. rewrite fmap_app. simpl. by rewrite <-(assoc_L (++)).
    + unfold s1. simpl. rewrite length_app. simpl. lia.
  - apply IH; [done| |lia]. apply NoDup_app in Hnd as (H1 & H2 & H3).
    apply NoDup_cons in H3 as [_ H3]. apply NoDup_app. split_ands; [done| |done].
    intros x Hx Hx'. apply (H2 x Hx). by right.
Qed.

Lemma alias_uids_NoDup (p : row → bool) a rows :
  keyed row_key rows → (∀ r, p r = true → r_alias r = a) → NoDup (r_uid <$> bfilter p rows).
Proof.
  intros Hk Hp. unfold keyed in Hk. induction rows as [|r rows IH]; simpl; [constructor|].
  csimpl in Hk. apply NoDup_cons in Hk as [Hk1 Hk2]. destruct (p r) eqn:E; [|by apply IH].
  csimpl. constructor; [|by apply IH]. intros Hin. apply Hk1.
  apply list_elem_of_fmap in Hin as (r' & Huid & Hr'%elem_of_bfilter).
  destruct Hr' as [Hr' Hpr']. apply list_elem_of_fmap. exists r'. split; [|done].
  unfold row_key. rewrite (Hp r E), (Hp r' Hpr'), Huid. done.
Qed.

Lemma backlog_NoDup s cutoff d : disk_ok d → NoDup (r_uid <$> backlog s cutoff d).
Proof.
  intros [Hk _]. unfold backlog, limit.
  assert (NoDup (r_uid <$> sort_by r_uid (bfilter
    (λ r, of_alias (botAlias s) r && (consumerOffset s <? r_uid r) && qlt cutoff (r_at r))
    (update_queue d)))) as H.
  { rewrite sort_by_Permutation. apply (alias_uids_NoDup _ (botAlias s)); [done|].
    intros r. rewrite !andb_true_iff. intros [[H _] _]. by apply String.eqb_eq. }
  destruct (_ <? _); [done|]. eapply sublist_NoDup; [exact H|]. apply fmap_sublist, sublist_take.
Qed.

Lemma backlog_length s cutoff d : 0 <= maxsize s → Z.of_nat (length (backlog s cutoff d)) <= maxsize s.
Proof.
  intros H. unfold backlog, limit. destruct (Z.ltb_spec (maxsize s) 0); [lia|].
  rewrite length_take. lia.
Qed.

Lemma loadFromDB_wf now f s w :
  wf s → q s = [] → disk_ok (dsk w) →
  wf (fst (loadFromDB now f s w)) ∧ disk_ok (dsk (snd (loadFromDB now f s w))).
Proof.
  intros H Hq Hd. unfold loadFromDB.
  set (s1 := match row_of _ _ _ with Some _ => _ | None => _ end).
  assert (wf s1 ∧ q s1 = []) as [H1 Hq1].
  { unfold s1. destruct (row_of _ _ _) as [[k off]|]; [|done]. destruct (f 0%nat); [done|].
    split; [|done]. destruct H; by constructor. }
  destruct (f 1%nat); [done|].
  set (cutoff := if qlt 0 (ttlS s1) then _ else _).
  pose proof (load_rows_wf now (backlog s1 cutoff (dsk w)) s1 (hs w) 0 H1) as Hl.
  rewrite Hq1 in Hl. simpl in Hl.
  assert (0 <= maxsize s1) as Hm by (pose proof (wf_max _ H1); lia).
  specialize (Hl (backlog_NoDup s1 cutoff (dsk w) Hd) (backlog_length s1 cutoff (dsk w) Hm)).
  destruct (load_rows _ _ _ _ _) as [[s2 h2] n2]. destruct Hl as (Hs2 & _).
  split; [destruct Hs2; by constructor|].
  destruct Hd as [Hk Ho]. destruct (f 2%nat); [by constructor|].
  constructor; simpl; [by apply delete_keyed|done].
Qed.

Lemma OpenQueue_wf m o ttl a h now f w s' w' :
  1 <= m → disk_ok (dsk w) → OpenQueue m o ttl true a h now f w = Some (s', w') →
  wf s' ∧ disk_ok (dsk w').
Proof.
  intros Hm Hd. unfold OpenQueue. simpl. destruct (_ || _); [done|]. intros Hs. injection Hs as Hs.
  pose proof (loadFromDB_wf now f (with_db (NewQueue m o ttl a h) true) w) as HL.
  rewrite Hs in HL. simpl in HL. apply HL; [|done|done].
  constructor; simpl; [done|constructor|done|lia].
Qed.

Lemma qstep_wf x y : qstep x y → wf (fst x) ∧ disk_ok (dsk (snd x)) → wf (fst y) ∧ disk_ok (dsk (snd y)).
Proof.
  destruct 1 as [now wall f ups s w over s' w' Hp|n f s w|now f s w s' w' Ho|s w]; intros [Hs Hd]; simpl in Hs, Hd.
  - destruct (PushAll_wf now wall f ups s w Hs Hd) as (o' & s2 & w2 & Heq & H1 & H2).
    rewrite Heq in Hp. by simplify_eq.
  - split; [by apply Ack_wf|by apply Ack_disk].
  - eapply OpenQueue_wf; [apply Hs|exact Hd|exact Ho].
  - split; [|done]. simpl. unfold Close. destruct (db s); [|done]. destruct Hs; by constructor.
Qed.

Lemma PushAll_signals now wall f ups s w over s' w' :
  PushAll now wall f ups s w = Some (over, s', w') → newData s' = S (newData s).
Proof.
  assert (∀ s batch r b o, push_loop now ups s batch = Some (r, b, o) → newData r = newData s) as Hl.
  { clear. induction ups as [|u ups IH]; intros s batch r b o; cbn [push_loop]; [naive_solver|].
    destruct (identify s u) as [uid u']. case_bool_decide; [apply IH|].
    destruct (_ <=? _); [|by intros ->%IH].
    destruct (String.eqb _ _); [naive_solver|].
    unfold evict. destruct (q s); [done|]. by intros ->%IH. }
  unfold PushAll, pruneExpiredLocked.
  destruct (qle _ _); destruct (push_loop _ _ _ _) as [[[r b] o]|] eqn:E; try done;
    apply Hl in E; destruct o; intros; simplify_eq/=; by rewrite E.
Qed.

(** A non-empty answer is the scan of one of the queue states [Pull] looked at. *)
Lemma pull_loop_scan deadline lim s evs out :
  pull_loop deadline lim s evs = Some out → out ≠ [] →
  ∃ s', (s' = s ∨ ∃ n, (n, NewData s') ∈ evs) ∧ out = pull_scan lim s'.
Proof.
  revert s. induction evs as [|[now ev] evs IH]; intros s; cbn [pull_loop];
    destruct (pull_scan lim s) as [|o out'] eqn:E; intros H Hne; simplify_eq; eauto.
  destruct (_ <=? 0); [naive_solver|]. destruct ev as [s1| |]; [|naive_solver..].
  destruct (IH s1 H Hne) as (s' & [->|(n & Hn)] & ->).
  - exists s1. split; [|done]. right. exists now. left.
  - exists s'. split; [|done]. right. exists n. by right.
Qed.

(** The wait is bounded: a reading past the deadline, the timer or a
    cancellation ends the loop. *)
Lemma pull_loop_returns deadline lim s evs :
  (∃ now ev, (now, ev) ∈ evs ∧ (deadline <= now ∨ ev = TimerFired ∨ ev = Cancelled)) →
  is_Some (pull_loop deadline lim s evs).
Proof.
  revert s. induction evs as [|[now ev] evs IH]; intros s (n & e & Hin & Hend).
  { by apply elem_of_nil in Hin. }
  cbn [pull_loop]. destruct (pull_scan lim s); [|done].
  destruct (Z.leb_spec (deadline - now) 0); [done|].
  destruct ev as [s1| |]; [|done..]. apply IH. exists n, e. split; [|done].
  apply elem_of_cons in Hin as [Heq|Hin]; [|done]. simplify_eq. naive_solver lia.
Qed.

Lemma pull_scan_unacked lim s u :
  u ∈ pull_scan lim s → ∃ e, e ∈ q s ∧ Update e = u ∧ consumerOffset s < UpdateID e.
Proof.
  unfold pull_scan. intros H%elem_of_take. destruct H as (i & Hi & _).
  apply list_elem_of_lookup_2 in Hi. apply list_elem_of_fmap in Hi as (e & -> & He).
  apply elem_of_bfilter in He as [He Hlt]. exists e. split_ands; [done|done|lia].
Qed.

(** ** Interleaving of one long-polling consumer with the poller *)
Module PullRace.

(** Program points of [Pull] between its locked sections. *)
Inductive pc :=
| Scan | Check | Grab
| Wait (gen : nat)          (** blocked on the channel read at [Grab] *)
| Ret (out : list obj).

Record config := { qs : Queue; wd : world; at_pc : pc }.

Inductive cstep (lim : Z) : config → config → Prop :=
| scan_hit s w o out : pull_scan lim s = o :: out →
    cstep lim {| qs := s; wd := w; at_pc := Scan |} {| qs := s; wd := w; at_pc := Ret (o :: out) |}
| scan_miss s w : pull_scan lim s = [] →
    cstep lim {| qs := s; wd := w; at_pc := Scan |} {| qs := s; wd := w; at_pc := Check |}
| check_time_left s w :
    cstep lim {| qs := s; wd := w; at_pc := Check |} {| qs := s; wd := w; at_pc := Grab |}
| check_expired s w :
    cstep lim {| qs := s; wd := w; at_pc := Check |} {| qs := s; wd := w; at_pc := Ret [] |}
| grab s w :
    cstep lim {| qs := s; wd := w; at_pc := Grab |} {| qs := s; wd := w; at_pc := Wait (newData s) |}
| woken s w g : (g < newData s)%nat →
    cstep lim {| qs := s; wd := w; at_pc := Wait g |} {| qs := s; wd := w; at_pc := Scan |}
| timer s w g :
    cstep lim {| qs := s; wd := w; at_pc := Wait g |} {| qs := s; wd := w; at_pc := Ret [] |}
| poller_push now wall f ups s w over s' w' p : PushAll now wall f ups s w = Some (over, s', w') →
    cstep lim {| qs := s; wd := w; at_pc := p |} {| qs := s'; wd := w'; at_pc := p |}.

Inductive csteps (lim : Z) : config → config → Prop :=
| csteps_refl c : csteps lim c c
| csteps_step c1 c2 c3 : cstep lim c1 c2 → csteps lim c2 c3 → csteps lim c1 c3.

(** The consumer is blocked although an update is deliverable: the channel it
    waits on is the current one, so nothing queued so far can wake it. *)
Definition missed (lim : Z) (c : config) : Prop :=
  ∃ g, at_pc c = Wait g ∧ g = newData (qs c) ∧ pull_scan lim (qs c) ≠ [].

End PullRace.

(** C33. The in-memory deque and its tables stay consistent forever: from any
    well-formed queue, after any sequence of batches, acks, closes and
    crash/reopen cycles, with SQL statements failing arbitrarily, the queued
    ids are distinct, [seen] is exactly the set of queued ids, the depth never
    exceeds [maxsize], both tables keep their primary keys, and the next batch
    cannot panic. *)
Theorem queue_invariant s0 w0 s w :
  wf s0 → disk_ok (dsk w0) → reachable s0 w0 (s, w) →
  wf s ∧ disk_ok (dsk w) ∧ (∀ now wall f ups, PushAll now wall f ups s w ≠ None).
Proof.
  intros Hs Hd Hr.
  assert (wf (fst (s, w)) ∧ disk_ok (dsk (snd (s, w)))) as [H1 H2].
  { induction Hr as [|x y _ IH Hxy]; [done|]. eauto using qstep_wf. }
  split_ands; [done|done|]. intros now wall f ups.
  destruct (PushAll_wf now wall f ups s w H1 H2) as (? & ? & ? & -> & _). done.
Qed.

Definition q_demo : Queue := with_db (NewQueue 2 "drop_oldest" 3600 "b1" true) true.

Definition w_empty : world :=
  {| dsk := {| update_queue := []; consumer_offsets := [] |}; hs := Storage.NewStorage |}.

Definition upd (n : Z) : obj := [("update_id", AFloat (inject_Z n))].

Definition pushed_demo : Queue * world :=
  match PushAll 5 6 no_faults [upd 7; upd 8] q_demo w_empty with
  | Some (_, s, w) => (s, w)
  | None => (q_demo, w_empty)
  end.

Lemma queue_invariant_witness :
  wf q_demo ∧ disk_ok (dsk w_empty) ∧ PushAll 5 6 no_faults [upd 1; upd 2; upd 3] q_demo w_empty ≠ None.
Proof.
  assert (wf q_demo) by (constructor; vm_compute; try constructor; congruence).
  assert (disk_ok (dsk w_empty)) by (constructor; apply NoDup_nil_2).
  split_ands; [done|done|].
  apply (queue_invariant q_demo w_empty q_demo w_empty); [done|done|apply reach_init].
Defined.

(** [Pull] has Bot API semantics: whenever it answers a non-empty list, the
    list is the first [limit] queued updates above the consumer offset of a
    queue state it scanned, so an acknowledged update is never delivered
    again; and it always answers once the deadline passes, the timer fires or
    the request is cancelled. *)
Theorem pull_delivers_only_unacked offset timeout lim now f s w evs out s' w' :
  Pull offset timeout lim now f s w evs = (Some out, s', w') →
  (out ≠ [] →
    ∃ st, (st = s' ∨ ∃ n, (n, NewData st) ∈ evs) ∧
      out = take (Z.to_nat (if lim <=? 0 then 100 else lim))
              (Update <$> bfilter (λ u, consumerOffset st <? UpdateID u) (q st)) ∧
      (∀ u, u ∈ out → ∃ e, e ∈ q st ∧ Update e = u ∧ consumerOffset st < UpdateID e)) ∧
  (∀ o, offset = Some o → wrap64 (o - 1) <= consumerOffset s').
Proof.
  unfold Pull. intros H. split.
  - intros Hne. destruct (match offset with Some _ => _ | None => _ end) as [s1 w1].
    simplify_eq. destruct (pull_loop_scan _ _ _ _ _ H Hne) as (st & Hst & ->).
    exists st. split_ands; [done|done|]. intros u. apply pull_scan_unacked.
  - intros o ->. unfold Ack in H. simplify_eq/=. destruct (Z.ltb_spec (consumerOffset s) (wrap64 (o - 1))); lia.
Qed.

Lemma pull_delivers_only_unacked_witness :
  let r := Pull (Some 8) 0 10 9 no_faults (fst pushed_demo) (snd pushed_demo) [] in
  fst (fst r) = Some [upd 8] ∧ wrap64 (8 - 1) <= consumerOffset (snd (fst r)).
Proof.
  split; [vm_compute; reflexivity|].
  refine (proj2 (pull_delivers_only_unacked (Some 8) 0 10 9 no_faults
    (fst pushed_demo) (snd pushed_demo) [] [upd 8] _ _ _) 8 eq_refl).
  vm_compute; reflexivity.
Defined.

(** The long poll terminates: with a reading at or past the deadline, a
    timer expiry or a cancellation among its wake-ups, [Pull] returns. *)
Theorem pull_returns offset timeout lim now f s w evs :
  (∃ t ev, (t, ev) ∈ evs ∧ (now + duration timeout <= t ∨ ev = TimerFired ∨ ev = Cancelled)) →
  is_Some (fst (fst (Pull offset timeout lim now f s w evs))).
Proof.
  intros H. unfold Pull. destruct (match offset with Some _ => _ | None => _ end) as [s1 w1].
  by apply pull_loop_returns.
Qed.

Lemma pull_returns_witness :
  is_Some (fst (fst (Pull None 50 100 0 no_faults q_demo w_empty
    [(1, NewData q_demo); (2, TimerFired)]))).
Proof.
  apply pull_returns. exists 2, TimerFired. split; [right; left|right; left; reflexivity].
Defined.

(** A wake-up can be lost: [Pull] reads the broadcast channel only after
    its scan has released the lock, so a batch that lands in between replaces
    the channel first; the consumer then blocks on the fresh channel with a
    deliverable update in the queue, no queued event can wake it, and when its
    timer fires it answers an empty list. *)
Theorem pull_can_miss_a_wakeup :
  ∃ c s' w', PullRace.csteps 100 {| PullRace.qs := q_demo; PullRace.wd := w_empty; PullRace.at_pc := PullRace.Scan |} c ∧
    PullRace.missed 100 c ∧
    PullRace.cstep 100 c {| PullRace.qs := s'; PullRace.wd := w'; PullRace.at_pc := PullRace.Ret [] |} ∧
    pull_scan 100 s' = [upd 7].
Proof.
  destruct (PushAll 5 6 no_faults [upd 7] q_demo w_empty) as [[[over s1] w1]|] eqn:E; [|done].
  exists {| PullRace.qs := s1; PullRace.wd := w1; PullRace.at_pc := PullRace.Wait (newData s1) |}, s1, w1.
  assert (pull_scan 100 s1 = [upd 7]) as Hscan by (vm_compute in E; injection E as _ <- _; reflexivity).
  split_ands.
  - eapply PullRace.csteps_step; [by apply PullRace.scan_miss|].
    eapply PullRace.csteps_step; [apply PullRace.check_time_left|].
    eapply PullRace.csteps_step; [eapply PullRace.poller_push; exact E|].
    eapply PullRace.csteps_step; [apply PullRace.grab|]. apply PullRace.csteps_refl.
  - exists (newData s1). split_ands; [done|done|]. simpl. by rewrite Hscan.
  - apply PullRace.timer.
  - done.
Qed.

(** A batch that the reject_new policy cuts short is never persisted: when
    [PushAll] reports ErrQueueOverflow, queue.db holds no row it did not hold
    before the call, although the updates accepted before the cut are queued
    in memory. *)
Theorem overflow_batch_is_not_persisted now wall f ups s w s' w' :
  PushAll now wall f ups s w = Some (true, s', w') →
  ∀ r, r ∈ update_queue (dsk w') → r ∈ update_queue (dsk w).
Proof.
  unfold PushAll. destruct (pruneExpiredLocked now f s w) as [s1 w1] eqn:E.
  destruct (push_loop _ _ _ _) as [[[r b] []]|]; intros H; simplify_eq.
  intros x. unfold pruneExpiredLocked in E. destruct (qle _ _); simplify_eq; [done|].
  destruct (_ && _); [|done]. simpl. by intros [? _]%elem_of_delete.
Qed.

Lemma overflow_batch_is_not_persisted_witness :
  ∃ s' w', PushAll 5 6 no_faults [upd 1; upd 2; upd 3]
             (with_db (NewQueue 2 "reject_new" 3600 "b1" true) true) w_empty = Some (true, s', w') ∧
    ids (q s') = [1; 2] ∧ update_queue (dsk w') = [].
Proof.
  do 2 eexists. split; [vm_compute; reflexivity|]. split; [reflexivity|].
  pose proof (overflow_batch_is_not_persisted 5 6 no_faults [upd 1; upd 2; upd 3]
    (with_db (NewQueue 2 "reject_new" 3600 "b1" true) true) w_empty _ _ eq_refl) as H.
  reflexivity.
Defined.

(** A queue bound of zero or less crashes the poller: with the default
    drop_oldest policy the first update delivered to an empty queue panics. *)
Theorem zero_capacity_panics now wall f u ups s w :
  maxsize s <= 0 → overflow s ≠ "reject_new" → q s = [] → seen s = ∅ → (ttlS s <= 0)%Q →
  PushAll now wall f (u :: ups) s w = None.
Proof.
  intros Hm Ho Hq Hs Ht. unfold PushAll, pruneExpiredLocked. rewrite (qle_true _ _ Ht).
  cbn [push_loop]. destruct (identify s u) as [uid u']. rewrite Hs, bool_decide_false by set_solver.
  rewrite Hq. destruct (Z.leb_spec (maxsize s) (Z.of_nat (length ([] : list QueuedUpdate)))); [|simpl in *; lia].
  destruct (String.eqb_spec (overflow s) "reject_new"); [done|].
  unfold evict. by rewrite Hq.
Qed.

Lemma zero_capacity_panics_witness :
  PushAll 5 6 no_faults [upd 1] (with_db (NewQueue 0 "drop_oldest" 0 "b1" true) true) w_empty = None.
Proof. apply zero_capacity_panics; vm_compute; congruence. Defined.
