(* ===== verification/QueueRefine.v ===== *)
(** * The queue as a durable log

    What the update queue promises to a consumer, independent of deques,
    [seen] maps, SQLite and restarts: an acknowledged position and the list
    of pending updates.  [queue_refines_durable_log] shows that the queue of
    Queue.v implements this log: a crash and reopen is invisible. *)
From Stdlib Require Import QArith Lqa String.
From stdpp Require Import base list strings gmap sorting.
From S2P Require Import Prelude GoValue Sql Health Queue.
Open Scope Z_scope.

(** ** Specification *)

Record log := { acked : Z; pending : list (Z * obj) }.

Definition log_empty : log := {| acked := 0; pending := [] |}.

Definition log_push (batch : list (Z * obj)) (l : log) : log :=
  {| acked := acked l; pending := pending l ++ batch |}.

Definition log_ack (n : Z) (l : log) : log :=
  {| acked := Z.max (acked l) n;
     pending := bfilter (λ u, Z.max (acked l) n <? fst u) (pending l) |}.

(** Events of a run; a restart changes nothing in the specification. *)
Inductive event :=
| EPush (now wall : Z) (batch : list (Z * obj))
| EAck (n : Z)
| ERestart (now : Z).

Definition log_event (e : event) (l : log) : log :=
  match e with
  | EPush _ _ batch => log_push batch l
  | EAck n => log_ack n l
  | ERestart _ => l
  end.

(** ** Implementation runs: the operations of Queue.v, no SQL errors *)

Definition run_event (e : event) (x : Queue * world) : option (Queue * world) :=
  let '(s, w) := x in
  match e with
  | EPush now wall batch =>
      match PushAll now wall no_faults (snd <$> batch) s w with
      | Some (false, s', w') => Some (s', w')
      | _ => None
      end
  | EAck n => Some (Ack n no_faults s w)
  | ERestart now =>
      OpenQueue (maxsize s) (overflow s) (ttlS s) true (botAlias s) (health s) now no_faults w
  end.

Fixpoint run (es : list event) (x : Queue * world) : option (Queue * world) :=
  match es with
  | [] => Some x
  | e :: es' => match run_event e x with Some y => run es' y | None => None end
  end.

(** An update Telegram delivers: JSON-decoded, carrying its own id. *)
Definition delivered (u : Z * obj) : bool :=
  decoded (AMap (snd u)) &&
  match mget (snd u) "update_id" with
  | Some (AFloat f) => f2i f =? fst u
  | _ => false
  end.

(** Ids strictly increase above [hi]. *)
Fixpoint increasing (hi : Z) (us : list (Z * obj)) : bool :=
  match us with
  | [] => true
  | u :: us' => (hi <? fst u) && increasing (fst u) us'
  end.

Definition newest (l : log) : Z := default (acked l) (fst <$> last (pending l)).

(** The environment's side of the contract over a run with clock readings in
    [(t0, t1]]: Telegram's ids increase, the queue is not over-filled, and
    offsets are int64. *)
Fixpoint admissible (t0 t1 cap : Z) (es : list event) (l : log) : bool :=
  match es with
  | [] => true
  | e :: es' =>
      match e with
      | EPush now wall batch =>
          (t0 <? now) && (now <=? wall) && (wall <=? t1) && forallb delivered batch &&
          increasing (newest l) batch &&
          (Z.of_nat (length (pending l) + length batch) <=? cap)
      | EAck n => true
      | ERestart now => (t0 <? now) && (now <=? t1)
      end && admissible t0 t1 cap es' (log_event e l)
  end.

(** ** The simulation relation *)
Section simulation.
Context (t0 t1 : Z) (t0_pos : 0 <= t0) (alias : string) (cap : Z) (ttl : Q).
(** The run is shorter than the TTL (or the TTL is off). *)
Context (cap_pos : 1 <= cap) (short : (ttl <= 0)%Q ∨ (secs (t1 - t0) < ttl)%Q).

Definition row_view (r : row) : Z * json_text := (r_uid r, r_json r).

Definition doc_view (u : Z * obj) : Z * json_text := (fst u, JText (AMap (snd u))).

Definition mem_view (e : QueuedUpdate) : Z * obj := (UpdateID e, Update e).

Definition my_rows (d : disk) : list row := bfilter (of_alias alias) (update_queue d).

Record sim (s : Queue) (w : world) (l : log) : Prop := {
  sim_wf : wf s;
  sim_disk : disk_ok (dsk w);
  sim_conf : maxsize s = cap ∧ ttlS s = ttl ∧ botAlias s = alias ∧ db s = true;
  sim_off : consumerOffset s = acked l;
  sim_mem : mem_view <$> q s = pending l;
  sim_rows : row_view <$> my_rows (dsk w) = doc_view <$> pending l;
  sim_row_off :
    match row_of fst alias (consumer_offsets (dsk w)) with
    | Some (_, o) => o = acked l
    | None => acked l = 0
    end;
  sim_sorted : StronglySorted (λ u v, fst u < fst v) (pending l);
  sim_above : Forall (λ u, acked l < fst u) (pending l);
  sim_age : Forall (λ e, t0 < Enqueued e) (q s) ∧ Forall (λ r, secs t0 < r_at r)%Q (my_rows (dsk w))
}.

Hint Unfold my_rows : core.

(** *** Clock arithmetic *)

Lemma secs_sub a b : (secs (a - b) == secs a - secs b)%Q.
Proof. unfold secs, Qeq, Qminus, Qplus, Qopp; simpl. lia. Qed.

Lemma qtrunc_lt x n : (x < inject_Z n)%Q → 0 < n → qtrunc x < n.
Proof.
  destruct x as [a d]. unfold Qlt, qtrunc, inject_Z; simpl. intros H Hn.
  destruct (decide (0 <= a)).
  - rewrite Z.quot_div_nonneg by lia. apply Z.div_lt_upper_bound; lia.
  - pose proof (Z.quot_opp_l a (Zpos d) ltac:(lia)) as Hq.
    pose proof (Z.quot_pos (- a) (Zpos d) ltac:(lia) ltac:(lia)). lia.
Qed.

Lemma qtrunc_ge x n : (inject_Z n <= x)%Q → 0 <= n → n <= qtrunc x.
Proof.
  destruct x as [a d]. unfold Qle, qtrunc, inject_Z; simpl. intros H Hn.
  rewrite Z.quot_div_nonneg by nia. apply Z.div_le_lower_bound; lia.
Qed.

Lemma secs_scaled a : (secs a * inject_Z 1000000000 == inject_Z a)%Q.
Proof. unfold secs, Qeq, Qmult, inject_Z; simpl. lia. Qed.

Lemma duration_covers now : t0 < now <= t1 → ¬ (ttl <= 0)%Q → now - t0 <= duration ttl.
Proof.
  intros Hn Ht. destruct short as [|Hs]; [done|]. unfold duration. apply qtrunc_ge; [|lia].
  rewrite <-(secs_scaled (now - t0)).
  assert (secs (now - t0) <= secs (t1 - t0))%Q by (apply secs_mono; lia).
  apply Qmult_le_compat_r; [lra|]. unfold Qle; simpl; lia.
Qed.

Lemma backfill_after now at_ : t0 < now → (secs t0 < at_)%Q → t0 < backfill now at_.
Proof.
  intros Hn Ha. unfold backfill, duration.
  assert (qtrunc ((secs now - at_) * inject_Z 1000000000) < now - t0); [|lia].
  apply qtrunc_lt; [|lia]. rewrite <-(secs_scaled (now - t0)), secs_sub.
  apply Qmult_lt_compat_r; [by unfold Qlt|]. lra.
Qed.

Lemma cutoff_old now : now <= t1 → ¬ (ttl <= 0)%Q → (secs now - ttl < secs t0)%Q.
Proof.
  intros Hn Ht. destruct short as [|Hs]; [done|]. rewrite secs_sub in Hs.
  pose proof (secs_mono now t1 Hn). lra.
Qed.

(** *** Push *)

Lemma prune_fresh now s w l :
  t0 < now <= t1 → sim s w l →
  ∃ s', pruneExpiredLocked now no_faults s w = (s', w) ∧ sim s' w l.
Proof.
  intros Hn Hsim. destruct (sim_conf _ _ _ Hsim) as (Hm & Ht & Ha & Hd).
  destruct (sim_age _ _ _ Hsim) as [Hage Hrow]. unfold pruneExpiredLocked. rewrite Ht.
  destruct (qleP ttl 0) as [Hle|Hle]; [by eauto|].
  assert (take_while (stale s now) (q s) = [] ∧ drop_while (stale s now) (q s) = q s) as [Htk Hdr].
  { destruct (q s) as [|e es]; [done|]. simpl. inversion_clear Hage as [|? ? He _].
    assert (stale s now e = false) as ->; [|done]. unfold stale. rewrite Ht.
    pose proof (duration_covers now Hn Hle). lia. }
  rewrite Htk, Hdr, Hd. simpl. eexists. split.
  - f_equal. unfold set_rows. rewrite Ha. destruct w as [[rows offs] h]. simpl. do 2 f_equal.
    apply bfilter_all. intros r Hr. destruct (of_alias alias r) eqn:Er; [|done]. simpl.
    rewrite qlt_false; [done|]. rewrite Forall_forall in Hrow.
    assert (secs t0 < r_at r)%Q by (apply Hrow, elem_of_bfilter; done).
    pose proof (cutoff_old now ltac:(lia) Hle). lra.
  - destruct Hsim as [[W1 W2 W3 W4] ? ? ? ? ? ? ? ? ?]. constructor; simpl; try done.
    constructor; simpl; try done. rewrite difference_empty_L. done.
Qed.

Definition enqueue (now : Z) (u : Z * obj) : QueuedUpdate :=
  {| UpdateID := fst u; Update := snd u; Enqueued := now |}.

Lemma delivered_inv u : delivered u = true →
  decoded (AMap (snd u)) = true ∧ ∀ s, identify s (snd u) = u.
Proof.
  unfold delivered. rewrite andb_true_iff. intros [H1 H2]. split; [done|]. intros s.
  unfold identify, mget1. destruct (mget (snd u) "update_id") as [[]|]; try done.
  simpl. apply Z.eqb_eq in H2 as ->. by destruct u.
Qed.

Lemma push_loop_spec now us s b hi :
  forallb delivered us = true → increasing hi us = true →
  (∀ x, x ∈ seen s → x <= hi) →
  Z.of_nat (length (q s) + length us) <= maxsize s →
  ∃ sn, push_loop now (snd <$> us) s b =
    Some (with_mem s (q s ++ (enqueue now <$> us)) sn, b ++ (doc_view <$> us), false).
Proof.
  revert s b hi. induction us as [|u us IH]; intros s b hi Hd Hi Hseen Hlen; csimpl in *.
  - exists (seen s). rewrite !app_nil_r. by destruct s.
  - apply andb_true_iff in Hd as [[Hdec Hid]%delivered_inv Hd].
    apply andb_true_iff in Hi as [Hlt Hi]. rewrite Hid. destruct u as [uid doc]. simpl in *.
    rewrite bool_decide_false by (intros Hin%Hseen; lia).
    destruct (Z.leb_spec (maxsize s) (Z.of_nat (length (q s)))); [lia|].
    unfold batch_add. rewrite json_roundtrip by done.
    edestruct (IH (append_update s now uid doc)) as [sn ->]; [done|done| | |].
    + simpl. intros x [Hx|Hx%Hseen]%elem_of_union; [apply elem_of_singleton in Hx|]; lia.
    + simpl. rewrite length_app. simpl. lia.
    + exists sn. unfold append_update, with_mem; simpl. by rewrite <-!(assoc_L (++)).
Qed.

Lemma insert_batch_spec s at_ k us rows hi :
  botAlias s = alias → increasing hi us = true →
  (∀ r, r ∈ rows → r_alias r = alias → r_uid r <= hi) →
  bfilter (of_alias alias) (insert_batch s at_ no_faults k (doc_view <$> us) rows) =
  bfilter (of_alias alias) rows ++ (mk_row s at_ <$> (doc_view <$> us)).
Proof.
  intros Ha. revert k rows hi. induction us as [|u us IH]; intros k rows hi Hi Hrows; csimpl in *.
  - by rewrite app_nil_r.
  - apply andb_true_iff in Hi as [Hlt Hi].
    assert (insert_or_ignore row_key (mk_row s at_ (doc_view u)) rows =
            rows ++ [mk_row s at_ (doc_view u)]) as ->.
    { unfold insert_or_ignore. destruct (existsb _ rows) eqn:E; [|done]. exfalso.
      apply existsb_key in E. apply list_elem_of_fmap in E as (r & Hk & Hr).
      unfold row_key in Hk. simpl in Hk. injection Hk as Hk1 Hk2.
      specialize (Hrows r Hr ltac:(congruence)). lia. }
    rewrite (IH _ _ (fst u) Hi).
    + rewrite bfilter_app. simpl. unfold of_alias at 2. simpl.
      rewrite Ha, String.eqb_refl. by rewrite <-(assoc_L (++)).
    + intros r [Hr|Hr]%elem_of_app Hal; [|apply list_elem_of_singleton in Hr as ->; simpl; lia].
      specialize (Hrows r Hr Hal). lia.
Qed.

Lemma increasing_sorted us hi :
  increasing hi us = true →
  StronglySorted (λ u v : Z * obj, fst u < fst v) us ∧ Forall (λ u, hi < fst u) us.
Proof.
  revert hi. induction us as [|u us IH]; intros hi; simpl; [repeat constructor|].
  rewrite andb_true_iff. intros [Hlt Hi]. apply Z.ltb_lt in Hlt. destruct (IH _ Hi) as [H1 H2].
  split; constructor; [done|done|done|].
  eapply Forall_impl; [exact H2|]. simpl. intros. lia.
Qed.

Lemma newest_bound l :
  StronglySorted (λ u v : Z * obj, fst u < fst v) (pending l) →
  Forall (λ u, acked l < fst u) (pending l) →
  acked l <= newest l ∧ Forall (λ u, fst u <= newest l) (pending l).
Proof.
  unfold newest. induction (pending l) as [|v p _] using rev_ind; [simpl; split; [lia|constructor]|].
  intros Hs Ha. rewrite last_snoc. simpl. apply Forall_app in Ha as [Ha Hv].
  inversion_clear Hv. split; [lia|]. apply Forall_app. split; [|repeat constructor; lia].
  apply Forall_forall. intros u Hu.
  assert (fst u < fst v); [|lia].
  exact (StronglySorted_app_1_elem_of _ _ _ u v Hs Hu ltac:(by apply list_elem_of_singleton)).
Qed.

Lemma sim_seen s w l : sim s w l → ∀ x, x ∈ seen s → x <= newest l.
Proof.
  intros Hs x. rewrite (wf_seen _ (sim_wf _ _ _ Hs)), elem_of_list_to_set. unfold ids.
  intros (e & -> & He)%list_elem_of_fmap.
  destruct (newest_bound l (sim_sorted _ _ _ Hs) (sim_above _ _ _ Hs)) as [_ Hb].
  rewrite Forall_forall in Hb. apply (Hb (mem_view e)).
  rewrite <-(sim_mem _ _ _ Hs). by apply list_elem_of_fmap_2.
Qed.

Lemma sim_row_bound s w l r :
  sim s w l → r ∈ update_queue (dsk w) → r_alias r = alias → r_uid r <= newest l.
Proof.
  intros Hs Hr Ha.
  destruct (newest_bound l (sim_sorted _ _ _ Hs) (sim_above _ _ _ Hs)) as [_ Hb].
  assert (row_view r ∈ row_view <$> my_rows (dsk w)) as Hin.
  { apply list_elem_of_fmap_2, elem_of_bfilter. split; [done|]. by apply String.eqb_eq. }
  rewrite (sim_rows _ _ _ Hs) in Hin. apply list_elem_of_fmap in Hin as (u & Hu & Hin).
  rewrite Forall_forall in Hb. specialize (Hb u Hin). by injection Hu as -> _.
Qed.

Lemma enqueue_view now (us : list (Z * obj)) : mem_view <$> (enqueue now <$> us) = us.
Proof. induction us as [|[] us IH]; csimpl; [done|]. by rewrite IH. Qed.

Lemma mk_row_view s at_ (us : list (Z * obj)) : row_view <$> (mk_row s at_ <$> (doc_view <$> us)) = doc_view <$> us.
Proof. induction us as [|[] us IH]; csimpl; [done|]. by rewrite IH. Qed.

Lemma push_sim now wall us s w l :
  sim s w l → t0 < now → now <= wall → wall <= t1 →
  forallb delivered us = true → increasing (newest l) us = true →
  Z.of_nat (length (pending l) + length us) <= cap →
  ∃ s' w', run_event (EPush now wall us) (s, w) = Some (s', w') ∧ sim s' w' (log_push us l).
Proof.
  intros Hs Hn Hw Ht Hd Hi Hc. unfold run_event.
  destruct (PushAll_wf now wall no_faults (snd <$> us) s w (sim_wf _ _ _ Hs) (sim_disk _ _ _ Hs))
    as (over & s' & w' & Heq & Hwf' & Hdisk'). rewrite Heq. revert Heq. unfold PushAll.
  destruct (prune_fresh now s w l ltac:(lia) Hs) as (s1 & -> & Hs1). clear Hs.
  destruct (sim_conf _ _ _ Hs1) as (Hm & Htt & Ha & Hdb).
  destruct (push_loop_spec now us s1 [] (newest l) Hd Hi (sim_seen _ _ _ Hs1)) as [sn ->].
  { rewrite Hm. rewrite <-(sim_mem _ _ _ Hs1), length_fmap in Hc. done. }
  cbn iota. intros Heq. simplify_eq. eexists _, _. split; [done|].
  set (s2 := signalLocked _) in *. change (botAlias s1) with (botAlias s2) in Ha.
  assert (dsk (persist_batch s2 (doc_view <$> us) wall no_faults w) =
    {| update_queue := insert_batch s2 (secs wall) no_faults 4 (doc_view <$> us) (update_queue (dsk w));
       consumer_offsets := consumer_offsets (dsk w) |}) as Hp.
  { unfold persist_batch. simpl. rewrite Hdb. rewrite length_fmap.
    destruct us; [|done]. simpl. by destruct (dsk w). }
  assert (my_rows (dsk (persist_batch s2 (doc_view <$> us) wall no_faults w)) =
    my_rows (dsk w) ++ (mk_row s2 (secs wall) <$> (doc_view <$> us))) as Hrows.
  { rewrite Hp. unfold my_rows. simpl. apply (insert_batch_spec _ _ _ _ _ (newest l) Ha Hi).
    intros r. exact (sim_row_bound _ _ _ r Hs1). }
  destruct (increasing_sorted us _ Hi) as [Hsorted Habove].
  destruct (newest_bound l (sim_sorted _ _ _ Hs1) (sim_above _ _ _ Hs1)) as [Hb1 Hb2].
  destruct Hs1 as [_ _ _ S4 S5 S6 S7 S8 S9 [S10 S11]].
  constructor; simpl; try done.
  - by rewrite fmap_app, S5, enqueue_view.
  - by rewrite Hrows, !fmap_app, S6, mk_row_view.
  - rewrite Hp. simpl. done.
  - apply StronglySorted_app_2; [|done|done]. intros u v Hu Hv.
    rewrite Forall_forall in Hb2, Habove. specialize (Hb2 u Hu). specialize (Habove v Hv). lia.
  - apply Forall_app. split; [done|]. eapply Forall_impl; [exact Habove|]. simpl. intros. lia.
  - split.
    + apply Forall_app. split; [done|]. apply Forall_fmap, Forall_forall. intros u _. simpl. lia.
    + rewrite Hrows. apply Forall_app. split; [done|]. apply Forall_fmap, Forall_forall.
      intros u _. apply (proj1 (secs_lt t0 wall)). lia.
Qed.

(** *** Ack *)

Lemma ack_my_rows n d :
  my_rows (ack_rows alias n d) = bfilter (λ r, n <? r_uid r) (my_rows d).
Proof.
  unfold my_rows, ack_rows, delete_where. simpl. rewrite !bfilter_bfilter.
  apply bfilter_ext. intros r _. destruct (of_alias alias r); simpl; [|done].
  rewrite andb_true_r. by destruct (Z.leb_spec (r_uid r) n), (Z.ltb_spec n (r_uid r)); lia.
Qed.

Lemma ack_sim n s w l :
  sim s w l → ∃ s' w', run_event (EAck n) (s, w) = Some (s', w') ∧ sim s' w' (log_ack n l).
Proof.
  intros Hs. unfold run_event. eexists _, _. split; [apply f_equal, surjective_pairing|].
  pose proof (Ack_wf n no_faults s w (sim_wf _ _ _ Hs)) as Hwf.
  pose proof (Ack_disk n no_faults s w (sim_disk _ _ _ Hs)) as Hdisk.
  destruct (sim_conf _ _ _ Hs) as (Hm & Htt & Ha & Hdb).
  destruct Hs as [S1 S2 _ S4 S5 S6 S7 S8 S9 [S10 S11]].
  set (off := Z.max (acked l) n).
  assert ((if consumerOffset s <? n then n else consumerOffset s) = off) as Hoff.
  { rewrite S4. unfold off. destruct (Z.ltb_spec (acked l) n); lia. }
  constructor; try done.
  - unfold Ack. simpl. rewrite Hoff, (drop_while_sorted UpdateID off).
    + rewrite <-S5. symmetry. apply (bfilter_fmap mem_view).
    + rewrite <-S5 in S8. by apply StronglySorted_fmap_inv in S8.
  - unfold Ack. simpl. rewrite Hdb, Ha, Hoff. simpl.
    change (my_rows (ack_offset alias off (ack_rows alias off (dsk w))))
      with (my_rows (ack_rows alias off (dsk w))). rewrite ack_my_rows.
    transitivity (bfilter (λ v : Z * json_text, off <? fst v) (row_view <$> my_rows (dsk w))).
    { symmetry. apply (bfilter_fmap row_view). }
    rewrite S6. apply (bfilter_fmap doc_view).
  - unfold Ack. simpl. rewrite Hdb, Ha, Hoff. simpl. rewrite row_of_upsert by done.
    unfold has_key. rewrite bool_decide_true by done.
    destruct (row_of fst alias _) as [[]|]; done.
  - by apply StronglySorted_bfilter.
  - apply Forall_forall. intros u [_ Hu]%elem_of_bfilter. simpl. fold off. lia.
  - unfold Ack. simpl. rewrite Hdb, Ha, Hoff. simpl. split.
    + apply Forall_forall. intros e He%elem_of_drop_while. rewrite Forall_forall in S10. by apply S10.
    + change (my_rows (ack_offset alias off (ack_rows alias off (dsk w))))
        with (my_rows (ack_rows alias off (dsk w))). rewrite ack_my_rows.
      apply Forall_forall. intros r [Hr _]%elem_of_bfilter. rewrite Forall_forall in S11. by apply S11.
Qed.

(** *** Restart *)

Lemma load_rows_spec now rows us s h n :
  row_view <$> rows = doc_view <$> us →
  ∃ sn es, load_rows now rows s h n = (with_mem s (q s ++ es) sn, h, n + Z.of_nat (length us)) ∧
    mem_view <$> es = us ∧ Forall2 (λ e r, Enqueued e = backfill now (r_at r)) es rows.
Proof.
  revert us s n. induction rows as [|r rows IH]; intros [|u us] s n Heq; csimpl in *; try done.
  - exists (seen s), []. rewrite app_nil_r, Z.add_0_r. split_ands; [by destruct s|done|constructor].
  - injection Heq as Hu1 Hu2 Heq. rewrite Hu2. simpl.
    set (e := {| UpdateID := r_uid r; Update := snd u; Enqueued := backfill now (r_at r) |}).
    destruct (IH us (with_mem s (q s ++ [e]) ({[r_uid r]} ∪ seen s)) (n + 1) Heq)
      as (sn & es & -> & Hes & Hf).
    exists sn, (e :: es). split_ands.
    + unfold with_mem. simpl. rewrite <-(assoc_L (++)). simpl. f_equal. lia.
    + csimpl. rewrite Hes. f_equal. unfold mem_view, e. simpl. rewrite Hu1. by destruct u.
    + by constructor.
Qed.

(** A stored row of the alias is a pending update. *)
Lemma row_pending s w l r : sim s w l → r ∈ my_rows (dsk w) → acked l < r_uid r.
Proof.
  intros [_ _ _ _ _ S6 _ _ S9 _] Hr.
  assert (row_view r ∈ doc_view <$> pending l) as Hv by (rewrite <-S6; by apply list_elem_of_fmap_2).
  apply list_elem_of_fmap in Hv as (u & Hv & Hu). rewrite Forall_forall in S9. specialize (S9 u Hu). injection Hv as Hv _. lia.
Qed.

Lemma rows_ordered s w l : sim s w l → StronglySorted (λ x y, r_uid x <= r_uid y) (my_rows (dsk w)).
Proof.
  intros [_ _ _ _ _ S6 _ S8 _ _].
  assert (StronglySorted (λ u v, fst u < fst v) (row_view <$> my_rows (dsk w))) as Hss.
  { rewrite S6. clear -S8. induction S8 as [|x p Hs IH Hx]; csimpl; constructor; [done|]. by apply Forall_fmap. }
  apply StronglySorted_fmap_inv in Hss. clear -Hss. induction Hss as [|r rs Hs IH Hx]; constructor; [done|].
  eapply Forall_impl; [exact Hx|]. simpl. intros. lia.
Qed.

(** What a restart reads is what the log holds. *)
Lemma restart_backlog now s w l s1 :
  sim s w l → t0 < now <= t1 → Z.of_nat (length (pending l)) <= cap →
  botAlias s1 = alias → consumerOffset s1 = acked l → maxsize s1 = cap →
  backlog s1 (if qlt 0 ttl then (secs now - ttl)%Q else 0%Q) (dsk w) = my_rows (dsk w).
Proof.
  intros Hs Hn Hc Ea Eo Em. unfold backlog, limit. rewrite Ea, Eo, Em. destruct (Z.ltb_spec cap 0); [lia|].
  set (cutoff := if qlt 0 ttl then _ else _).
  assert (bfilter (λ r, of_alias alias r && (acked l <? r_uid r) && qlt cutoff (r_at r)) (update_queue (dsk w))
    = my_rows (dsk w)) as ->.
  { apply bfilter_ext. intros r Hr. destruct (of_alias alias r) eqn:Er; [|done]. simpl.
    assert (r ∈ my_rows (dsk w)) as Hmy by (by apply elem_of_bfilter). pose proof (row_pending s w l r Hs Hmy).
    destruct Hs as [_ _ _ _ _ _ _ _ _ [_ S11]]. rewrite Forall_forall in S11. specialize (S11 r Hmy).
    rewrite qlt_true; [lia|]. unfold cutoff. destruct (qltP 0 ttl) as [Hlt|_].
    - pose proof (cutoff_old now ltac:(lia) ltac:(lra)). lra.
    - assert (0 <= secs t0)%Q; [|lra]. unfold secs, Qle; simpl. lia. }
  rewrite sort_by_id by (by eapply rows_ordered). apply take_ge. destruct Hs as [_ _ _ _ _ S6 _ _ _ _].
  apply (f_equal length) in S6. rewrite !length_fmap in S6. lia.
Qed.

(** The clean-up of acknowledged rows finds none. *)
Lemma restart_deletes_nothing s w l :
  sim s w l → delete_where (λ r, of_alias alias r && (r_uid r <=? acked l)) (update_queue (dsk w)) = update_queue (dsk w).
Proof.
  intros Hs. apply bfilter_all. intros r Hr. destruct (of_alias alias r) eqn:Er; [|done]. simpl.
  assert (acked l < r_uid r) by (eapply row_pending; [done|by apply elem_of_bfilter]). lia.
Qed.

Lemma restart_sim now s w l :
  sim s w l → t0 < now <= t1 → Z.of_nat (length (pending l)) <= cap →
  ∃ s' w', run_event (ERestart now) (s, w) = Some (s', w') ∧ sim s' w' l.
Proof.
  intros Hs Hn Hc. unfold run_event.
  destruct (sim_conf _ _ _ Hs) as (Hm & Htt & Ha & Hdb). rewrite Hm, Htt, Ha.
  destruct (OpenQueue cap (overflow s) ttl true alias (health s) now no_faults w)
    as [[s' w']|] eqn:Heq; [|done].
  destruct (OpenQueue_wf _ _ _ _ _ _ _ _ _ _ cap_pos (sim_disk _ _ _ Hs) Heq) as [Hwf Hdisk].
  exists s', w'. split; [done|]. revert Heq. unfold OpenQueue. simpl. intros [= Heq].
  pose proof (restart_deletes_nothing s w l Hs) as Hdel.
  pose proof (λ s1, restart_backlog now s w l s1 Hs Hn Hc) as Hb.
  destruct Hs as [_ _ _ S4 S5 S6 S7 S8 S9 [S10 S11]].
  set (s0 := with_db (NewQueue cap (overflow s) ttl alias (health s)) true) in Heq.
  set (s1 := with_offset s0 (acked l)).
  assert (match row_of fst (botAlias s0) (consumer_offsets (dsk w)) with
          | Some (_, off) => if no_faults 0%nat then s0 else with_offset s0 off
          | None => s0 end = s1) as Hs1.
  { simpl. destruct (row_of fst alias _) as [[k o]|]; simpl; [by rewrite S7|]. unfold s1. by rewrite S7. }
  unfold loadFromDB in Heq. rewrite Hs1 in Heq. simpl in Heq. rewrite (Hb s1 eq_refl eq_refl eq_refl) in Heq.
  destruct (load_rows_spec now (my_rows (dsk w)) (pending l) s1 (hs w) 0 S6) as (sn & es & Hl & Hes & Hf).
  rewrite Hl in Heq. simpl in Heq. injection Heq as <- <-.
  simpl in Hdisk. unfold set_rows in *. rewrite Hdel in *. simpl in Hdisk.
  constructor; simpl; try done. split; [|done].
  apply Forall_forall. intros e He. apply list_elem_of_lookup in He as [i Hi].
  destruct (Forall2_lookup_l _ _ _ _ _ Hf Hi) as (r & Hr & ->).
  apply backfill_after; [lia|]. rewrite Forall_forall in S11.
  apply S11. by apply list_elem_of_lookup_2 in Hr.
Qed.

Lemma run_sim es s w l :
  sim s w l → Z.of_nat (length (pending l)) <= cap → admissible t0 t1 cap es l = true →
  ∃ s' w', run es (s, w) = Some (s', w') ∧ sim s' w' (fold_left (λ l e, log_event e l) es l).
Proof.
  revert s w l. induction es as [|e es IH]; intros s w l Hs Hc; cbn [run admissible fold_left]; [by eauto|].
  rewrite andb_true_iff. intros [He Hes].
  assert (∃ s1 w1, run_event e (s, w) = Some (s1, w1) ∧ sim s1 w1 (log_event e l)) as (s1 & w1 & -> & Hs1).
  { destruct e as [now wall us|n|now].
    - rewrite !andb_true_iff in He. destruct He as (((((H1 & H2) & H3) & H4) & H5) & H6).
      apply push_sim; [done|lia|lia|lia|done|done|by apply Z.leb_le].
    - by apply ack_sim.
    - rewrite andb_true_iff in He. apply restart_sim; [done|lia|done]. }
  apply IH; [done| |done].
  destruct e as [now wall us|n|now]; simpl; [|pose proof (bfilter_length (λ u, Z.max (acked l) n <? fst u) (pending l)); lia|done].
  rewrite !andb_true_iff in He. destruct He as [_ He]. rewrite length_app. by apply Z.leb_le.
Qed.
End simulation.

(** Crash points of [Ack]: before its SQL, between the two statements, after. *)
Definition ack_crash_points (a : string) (n : Z) (d : disk) : list disk :=
  [d; ack_rows a n d; ack_offset a n (ack_rows a n d)].

(** C1. The queue is a durable log: over any run of poller batches, consumer
    acks and process restarts shorter than the update TTL, in which Telegram's
    ids increase and the bound is respected, the implementation never fails
    and its deliverable updates and acknowledged offset are exactly those of
    the specification, where a restart is the identity.  In particular no
    unacked update is lost and no acked one comes back across a crash. *)
Theorem queue_refines_durable_log t0 t1 alias cap ttl over h es :
  0 <= t0 → 1 <= cap → (ttl <= 0)%Q ∨ (secs (t1 - t0) < ttl)%Q →
  admissible t0 t1 cap es log_empty = true →
  ∃ s w, run es (with_db (NewQueue cap over ttl alias h) true, w_empty) = Some (s, w) ∧
    let l := fold_left (λ l e, log_event e l) es log_empty in
    consumerOffset s = acked l ∧
    pull_scan (Z.of_nat (length (pending l))) s = snd <$> pending l ∧
    (λ e, (UpdateID e, Update e)) <$> q s = pending l.
Proof.
  intros Ht Hc Hshort Hadm.
  destruct (run_sim t0 t1 Ht alias cap ttl Hc Hshort es
    (with_db (NewQueue cap over ttl alias h) true) w_empty log_empty) as (s & w & Hrun & Hs).
  - constructor; simpl; try done; try (by repeat constructor).
    constructor; simpl; try done; try constructor; try lia.
  - simpl. lia.
  - done.
  - exists s, w. split; [done|]. destruct Hs as [_ _ _ S4 S5 _ _ _ S9 _]. cbn zeta.
    split_ands; [done| |done]. unfold pull_scan. rewrite S4, bfilter_all.
    + rewrite <-S5 at 2. rewrite <-list_fmap_compose. rewrite take_ge; [done|].
      rewrite length_fmap. apply (f_equal length) in S5. rewrite length_fmap in S5. lia.
    + intros e He. rewrite Forall_forall in S9. apply Z.ltb_lt, (S9 (mem_view e)).
      rewrite <-S5. by apply list_elem_of_fmap_2.
Qed.

Definition run_demo : list event :=
  [EPush 1001 1002 [(7, upd 7); (8, upd 8)]; ERestart 1003; EAck 7;
   EPush 1004 1005 [(9, upd 9)]; ERestart 1006].

Lemma queue_refines_durable_log_witness :
  ∃ s w, run run_demo (with_db (NewQueue 10 "drop_oldest" 3600 "b1" true) true, w_empty) = Some (s, w) ∧
    consumerOffset s = 7 ∧ pull_scan 2 s = [upd 8; upd 9].
Proof.
  destruct (queue_refines_durable_log 1000 2000 "b1" 10 3600 "drop_oldest" true run_demo)
    as (s & w & Hrun & Hoff & Hscan & _).
  - lia.
  - lia.
  - right. vm_compute. reflexivity.
  - vm_compute. reflexivity.
  - exists s, w. split; [exact Hrun|]. split; [exact Hoff|exact Hscan].
Defined.

(** Dying inside [Ack] loses nothing: at every crash point of its two SQL
    statements, the rows of the alias above the acked id and all rows of other
    aliases are untouched, and from the first statement on no acked row is
    left to be redelivered. *)
Theorem ack_crash_safe a n d d' :
  d' ∈ ack_crash_points a n d →
  (∀ r, r_alias r = a → n < r_uid r → (r ∈ update_queue d' ↔ r ∈ update_queue d)) ∧
  (∀ r, r_alias r ≠ a → (r ∈ update_queue d' ↔ r ∈ update_queue d)) ∧
  (d' ≠ d → ∀ r, r ∈ update_queue d' → r_alias r = a → n < r_uid r).
Proof.
  intros Hd.
  assert (∀ r, r ∈ update_queue (ack_rows a n d) ↔
    r ∈ update_queue d ∧ (r_alias r = a → n < r_uid r)) as Hrows.
  { intros r. unfold ack_rows, of_alias. simpl. rewrite elem_of_delete.
    destruct (String.eqb_spec (r_alias r) a); simpl.
    - destruct (Z.leb_spec (r_uid r) n); naive_solver lia.
    - naive_solver. }
  repeat (apply elem_of_cons in Hd as [->|Hd]); [naive_solver| | |by apply elem_of_nil in Hd];
    change (update_queue (ack_offset a n (ack_rows a n d))) with (update_queue (ack_rows a n d)) in *;
    split_ands; intros; rewrite ?Hrows in *; naive_solver.
Qed.

Definition ack_demo : disk :=
  {| update_queue := [{| r_alias := "b1"; r_uid := 7; r_json := JBad ""; r_at := 0 |};
                      {| r_alias := "b1"; r_uid := 8; r_json := JBad ""; r_at := 0 |}];
     consumer_offsets := [] |}.

Lemma ack_crash_safe_witness :
  (∀ r, r_alias r = "b1" → 7 < r_uid r → (r ∈ update_queue (ack_rows "b1" 7 ack_demo) ↔ r ∈ update_queue ack_demo)) ∧
  (∀ r, r_alias r ≠ "b1" → (r ∈ update_queue (ack_rows "b1" 7 ack_demo) ↔ r ∈ update_queue ack_demo)) ∧
  (ack_rows "b1" 7 ack_demo ≠ ack_demo →
   ∀ r, r ∈ update_queue (ack_rows "b1" 7 ack_demo) → r_alias r = "b1" → 7 < r_uid r).
Proof. apply (ack_crash_safe "b1" 7 ack_demo (ack_rows "b1" 7 ack_demo)). right. left. Defined.
