(* ===== verification/Idempotency.v ===== *)
(** * Send idempotency

    The claim / finish / fail protocol on the [idempotency_keys] table, which
    internal/store/gateway.go and internal/store/mt.go run with the same SQL.
    [claim_entry], [finish_entry] and [fail_entry] are the per-key automaton
    the protocol means to implement; the class [IdemStore] is what a store
    promises to the proxies that use it, and [grants_apart] and
    [finish_suppresses] are proved against the class, so they hold of every store that has an
    instance. *)
From Stdlib Require Import QArith Lqa.
From stdpp Require Import base list strings gmap.
From S2P Require Import Prelude Sql.
Open Scope Z_scope.

Inductive claim_state := Pending | Done.

#[export] Instance claim_state_eq_dec : EqDecision claim_state.
Proof. solve_decision. Defined.

(** A row of [idempotency_keys]; primary key (alias, key). *)
Record idem_row := { i_alias : string; i_key : string; i_state : claim_state; i_seen : Q }.

Definition idem_pk (r : idem_row) : string * string := (i_alias r, i_key r).

Definition IdempotencyTTL : Q := 300.

Definition StalePendingS : Q := 60.

Definition is_pending (r : idem_row) : bool := bool_decide (i_state r = Pending).

Definition touch (now : Q) (r : idem_row) : idem_row :=
  {| i_alias := i_alias r; i_key := i_key r; i_state := i_state r; i_seen := now |}.

Definition set_done (now : Q) (r : idem_row) : idem_row :=
  {| i_alias := i_alias r; i_key := i_key r; i_state := Done; i_seen := now |}.

(** ** The three statements of [IdempotencyClaim], and the other two calls *)

Definition expire_key (now : Q) (k : string * string) : list idem_row → list idem_row :=
  delete_where (λ r, has_key idem_pk k r && qlt (i_seen r) (now - IdempotencyTTL)%Q).

Definition fresh_claim (now : Q) (k : string * string) : idem_row :=
  {| i_alias := k.1; i_key := k.2; i_state := Pending; i_seen := now |}.

Definition reclaimable (now : Q) (k : string * string) (r : idem_row) : bool :=
  has_key idem_pk k r && (is_pending r && qlt (i_seen r) (now - StalePendingS)%Q).

Definition sql_claim (now : Q) (f : faults) (k : string * string) (t : list idem_row)
    : string * list idem_row :=
  let t1 := if f 0%nat then t else expire_key now k t in
  let t2 := if f 1%nat then t1 else insert_or_ignore idem_pk (fresh_claim now k) t1 in
  if negb (f 1%nat) && negb (existsb (has_key idem_pk k) t1) then ("claimed", t2) else
  let t3 := if f 2%nat then t2 else update_where (reclaimable now k) (touch now) t2 in
  if negb (f 2%nat) && (count_where (reclaimable now k) t2 =? 1) then ("reclaimed", t3)
  else ("replay", t3).

Definition sql_finish (now : Q) (f : faults) (k : string * string) (t : list idem_row)
    : list idem_row :=
  if f 0%nat then t else update_where (has_key idem_pk k) (set_done now) t.

Definition sql_fail (f : faults) (k : string * string) (t : list idem_row) : list idem_row :=
  if f 0%nat then t else delete_where (λ r, has_key idem_pk k r && is_pending r) t.

Definition granted (r : string) : bool := (r =? "claimed")%string || (r =? "reclaimed")%string.

(** ** The per-key automaton *)

Abbreviation entry := (claim_state * Q)%type.

Definition entry_of (r : idem_row) : entry := (i_state r, i_seen r).

Definition entry_view (t : list idem_row) (k : string * string) : option entry :=
  entry_of <$> row_of idem_pk k t.

Definition unexpired (now : Q) (e : option entry) : option entry :=
  match e with
  | Some (st, t) => if qlt t (now - IdempotencyTTL)%Q then None else e
  | None => None
  end.

Definition claim_entry (now : Q) (f : faults) (e : option entry) : string * option entry :=
  match (if f 0%nat then e else unexpired now e) with
  | None => if f 1%nat then ("replay", None) else ("claimed", Some (Pending, now))
  | Some (st, t) =>
      if negb (f 2%nat) && (bool_decide (st = Pending) && qlt t (now - StalePendingS)%Q)
      then ("reclaimed", Some (st, now)) else ("replay", Some (st, t))
  end.

Definition finish_entry (now : Q) (f : faults) (e : option entry) : option entry :=
  match e with
  | Some (st, t) => if f 0%nat then e else Some (Done, now)
  | None => None
  end.

Definition fail_entry (f : faults) (e : option entry) : option entry :=
  match e with
  | Some (Pending, _) => if f 0%nat then e else None
  | _ => e
  end.

(** What a store with send idempotency promises. *)
Class IdemStore (S : Type) := {
  idem_claim : Z → faults → string → string → S → string * S;
  idem_finish : Z → faults → string → string → S → S;
  idem_fail : faults → string → string → S → S;
  idem_wf : S → Prop;
  idem_view : S → string * string → option entry;
  idem_claim_law now f a k s :
    idem_wf s →
    idem_wf (idem_claim now f a k s).2 ∧
    (idem_claim now f a k s).1 = (claim_entry (secs now) f (idem_view s (a, k))).1 ∧
    ∀ k', idem_view (idem_claim now f a k s).2 k' =
      if decide (k' = (a, k)) then (claim_entry (secs now) f (idem_view s (a, k))).2
      else idem_view s k';
  idem_finish_law now f a k s :
    idem_wf s →
    idem_wf (idem_finish now f a k s) ∧
    ∀ k', idem_view (idem_finish now f a k s) k' =
      if decide (k' = (a, k)) then finish_entry (secs now) f (idem_view s (a, k)) else idem_view s k';
  idem_fail_law f a k s :
    idem_wf s →
    idem_wf (idem_fail f a k s) ∧
    ∀ k', idem_view (idem_fail f a k s) k' =
      if decide (k' = (a, k)) then fail_entry f (idem_view s (a, k)) else idem_view s k'
}.

(** ** The SQL implements the automaton *)

Lemma view_expire now k t k' :
  keyed idem_pk t →
  entry_view (expire_key now k t) k' =
  if decide (k' = k) then unexpired now (entry_view t k) else entry_view t k'.
Proof.
  intros Ht. unfold entry_view, expire_key. rewrite row_of_delete by done.
  destruct (row_of idem_pk k' t) as [r|] eqn:E.
  - apply row_of_Some in E as Hr. destruct Hr as [_ Hr]. unfold has_key.
    destruct (decide (k' = k)) as [->|Hne].
    + rewrite E, bool_decide_true by done. simpl. by destruct (qlt _ _).
    + rewrite bool_decide_false by congruence. done.
  - destruct (decide (k' = k)) as [->|]; [by rewrite E|done].
Qed.

Lemma view_insert now k t k' :
  entry_view (insert_or_ignore idem_pk (fresh_claim now k) t) k' =
  match entry_view t k' with
  | Some e => Some e
  | None => if decide (k' = k) then Some (Pending, now) else None
  end.
Proof.
  unfold entry_view. rewrite row_of_insert. destruct (row_of idem_pk k' t) as [r|]; [done|].
  unfold has_key, idem_pk at 1. destruct k as [a k]. simpl.
  destruct (decide (k' = (a, k))) as [->|]; [by rewrite bool_decide_true|].
  by rewrite bool_decide_false.
Qed.

Lemma view_update p g t k :
  (∀ r, idem_pk (g r) = idem_pk r) →
  entry_view (update_where p g t) k = (λ r, entry_of (if p r then g r else r)) <$> row_of idem_pk k t.
Proof.
  intros Hg. unfold entry_view. rewrite row_of_update by done. by destruct (row_of idem_pk k t).
Qed.

Lemma existsb_view k t : existsb (has_key idem_pk k) t = bool_decide (is_Some (entry_view t k)).
Proof.
  unfold entry_view. destruct (row_of idem_pk k t) eqn:E; simpl.
  - apply existsb_key. apply row_of_Some in E as [H <-]. by apply list_elem_of_fmap_2.
  - by apply existsb_key_false, row_of_None.
Qed.

Lemma touch_pk now r : idem_pk (touch now r) = idem_pk r.
Proof. done. Qed.

Lemma set_done_pk now r : idem_pk (set_done now r) = idem_pk r.
Proof. done. Qed.

#[export] Hint Resolve touch_pk set_done_pk : gw.

Lemma sql_claim_keyed now f k t : keyed idem_pk t → keyed idem_pk (sql_claim now f k t).2.
Proof.
  intros Ht. unfold sql_claim.
  assert (keyed idem_pk (if f 0%nat then t else expire_key now k t)) as H1.
  { destruct (f 0%nat); [done|]. by apply delete_keyed. }
  revert H1. generalize (if f 0%nat then t else expire_key now k t). intros t1 H1.
  assert (keyed idem_pk (if f 1%nat then t1 else insert_or_ignore idem_pk (fresh_claim now k) t1)) as H2.
  { destruct (f 1%nat); [done|]. by apply insert_keyed. }
  repeat case_match; simpl; try done; by apply update_keyed.
Qed.

(** The statement that takes over a stale claim, on a table without the key. *)
Lemma reclaim_absent now k t :
  row_of idem_pk k t = None →
  count_where (reclaimable now k) t = 0 ∧ update_where (reclaimable now k) (touch now) t = t.
Proof.
  intros Hn. assert (∀ r, r ∈ t → reclaimable now k r = false) as Hno.
  { intros r Hr. unfold reclaimable, has_key. apply row_of_None in Hn.
    rewrite bool_decide_false; [done|]. intros <-. apply Hn. by apply list_elem_of_fmap_2. }
  split; [unfold count_where; by rewrite bfilter_none|].
  unfold update_where. rewrite <-(List.map_id t) at 2. apply List.map_ext_in. intros r Hr.
  rewrite Hno; [done|by apply list_elem_of_In].
Qed.

(** ... and on a table with it. *)
Lemma reclaim_present now k t r :
  keyed idem_pk t → row_of idem_pk k t = Some r →
  let b := is_pending r && qlt (i_seen r) (now - StalePendingS)%Q in
  (count_where (reclaimable now k) t =? 1) = b ∧
  ∀ k', entry_view (update_where (reclaimable now k) (touch now) t) k'
    = if decide (k' = k) then Some (i_state r, if b then now else i_seen r) else entry_view t k'.
Proof.
  intros Ht Er b. unfold reclaimable. split.
  - rewrite count_key_one by done. rewrite Er. fold b. by destruct b.
  - intros k'. rewrite view_update by done. destruct (decide (k' = k)) as [->|Hne].
    + rewrite Er. simpl. unfold has_key. apply row_of_Some in Er as [_ Er].
      rewrite bool_decide_true by done. fold b. by destruct b.
    + unfold entry_view. destruct (row_of idem_pk k' t) as [r'|] eqn:Er'; [|done]. simpl.
      apply row_of_Some in Er' as [_ Er']. unfold has_key. by rewrite bool_decide_false by congruence.
Qed.

Lemma insert_present now k t r :
  row_of idem_pk k t = Some r → insert_or_ignore idem_pk (fresh_claim now k) t = t.
Proof.
  intros Er. unfold insert_or_ignore. replace (idem_pk (fresh_claim now k)) with k by (by destruct k).
  rewrite existsb_view. unfold entry_view. by rewrite Er.
Qed.

Lemma sql_claim_view now f k t :
  keyed idem_pk t →
  (sql_claim now f k t).1 = (claim_entry now f (entry_view t k)).1 ∧
  ∀ k', entry_view (sql_claim now f k t).2 k' =
    if decide (k' = k) then (claim_entry now f (entry_view t k)).2 else entry_view t k'.
Proof.
  intros Ht. unfold sql_claim, claim_entry.
  set (t1 := if f 0%nat then t else expire_key now k t).
  assert (keyed idem_pk t1) as Ht1 by (unfold t1; destruct (f 0%nat); [done|by apply delete_keyed]).
  assert (∀ k', entry_view t1 k' =
    if decide (k' = k) then (if f 0%nat then entry_view t k else unexpired now (entry_view t k))
    else entry_view t k') as Hv1.
  { intros k'. unfold t1. destruct (f 0%nat); [by destruct (decide _) as [->|]|by apply view_expire]. }
  pose proof (Hv1 k) as Hk. rewrite decide_True in Hk by done. rewrite <-Hk in *. rewrite existsb_view.
  assert (∀ k' (x : option entry), (if decide (k' = k) then x else entry_view t1 k') = if decide (k' = k) then x else entry_view t k') as Hout
    by (intros k' x; rewrite Hv1; by destruct (decide (k' = k))).
  destruct (row_of idem_pk k t1) as [r|] eqn:Er.
  - assert (entry_view t1 k = Some (i_state r, i_seen r)) as E1 by (unfold entry_view; by rewrite Er).
    rewrite E1 in *. simpl. rewrite andb_false_r.
    assert ((if f 1%nat then t1 else insert_or_ignore idem_pk (fresh_claim now k) t1) = t1) as ->
      by (destruct (f 1%nat); [done|by eapply insert_present]).
    destruct (reclaim_present now k t1 r Ht1 Er) as [-> Hu]. fold (is_pending r).
    destruct (f 2%nat); simpl; [done|]. set (b := is_pending r && _) in *.
    split; [by destruct b|]. intros k'. transitivity (entry_view (update_where (reclaimable now k) (touch now) t1) k'); [by destruct b|].
    rewrite Hu, Hout. by destruct b.
  - assert (entry_view t1 k = None) as E1 by (unfold entry_view; by rewrite Er). rewrite E1 in *. simpl. rewrite andb_true_r.
    destruct (reclaim_absent now k t1 Er) as [Hc Hu]. destruct (f 1%nat) eqn:F1; simpl.
    + rewrite Hc, Hu, andb_false_r. split; [done|]. simpl. intros k'. transitivity (entry_view t1 k'); [by destruct (f 2%nat)|]. apply Hv1.
    + split; [done|]. intros k'. rewrite view_insert, Hv1.
      destruct (decide (k' = k)) as [->|]; [done|]. by destruct (entry_view t k').
Qed.

Lemma sql_finish_view now f k t k' :
  entry_view (sql_finish now f k t) k' =
  if decide (k' = k) then finish_entry now f (entry_view t k) else entry_view t k'.
Proof.
  unfold sql_finish, finish_entry. destruct (f 0%nat).
  { destruct (decide (k' = k)) as [->|]; [by destruct (entry_view t k) as [[? ?]|]|done]. }
  rewrite view_update by done. unfold entry_view.
  destruct (row_of idem_pk k' t) as [r|] eqn:E; simpl.
  - apply row_of_Some in E as Hr. destruct Hr as [_ Hr]. unfold has_key.
    destruct (decide (k' = k)) as [->|]; [by rewrite E, bool_decide_true|by rewrite bool_decide_false by congruence].
  - destruct (decide (k' = k)) as [->|]; [by rewrite E|done].
Qed.

Lemma sql_fail_view f k t k' :
  keyed idem_pk t →
  entry_view (sql_fail f k t) k' =
  if decide (k' = k) then fail_entry f (entry_view t k) else entry_view t k'.
Proof.
  intros Ht. unfold sql_fail, fail_entry. destruct (f 0%nat).
  { destruct (decide (k' = k)) as [->|]; [by destruct (entry_view t k) as [[[] ?]|]|done]. }
  unfold entry_view. rewrite row_of_delete by done.
  destruct (row_of idem_pk k' t) as [r|] eqn:E; simpl.
  - apply row_of_Some in E as Hr. destruct Hr as [_ Hr]. unfold has_key, is_pending.
    destruct (decide (k' = k)) as [->|].
    + rewrite E, bool_decide_true by done. by destruct r as [? ? [] ?].
    + by rewrite bool_decide_false by congruence.
  - destruct (decide (k' = k)) as [->|]; [|done]. by rewrite E.
Qed.

(** ** Exclusivity, for any store with the interface *)

Inductive iop :=
| IClaim (now : Z) (f : faults) (a k : string)
| IFinish (now : Z) (f : faults) (a k : string)
| IFail (now : Z) (f : faults) (a k : string).

Definition op_time (o : iop) : Z :=
  match o with IClaim now _ _ _ | IFinish now _ _ _ | IFail now _ _ _ => now end.

Definition op_key (o : iop) : string * string :=
  match o with IClaim _ _ a k | IFinish _ _ a k | IFail _ _ a k => (a, k) end.

Definition is_fail_of (k : string * string) (o : iop) : bool :=
  match o with IFail _ _ a k' => bool_decide ((a, k') = k) | _ => false end.

(** The clock does not step back during the run. *)
Fixpoint times_from (c : Z) (ops : list iop) : bool :=
  match ops with
  | [] => true
  | o :: ops' => (c <=? op_time o) && times_from (op_time o) ops'
  end.

Definition last_time (c : Z) (ops : list iop) : Z :=
  default c (op_time <$> last ops).

Lemma last_time_cons c o ops : last_time c (o :: ops) = last_time (op_time o) ops.
Proof.
  unfold last_time. destruct ops as [|o' ops']; [done|]. rewrite last_cons_cons.
  destruct (last (o' :: ops')) eqn:El; [done|]. by apply last_None in El.
Qed.

Lemma times_from_snoc c ops o :
  times_from c (ops ++ [o]) = true → times_from c ops = true ∧ last_time c ops <= op_time o.
Proof.
  revert c. induction ops as [|o' ops IH]; intros c; simpl; [unfold last_time; simpl; lia|].
  rewrite !andb_true_iff, last_time_cons. intros [Ho Ht]. destruct (IH _ Ht). split; [by split|done].
Qed.

Section exclusivity.
Context {S : Type} `{IdemStore S}.

(** One call and whether it granted a claim. *)
Definition istep (o : iop) (s : S) : bool * S :=
  match o with
  | IClaim now f a k => let '(r, s') := idem_claim now f a k s in (granted r, s')
  | IFinish now f a k => (false, idem_finish now f a k s)
  | IFail _ f a k => (false, idem_fail f a k s)
  end.

Fixpoint irun (ops : list iop) (s : S) : S :=
  match ops with
  | [] => s
  | o :: ops' => irun ops' (istep o s).2
  end.

Definition step_entry (o : iop) (e : option entry) : option entry :=
  match o with
  | IClaim now f _ _ => (claim_entry (secs now) f e).2
  | IFinish now f _ _ => finish_entry (secs now) f e
  | IFail _ f _ _ => fail_entry f e
  end.

Lemma istep_view o s :
  idem_wf s →
  idem_wf (istep o s).2 ∧
  ∀ k, idem_view (istep o s).2 k =
    if decide (k = op_key o) then step_entry o (idem_view s k) else idem_view s k.
Proof.
  intros Hwf. destruct o as [now f a k|now f a k|now f a k]; simpl.
  - pose proof (idem_claim_law now f a k s Hwf) as (H1 & _ & H3).
    destruct (idem_claim now f a k s) as [r s']. simpl in *. split; [done|].
    intros k'. rewrite H3. destruct (decide _) as [->|]; done.
  - pose proof (idem_finish_law now f a k s Hwf) as (H1 & H3). split; [done|].
    intros k'. rewrite H3. destruct (decide _) as [->|]; done.
  - pose proof (idem_fail_law f a k s Hwf) as (H1 & H3). split; [done|].
    intros k'. rewrite H3. destruct (decide _) as [->|]; done.
Qed.

Lemma istep_grant now f a k s :
  idem_wf s →
  (istep (IClaim now f a k) s).1 = granted (claim_entry (secs now) f (idem_view s (a, k))).1.
Proof.
  intros Hwf. simpl. pose proof (idem_claim_law now f a k s Hwf) as (_ & H2 & _).
  destruct (idem_claim now f a k s) as [r s']. simpl in *. by rewrite H2.
Qed.

(** [guarded t d p c e]: the entry still carries a mark satisfying [p] made
    at [t] or later, or [d] seconds have passed since. *)
Definition guarded (t : Q) (d : Q) (p : claim_state → bool) (c : Q) (e : option entry) : Prop :=
  (∃ st u, e = Some (st, u) ∧ p st = true ∧ (t <= u)%Q) ∨ (t + d < c)%Q.

Lemma guarded_step t d p c o e :
  (d <= 300)%Q → (secs t <= c)%Q → (c <= secs (op_time o))%Q →
  p Done = true →
  (p Pending = true → match o with IFail _ _ _ _ => false | _ => true end = true) →
  guarded (secs t) d p c e → guarded (secs t) d p (secs (op_time o)) (step_entry o e).
Proof.
  intros Hd Htc Hc Hdone Hp [(st & u & -> & Hst & Hu)|Hlate]; [|right; lra].
  destruct o as [now f a k|now f a k|now f a k]; simpl in *.
  - unfold claim_entry. destruct (f 0%nat) eqn:F0.
    + destruct (negb (f 2%nat) && _); left; eexists _, _; split; [reflexivity| |reflexivity|]; split; try done; lra.
    + unfold unexpired. destruct (qltP u (secs now - IdempotencyTTL)) as [Hx|Hx].
      * right. unfold IdempotencyTTL in Hx. lra.
      * destruct (negb (f 2%nat) && _); left; eexists _, _; split; [reflexivity| |reflexivity|]; split; try done; lra.
  - destruct (f 0%nat); left; eexists _, _; split; [reflexivity| |reflexivity|]; split; try done; lra.
  - destruct st; simpl.
    + rewrite Hst in Hp. by specialize (Hp eq_refl).
    + left. eexists _, _. done.
Qed.

Lemma guarded_run t d p ops c s k :
  (d <= 300)%Q → t <= c → times_from c ops = true → p Done = true →
  (p Pending = true → forallb (λ o, negb (is_fail_of k o)) ops = true) →
  idem_wf s → guarded (secs t) d p (secs c) (idem_view s k) →
  idem_wf (irun ops s) ∧ guarded (secs t) d p (secs (last_time c ops)) (idem_view (irun ops s) k)
  ∧ c <= last_time c ops.
Proof.
  intros Hd. revert c s. induction ops as [|o ops IH]; intros c s Htc Hts Hdone Hp Hwf Hg.
  { simpl. split_ands; [done|done|]. unfold last_time. simpl. lia. }
  simpl in Hts. apply andb_true_iff in Hts as [Ho Hts].
  destruct (istep_view o s Hwf) as [Hwf' Hv].
  rewrite last_time_cons.
  destruct (IH (op_time o) (istep o s).2) as (I1 & I2 & I3); try done; try lia.
  - intros Hpp. specialize (Hp Hpp). simpl in Hp. by apply andb_true_iff in Hp as [_ ?].
  - rewrite Hv. destruct (decide (k = op_key o)) as [->|Hne].
    + apply (guarded_step t d p (secs c)); try done.
      * apply secs_mono. lia.
      * apply secs_mono. lia.
      * intros Hpp. specialize (Hp Hpp). simpl in Hp. apply andb_true_iff in Hp as [Hp _].
        destruct o; try done. simpl in Hp. by rewrite bool_decide_true in Hp.
    + destruct Hg as [Hg|Hg]; [by left|right].
      assert (secs c <= secs (op_time o))%Q by (apply secs_mono; lia). lra.
  - simpl. split_ands; [done|done|lia].
Qed.

Lemma granted_after t d p c e f now :
  (d <= 300)%Q → (p Pending = true → (d <= 60)%Q) → (c <= secs now)%Q →
  guarded (secs t) d p c e → granted (claim_entry (secs now) f e).1 = true →
  (secs t + d < secs now)%Q.
Proof.
  intros Hd Hp Hc [(st & u & -> & Hst & Hu)|Hlate] Hg; [|lra].
  unfold claim_entry in Hg. destruct (f 0%nat).
  - destruct (f 2%nat); simpl in Hg; [done|]. destruct st; simpl in Hg; [|done].
    destruct (qltP u (secs now - StalePendingS)) as [Hx|]; [|done].
    unfold StalePendingS in Hx. specialize (Hp Hst). lra.
  - unfold unexpired in Hg. destruct (qltP u (secs now - IdempotencyTTL)) as [Hx|Hx].
    { unfold IdempotencyTTL in Hx. lra. }
    destruct (f 2%nat); simpl in Hg; [done|]. destruct st; simpl in Hg; [|done].
    destruct (qltP u (secs now - StalePendingS)) as [Hy|]; [|done].
    unfold StalePendingS in Hy. specialize (Hp Hst). lra.
Qed.

Lemma claim_entry_granted now f e :
  granted (claim_entry now f e).1 = true →
  ∃ st, (claim_entry now f e).2 = Some (st, now).
Proof.
  unfold claim_entry. destruct (if f 0%nat then e else unexpired now e) as [[st u]|].
  - destruct (negb (f 2%nat) && _); simpl; [by eauto|done].
  - destruct (f 1%nat); simpl; [done|]. by eauto.
Qed.

(** Two grants of one key, with no release of it in between, are more than
    [StalePendingS] apart. *)
Lemma grants_apart t1 f1 t2 f2 a k mid s :
  idem_wf s → times_from t1 (mid ++ [IClaim t2 f2 a k]) = true →
  forallb (λ o, negb (is_fail_of (a, k) o)) mid = true →
  (istep (IClaim t1 f1 a k) s).1 = true →
  (istep (IClaim t2 f2 a k) (irun mid (istep (IClaim t1 f1 a k) s).2)).1 = true →
  (secs t1 + StalePendingS < secs t2)%Q.
Proof.
  intros Hwf Hts Hno H1 H2. destruct (istep_view (IClaim t1 f1 a k) s Hwf) as [Hwf1 Hv1].
  rewrite istep_grant in H1 by done.
  assert (times_from t1 mid = true ∧ last_time t1 mid <= t2) as [Hts1 Hlast]
    by (by eapply times_from_snoc in Hts).
  destruct (guarded_run t1 60 (λ _, true) mid t1 (istep (IClaim t1 f1 a k) s).2 (a, k)) as (W & G & L);
    try done; try lra.
  { left. rewrite Hv1, decide_True by done. simpl.
    destruct (claim_entry_granted _ _ _ H1) as [st ->]. exists st, (secs t1). split_ands; try done. lra. }
  rewrite istep_grant in H2 by done.
  eapply granted_after; [..|exact G|exact H2]; try lra; try done.
  by apply secs_mono.
Qed.

(** After a completed send no claim of the key is granted for
    [IdempotencyTTL] seconds, whatever else is called. *)
Lemma finish_suppresses t1 t2 f1 f2 a k mid s :
  idem_wf s → times_from t1 (mid ++ [IClaim t2 f2 a k]) = true →
  f1 0%nat = false → is_Some (idem_view s (a, k)) →
  (istep (IClaim t2 f2 a k) (irun mid (istep (IFinish t1 f1 a k) s).2)).1 = true →
  (secs t1 + IdempotencyTTL < secs t2)%Q.
Proof.
  intros Hwf Hts Hf [[st0 u0] Hsome] H2.
  destruct (istep_view (IFinish t1 f1 a k) s Hwf) as [Hwf1 Hv1].
  assert (times_from t1 mid = true ∧ last_time t1 mid <= t2) as [Hts1 Hlast]
    by (by eapply times_from_snoc in Hts).
  destruct (guarded_run t1 300 (λ st, bool_decide (st = Done)) mid t1 (istep (IFinish t1 f1 a k) s).2 (a, k))
    as (W & G & L); try done; try lra.
  { left. rewrite Hv1, decide_True by done. simpl. rewrite Hsome. simpl. rewrite Hf.
    exists Done, (secs t1). split_ands; try done. lra. }
  rewrite istep_grant in H2 by done.
  eapply granted_after; [..|exact G|exact H2]; try lra; try done.
  by apply secs_mono.
Qed.
End exclusivity.
