(* ===== verification/Crypto.v ===== *)
(** * Token and blob encryption (internal/cryptoutil/fernet.go)

    The Fernet primitive is the third-party package fernet-go: it is the class
    [Fernet], with the documented round trips as [FernetLaws].  The key file,
    the at-rest envelope and the error paths are the code's own. *)
From Stdlib Require Import Ascii String.
From stdpp Require Import base list strings gmap.
From S2P Require Import Prelude GoValue.
Open Scope Z_scope.

(** fernet-go: [entropy] is what crypto/rand hands out. *)
Class Fernet := {
  fkey : Type;
  DecodeKey : string → option fkey;
  EncodeKey : fkey → string;
  GenerateK : Z → option fkey;
  EncryptAndSign : Z → string → fkey → option string;
  VerifyAndDecrypt : string → fkey → option string
}.

(** [bytes.TrimSpace] on ASCII text. *)
Definition is_space (c : ascii) : bool :=
  ((9 <=? code c) && (code c <=? 13)) || (code c =? 32).

Fixpoint trim_left (s : string) : string :=
  match s with
  | String c s' => if is_space c then trim_left s' else s
  | EmptyString => s
  end.

Fixpoint trim_right (s : string) : string :=
  match s with
  | String c s' =>
      match trim_right s' with
      | EmptyString => if is_space c then EmptyString else String c EmptyString
      | r => String c r
      end
  | EmptyString => s
  end.

Definition trim_space (s : string) : string := trim_right (trim_left s).

Class FernetLaws `{Fernet} := {
  verify_encrypt r p k c : EncryptAndSign r p k = Some c → VerifyAndDecrypt c k = Some p;
  decode_encode k : DecodeKey (trim_space (EncodeKey k)) = Some k
}.

Section crypto.
Context `{Fernet}.

Record Box := { key : fkey }.

(** The data directory: file name to contents. *)
Definition key_path (dataDir : string) : string := dataDir ++ "/.fernet_key".

(** [f 0]: the read fails although the file may exist; [f 1]: the write fails. *)
Definition LoadKey (explicit dataDir : string) (entropy : Z) (f : nat → bool)
    (fs : gmap string string) : option Box * gmap string string :=
  if negb (explicit =? "")%string then
    match DecodeKey explicit with
    | Some k => (Some {| key := k |}, fs)
    | None => (None, fs)
    end
  else
    match (if f 0%nat then None else fs !! key_path dataDir) with
    | Some raw =>
        match DecodeKey (trim_space raw) with
        | Some k => (Some {| key := k |}, fs)
        | None => (None, fs)
        end
    | None =>
        match GenerateK entropy with
        | None => (None, fs)
        | Some k =>
            if f 1%nat then (None, fs)
            else (Some {| key := k |}, <[key_path dataDir := EncodeKey k]> fs)
        end
    end.

Definition Encrypt (b : Box) (r : Z) (plain : string) : option string :=
  EncryptAndSign r plain (key b).

Definition Decrypt (b : Box) (token : string) : option string :=
  VerifyAndDecrypt token (key b).

Definition GenerateKey (entropy : Z) : option string := EncodeKey <$> GenerateK entropy.

Definition blobEnvelopeV1 : string := "tggw1:".

Definition SealBlob (b : Box) (r : Z) (plain : string) : option string :=
  match Encrypt b r plain with
  | Some token => Some (blobEnvelopeV1 ++ token)%string
  | None => None
  end.

Definition IsSealed (blob : string) : bool := has_prefix blobEnvelopeV1 blob.

Definition OpenBlob (b : Box) (blob : string) : option string :=
  if negb (has_prefix blobEnvelopeV1 blob) then Some blob
  else Decrypt b (sdrop (String.length blobEnvelopeV1) blob).
End crypto.

Arguments Box : clear implicits.
Arguments Box {_}.

Section laws.
Context `{FernetLaws}.

Lemma decrypt_encrypt (b : Box) r p c : Encrypt b r p = Some c → Decrypt b c = Some p.
Proof. apply verify_encrypt. Qed.

Lemma seal_open (b : Box) r p blob : SealBlob b r p = Some blob → OpenBlob b blob = Some p ∧ IsSealed blob = true.
Proof.
  unfold SealBlob, OpenBlob, IsSealed. destruct (Encrypt b r p) as [c|] eqn:E; [|done]. intros [= <-].
  assert (has_prefix blobEnvelopeV1 (blobEnvelopeV1 ++ c) = true) as -> by (by destruct c).
  split; [|done]. simpl. by apply decrypt_encrypt in E.
Qed.

(** At-rest blobs round-trip: a sealed blob opens to the plaintext it
    was sealed from and is recognised as sealed; an unsealed legacy blob is
    returned unchanged; and a sealed blob is never mistaken for plaintext,
    so with a key that does not verify it opening it is an error. *)
Theorem blob_roundtrip (b : Box) r p blob :
  SealBlob b r p = Some blob →
  OpenBlob b blob = Some p ∧ IsSealed blob = true ∧
  (∀ b' : Box, Decrypt b' (sdrop 6 blob) = None → OpenBlob b' blob = None) ∧
  (∀ (b' : Box) legacy, IsSealed legacy = false → OpenBlob b' legacy = Some legacy).
Proof.
  intros Hs. destruct (seal_open b r p blob Hs) as [Ho Hi]. split_ands; [done|done| |].
  - intros b' Hb. unfold OpenBlob, IsSealed in *. by rewrite Hi.
  - intros b' l Hl. unfold OpenBlob, IsSealed in *. by rewrite Hl.
Qed.

(** Once a directory has been opened, opening it again gives the same box and
    leaves the files alone. *)
Lemma LoadKey_again explicit dir ent ent' f f' fs fs' b :
  LoadKey explicit dir ent f fs = (Some b, fs') → f 0%nat = false → f' 0%nat = false →
  LoadKey explicit dir ent' f' fs' = (Some b, fs').
Proof.
  unfold LoadKey. intros HL Hf Hf'. rewrite Hf in HL. rewrite Hf'. destruct (negb _).
  { destruct (DecodeKey explicit); [|done]. by injection HL as <- <-. }
  destruct (fs !! key_path dir) as [raw|] eqn:Efile.
  - destruct (DecodeKey (trim_space raw)) as [k|] eqn:Ek; [|done]. injection HL as <- <-. by rewrite Efile, Ek.
  - destruct (GenerateK ent) as [k|]; [|done]. destruct (f 1%nat); [done|].
    injection HL as <- <-. by rewrite lookup_insert_eq, decode_encode.
Qed.

(** The generated key survives restarts: once a data directory has been
    opened without an explicit key, every later open of it (with any
    entropy) yields the same box and leaves the file alone, so what the
    first process encrypted the later one decrypts. *)
Theorem key_generated_once dir ent ent' f f' fs fs' b r p c :
  LoadKey "" dir ent f fs = (Some b, fs') →
  f 0%nat = false → f' 0%nat = false →
  Encrypt b r p = Some c →
  ∃ b', LoadKey "" dir ent' f' fs' = (Some b', fs') ∧ Decrypt b' c = Some p.
Proof.
  intros HL Hf Hf' HE. exists b. split; [by eapply LoadKey_again|by eapply decrypt_encrypt].
Qed.
End laws.

(** ** A concrete instance: two keys, the token carries its key. *)

Definition toy_text (k : bool) : ascii := if k then "k"%char else "j"%char.

#[export] Instance toy_fernet : Fernet := {|
  fkey := bool;
  DecodeKey s := if (s =? "k")%string then Some true else if (s =? "j")%string then Some false else None;
  EncodeKey k := String (toy_text k) EmptyString;
  GenerateK n := Some (Z.even n);
  EncryptAndSign _ p k := Some (String (toy_text k) p);
  VerifyAndDecrypt c k :=
    match c with String c0 p => if (c0 =? toy_text k)%char then Some p else None | _ => None end
|}.

#[export] Instance toy_fernet_laws : FernetLaws.
Proof.
  split.
  - intros r p k c [= <-]. simpl. by rewrite Ascii.eqb_refl.
  - by intros [].
Qed.

Definition toy_box : @Box toy_fernet := {| key := true |}.

Lemma blob_roundtrip_witness :
  OpenBlob toy_box "tggw1:ksecret" = Some "secret".
Proof. exact (proj1 (blob_roundtrip toy_box 0 "secret" "tggw1:ksecret" eq_refl)). Defined.

Lemma key_generated_once_witness :
  ∃ b', LoadKey "" "/data" 5 (λ _, false) {["/data/.fernet_key" := "k"]}
          = (Some b', {["/data/.fernet_key" := "k"]}) ∧ Decrypt b' "ktok" = Some "tok".
Proof.
  refine (key_generated_once "/data" 4 5 (λ _, false) (λ _, false) ∅
    {["/data/.fernet_key" := "k"]} toy_box 0 "tok" "ktok" _ eq_refl eq_refl eq_refl).
  vm_compute. reflexivity.
Defined.
