(* ===== verification/GatewayStore.v ===== *)
(** * The Bot API plane store (internal/store/gateway.go)

    Registered bots with encrypted tokens and their Telegram offset, the
    FLOOD_WAIT backoff ledger, send idempotency and the admin audit trail.
    Every call takes a [faults] oracle for its statements.  The
    [datetime('now')] column defaults are the instant they render. *)
From Stdlib Require Import QArith Lqa String.
From stdpp Require Import base list strings gmap.
From S2P Require Import Prelude GoValue Sql Idempotency Crypto.
Open Scope Z_scope.

(** ** Tables *)

Record bot := {
  b_alias : string; b_token_enc : string; b_offset : Z; b_created_at : Z; b_paused : Z
}.

Record audit_row := { a_ts : Z; a_action : string; a_alias : string; a_detail : string }.

Record backoff_row := { k_alias : string; k_chat : Z; k_until : Q }.

Definition backoff_pk (r : backoff_row) : string * Z := (k_alias r, k_chat r).

Record gateway := {
  bots : list bot;
  admin_audit : list audit_row;
  chat_backoff : list backoff_row;
  idempotency_keys : list idem_row
}.

Definition gateway_empty : gateway :=
  {| bots := []; admin_audit := []; chat_backoff := []; idempotency_keys := [] |}.

Definition set_bots (g : gateway) (l : list bot) : gateway :=
  {| bots := l; admin_audit := admin_audit g; chat_backoff := chat_backoff g;
     idempotency_keys := idempotency_keys g |}.

Definition set_backoff (g : gateway) (l : list backoff_row) : gateway :=
  {| bots := bots g; admin_audit := admin_audit g; chat_backoff := l;
     idempotency_keys := idempotency_keys g |}.

Definition set_idem (g : gateway) (l : list idem_row) : gateway :=
  {| bots := bots g; admin_audit := admin_audit g; chat_backoff := chat_backoff g;
     idempotency_keys := l |}.

Definition set_audit (g : gateway) (l : list audit_row) : gateway :=
  {| bots := bots g; admin_audit := l; chat_backoff := chat_backoff g;
     idempotency_keys := idempotency_keys g |}.

(** Whole seconds, as [datetime('now')] has them. *)
Definition datetime_now (now : Z) : Z := now / 1000000000.

Definition boolInt (b : bool) : Z := if b then 1 else 0.

(** ** Bots *)

Section bots.
Context `{Fernet}.

(** [None]: the error return; the table is then unchanged. *)
Definition RegisterBot (b : Box) (r now : Z) (f : faults) (alias token : string) (g : gateway)
    : option gateway :=
  match Encrypt b r token with
  | None => None
  | Some enc =>
      if f 0%nat then None else
      Some (set_bots g (upsert b_alias
        {| b_alias := alias; b_token_enc := enc; b_offset := 0;
           b_created_at := datetime_now now; b_paused := 0 |}
        (λ old, {| b_alias := b_alias old; b_token_enc := enc; b_offset := b_offset old;
                   b_created_at := b_created_at old; b_paused := b_paused old |})
        (bots g)))
  end.

Definition GetToken (b : Box) (f : faults) (alias : string) (g : gateway) : option string :=
  if f 0%nat then None else
  match row_of b_alias alias (bots g) with
  | None => None
  | Some r => Decrypt b (b_token_enc r)
  end.
End bots.

Definition DeleteBot (f : faults) (alias : string) (g : gateway) : option (bool * gateway) :=
  if f 0%nat then None else
  Some (0 <? count_where (has_key b_alias alias) (bots g),
        set_bots g (delete_where (has_key b_alias alias) (bots g))).

Definition put_paused (p : bool) (r : bot) : bot :=
  {| b_alias := b_alias r; b_token_enc := b_token_enc r; b_offset := b_offset r;
     b_created_at := b_created_at r; b_paused := boolInt p |}.

Definition SetPaused (f : faults) (alias : string) (paused : bool) (g : gateway) : option gateway :=
  if f 0%nat then None else
  Some (set_bots g (update_where (has_key b_alias alias) (put_paused paused) (bots g))).

Record BotRow := { Alias : string; TelegramOffset : Z; Paused : bool }.

Definition ListBots (f : faults) (g : gateway) : option (list BotRow) :=
  if f 0%nat then None else
  Some (map (λ r, {| Alias := b_alias r; TelegramOffset := b_offset r;
                     Paused := negb (b_paused r =? 0) |}) (bots g)).

(** The list query takes statement 0, the token lookups the following ones. *)
Definition VerifyTokens `{Fernet} (b : Box) (f : faults) (g : gateway) : list string :=
  match ListBots f g with
  | None => []
  | Some bs =>
      snd <$> bfilter (λ p, negb (bool_decide (is_Some (GetToken b (λ _, f (S p.1)) p.2 g))))
        (imap (λ i r, (i, Alias r)) bs)
  end.

Definition GetOffset (f : faults) (alias : string) (g : gateway) : Z :=
  if f 0%nat then 0 else
  match row_of b_alias alias (bots g) with Some r => b_offset r | None => 0 end.

Definition put_offset (off : Z) (r : bot) : bot :=
  {| b_alias := b_alias r; b_token_enc := b_token_enc r; b_offset := off;
     b_created_at := b_created_at r; b_paused := b_paused r |}.

Definition SaveOffset (f : faults) (alias : string) (offset : Z) (g : gateway) : option gateway :=
  if f 0%nat then None else
  Some (set_bots g (update_where (has_key b_alias alias) (put_offset offset) (bots g))).

(** ** Backoff ledger *)

(** A nil [chatID] is the bot-wide egress pause, kept under chat id 0. *)
Definition SaveBackoff (f : faults) (alias : string) (chatID : option Z) (until : Q) (g : gateway)
    : gateway :=
  let chat := default 0 chatID in
  if f 0%nat then g else
  set_backoff g (upsert backoff_pk {| k_alias := alias; k_chat := chat; k_until := until |}
    (λ old, {| k_alias := k_alias old; k_chat := k_chat old; k_until := until |})
    (chat_backoff g)).

Record BackoffRow := { ChatID : Z; PausedUntil : Q }.

Definition LoadBackoffs (now : Z) (f : faults) (alias : string) (g : gateway)
    : list BackoffRow * gateway :=
  let t := if f 0%nat then chat_backoff g
           else delete_where (λ r, (k_alias r =? alias)%string && qle (k_until r) (secs now)) (chat_backoff g) in
  (if f 1%nat then []
   else map (λ r, {| ChatID := k_chat r; PausedUntil := k_until r |})
          (bfilter (λ r, (k_alias r =? alias)%string) t),
   set_backoff g t).

(** ** Idempotency *)

Definition IdempotencyClaim (now : Z) (f : faults) (alias key : string) (g : gateway)
    : string * gateway :=
  let '(r, t) := sql_claim (secs now) f (alias, key) (idempotency_keys g) in (r, set_idem g t).

Definition IdempotencyFinish (now : Z) (f : faults) (alias key : string) (g : gateway) : gateway :=
  set_idem g (sql_finish (secs now) f (alias, key) (idempotency_keys g)).

Definition IdempotencyFail (f : faults) (alias key : string) (g : gateway) : gateway :=
  set_idem g (sql_fail f (alias, key) (idempotency_keys g)).

(** ** Audit *)

Definition Audit (now : Z) (f : faults) (action alias detail : string) (g : gateway) : gateway :=
  if f 0%nat then g else
  set_audit g (admin_audit g ++
    [{| a_ts := datetime_now now; a_action := action; a_alias := alias; a_detail := detail |}]).

Definition GetAudit (f : faults) (limit_ : Z) (g : gateway) : list audit_row :=
  let n := if limit_ <=? 0 then 100 else limit_ in
  if f 0%nat then [] else limit n (reverse (admin_audit g)).

(** The UTF-8 bytes of the horizontal ellipsis. *)
Definition ellipsis : string := String (chr 226) (String (chr 128) (String (chr 166) "")).

Definition TokenSuffix (token : string) : string :=
  let n := String.length token in
  if (4 <=? n)%nat then (ellipsis ++ sdrop (n - 4) token)%string
  else if (token =? "")%string then ellipsis
  else (ellipsis ++ token)%string.

(** ** Invariant: the primary keys *)

Record store_ok (g : gateway) : Prop := {
  ok_bots : keyed b_alias (bots g);
  ok_backoff : keyed backoff_pk (chat_backoff g);
  ok_idem : keyed idem_pk (idempotency_keys g)
}.

Inductive call `{Fernet} : gateway → gateway → Prop :=
| call_register b r now f a tok g g' : RegisterBot b r now f a tok g = Some g' → call g g'
| call_delete f a g ok g' : DeleteBot f a g = Some (ok, g') → call g g'
| call_pause f a p g g' : SetPaused f a p g = Some g' → call g g'
| call_offset f a o g g' : SaveOffset f a o g = Some g' → call g g'
| call_backoff f a c u g : call g (SaveBackoff f a c u g)
| call_load now f a g : call g (LoadBackoffs now f a g).2
| call_claim now f a k g : call g (IdempotencyClaim now f a k g).2
| call_finish now f a k g : call g (IdempotencyFinish now f a k g)
| call_fail f a k g : call g (IdempotencyFail f a k g)
| call_audit now f ac a d g : call g (Audit now f ac a d g).

Lemma gateway_call_ok `{Fernet} g g' : call g g' → store_ok g → store_ok g'.
Proof.
  intros Hc [H1 H2 H3]. destruct Hc as [b r now f a tok g g' E|f a g ok g' E|f a p g g' E|f a o g g' E| | | | | |].
  - unfold RegisterBot in E. destruct (Encrypt _ _ _); [|done]. destruct (f 0%nat); [done|].
    injection E as <-. constructor; simpl; [by apply upsert_keyed|done..].
  - unfold DeleteBot in E. destruct (f 0%nat); [done|]. injection E as <- <-.
    constructor; simpl; [by apply delete_keyed|done..].
  - unfold SetPaused in E. destruct (f 0%nat); [done|]. injection E as <-.
    constructor; simpl; [by apply update_keyed|done..].
  - unfold SaveOffset in E. destruct (f 0%nat); [done|]. injection E as <-.
    constructor; simpl; [by apply update_keyed|done..].
  - unfold SaveBackoff. destruct (f 0%nat); [done|]. constructor; simpl; [done|by apply upsert_keyed|done].
  - constructor; simpl; [done| |done]. destruct (f 0%nat); [done|]. by apply delete_keyed.
  - unfold IdempotencyClaim. pose proof (sql_claim_keyed (secs now) f (a, k) _ H3).
    destruct (sql_claim _ _ _ _) as [r t]. by constructor.
  - constructor; simpl; [done..|]. unfold sql_finish. destruct (f 0%nat); [done|]. by apply update_keyed.
  - constructor; simpl; [done..|]. unfold sql_fail. destruct (f 0%nat); [done|]. by apply delete_keyed.
  - unfold Audit. destruct (f 0%nat); [done|]. by constructor.
Qed.

(** The store implements the idempotency interface. *)
#[export] Program Instance gateway_idem : IdemStore gateway := {|
  idem_claim := IdempotencyClaim;
  idem_finish := IdempotencyFinish;
  idem_fail := IdempotencyFail;
  idem_wf g := keyed idem_pk (idempotency_keys g);
  idem_view g := entry_view (idempotency_keys g)
|}.
Next Obligation.
  intros now f a k g Hg. unfold IdempotencyClaim.
  pose proof (sql_claim_keyed (secs now) f (a, k) _ Hg) as Hk.
  pose proof (sql_claim_view (secs now) f (a, k) _ Hg) as [H1 H2].
  destruct (sql_claim _ _ _ _) as [r t]. done.
Qed.
Next Obligation.
  intros now f a k g Hg. simpl. split; [|intros k'; apply sql_finish_view].
  unfold sql_finish. destruct (f 0%nat); [done|]. by apply update_keyed.
Qed.
Next Obligation.
  intros f a k g Hg. simpl. split; [|intros k'; by apply sql_fail_view].
  unfold sql_fail. destruct (f 0%nat); [done|]. by apply delete_keyed.
Qed.

(** ** The ledger as a map *)

Definition pause (alias : string) (c : Z) (g : gateway) : option Q :=
  k_until <$> row_of backoff_pk (alias, c) (chat_backoff g).

Lemma pause_save f a c u g a' c' :
  f 0%nat = false →
  pause a' c' (SaveBackoff f a c u g) =
  if decide ((a', c') = (a, default 0 c)) then Some u else pause a' c' g.
Proof.
  intros Hf. unfold SaveBackoff, pause. rewrite Hf. simpl. rewrite row_of_upsert by done.
  unfold has_key, backoff_pk at 1. simpl. destruct (decide _) as [->|Hne].
  - rewrite bool_decide_true by done. by destruct (row_of _ _ _).
  - by rewrite bool_decide_false by congruence.
Qed.

Lemma save_ok f a c u g : store_ok g → store_ok (SaveBackoff f a c u g).
Proof. intros Hg. apply (gateway_call_ok (H := toy_fernet) g); [constructor|done]. Qed.

Lemma elem_of_load now f a g c u :
  store_ok g → f 0%nat = false → f 1%nat = false →
  {| ChatID := c; PausedUntil := u |} ∈ (LoadBackoffs now f a g).1 ↔
  pause a c g = Some u ∧ (secs now < u)%Q.
Proof.
  intros [_ Hk _] H0 H1. unfold LoadBackoffs. rewrite H0, H1. simpl.
  rewrite list_elem_of_fmap. unfold pause. split.
  - intros ([a' c' u'] & [= -> ->] & Hr). rewrite elem_of_bfilter, elem_of_delete in Hr. simpl in Hr.
    destruct Hr as [[Hr Hu] Ha]. apply String.eqb_eq in Ha as ->. rewrite String.eqb_refl in Hu. simpl in Hu.
    destruct (row_of backoff_pk (a, c') (chat_backoff g)) as [r'|] eqn:E.
    + pose proof (row_of_Some _ _ _ _ E) as [Hin Hpk].
      assert (r' = {| k_alias := a; k_chat := c'; k_until := u' |}) as ->.
      { apply list_elem_of_lookup in Hin as [i Hi], Hr as [j Hj].
        assert (i = j) as ->; [|congruence].
        eapply (NoDup_lookup (backoff_pk <$> chat_backoff g)); [exact Hk| |].
        - rewrite list_lookup_fmap, Hi. simpl. by rewrite Hpk.
        - by rewrite list_lookup_fmap, Hj. }
      split; [done|]. destruct (qleP u' (secs now)); [done|lra].
    + exfalso. apply row_of_None in E. apply E.
      by apply (list_elem_of_fmap_2 backoff_pk) in Hr.
  - intros [Hp Hu]. destruct (row_of _ _ _) as [[a' c' u']|] eqn:E; [|done]. injection Hp as ->.
    apply row_of_Some in E as [Hin [= -> ->]].
    exists {| k_alias := a; k_chat := c; k_until := u |}. split; [reflexivity|].
    rewrite elem_of_bfilter, elem_of_delete. simpl. rewrite String.eqb_refl. simpl.
    split_ands; [done| |done]. by destruct (qleP u (secs now)); [lra|].
Qed.

Definition save_all (a : string) (saves : list (option Z * Q)) (g : gateway) : gateway :=
  fold_left (λ g s, SaveBackoff no_faults a s.1 s.2 g) saves g.

Definition ledger (saves : list (option Z * Q)) : gmap Z Q :=
  fold_left (λ m s, <[default 0 s.1 := s.2]> m) saves ∅.

Lemma save_all_pause a saves g (m : gmap Z Q) :
  store_ok g → (∀ c, pause a c g = m !! c) →
  store_ok (save_all a saves g) ∧
  ∀ c, pause a c (save_all a saves g) = fold_left (λ m s, <[default 0 s.1 := s.2]> m) saves m !! c.
Proof.
  revert g m. induction saves as [|[c0 u0] saves IH]; intros g m Hg Hm; simpl; [done|].
  apply IH; [by apply save_ok|]. intros c. rewrite pause_save by done.
  destruct (decide (c = default 0 c0)) as [->|Hne].
  - by rewrite decide_True, lookup_insert_eq.
  - by rewrite decide_False, lookup_insert_ne by congruence.
Qed.

(** ** Properties *)

(** C34. A send key is granted to one caller at a time: between two grants of
    the same key with no release in between, more than 60 s pass, whatever
    calls on any keys and whatever statement failures happen in the
    meantime. *)
Theorem gateway_grants_exclusive t1 t2 f1 f2 alias key mid g :
  store_ok g → times_from t1 (mid ++ [IClaim t2 f2 alias key]) = true →
  forallb (λ o, negb (is_fail_of (alias, key) o)) mid = true →
  let '(r1, g1) := IdempotencyClaim t1 f1 alias key g in
  granted r1 = true →
  granted (IdempotencyClaim t2 f2 alias key (irun mid g1)).1 = true →
  (secs t1 + StalePendingS < secs t2)%Q.
Proof.
  intros [_ _ Hg] Hts Hno. destruct (IdempotencyClaim t1 f1 alias key g) as [r1 g1] eqn:E1.
  intros H1 H2. apply (grants_apart (S := gateway) t1 f1 t2 f2 alias key mid g); try done.
  - simpl. by rewrite E1.
  - simpl. rewrite E1. simpl. by destruct (IdempotencyClaim _ _ _ _ (irun _ _)).
Qed.

Definition claim_demo : gateway := (IdempotencyClaim 0 no_faults "b1" "k" gateway_empty).2.

Lemma gateway_empty_ok : store_ok gateway_empty.
Proof. constructor; constructor. Qed.

Lemma gateway_grants_exclusive_witness :
  (secs 0 + StalePendingS < secs 61000000000)%Q.
Proof.
  exact (gateway_grants_exclusive 0 61000000000 no_faults no_faults "b1" "k"
    [IClaim 5 no_faults "b1" "other"; IClaim 59000000000 no_faults "b1" "k"]
    gateway_empty gateway_empty_ok eq_refl eq_refl eq_refl eq_refl).
Defined.

(** A completed send suppresses its replays: once [IdempotencyFinish] has
    run on a claimed key, no claim of that key is granted for 300 s, even if
    the key is released or finished again in between. *)
Theorem gateway_finish_suppresses t1 t2 f2 alias key mid g :
  store_ok g → is_Some (entry_view (idempotency_keys g) (alias, key)) →
  times_from t1 (mid ++ [IClaim t2 f2 alias key]) = true →
  (secs t2 <= secs t1 + IdempotencyTTL)%Q →
  (IdempotencyClaim t2 f2 alias key (irun mid (IdempotencyFinish t1 no_faults alias key g))).1 = "replay".
Proof.
  intros [_ _ Hg] Hs Hts Ht.
  destruct (granted (IdempotencyClaim t2 f2 alias key
    (irun mid (IdempotencyFinish t1 no_faults alias key g))).1) eqn:E.
  - exfalso. assert (secs t1 + IdempotencyTTL < secs t2)%Q; [|lra].
    apply (finish_suppresses (S := gateway) t1 t2 no_faults f2 alias key mid g); try done.
    simpl. by destruct (IdempotencyClaim _ _ _ _ _).
  - revert E. generalize (irun mid (IdempotencyFinish t1 no_faults alias key g)). intros g'.
    unfold IdempotencyClaim, sql_claim. destruct (_ && negb _); [done|]. by destruct (_ && _).
Qed.

Lemma gateway_finish_suppresses_witness :
  (IdempotencyClaim 300000000001 no_faults "b1" "k"
     (irun [IFail 7 no_faults "b1" "k"] (IdempotencyFinish 1 no_faults "b1" "k" claim_demo))).1 = "replay".
Proof.
  apply gateway_finish_suppresses.
  - constructor; vm_compute; repeat constructor; set_solver.
  - vm_compute. by eexists.
  - vm_compute. reflexivity.
  - vm_compute. discriminate.
Defined.

(** Registering a bot stores its token recoverably and touches nothing
    else: the token decrypts back, the Telegram offset and pause flag of an
    already known alias survive the re-registration, and no other bot
    changes. *)
Theorem register_recovers_token `{FernetLaws} b r now f alias token g g' :
  RegisterBot b r now f alias token g = Some g' →
  GetToken b no_faults alias g' = Some token ∧
  GetOffset no_faults alias g' = GetOffset no_faults alias g ∧
  b_paused <$> row_of b_alias alias (bots g') =
    Some (default 0 (b_paused <$> row_of b_alias alias (bots g))) ∧
  (∀ a', a' ≠ alias → row_of b_alias a' (bots g') = row_of b_alias a' (bots g)) ∧
  chat_backoff g' = chat_backoff g ∧ idempotency_keys g' = idempotency_keys g.
Proof.
  intros E. unfold RegisterBot in E. destruct (Encrypt b r token) as [enc|] eqn:Ee; [|done].
  destruct (f 0%nat); [done|]. injection E as <-. unfold GetToken, GetOffset. simpl.
  rewrite row_of_upsert by done. unfold has_key at 1 2 3. simpl. rewrite bool_decide_true by done.
  apply decrypt_encrypt in Ee. split_ands; try done; try (by destruct (row_of _ _ _)).
  intros a' Ha. rewrite row_of_upsert by done. unfold has_key. simpl. by rewrite bool_decide_false by congruence.
Qed.

Lemma register_recovers_token_witness :
  match RegisterBot toy_box 0 0 no_faults "b1" "123:abc" gateway_empty with
  | Some g' => GetToken toy_box no_faults "b1" g' = Some "123:abc"
  | None => False
  end.
Proof.
  exact (proj1 (register_recovers_token toy_box 0 0 no_faults "b1" "123:abc"
    gateway_empty _ eq_refl)).
Defined.

(** The FLOOD_WAIT ledger survives a restart: after any sequence of saves
    for a bot, what a new process loads are exactly the pauses that are last
    for their chat and still in the future (the bot-wide pause as chat 0), and
    the load keeps them for the next restart. *)
Theorem backoffs_survive_restart a saves g now c u :
  store_ok g → (∀ c, pause a c g = None) →
  let '(rows, g') := LoadBackoffs now no_faults a (save_all a saves g) in
  ({| ChatID := c; PausedUntil := u |} ∈ rows ↔ ledger saves !! c = Some u ∧ (secs now < u)%Q) ∧
  (LoadBackoffs now no_faults a g').1 = rows.
Proof.
  intros Hg Hn. destruct (LoadBackoffs now no_faults a (save_all a saves g)) as [rows g'] eqn:E.
  destruct (save_all_pause a saves g ∅ Hg) as [Hok Hp]; [intros c'; by rewrite Hn, lookup_empty|].
  split.
  - assert (rows = (LoadBackoffs now no_faults a (save_all a saves g)).1) as -> by (by rewrite E).
    rewrite elem_of_load by done. by rewrite Hp.
  - unfold LoadBackoffs in *. simpl in *. injection E as <- <-. simpl. f_equal.
    unfold delete_where. rewrite !bfilter_bfilter. apply bfilter_ext. intros r _.
    destruct (_ =? _)%string, (qle _ _); done.
Qed.

Lemma backoffs_survive_restart_witness :
  {| ChatID := 7; PausedUntil := 9 |} ∈
    (LoadBackoffs 1000000000 no_faults "b1"
      (save_all "b1" [(Some 7, 3%Q); (None, 1%Q); (Some 7, 9%Q)] gateway_empty)).1.
Proof.
  apply (backoffs_survive_restart "b1" [(Some 7, 3%Q); (None, 1%Q); (Some 7, 9%Q)] gateway_empty
    1000000000 7 9 gateway_empty_ok (λ _, eq_refl)).
  split; [reflexivity|vm_compute; reflexivity].
Defined.
