(* ===== verification/MTStore.v ===== *)
(** * The MTProto plane store (internal/store/mt.go)

    Sessions with their update state, the persisted update queue, idempotency,
    dead letters and the audit trail.  [mtgateway.db] is opened with foreign
    keys on: a queue row needs its session ([REFERENCES sessions(alias)]) and
    [Delete] cascades to the session's queue. *)
From Stdlib Require Import QArith Lqa String.
From stdpp Require Import base list strings gmap sorting.
From S2P Require Import Prelude GoValue Sql Idempotency Crypto.
From S2P Require GatewayStore.
Open Scope Z_scope.

(** ** Tables *)

Record MTState := { PTS : Z; QTS : Z; Date : Z; Seq : Z }.

Record session_row := {
  s_alias : string; s_token_enc : string; s_phone : string; s_state : MTState;
  s_created_at : Z; s_paused : Z
}.

(** [update_json] is the text stored, the empty text included. *)
Record queue_row := { q_alias : string; q_uid : Z; q_json : option json_text; q_at : Q }.

Record dead_row := { d_id : Z; d_alias : string; d_payload : string; d_reason : string; d_at : Q }.

Record mt := {
  sessions : list session_row;
  update_queue : list queue_row;
  admin_audit : list GatewayStore.audit_row;
  idempotency_keys : list idem_row;
  dead_letters : list dead_row;
  dead_seq : Z
}.

Definition mt_empty : mt :=
  {| sessions := []; update_queue := []; admin_audit := []; idempotency_keys := [];
     dead_letters := []; dead_seq := 0 |}.

Definition set_sessions (m : mt) (l : list session_row) : mt :=
  {| sessions := l; update_queue := update_queue m; admin_audit := admin_audit m;
     idempotency_keys := idempotency_keys m; dead_letters := dead_letters m; dead_seq := dead_seq m |}.

Definition set_queue (m : mt) (l : list queue_row) : mt :=
  {| sessions := sessions m; update_queue := l; admin_audit := admin_audit m;
     idempotency_keys := idempotency_keys m; dead_letters := dead_letters m; dead_seq := dead_seq m |}.

Definition set_idem (m : mt) (l : list idem_row) : mt :=
  {| sessions := sessions m; update_queue := update_queue m; admin_audit := admin_audit m;
     idempotency_keys := l; dead_letters := dead_letters m; dead_seq := dead_seq m |}.

Definition set_dead (m : mt) (l : list dead_row) (n : Z) : mt :=
  {| sessions := sessions m; update_queue := update_queue m; admin_audit := admin_audit m;
     idempotency_keys := idempotency_keys m; dead_letters := l; dead_seq := n |}.

Definition set_audit (m : mt) (l : list GatewayStore.audit_row) : mt :=
  {| sessions := sessions m; update_queue := update_queue m; admin_audit := l;
     idempotency_keys := idempotency_keys m; dead_letters := dead_letters m; dead_seq := dead_seq m |}.

(** ** Sessions *)

Definition state_zero : MTState := {| PTS := 0; QTS := 0; Date := 0; Seq := 0 |}.

Definition phone_of (token : string) : string :=
  if (20 <? String.length token)%nat then (stake 20 token ++ GatewayStore.ellipsis)%string else token.

Definition Register `{Fernet} (b : Box) (r now : Z) (f : faults) (alias token : string) (m : mt)
    : option mt :=
  match Encrypt b r token with
  | None => None
  | Some enc =>
      if f 0%nat then None else
      Some (set_sessions m (upsert s_alias
        {| s_alias := alias; s_token_enc := enc; s_phone := phone_of token; s_state := state_zero;
           s_created_at := GatewayStore.datetime_now now; s_paused := 0 |}
        (λ o, {| s_alias := s_alias o; s_token_enc := enc; s_phone := s_phone o; s_state := s_state o;
                 s_created_at := s_created_at o; s_paused := s_paused o |})
        (sessions m)))
  end.

Definition Delete (f : faults) (alias : string) (m : mt) : option (bool * mt) :=
  if f 0%nat then None else
  Some (0 <? count_where (has_key s_alias alias) (sessions m),
    set_queue (set_sessions m (delete_where (has_key s_alias alias) (sessions m)))
      (if 0 <? count_where (has_key s_alias alias) (sessions m)
       then delete_where (λ r, (q_alias r =? alias)%string) (update_queue m)
       else update_queue m)).

Record SessionRow := {
  Alias : string; PhoneOrToken : string; State : MTState; Paused : bool; CreatedAt : Z
}.

Definition ListSessions (f : faults) (m : mt) : option (list SessionRow) :=
  if f 0%nat then None else
  Some (map (λ r, {| Alias := s_alias r; PhoneOrToken := s_phone r; State := s_state r;
                     Paused := negb (s_paused r =? 0); CreatedAt := s_created_at r |}) (sessions m)).

Definition GetToken `{Fernet} (b : Box) (f : faults) (alias : string) (m : mt) : option string :=
  if f 0%nat then None else
  match row_of s_alias alias (sessions m) with
  | None => None
  | Some r => Decrypt b (s_token_enc r)
  end.

Definition put_paused (p : bool) (r : session_row) : session_row :=
  {| s_alias := s_alias r; s_token_enc := s_token_enc r; s_phone := s_phone r; s_state := s_state r;
     s_created_at := s_created_at r; s_paused := GatewayStore.boolInt p |}.

Definition SetPaused (f : faults) (alias : string) (paused : bool) (m : mt) : option mt :=
  if f 0%nat then None else
  Some (set_sessions m (update_where (has_key s_alias alias) (put_paused paused) (sessions m))).

Definition VerifyTokens `{Fernet} (b : Box) (f : faults) (m : mt) : list string :=
  match ListSessions f m with
  | None => []
  | Some ss =>
      snd <$> bfilter (λ p, negb (bool_decide (is_Some (GetToken b (λ _, f (S p.1)) p.2 m))))
        (imap (λ i r, (i, Alias r)) ss)
  end.

Definition GetState (f : faults) (alias : string) (m : mt) : MTState :=
  if f 0%nat then state_zero else
  match row_of s_alias alias (sessions m) with Some r => s_state r | None => state_zero end.

Definition put_state (st : MTState) (r : session_row) : session_row :=
  {| s_alias := s_alias r; s_token_enc := s_token_enc r; s_phone := s_phone r; s_state := st;
     s_created_at := s_created_at r; s_paused := s_paused r |}.

Definition SaveState (f : faults) (alias : string) (st : MTState) (m : mt) : option mt :=
  if f 0%nat then None else
  Some (set_sessions m (update_where (has_key s_alias alias) (put_state st) (sessions m))).

(** ** The persisted update queue *)

(** The insert also fails when the foreign key has no session. *)
Definition QueuePush (now : Z) (f : faults) (alias : string) (updateID : Z)
    (updateJSON : option json_text) (m : mt) : option mt :=
  if f 0%nat || negb (existsb (has_key s_alias alias) (sessions m)) then None else
  Some (set_queue m (update_queue m ++
    [{| q_alias := alias; q_uid := updateID; q_json := updateJSON; q_at := secs now |}])).

(** [SELECT ... WHERE alias = ? AND update_id > ? ORDER BY update_id LIMIT ?],
    ties in rowid order; rows with an empty text are skipped after the limit. *)
Definition QueuePullRaw (f : faults) (alias : string) (offset lim : Z) (m : mt)
    : list (Z * json_text) :=
  let n := if lim <=? 0 then 100 else lim in
  if f 0%nat then [] else
  omap (λ r, (λ j, (q_uid r, j)) <$> q_json r)
    (limit n (sort_by q_uid
      (bfilter (λ r, (q_alias r =? alias)%string && (offset <? q_uid r)) (update_queue m)))).

(** A document whose decoding fails, or is JSON null, is dropped. *)
Definition decode_update (r : Z * json_text) : option obj :=
  match r.2 with
  | JText (AMap o) => Some (mset o "update_id" (AInt64 r.1))
  | _ => None
  end.

Definition QueuePull (f : faults) (alias : string) (offset lim : Z) (m : mt) : list obj :=
  omap decode_update (QueuePullRaw f alias offset lim m).

Definition QueueAck (f : faults) (alias : string) (lastSeen : Z) (m : mt) : option mt :=
  if f 0%nat then None else
  Some (set_queue m (delete_where (λ r, (q_alias r =? alias)%string && (q_uid r <=? lastSeen))
    (update_queue m))).

Definition QueueDepth (f : faults) (alias : string) (m : mt) : Z :=
  if f 0%nat then 0 else count_where (λ r, (q_alias r =? alias)%string) (update_queue m).

Definition QueueTTLCleanup (f : faults) (alias : string) (cutoff : Q) (m : mt) : Z * mt :=
  let old := λ r, (q_alias r =? alias)%string && qlt (q_at r) cutoff in
  if f 0%nat then (0, m) else
  (count_where old (update_queue m), set_queue m (delete_where old (update_queue m))).

(** ** Idempotency *)

Definition IdempotencyClaim (now : Z) (f : faults) (alias key : string) (m : mt) : string * mt :=
  let '(r, t) := sql_claim (secs now) f (alias, key) (idempotency_keys m) in (r, set_idem m t).

Definition IdempotencyFinish (now : Z) (f : faults) (alias key : string) (m : mt) : mt :=
  set_idem m (sql_finish (secs now) f (alias, key) (idempotency_keys m)).

Definition IdempotencyFail (f : faults) (alias key : string) (m : mt) : mt :=
  set_idem m (sql_fail f (alias, key) (idempotency_keys m)).

Definition IdempotencyCleanup (now : Z) (f : faults) (m : mt) : mt :=
  if f 0%nat then m else
  set_idem m (delete_where (λ r, qlt (i_seen r) (secs now - IdempotencyTTL)%Q) (idempotency_keys m)).

(** ** Dead letters ([id] is AUTOINCREMENT: never reused) *)

Definition DeadLetter (now : Z) (f : faults) (alias payload reason : string) (m : mt) : mt :=
  if f 0%nat then m else
  set_dead m (dead_letters m ++
    [{| d_id := dead_seq m + 1; d_alias := alias; d_payload := payload; d_reason := reason;
        d_at := secs now |}]) (dead_seq m + 1).

Record DeadLetterRow := { ID : Z; Payload : string; Reason : string; At : Q }.

Definition ListDeadLetters (f : faults) (alias : string) (lim : Z) (m : mt) : list DeadLetterRow :=
  let n := if lim <=? 0 then 100 else lim in
  if f 0%nat then [] else
  map (λ r, {| ID := d_id r; Payload := d_payload r; Reason := d_reason r; At := d_at r |})
    (limit n (reverse (sort_by d_id (bfilter (λ r, (d_alias r =? alias)%string) (dead_letters m))))).

Definition ClearDeadLetters (f : faults) (alias : string) (m : mt) : Z * mt :=
  let mine := λ r, (d_alias r =? alias)%string in
  if f 0%nat then (0, m) else
  (count_where mine (dead_letters m), set_dead m (delete_where mine (dead_letters m)) (dead_seq m)).

Definition Audit (now : Z) (f : faults) (action alias detail : string) (m : mt) : mt :=
  if f 0%nat then m else
  set_audit m (admin_audit m ++
    [{| GatewayStore.a_ts := GatewayStore.datetime_now now; GatewayStore.a_action := action;
        GatewayStore.a_alias := alias; GatewayStore.a_detail := detail |}]).

Definition GetAudit (f : faults) (limit_ : Z) (m : mt) : list GatewayStore.audit_row :=
  let n := if limit_ <=? 0 then 100 else limit_ in
  if f 0%nat then [] else limit n (reverse (admin_audit m)).

(** ** Migration of the pre-versioning idempotency table

    The database is its set of tables; only the idempotency ones matter here.
    A v1 table has no [state] column and [key] as its lone primary key. *)

Record v1_row := { v_alias : string; v_key : string; v_seen : Q }.

Inductive idem_table := TableV1 (t : list v1_row) | TableV2 (t : list idem_row).

Record idem_db := { idem_keys : option idem_table; idem_keys_v2 : option (list idem_row) }.

Definition migrated (r : v1_row) : idem_row :=
  {| i_alias := v_alias r; i_key := v_key r; i_state := Done; i_seen := v_seen r |}.

Definition copy_v1 (src : option idem_table) (dst : list idem_row) : list idem_row :=
  match src with
  | Some (TableV1 t) => fold_left (λ acc r, insert_or_ignore idem_pk (migrated r) acc) t dst
  | _ => dst
  end.

(** Statements: 0 table_info, 1 CREATE, 2 the copy (a failure is only
    logged), 3 DROP, 4 RENAME.  The boolean is whether the call succeeded. *)
Definition migrateIdempotencyV1 (f : faults) (d : idem_db) : bool * idem_db :=
  if f 0%nat then (false, d) else
  match idem_keys d with
  | Some (TableV2 _) => (true, d)
  | _ =>
      if f 1%nat then (false, d) else
      let d1 := {| idem_keys := idem_keys d; idem_keys_v2 := Some (default [] (idem_keys_v2 d)) |} in
      let d2 := if f 2%nat then d1 else
        {| idem_keys := idem_keys d1;
           idem_keys_v2 := Some (copy_v1 (idem_keys d1) (default [] (idem_keys_v2 d1))) |} in
      if f 3%nat then (false, d2) else
      let d3 := {| idem_keys := None; idem_keys_v2 := idem_keys_v2 d2 |} in
      if f 4%nat then (false, d3) else
      (true, {| idem_keys := TableV2 <$> idem_keys_v2 d3; idem_keys_v2 := None |})
  end.

(** [OpenMT] runs the schema script, which creates a missing table in its
    current shape, and then the migration. *)
Definition open_idem (f : faults) (d : idem_db) : bool * idem_db :=
  migrateIdempotencyV1 f
    {| idem_keys := Some (default (TableV2 []) (idem_keys d)); idem_keys_v2 := idem_keys_v2 d |}.

(** ** Invariant *)

Record store_ok (m : mt) : Prop := {
  ok_sessions : keyed s_alias (sessions m);
  ok_idem : keyed idem_pk (idempotency_keys m);
  ok_fk : ∀ r, r ∈ update_queue m → q_alias r ∈ s_alias <$> sessions m;
  ok_dead : StronglySorted (λ x y, d_id x < d_id y) (dead_letters m);
  ok_seq : ∀ r, r ∈ dead_letters m → d_id r <= dead_seq m
}.

Inductive call `{Fernet} : mt → mt → Prop :=
| call_register b r now f a tok m m' : Register b r now f a tok m = Some m' → call m m'
| call_delete f a m ok m' : Delete f a m = Some (ok, m') → call m m'
| call_pause f a p m m' : SetPaused f a p m = Some m' → call m m'
| call_state f a st m m' : SaveState f a st m = Some m' → call m m'
| call_push now f a u j m m' : QueuePush now f a u j m = Some m' → call m m'
| call_ack f a n m m' : QueueAck f a n m = Some m' → call m m'
| call_ttl f a c m : call m (QueueTTLCleanup f a c m).2
| call_claim now f a k m : call m (IdempotencyClaim now f a k m).2
| call_finish now f a k m : call m (IdempotencyFinish now f a k m)
| call_fail f a k m : call m (IdempotencyFail f a k m)
| call_cleanup now f m : call m (IdempotencyCleanup now f m)
| call_dead now f a p r m : call m (DeadLetter now f a p r m)
| call_clear f a m : call m (ClearDeadLetters f a m).2
| call_audit now f ac a d m : call m (Audit now f ac a d m).

Lemma update_aliases p g t :
  (∀ r, s_alias (g r) = s_alias r) → s_alias <$> update_where p g t = s_alias <$> t.
Proof.
  intros Hg. induction t as [|r t IH]; csimpl; [done|]. rewrite IH. f_equal. by destruct (p r).
Qed.

Lemma upsert_aliases r g t :
  (∀ r, s_alias (g r) = s_alias r) → s_alias <$> t ⊆ s_alias <$> upsert s_alias r g t.
Proof.
  intros Hg. unfold upsert. destruct (existsb _ _).
  - by rewrite update_aliases.
  - rewrite fmap_app. set_solver.
Qed.

Lemma delete_cascade a m r :
  store_ok m → r ∈ update_queue m → q_alias r ≠ a →
  q_alias r ∈ s_alias <$> delete_where (has_key s_alias a) (sessions m).
Proof.
  intros [_ _ Hfk _ _] Hr Hne. specialize (Hfk r Hr). apply list_elem_of_fmap in Hfk as (s & Heq & Hs).
  rewrite Heq in Hne |- *. apply (list_elem_of_fmap_2 s_alias). rewrite elem_of_delete. split; [done|].
  unfold has_key. by rewrite bool_decide_false.
Qed.

Lemma delete_ok f a m ok m' : Delete f a m = Some (ok, m') → store_ok m → store_ok m'.
Proof.
  intros E Hok. unfold Delete in E. destruct (f 0%nat); [done|]. injection E as <- <-.
  pose proof Hok as [H1 H2 H3 H4 H5]. constructor; simpl; try done; [by apply delete_keyed|].
  intros r Hr. destruct (0 <? _) eqn:En.
  - rewrite elem_of_delete in Hr. destruct Hr as [Hr Ha]. apply delete_cascade; [done|done|].
    intros <-. simpl in Ha. by rewrite String.eqb_refl in Ha.
  - apply delete_cascade; [done|done|]. intros <-. specialize (H3 r Hr).
    apply list_elem_of_fmap in H3 as (s & Hs & Hin).
    assert (s ∈ bfilter (has_key s_alias (q_alias r)) (sessions m)) as Hf.
    { apply elem_of_bfilter. split; [done|]. by apply has_key_spec. }
    unfold count_where in En. destruct (bfilter _ _); [by apply elem_of_nil in Hf|done].
Qed.

Lemma dead_ok now f a p r m : store_ok m → store_ok (DeadLetter now f a p r m).
Proof.
  intros Hok. unfold DeadLetter. destruct (f 0%nat); [done|]. destruct Hok as [H1 H2 H3 H4 H5].
  constructor; simpl; try done.
  - apply StronglySorted_app. split_ands; [|done|repeat constructor].
    intros x y Hx Hy%list_elem_of_singleton. subst y. simpl. specialize (H5 x Hx). lia.
  - intros x [Hx|Hx%list_elem_of_singleton]%elem_of_app; [specialize (H5 x Hx); lia|subst x; simpl; lia].
Qed.

Lemma shrink_queue m l : sublist l (update_queue m) → store_ok m → store_ok (set_queue m l).
Proof.
  intros Hl [H1 H2 H3 H4 H5]. constructor; simpl; try done.
  intros r Hr. apply H3. by eapply elem_of_sublist.
Qed.

Lemma put_idem m l : keyed idem_pk l → store_ok m → store_ok (set_idem m l).
Proof. intros Hl [H1 H2 H3 H4 H5]. by constructor. Qed.

Lemma put_sessions m p g :
  (∀ r, s_alias (g r) = s_alias r) → store_ok m → store_ok (set_sessions m (update_where p g (sessions m))).
Proof.
  intros Hg [H1 H2 H3 H4 H5]. constructor; simpl; try done; [by apply update_keyed|].
  by rewrite update_aliases.
Qed.

Lemma mt_call_ok `{Fernet} m m' : call m m' → store_ok m → store_ok m'.
Proof.
  intros Hc Hok. destruct Hc as [b r now f a tok m m' E|f a m ok m' E|f a p m m' E|f a st m m' E
    |now f a u j m m' E|f a n m m' E|f a c m|now f a k m|now f a k m|f a k m|now f m|now f a p r m|f a m|].
  - unfold Register in E. destruct (Encrypt _ _ _); [|done]. destruct (f 0%nat); [done|].
    injection E as <-. destruct Hok as [H1 H2 H3 H4 H5].
    constructor; simpl; try done; [by apply upsert_keyed|].
    intros q Hq. by eapply upsert_aliases, H3.
  - by eapply delete_ok.
  - unfold SetPaused in E. destruct (f 0%nat); [done|]. injection E as <-. by apply put_sessions.
  - unfold SaveState in E. destruct (f 0%nat); [done|]. injection E as <-. by apply put_sessions.
  - unfold QueuePush in E. destruct (f 0%nat || _) eqn:Ef; [done|]. injection E as <-.
    apply orb_false_iff in Ef as [_ Ef%negb_false_iff]. apply existsb_key in Ef.
    destruct Hok as [H1 H2 H3 H4 H5]. constructor; simpl; try done.
    intros r [Hr|Hr%list_elem_of_singleton]%elem_of_app; [by apply H3|by subst r].
  - unfold QueueAck in E. destruct (f 0%nat); [done|]. injection E as <-. apply shrink_queue; [apply bfilter_sublist|done].
  - unfold QueueTTLCleanup. destruct (f 0%nat); [done|]. apply shrink_queue; [apply bfilter_sublist|done].
  - unfold IdempotencyClaim. pose proof (sql_claim_keyed (secs now) f (a, k) _ (ok_idem _ Hok)).
    destruct (sql_claim _ _ _ _). by apply put_idem.
  - apply put_idem; [|done]. unfold sql_finish. destruct (f 0%nat); [apply Hok|]. apply update_keyed, Hok; done.
  - apply put_idem; [|done]. unfold sql_fail. destruct (f 0%nat); [apply Hok|]. apply delete_keyed, Hok.
  - unfold IdempotencyCleanup. destruct (f 0%nat); [done|]. apply put_idem; [|done]. apply delete_keyed, Hok.
  - by apply dead_ok.
  - unfold ClearDeadLetters. destruct (f 0%nat); [done|]. destruct Hok as [H1 H2 H3 H4 H5].
    constructor; simpl; try done; [by apply StronglySorted_bfilter|].
    intros x [Hx _]%elem_of_delete. by apply H5.
  - unfold Audit. destruct (f 0%nat); [done|]. destruct Hok. by constructor.
Qed.

#[export] Program Instance mt_idem : IdemStore mt := {|
  idem_claim := IdempotencyClaim;
  idem_finish := IdempotencyFinish;
  idem_fail := IdempotencyFail;
  idem_wf m := keyed idem_pk (idempotency_keys m);
  idem_view m := entry_view (idempotency_keys m)
|}.
Next Obligation.
  intros now f a k g Hg. unfold IdempotencyClaim.
  pose proof (sql_claim_keyed (secs now) f (a, k) _ Hg) as Hk.
  pose proof (sql_claim_view (secs now) f (a, k) _ Hg) as [H1 H2].
  destruct (sql_claim _ _ _ _) as [r t]. done.
Qed.
Next Obligation.
  intros now f a k g Hg. simpl. split; [|intros k'; apply sql_finish_view].
  unfold sql_finish. destruct (f 0%nat); [done|]. by apply update_keyed.
Qed.
Next Obligation.
  intros f a k g Hg. simpl. split; [|intros k'; by apply sql_fail_view].
  unfold sql_fail. destruct (f 0%nat); [done|]. by apply delete_keyed.
Qed.

(** ** The copy of the migration *)

Definition v1_pk (r : v1_row) : string * string := (v_alias r, v_key r).

Lemma copy_rows t dst k :
  NoDup (v1_pk <$> t) → (∀ r, r ∈ t → row_of idem_pk (v1_pk r) dst = None) →
  row_of idem_pk k (fold_left (λ acc r, insert_or_ignore idem_pk (migrated r) acc) t dst) =
  match row_of idem_pk k dst with
  | Some r => Some r
  | None => migrated <$> row_of v1_pk k t
  end.
Proof.
  revert dst. induction t as [|r t IH]; csimpl; intros dst Hnd Hno.
  { by destruct (row_of idem_pk k dst). }
  apply NoDup_cons in Hnd as [Hr Hnd]. rewrite IH; [|done|].
  - rewrite row_of_insert. destruct (row_of idem_pk k dst) eqn:Ek; [done|].
    unfold row_of, select_one. simpl. unfold has_key. change (idem_pk (migrated r)) with (v1_pk r).
    by destruct (bool_decide _).
  - intros r' Hr'. rewrite row_of_insert. rewrite Hno by (by right). unfold has_key.
    change (idem_pk (migrated r)) with (v1_pk r). rewrite bool_decide_false; [done|].
    intros Heq. apply Hr. rewrite Heq. by apply list_elem_of_fmap_2.
Qed.

(** ** Properties *)

(** C37. Every call of the MTProto store, failing statements included, keeps
    the primary keys unique, every queued update attached to a registered
    session (so deleting a session takes its queue with it), and dead-letter
    ids strictly increasing and never reused. *)
Theorem mt_store_invariant `{Fernet} m m' : rtc call m m' → store_ok m → store_ok m'.
Proof. induction 1; [done|]. eauto using mt_call_ok. Qed.

Definition mt_demo : option mt :=
  m ← Register toy_box 0 0 no_faults "s1" "tok" mt_empty;
  m ← QueuePush 5 no_faults "s1" 1 (Some (JText (AMap []))) m;
  QueuePush 6 no_faults "s1" 2 (Some (JText (AMap []))) m.

Lemma mt_empty_ok : store_ok mt_empty.
Proof. constructor; simpl; try constructor; intros r Hr; by apply elem_of_nil in Hr. Qed.

Lemma mt_store_invariant_witness :
  match mt_demo with Some m => store_ok m | None => False end.
Proof.
  unfold mt_demo. simpl.
  refine (mt_store_invariant (H := toy_fernet) mt_empty _ _ mt_empty_ok).
  eapply rtc_l; [eapply (call_register toy_box 0 0 no_faults "s1" "tok"); reflexivity|].
  eapply rtc_l; [eapply (call_push 5 no_faults "s1" 1 (Some (JText (AMap [])))); reflexivity|].
  eapply rtc_l; [eapply (call_push 6 no_faults "s1" 2 (Some (JText (AMap [])))); reflexivity|].
  apply rtc_refl.
Defined.

Lemma ack_offset f alias n m m' offset lim :
  QueueAck f alias n m = Some m' →
  QueuePullRaw no_faults alias offset lim m' =
    QueuePullRaw no_faults alias (Z.max offset n) lim m ∧
  (∀ a, a ≠ alias → QueuePullRaw no_faults a offset lim m' = QueuePullRaw no_faults a offset lim m).
Proof.
  intros E. unfold QueueAck in E. destruct (f 0%nat); [done|]. injection E as <-.
  unfold QueuePullRaw. simpl. unfold delete_where. split.
  - rewrite bfilter_bfilter. do 3 f_equal. apply bfilter_ext. intros r _.
    destruct (q_alias r =? alias)%string; simpl; [|done]. lia.
  - intros a Ha. rewrite bfilter_bfilter. do 3 f_equal. apply bfilter_ext. intros r _.
    destruct (String.eqb_spec (q_alias r) alias) as [->|]; [|done].
    destruct (String.eqb_spec alias a); [congruence|]. by rewrite andb_false_r.
Qed.

(** Acknowledging is advancing the offset: after [QueueAck n] any pull
    returns exactly what the same pull at offset [max offset n] returned
    before, for the acked session; pulls of every other session are
    unchanged.  So an ack loses no update above it and nothing acked is ever
    pulled again. *)
Theorem mt_ack_is_offset f alias n m m' offset lim :
  QueueAck f alias n m = Some m' →
  QueuePullRaw no_faults alias offset lim m' =
    QueuePullRaw no_faults alias (Z.max offset n) lim m ∧
  (∀ a, a ≠ alias → QueuePullRaw no_faults a offset lim m' = QueuePullRaw no_faults a offset lim m).
Proof. apply ack_offset. Qed.

Lemma mt_ack_is_offset_witness :
  match mt_demo ≫= QueueAck no_faults "s1" 1 with
  | Some m' => QueuePullRaw no_faults "s1" 0 10 m' = [(2, JText (AMap []))]
  | None => False
  end.
Proof.
  unfold mt_demo. simpl.
  refine (eq_trans (proj1 (mt_ack_is_offset no_faults "s1" 1 _ _ 0 10 eq_refl)) _).
  vm_compute. reflexivity.
Defined.

(** A pull returns the persisted updates above the offset in increasing
    id order, no more than the limit (100 when the caller's is not positive),
    and paging is lossless: with a limit of at least the backlog it returns
    every stored update above the offset that has a body. *)
Theorem mt_pull_ordered alias offset lim m :
  let out := QueuePullRaw no_faults alias offset lim m in
  let n := if lim <=? 0 then 100 else lim in
  StronglySorted (λ x y, fst x <= fst y) out ∧
  Z.of_nat (length out) <= n ∧
  (∀ x, x ∈ out → offset < x.1) ∧
  (QueueDepth no_faults alias m <= n → ∀ r j, r ∈ update_queue m → q_alias r = alias →
     q_json r = Some j → offset < q_uid r → (q_uid r, j) ∈ out).
Proof.
  cbn zeta. unfold QueuePullRaw, QueueDepth. simpl.
  set (n := if lim <=? 0 then 100 else lim). assert (0 < n) as Hn by (unfold n; destruct (Z.leb_spec lim 0); lia).
  set (rows := sort_by q_uid _).
  assert (StronglySorted (λ x y, q_uid x <= q_uid y) rows) as Hs by apply sort_by_sorted.
  assert (limit n rows = take (Z.to_nat n) rows) as -> by (unfold limit; destruct (Z.ltb_spec n 0); [lia|done]).
  split_ands.
  - assert (StronglySorted (λ x y, q_uid x <= q_uid y) (take (Z.to_nat n) rows)) as Ht.
    { rewrite <-(take_drop (Z.to_nat n) rows) in Hs. by apply StronglySorted_app in Hs as (_ & ? & _). }
    induction Ht as [|x l Hl IH Hx]; simpl; [constructor|]. destruct (q_json x) as [j|]; simpl; [|done].
    constructor; [done|]. apply Forall_forall. intros [u j'] Hu. apply list_elem_of_omap in Hu as (r & Hr & Hj).
    destruct (q_json r); [|done]. injection Hj as <- <-. rewrite Forall_forall in Hx. simpl. by apply Hx.
  - pose proof (omap_length_le (λ r, (λ j, (q_uid r, j)) <$> q_json r) (take (Z.to_nat n) rows)) as Hle.
    rewrite length_take in Hle. lia.
  - intros [u j] Hx. apply list_elem_of_omap in Hx as (r & Hr & Hj). destruct (q_json r); [|done].
    injection Hj as <- <-. apply elem_of_take in Hr as (i & Hr%list_elem_of_lookup_2 & _).
    unfold rows in Hr. rewrite elem_of_sort_by, elem_of_bfilter, andb_true_iff in Hr.
    destruct Hr as (_ & _ & Hr). by apply Z.ltb_lt.
  - intros Hd r j Hr Ha Hj Ho. apply list_elem_of_omap. exists r. rewrite Hj. split; [|done].
    rewrite take_ge.
    + unfold rows. rewrite elem_of_sort_by, elem_of_bfilter. split; [done|].
      rewrite Ha, String.eqb_refl. simpl. by apply Z.ltb_lt.
    + unfold rows. rewrite sort_by_Permutation. unfold count_where in Hd.
      rewrite <-(bfilter_bfilter (λ r, offset <? q_uid r)).
      pose proof (bfilter_length (λ r, offset <? q_uid r) (bfilter (λ r, (q_alias r =? alias)%string) (update_queue m))).
      lia.
Qed.

(** Both halves of the idempotency contract hold of the MTProto store too:
    grants of one key without a release in between are more than 60 s apart,
    and a finished key is not granted again for 300 s. *)
Theorem mt_idempotency t1 t2 f1 f2 alias key mid m :
  store_ok m → times_from t1 (mid ++ [IClaim t2 f2 alias key]) = true →
  (let '(r1, m1) := IdempotencyClaim t1 f1 alias key m in
   forallb (λ o, negb (is_fail_of (alias, key) o)) mid = true →
   granted r1 = true → granted (IdempotencyClaim t2 f2 alias key (irun mid m1)).1 = true →
   (secs t1 + StalePendingS < secs t2)%Q) ∧
  (is_Some (entry_view (idempotency_keys m) (alias, key)) →
   granted (IdempotencyClaim t2 f2 alias key
     (irun mid (IdempotencyFinish t1 no_faults alias key m))).1 = true →
   (secs t1 + IdempotencyTTL < secs t2)%Q).
Proof.
  intros Hok Hts. split.
  - destruct (IdempotencyClaim t1 f1 alias key m) as [r1 m1] eqn:E1. intros Hno H1 H2.
    apply (grants_apart (S := mt) t1 f1 t2 f2 alias key mid m); try done; try apply Hok.
    + simpl. by rewrite E1.
    + simpl. rewrite E1. simpl. by destruct (IdempotencyClaim _ _ _ _ (irun _ _)).
  - intros Hs H2. apply (finish_suppresses (S := mt) t1 t2 no_faults f2 alias key mid m); try done; try apply Hok.
    simpl. by destruct (IdempotencyClaim _ _ _ _ (irun _ _)).
Qed.

Lemma mt_idempotency_witness :
  (secs 0 + StalePendingS < secs 61000000000)%Q.
Proof.
  exact (proj1 (mt_idempotency 0 61000000000 no_faults no_faults "s1" "k"
    [IClaim 59000000000 no_faults "s1" "k"] mt_empty mt_empty_ok eq_refl) eq_refl eq_refl eq_refl).
Defined.

(** The one-time migration keeps every old key as a completed send: after
    it each v1 key is in the new table as [Done] with its timestamp and no
    other key is, the call reports success, and running it again changes
    nothing. *)
Theorem migration_preserves_keys t d :
  NoDup (v1_pk <$> t) → idem_keys d = Some (TableV1 t) → idem_keys_v2 d = None →
  ∃ t', migrateIdempotencyV1 no_faults d =
      (true, {| idem_keys := Some (TableV2 t'); idem_keys_v2 := None |}) ∧
    (∀ k, entry_view t' k = (λ r, (Done, v_seen r)) <$> row_of v1_pk k t) ∧
    open_idem no_faults {| idem_keys := Some (TableV2 t'); idem_keys_v2 := None |} =
      (true, {| idem_keys := Some (TableV2 t'); idem_keys_v2 := None |}).
Proof.
  intros Hnd H1 H2. unfold migrateIdempotencyV1. simpl. rewrite H1, H2. simpl.
  eexists. split; [reflexivity|]. split; [|done]. intros k. unfold entry_view.
  rewrite copy_rows by done. simpl. by destruct (row_of v1_pk k t).
Qed.

Lemma migration_preserves_keys_witness :
  ∃ t', entry_view t' ("s1", "k") = Some (Done, 5%Q).
Proof.
  destruct (migration_preserves_keys [{| v_alias := "s1"; v_key := "k"; v_seen := 5 |}]
    {| idem_keys := Some (TableV1 [{| v_alias := "s1"; v_key := "k"; v_seen := 5 |}]); idem_keys_v2 := None |})
    as (t' & _ & Hv & _).
  - repeat constructor; set_solver.
  - reflexivity.
  - reflexivity.
  - exists t'. exact (Hv ("s1", "k")).
Defined.

(** The migration is not crash-safe: if the process dies (or the
    statement fails) between dropping the old table and renaming the new one,
    the next open creates an empty current-shape table first, so the
    migration sees nothing to do and every migrated key is unreachable. *)
Theorem migration_rename_crash_loses_keys t d :
  idem_keys d = Some (TableV1 t) → idem_keys_v2 d = None →
  let d1 := (open_idem (λ k, (k =? 4)%nat) d).2 in
  (open_idem no_faults d1).1 = true ∧ idem_keys (open_idem no_faults d1).2 = Some (TableV2 []).
Proof. intros H1 H2. unfold open_idem, migrateIdempotencyV1. rewrite H1, H2. done. Qed.

Lemma migration_rename_crash_loses_keys_witness :
  idem_keys (open_idem no_faults (open_idem (λ k, (k =? 4)%nat)
    {| idem_keys := Some (TableV1 [{| v_alias := "s1"; v_key := "k"; v_seen := 5 |}]);
       idem_keys_v2 := None |}).2).2 = Some (TableV2 []).
Proof.
  exact (proj2 (migration_rename_crash_loses_keys [{| v_alias := "s1"; v_key := "k"; v_seen := 5 |}]
    {| idem_keys := Some (TableV1 [{| v_alias := "s1"; v_key := "k"; v_seen := 5 |}]);
       idem_keys_v2 := None |} eq_refl eq_refl)).
Defined.
