(* ===== verification/Config.v ===== *)
(** * Environment-driven configuration (internal/config/config.go)

    The environment is a lookup function; every [GW_*] knob, its default and
    the start-up validation are as in the source.  [ParseFloat] covers decimal
    literals with optional fraction and exponent; the hexadecimal, infinity
    and NaN spellings are not modelled and read as malformed. *)
From Stdlib Require Import QArith Lqa Ascii String.
From stdpp Require Import base list strings gmap.
From S2P Require Import Prelude GoValue Crypto.
Open Scope Z_scope.

(** [os.LookupEnv]. *)
Abbreviation environ := (string → option string).

(** ** strconv *)

(** Leading digits of a string: their value, how many, and the rest. *)
Fixpoint span_digits (s : string) (acc : Z) (n : nat) : Z * nat * string :=
  match s with
  | String c s' => if is_digit c then span_digits s' (acc * 10 + (code c - 48)) (S n) else (acc, n, s)
  | EmptyString => (acc, n, s)
  end.

Definition split_sign (s : string) : bool * string :=
  match s with
  | String "-" s' => (true, s')
  | String "+" s' => (false, s')
  | _ => (false, s)
  end.

Definition pow10 (e : Z) : Q := if 0 <=? e then inject_Z (10 ^ e) else / inject_Z (10 ^ (- e)).

(** The exponent part: absent, or [e]/[E], a sign and at least one digit. *)
Definition parse_exp (s : string) : option Z :=
  match s with
  | EmptyString => Some 0
  | String c s' =>
      if (c =? "e")%char || (c =? "E")%char then
        let '(neg, r) := split_sign s' in
        match span_digits r 0 0 with
        | (v, S _, EmptyString) => Some (if neg then - v else v)
        | _ => None
        end
      else None
  end.

Definition ParseFloat (s : string) : option Q :=
  let '(neg, r) := split_sign s in
  let '(ip, n, r1) := span_digits r 0 0 in
  let '(m, k, r2) :=
    match r1 with
    | String "." r' => span_digits r' ip 0
    | _ => (ip, O, r1)
    end in
  if (n + k =? 0)%nat then None else
  match parse_exp r2 with
  | None => None
  | Some e =>
      let v := (inject_Z m * pow10 (e - Z.of_nat k))%Q in
      Some (if neg then - v else v)%Q
  end.

(** ** Knob readers *)

Definition envStr (env : environ) (name def : string) : string :=
  match env name with Some v => v | None => def end.

Definition envInt (env : environ) (name : string) (def : Z) : Z :=
  match env name with
  | Some v => match parse_int64 (trim_space v) with Some n => n | None => def end
  | None => def
  end.

Definition envFloat (env : environ) (name : string) (def : Q) : Q :=
  match env name with
  | Some v => match ParseFloat (trim_space v) with Some f => f | None => def end
  | None => def
  end.

Definition envBool (env : environ) (name : string) (def : bool) : bool :=
  match env name with
  | Some v =>
      let s := to_lower (trim_space v) in
      (s =? "1")%string || (s =? "true")%string || (s =? "yes")%string
  | None => def
  end.

(** ** Configuration groups *)

Record RateConfig := {
  PrivateRate : Q; PrivateBurst : Z; GroupRate : Q; GroupBurst : Z;
  GlobalRate : Q; GlobalBurst : Z; ReadRate : Q; PaidRate : Q
}.

Definition DefaultRate (env : environ) : RateConfig := {|
  PrivateRate := envFloat env "GW_PRIVATE_RATE" 1;
  PrivateBurst := envInt env "GW_PRIVATE_BURST" 3;
  GroupRate := envFloat env "GW_GROUP_RATE" (20 # 60);
  GroupBurst := envInt env "GW_GROUP_BURST" 2;
  GlobalRate := envFloat env "GW_GLOBAL_RATE" 30;
  GlobalBurst := envInt env "GW_GLOBAL_BURST" 30;
  ReadRate := envFloat env "GW_READ_RATE" 20;
  PaidRate := envFloat env "GW_PAID_RATE" 1000
|}.

Record PolicyConfig := {
  OnLimit : string; QueueWaitTimeout : Q; UpdateQueueMax : Z; UpdateTTLS : Q;
  PaidBroadcastsEnabled : bool
}.

Definition DefaultPolicy (env : environ) : PolicyConfig := {|
  OnLimit := envStr env "GW_ON_LIMIT" "queue";
  QueueWaitTimeout := envFloat env "GW_QUEUE_WAIT_TIMEOUT" 25;
  UpdateQueueMax := envInt env "GW_UPDATE_QUEUE_MAX" 5000;
  UpdateTTLS := envFloat env "GW_UPDATE_TTL_S" 3600;
  PaidBroadcastsEnabled := envBool env "GW_PAID_BROADCASTS" false
|}.

Record StorageConfig := {
  Durability : string; MaintenanceInterval : Q; BackupInterval : Q; BackupKeep : Z;
  AuditRetentionDays : Z
}.

Definition DefaultStorage (env : environ) : StorageConfig := {|
  Durability := envStr env "GW_DURABILITY" "normal";
  MaintenanceInterval := envFloat env "GW_MAINTENANCE_INTERVAL_S" 3600;
  BackupInterval := envFloat env "GW_BACKUP_INTERVAL_S" 86400;
  BackupKeep := envInt env "GW_BACKUP_KEEP" 5;
  AuditRetentionDays := envInt env "GW_AUDIT_RETENTION_DAYS" 30
|}.

Record TypingConfig := {
  Enabled : bool; PrivateOnly : bool; IntervalS : Q; TimeoutS : Q; TimeoutText : string
}.

Definition DefaultTypingTimeoutText : string :=
  "Sorry, this bot is temporarily unavailable due to a problem on the provider side. Please try again later.".

Definition DefaultTyping (env : environ) : TypingConfig := {|
  Enabled := envBool env "GW_TYPING_ENABLED" true;
  PrivateOnly := envBool env "GW_TYPING_PRIVATE_ONLY" true;
  IntervalS := envFloat env "GW_TYPING_INTERVAL" (9 # 2);
  TimeoutS := envFloat env "GW_TYPING_TIMEOUT" 30;
  TimeoutText := envStr env "GW_TYPING_TIMEOUT_TEXT" DefaultTypingTimeoutText
|}.

Record MTProtoRate := {
  FloodBackoffBase : Q; SlowmodeRespect : bool; PeerFloodCooldown : Q; SilentRate : Q
}.

Definition DefaultMTProtoRate (env : environ) : MTProtoRate := {|
  FloodBackoffBase := envFloat env "GW_FLOOD_BACKOFF_BASE" (3 # 2);
  SlowmodeRespect := envBool env "GW_SLOWMODE_RESPECT" true;
  PeerFloodCooldown := envFloat env "GW_PEER_FLOOD_COOLDOWN" 300;
  SilentRate := envFloat env "GW_SILENT_RATE" 5
|}.

Record BotAPI := {
  Host : string; Port : Z; Upstream : string; Pprof : bool; OTELEndpoint : string; AdminPort : Z;
  AdminSecret : string; AppSecret : string; DataDir : string; FernetKey : string;
  PollTimeout : Z; PollBackoffMax : Q; PushHealthInterval : Q;
  Rate : RateConfig; Policy : PolicyConfig; Typing : TypingConfig; BStorage : StorageConfig
}.

Definition BotAPIFromEnv (env : environ) : BotAPI := {|
  Host := envStr env "GW_HOST" "0.0.0.0";
  Port := envInt env "GW_PORT" 8080;
  Pprof := envBool env "GW_PPROF" false;
  OTELEndpoint := envStr env "GW_OTEL_ENDPOINT" "";
  AdminPort := envInt env "GW_ADMIN_PORT" 0;
  Upstream := envStr env "GW_UPSTREAM" "https://api.telegram.org";
  AdminSecret := envStr env "GW_ADMIN_SECRET" "";
  AppSecret := envStr env "GW_APP_SECRET" "";
  DataDir := envStr env "GW_DATA_DIR" "/data";
  FernetKey := envStr env "GW_FERNET_KEY" "";
  PollTimeout := envInt env "GW_POLL_TIMEOUT" 25;
  PollBackoffMax := envFloat env "GW_POLL_BACKOFF_MAX" 30;
  PushHealthInterval := envFloat env "GW_PUSH_HEALTH_INTERVAL" 60;
  Rate := DefaultRate env; Policy := DefaultPolicy env;
  Typing := DefaultTyping env; BStorage := DefaultStorage env
|}.

Record MTProto := {
  MHost : string; MPort : Z; MPprof : bool; MOTELEndpoint : string; MAdminPort : Z;
  MAdminSecret : string; MAppSecret : string; MDataDir : string; MFernetKey : string;
  APIID : Z; APIHash : string; SessionDir : string; MBackupsDir : string; LockBackend : string;
  MaxSessions : Z; ConsumerTimeout : Q; MetricsEnabled : bool;
  MRate : RateConfig; MTRate : MTProtoRate; MPolicy : PolicyConfig; MStorage : StorageConfig
}.

Definition MTProtoFromEnv (env : environ) : MTProto :=
  let dataDir := envStr env "GW_DATA_DIR" "/data" in {|
  MHost := envStr env "GW_HOST" "0.0.0.0";
  MPort := envInt env "GW_PORT" 8080;
  MPprof := envBool env "GW_PPROF" false;
  MOTELEndpoint := envStr env "GW_OTEL_ENDPOINT" "";
  MAdminPort := envInt env "GW_ADMIN_PORT" 0;
  MAdminSecret := envStr env "GW_ADMIN_SECRET" "";
  MAppSecret := envStr env "GW_APP_SECRET" "";
  MDataDir := dataDir;
  MFernetKey := envStr env "GW_FERNET_KEY" "";
  APIID := envInt env "GW_API_ID" 0;
  APIHash := envStr env "GW_API_HASH" "";
  LockBackend := envStr env "GW_LOCK_BACKEND" "file";
  MaxSessions := envInt env "GW_MAX_SESSIONS" 50;
  ConsumerTimeout := envFloat env "GW_CONSUMER_TIMEOUT" 120;
  MetricsEnabled := envBool env "GW_METRICS" true;
  MRate := DefaultRate env; MTRate := DefaultMTProtoRate env; MPolicy := DefaultPolicy env;
  MStorage := DefaultStorage env;
  SessionDir := dataDir +:+ "/sessions";
  MBackupsDir := dataDir +:+ "/backups"
|}.

Definition BackupsDir (c : BotAPI) : string := DataDir c +:+ "/backups".

(** ** Start-up validation: [None] accepts, [Some e] is the error text. *)

Definition validatePolicyStorage (p : PolicyConfig) (s : StorageConfig) : option string :=
  if negb (OnLimit p =? "queue")%string && negb (OnLimit p =? "reject")%string
  then Some "GW_ON_LIMIT must be 'queue' or 'reject'"
  else if negb (Durability s =? "normal")%string && negb (Durability s =? "full")%string
  then Some "GW_DURABILITY must be 'normal' or 'full'"
  else None.

(** [strings.Join(l, ", ")]. *)
Definition join_comma (l : list string) : string := String.concat ", " l.

Definition missing_of (l : list (bool * string)) : list string :=
  map snd (bfilter fst l).

Definition Validate (c : BotAPI) : option string :=
  let missing := missing_of [((AdminSecret c =? "")%string, "GW_ADMIN_SECRET");
                             ((AppSecret c =? "")%string, "GW_APP_SECRET")] in
  match missing with
  | _ :: _ => Some ("missing required env: " +:+ join_comma missing)
  | [] => validatePolicyStorage (Policy c) (BStorage c)
  end.

Definition ValidateMT (c : MTProto) : option string :=
  let missing := missing_of [((MAdminSecret c =? "")%string, "GW_ADMIN_SECRET");
                             ((MAppSecret c =? "")%string, "GW_APP_SECRET");
                             (APIID c =? 0, "GW_API_ID");
                             ((APIHash c =? "")%string, "GW_API_HASH")] in
  match missing with
  | _ :: _ => Some ("missing required env: " +:+ join_comma missing)
  | [] => validatePolicyStorage (MPolicy c) (MStorage c)
  end.

(** ** Properties *)

Lemma validatePolicyStorage_None p s :
  validatePolicyStorage p s = None ↔
  (OnLimit p = "queue" ∨ OnLimit p = "reject") ∧ (Durability s = "normal" ∨ Durability s = "full").
Proof.
  unfold validatePolicyStorage.
  destruct (String.eqb_spec (OnLimit p) "queue"), (String.eqb_spec (OnLimit p) "reject"),
    (String.eqb_spec (Durability s) "normal"), (String.eqb_spec (Durability s) "full"); simpl; naive_solver.
Qed.

Example parse_float_cases :
  ParseFloat "0.333" = Some (inject_Z 333 * / inject_Z 1000)%Q ∧ ParseFloat "-1e2" = Some (- (inject_Z 1 * inject_Z 100))%Q
  ∧ ParseFloat "." = None ∧ ParseFloat "1e" = None ∧ ParseFloat "1x" = None.
Proof. vm_compute. done. Qed.

(** Start-up accepts exactly the configurations that can run: both planes
    refuse an empty admin or application secret (the MTProto plane also a
    missing API id or hash) and any limit policy or durability other than the
    two documented ones, and refuse nothing else. *)
Theorem validation_exact b m :
  (Validate b = None ↔
    AdminSecret b ≠ "" ∧ AppSecret b ≠ "" ∧
    (OnLimit (Policy b) = "queue" ∨ OnLimit (Policy b) = "reject") ∧
    (Durability (BStorage b) = "normal" ∨ Durability (BStorage b) = "full")) ∧
  (ValidateMT m = None ↔
    MAdminSecret m ≠ "" ∧ MAppSecret m ≠ "" ∧ APIID m ≠ 0 ∧ APIHash m ≠ "" ∧
    (OnLimit (MPolicy m) = "queue" ∨ OnLimit (MPolicy m) = "reject") ∧
    (Durability (MStorage m) = "normal" ∨ Durability (MStorage m) = "full")).
Proof.
  unfold Validate, ValidateMT, missing_of. split.
  - destruct (String.eqb_spec (AdminSecret b) ""), (String.eqb_spec (AppSecret b) ""); simpl;
      rewrite ?validatePolicyStorage_None; naive_solver.
  - destruct (String.eqb_spec (MAdminSecret m) ""), (String.eqb_spec (MAppSecret m) ""),
      (Z.eqb_spec (APIID m) 0), (String.eqb_spec (APIHash m) ""); simpl;
      rewrite ?validatePolicyStorage_None; naive_solver.
Qed.
