(* ===== verification/Maintenance.v ===== *)
(** * SQLite files: opening, integrity, migrations, backups (internal/store/db.go)

    The data and backup directories are one map from path to file.  A file
    carries what the checks and the maintenance statements can see of it: the
    text [PRAGMA quick_check]/[integrity_check] answers ([None] when the query
    itself errors), its pages, its modification time, and the timestamps of
    its [admin_audit] table if it has one.  Paths contain no glob
    metacharacters.  A run-time panic is [None]. *)
From Stdlib Require Import QArith Lqa Ascii String.
From stdpp Require Import base list strings gmap sorting.
From S2P Require Import Prelude GoValue Sql Health Config.
Open Scope Z_scope.

Record file := {
  check : option string;
  pages : string;
  mtime : Z;
  audit_ts : option (list Z)
}.

Abbreviation dir := (gmap string file).

(** ** Opening *)

Definition PragmaStatements (durability : string) (foreignKeys : bool) : list string :=
  let sync := if (to_lower durability =? "full")%string then "FULL" else "NORMAL" in
  ["PRAGMA journal_mode=WAL"; "PRAGMA synchronous=" +:+ sync; "PRAGMA busy_timeout=5000";
   "PRAGMA wal_autocheckpoint=1000"] ++ (if foreignKeys then ["PRAGMA foreign_keys=ON"] else []).

(** Each pragma in turn; the first failure closes the handle. *)
Fixpoint exec_all (f : faults) (k : nat) (stmts : list string) : bool :=
  match stmts with
  | [] => true
  | _ :: rest => if f k then false else exec_all f (S k) rest
  end.

(** [Some mode]: the permission bits left on the file. Statement 0 is the
    open itself, the last one the chmod. *)
Definition Open (f : faults) (durability : string) (foreignKeys : bool) : option Z :=
  let stmts := PragmaStatements durability foreignKeys in
  if f 0%nat then None
  else if negb (exec_all f 1 stmts) then None
  else if f (S (length stmts)) then None
  else Some 384.

(** ** Boot integrity *)

Definition QuickCheck (fs : dir) (path : string) : bool :=
  match fs !! path with
  | Some x => bool_decide (check x = Some "ok")
  | None => false
  end.

Definition has_suffix (suf s : string) : bool :=
  (String.length suf <=? String.length s)%nat
  && (sdrop (String.length s - String.length suf) s =? suf)%string.

(** [filepath.Glob(dir/prefix*suffix)]: the star matches within one name. *)
Definition glob (fs : dir) (prefix suf : string) : list string :=
  bfilter (λ p, has_prefix prefix p &&
    (let rest := sdrop (String.length prefix) p in has_suffix suf rest && negb (has_char "/" rest)))
    (map fst (map_to_list fs)).

(** [sort.Sort(sort.Reverse(sort.StringSlice(l)))]. *)
Definition newest_first (l : list string) : list string := reverse (Storage.sortStrings l).

Definition backup_prefix (path backupsDir : string) : string :=
  backupsDir +:+ "/" +:+ Storage.filepathBase path +:+ "-".

(** The candidate loop: unreadable ones are skipped ([f k]), corrupt ones too. *)
Fixpoint restore_loop (f : faults) (k : nat) (path : string) (cands : list string) (fs : dir) (now : Z)
    : bool * dir :=
  match cands with
  | [] => (false, fs)
  | c :: rest =>
      if QuickCheck fs c then
        match (if f k then None else fs !! c) with
        | None => restore_loop f (S k) path rest fs now
        | Some x =>
            if f (S k) then (false, fs)
            else (true, <[path := {| check := check x; pages := pages x; mtime := now;
                                     audit_ts := audit_ts x |}]> fs)
        end
      else restore_loop f (S k) path rest fs now
  end.

Definition restoreNewestBackup (f : faults) (now : Z) (path backupsDir : string) (fs : dir) : bool * dir :=
  if (backupsDir =? "")%string then (false, fs) else
  restore_loop f 0 path (newest_first (glob fs (backup_prefix path backupsDir) ".db")) fs now.

Definition rename (from to : string) (fs : dir) : dir :=
  match fs !! from with
  | Some x => <[to := x]> (delete from fs)
  | None => fs
  end.

(** Faults: 0 the main rename, 1 and 2 the sidecars', 3.. the restore. *)
Definition CheckOrQuarantine (f : faults) (now : Z) (ts : string) (path backupsDir : string)
    (h : option Storage.t) (fs : dir) : option Storage.t * dir :=
  match fs !! path with
  | None => (h, fs)
  | Some _ =>
      if QuickCheck fs path then (h, fs) else
      if f 0%nat then (h, fs) else
      let fs := rename path (path +:+ ".corrupt-" +:+ ts) fs in
      let fs := if f 1%nat then fs else rename (path +:+ "-wal") (path +:+ "-wal.corrupt-" +:+ ts) fs in
      let fs := if f 2%nat then fs else rename (path +:+ "-shm") (path +:+ "-shm.corrupt-" +:+ ts) fs in
      (Storage.NoteQuarantine path <$> h,
       (restoreNewestBackup (λ k, f (3 + k)%nat) now path backupsDir fs).2)
  end.

(** ** Backups *)

Definition remove_all (l : list string) (fs : dir) : dir := fold_left (λ fs p, delete p fs) l fs.

(** [files[keep:]] panics when there are fewer than [keep] files. *)
Definition rotate (prefix suf : string) (keep : Z) (fs : dir) : option dir :=
  let files := newest_first (glob fs prefix suf) in
  if (0 <=? keep) && (keep <=? Z.of_nat (length files))
  then Some (remove_all (drop (Z.to_nat keep) files) fs)
  else None.

Definition backup_name (path backupsDir ts : string) (pid ms : Z) : string :=
  backup_prefix path backupsDir +:+ ts +:+ "-" +:+ itoa pid +:+ "-" +:+ itoa ms +:+ ".db".

(** Faults: 0 open, 1 the bound VACUUM, 2 the literal one. *)
Definition BackupDB (f : faults) (now : Z) (ts : string) (pid : Z) (path backupsDir : string) (keep : Z)
    (fs : dir) : option (string * dir) :=
  match fs !! path with
  | None => Some ("", fs)
  | Some x =>
      let dest := backup_name path backupsDir ts pid (now / 1000000 mod 1000) in
      if f 0%nat then Some ("", fs)
      else if f 1%nat && f 2%nat then Some ("", delete dest fs)
      else
        let fs := <[dest := {| check := check x; pages := pages x; mtime := now;
                               audit_ts := audit_ts x |}]> fs in
        match rotate (backup_prefix path backupsDir) ".db" keep fs with
        | None => None
        | Some fs => Some (dest, fs)
        end
  end.

(** ** Schema versions *)

Record schema_db := { user_version : Z; applied : list string }.

Definition sortedKeys (m : gmap Z string) : list Z := sort_by id (map fst (map_to_list m)).

(** One transaction: begin, script, version bump, commit; any failure rolls
    back. *)
Definition applyMigration (f : faults) (version : Z) (script : string) (d : schema_db) : option schema_db :=
  if f 0%nat || f 1%nat || f 2%nat || f 3%nat then None
  else Some {| user_version := version; applied := applied d ++ [script] |}.

Fixpoint migrate_loop (f : nat → faults) (i : nat) (current : Z) (ms : gmap Z string) (keys : list Z)
    (have : Z) (d : schema_db) : bool * Z * schema_db :=
  match keys with
  | [] => (true, have, d)
  | v :: rest =>
      if (have <? v) && (v <=? current) then
        match applyMigration (f i) v (default "" (ms !! v)) d with
        | None => (false, have, d)
        | Some d' => migrate_loop f (S i) current ms rest v d'
        end
      else migrate_loop f (S i) current ms rest have d
  end.

(** Statement 0 is the version query, 1 the adopting or final bump; [fb] are
    the faults of the snapshot.  [None]: the snapshot's rotation panicked. *)
Definition EnsureSchema (f fb : faults) (fm : nat → faults) (now : Z) (ts : string) (pid : Z)
    (current : Z) (ms : gmap Z string) (path backupsDir : string) (fs : dir) (d : schema_db)
    : option (bool * schema_db * dir) :=
  let bump := λ d, if f 1%nat then (false, d)
                   else (true, {| user_version := current; applied := applied d |}) in
  let exists_ := bool_decide (is_Some (fs !! path)) in
  if f 0%nat then Some (false, d, fs) else
  let have := user_version d in
  if (have =? 0) && exists_ then Some (bump d, fs)
  else if negb (have =? 0) && (current <=? have) then Some (true, d, fs)
  else
    match (if negb (backupsDir =? "")%string && exists_
           then snd <$> BackupDB fb now ts pid path backupsDir 5 fs else Some fs) with
    | None => None
    | Some fs =>
        let '(ok, have', d') := migrate_loop fm 0 current ms (sortedKeys ms) have d in
        if negb ok then Some (false, d', fs)
        else if have' <? current then Some (bump d', fs) else Some (true, d', fs)
    end.

(** ** Periodic maintenance *)

(** The audit-retention statement both planes pass: it errors on a database
    without an [admin_audit] table. *)
Definition delete_old_audit (cutoff : Z) (x : file) : option file :=
  match audit_ts x with
  | None => None
  | Some ts => Some {| check := check x; pages := pages x; mtime := mtime x;
                       audit_ts := Some (bfilter (λ t, cutoff <=? t) ts) |}
  end.

(** [cutoff.Unix()] of [now] minus the retention days. *)
Definition audit_cutoff (now days : Z) : Z :=
  (now - wrap64 (wrap64 (days * 24) * 3600000000000)) / 1000000000.

(** One database: integrity check, checkpoint, retention.  [f 0] fails the
    open, [f 1] the integrity query, [f 2] the retention statement. *)
Definition sweep_one (f : faults) (now : Z) (retention : option (Z → file → option file)) (days : Z)
    (path : string) (h : Storage.t) (fs : dir) : Storage.t * dir :=
  match fs !! path with
  | None => (h, fs)
  | Some x =>
      if f 0%nat then (h, fs) else
      let h := match (if f 1%nat then None else check x) with
               | Some res => if (res =? "ok")%string then h
                             else Storage.NotePersistFailure ("integrity:" +:+ Storage.filepathBase path) res h
               | None => h
               end in
      match retention with
      | None => (h, fs)
      | Some stmt =>
          match (if f 2%nat then None else stmt (audit_cutoff now days) x) with
          | Some x' => (h, <[path := x']> fs)
          | None => (Storage.NotePersistFailure ("maintenance:" +:+ Storage.filepathBase path) "sql error" h, fs)
          end
      end
  end.

Fixpoint sweep (f : nat → faults) (i : nat) (now : Z) (retention : option (Z → file → option file))
    (days : Z) (paths : list string) (h : Storage.t) (fs : dir) : Storage.t * dir :=
  match paths with
  | [] => (h, fs)
  | p :: rest =>
      let '(h, fs) := sweep_one (f i) now retention days p h fs in
      sweep f (S i) now retention days rest h fs
  end.

Definition zero_time : Z := -62135596800 * 1000000000.

Definition name_of (p : string) : string := Storage.filepathBase p.

(** [*-*.db] or [*.zip.enc] directly under [backupsDir]. *)
Definition is_backup (backupsDir p : string) : bool :=
  let pre := backupsDir +:+ "/" in
  let rest := sdrop (String.length pre) p in
  has_prefix pre p && negb (has_char "/" rest) &&
  (has_suffix ".zip.enc" rest ||
   (has_suffix ".db" rest && has_char "-" (stake (String.length rest - 3) rest))).

Definition lastBackupAt (backupsDir : string) (fs : dir) : Z :=
  foldr (λ pf acc, if is_backup backupsDir pf.1 then Z.max (mtime pf.2) acc else acc) zero_time
    (map_to_list fs).

(** [now.Sub(t).Seconds()], saturating at the int64 duration range. *)
Definition since_secs (now t : Z) : Q := secs (Z.max int64_min (Z.min int64_max (now - t))).

Fixpoint backup_all (f : nat → faults) (i : nat) (now : Z) (ts : string) (pid : Z) (backupsDir : string)
    (keep : Z) (paths : list string) (fs : dir) : option dir :=
  match paths with
  | [] => Some fs
  | p :: rest =>
      match BackupDB (f i) now ts pid p backupsDir keep fs with
      | None => None
      | Some (_, fs) => backup_all f (S i) now ts pid backupsDir keep rest fs
      end
  end.

Definition MaintenancePass (f fb : nat → faults) (now : Z) (ts : string) (pid : Z) (dbPaths : list string)
    (backupsDir : string) (keep : Z) (backupInterval : Q)
    (retention : option (Z → file → option file)) (days : Z) (h : Storage.t) (fs : dir)
    : option (Storage.t * dir) :=
  let '(h, fs) := sweep f 0 now retention days dbPaths h fs in
  match (if qle backupInterval (since_secs now (lastBackupAt backupsDir fs))
         then backup_all fb 0 now ts pid backupsDir keep dbPaths fs else Some fs) with
  | None => None
  | Some fs => Some (Storage.NoteMaintenanceDone now h, fs)
  end.

(** ** Lemmas *)

Lemma elem_of_glob fs prefix suf p :
  p ∈ glob fs prefix suf ↔ is_Some (fs !! p) ∧ has_prefix prefix p &&
    (has_suffix suf (sdrop (String.length prefix) p) && negb (has_char "/" (sdrop (String.length prefix) p))) = true.
Proof.
  unfold glob. rewrite elem_of_bfilter. f_equiv. rewrite list_elem_of_fmap. split.
  - intros ([p' x] & -> & Hx). apply elem_of_map_to_list in Hx. by eexists.
  - intros [x Hx]. exists (p, x). split; [done|]. by apply elem_of_map_to_list.
Qed.

Lemma NoDup_glob fs prefix suf : NoDup (glob fs prefix suf).
Proof.
  unfold glob. eapply sublist_NoDup; [exact (NoDup_fst_map_to_list fs)|]. apply bfilter_sublist.
Qed.

Lemma newest_first_Permutation l : newest_first l ≡ₚ l.
Proof. unfold newest_first. by rewrite reverse_Permutation, Storage.sortStrings_Permutation. Qed.

Lemma newest_first_sorted l : StronglySorted (λ a b, Storage.string_le b a) (newest_first l).
Proof.
  unfold newest_first. pose proof (Storage.sortStrings_sorted l) as H.
  induction H as [|x k Hs IH Hx]; [constructor|]. rewrite reverse_cons.
  apply StronglySorted_app; split_ands; [|done|repeat constructor].
  intros y z Hy Hz. apply list_elem_of_singleton in Hz as ->.
  rewrite Forall_forall in Hx. apply Hx. by rewrite <-(reverse_Permutation k).
Qed.

Lemma remove_all_lookup l (fs : dir) p : remove_all l fs !! p = if decide (p ∈ l) then None else fs !! p.
Proof.
  revert fs. induction l as [|q l IH]; intros fs; [done|].
  unfold remove_all in *. cbn [fold_left]. rewrite IH. destruct (decide (p ∈ l)) as [Hl|Hl].
  - by rewrite decide_True by set_solver.
  - destruct (decide (p = q)) as [->|Hne].
    + by rewrite decide_True, lookup_delete_eq by set_solver.
    + by rewrite decide_False, lookup_delete_ne by set_solver.
Qed.

Lemma restore_spec path cands (fs : dir) now :
  (restore_loop no_faults 0 path cands fs now).2 =
  match List.find (QuickCheck fs) cands with
  | Some c => match fs !! c with
              | Some x => <[path := {| check := check x; pages := pages x; mtime := now; audit_ts := audit_ts x |}]> fs
              | None => fs
              end
  | None => fs
  end.
Proof.
  generalize O. induction cands as [|c cands IH]; intros k; simpl; [done|].
  destruct (QuickCheck fs c) eqn:E; [|apply IH]. unfold QuickCheck in E.
  by destruct (fs !! c).
Qed.

Lemma append_length a b : (String.length (a +:+ b) = String.length a + String.length b)%nat.
Proof. induction a; simpl; auto. Qed.

Lemma append_ne a b : (0 < String.length b)%nat → a +:+ b ≠ a.
Proof. intros H E. apply (f_equal String.length) in E. rewrite append_length in E. lia. Qed.

Lemma append_inj a b c : a +:+ b = a +:+ c → b = c.
Proof. induction a; simpl; [done|]. intros [= H]. auto. Qed.

Lemma rename_lookup from to (fs : dir) p x :
  from ≠ to → fs !! from = Some x →
  rename from to fs !! p = if decide (p = to) then Some x else if decide (p = from) then None else fs !! p.
Proof.
  intros Hne Hx. unfold rename. rewrite Hx. destruct (decide (p = to)) as [->|Hp]; [by rewrite lookup_insert_eq|].
  rewrite lookup_insert_ne by done. destruct (decide (p = from)) as [->|]; [by rewrite lookup_delete_eq|].
  by rewrite lookup_delete_ne.
Qed.

Lemma rename_other from to (fs : dir) p : p ≠ from → p ≠ to → rename from to fs !! p = fs !! p.
Proof.
  intros H1 H2. unfold rename. destruct (fs !! from); [|done].
  by rewrite lookup_insert_ne, lookup_delete_ne.
Qed.

Lemma rename_gone from to (fs : dir) : from ≠ to → rename from to fs !! from = None.
Proof.
  intros H. unfold rename. destruct (fs !! from) eqn:E; [|done].
  by rewrite lookup_insert_ne, lookup_delete_eq.
Qed.

(** The directory with the corrupt database and its sidecars moved aside. *)
Definition moved_aside (path ts : string) (fs : dir) : dir :=
  rename (path +:+ "-shm") (path +:+ "-shm.corrupt-" +:+ ts)
    (rename (path +:+ "-wal") (path +:+ "-wal.corrupt-" +:+ ts)
      (rename path (path +:+ ".corrupt-" +:+ ts) fs)).

Lemma moved_aside_lookup path ts (fs : dir) x :
  fs !! path = Some x →
  moved_aside path ts fs !! path = None ∧
  moved_aside path ts fs !! (path +:+ ".corrupt-" +:+ ts) = Some x ∧
  moved_aside path ts fs !! (path +:+ "-wal") = None ∧ moved_aside path ts fs !! (path +:+ "-shm") = None.
Proof.
  intros Hx. unfold moved_aside.
  assert (∀ s, path +:+ String "-" s ≠ path) as N1 by (intros s; apply append_ne; simpl; lia).
  assert (∀ s, path +:+ String "." s ≠ path) as N2 by (intros s; apply append_ne; simpl; lia).
  assert (∀ s t, path +:+ String "-" s ≠ path +:+ String "." t) as N3 by (intros s t E%append_inj; done).
  assert (∀ s t, s ≠ t → path +:+ s ≠ path +:+ t) as N4 by (intros s t Hne E%append_inj; done).
  split_ands.
  - rewrite !rename_other by (apply not_eq_sym, N1). apply rename_gone, not_eq_sym, N2.
  - rewrite !rename_other by (apply not_eq_sym, N3). rewrite (rename_lookup _ _ _ _ x); [|apply not_eq_sym, N2|done].
    by rewrite decide_True.
  - rewrite rename_other by (by apply N4). by apply rename_gone, N4.
  - by apply rename_gone, N4.
Qed.

(** Migrations that a run from [have] to [current] still has to apply. *)
Definition pending_keys (have current : Z) (keys : list Z) : list Z :=
  bfilter (λ v, (have <? v) && (v <=? current)) keys.

Lemma migrate_loop_spec f i current ms keys have d :
  StronglySorted Z.lt keys → user_version d = have →
  let '(ok, have', d') := migrate_loop f i current ms keys have d in
  user_version d' = have' ∧
  ∃ done_, (∃ rest, pending_keys have current keys = done_ ++ rest ∧ (ok = true → rest = [])) ∧
    have' = default have (last done_) ∧
    applied d' = applied d ++ ((λ v, default "" (ms !! v)) <$> done_).
Proof.
  intros Hs. revert i have d. induction Hs as [|v keys Hs IH Hv]; intros i have d Hd; simpl.
  { split; [done|]. exists []. rewrite app_nil_r. eauto. }
  destruct ((have <? v) && (v <=? current)) eqn:Ev.
  - unfold applyMigration. destruct (f i 0%nat || f i 1%nat || f i 2%nat || f i 3%nat).
    { split; [done|]. exists []. rewrite app_nil_r. split_ands; [|done|done]. eexists. split; [reflexivity|done]. }
    specialize (IH (S i) v {| user_version := v; applied := applied d ++ [default "" (ms !! v)] |} eq_refl).
    destruct (migrate_loop f (S i) current ms keys v _) as [[ok have'] d'].
    destruct IH as (H1 & l & (rest & H2 & H3) & H4 & H5). split; [done|]. exists (v :: l).
    assert (pending_keys have current keys = pending_keys v current keys) as Hp.
    { apply bfilter_ext. intros w Hw. rewrite Forall_forall in Hv. specialize (Hv w Hw). lia. }
    rewrite Hp, H2. split_ands; [by exists rest| |].
    + rewrite H4. destruct l as [|w l]; [done|]. rewrite last_cons_cons. destruct (last (w :: l)) eqn:El; [done|].
      by apply last_None in El.
    + rewrite H5. simpl. by rewrite <-app_assoc.
  - by apply IH.
Qed.

Lemma sortedKeys_sorted ms : StronglySorted Z.lt (sortedKeys ms).
Proof.
  unfold sortedKeys. pose proof (sort_by_sorted id (map fst (map_to_list ms))) as Hs.
  assert (NoDup (sort_by id (map fst (map_to_list ms)))) as Hn.
  { rewrite sort_by_Permutation. exact (NoDup_fst_map_to_list ms). }
  induction Hs as [|x l Hs IH Hx]; [constructor|]. apply NoDup_cons in Hn as [Hn1 Hn2].
  constructor; [by apply IH|]. apply Forall_forall. intros y Hy. rewrite Forall_forall in Hx.
  specialize (Hx y Hy). simpl in Hx. assert (x ≠ y) by congruence. lia.
Qed.

(** ** Properties *)

(** Booting over a corrupt database loses no evidence and never reuses a
    hot WAL: the corrupt file is kept under its quarantine name, both sidecars
    are moved aside, the storage reports degraded, and in its place is the
    newest backup that passes the check, or nothing.  A healthy database is
    left exactly as it was. *)
Theorem quarantine_restores_newest now ts path bdir h fs x :
  fs !! path = Some x →
  (check x = Some "ok" → CheckOrQuarantine no_faults now ts path bdir (Some h) fs = (Some h, fs)) ∧
  (check x ≠ Some "ok" → bdir ≠ "" →
    let '(h', fs') := CheckOrQuarantine no_faults now ts path bdir (Some h) fs in
    let aside := moved_aside path ts fs in
    fs' !! (path +:+ ".corrupt-" +:+ ts) = Some x ∧
    fs' !! (path +:+ "-wal") = None ∧ fs' !! (path +:+ "-shm") = None ∧
    h' = Some (Storage.NoteQuarantine path h) ∧
    pages <$> fs' !! path =
      (c ← List.find (QuickCheck aside) (newest_first (glob aside (backup_prefix path bdir) ".db"));
       pages <$> aside !! c)).
Proof.
  intros Hx. unfold CheckOrQuarantine. rewrite Hx. unfold QuickCheck at 1 2. rewrite Hx. split.
  { intros Hc. by rewrite bool_decide_true. }
  intros Hc Hb. rewrite bool_decide_false by done. cbn [no_faults]. fold (moved_aside path ts fs).
  unfold restoreNewestBackup. destruct (String.eqb_spec bdir ""); [done|].
  change (λ k, no_faults (3 + k)%nat) with no_faults.
  rewrite restore_spec. destruct (moved_aside_lookup path ts fs x Hx) as (M1 & M2 & M3 & M4).
  destruct (List.find _ _) as [c|] eqn:Ef; simpl.
  - apply List.find_some in Ef as [_ Ef]. unfold QuickCheck in Ef.
    destruct (moved_aside path ts fs !! c) as [y|] eqn:Ey; [|done].
    assert (∀ a s, path +:+ String a s ≠ path) as N by (intros a s; apply append_ne; simpl; lia).
    rewrite !lookup_insert_ne by (apply not_eq_sym, N). rewrite lookup_insert_eq. done.
  - by rewrite M1.
Qed.

(** Rotation keeps exactly the newest [keep] snapshots of a database and
    deletes the older ones; no other file of the directory is touched. *)
Theorem rotate_keeps_newest prefix suf keep fs :
  0 <= keep <= Z.of_nat (length (glob fs prefix suf)) →
  ∃ fs', rotate prefix suf keep fs = Some fs' ∧
    (∀ p, p ∈ glob fs' prefix suf ↔ p ∈ take (Z.to_nat keep) (newest_first (glob fs prefix suf))) ∧
    (∀ p, p ∉ glob fs prefix suf → fs' !! p = fs !! p) ∧
    (∀ p q, p ∈ glob fs' prefix suf → q ∈ glob fs prefix suf → q ∉ glob fs' prefix suf →
       Storage.string_le q p).
Proof.
  intros Hk. unfold rotate. set (files := newest_first (glob fs prefix suf)).
  assert (files ≡ₚ glob fs prefix suf) as Hp by apply newest_first_Permutation.
  assert (length files = length (glob fs prefix suf)) as Hlen by (by rewrite Hp).
  assert ((0 <=? keep) && (keep <=? Z.of_nat (length files)) = true) as -> by (rewrite Hlen; lia).
  eexists. split; [reflexivity|].
  assert (NoDup files) as Hnd by (rewrite Hp; apply NoDup_glob).
  rewrite <-(take_drop (Z.to_nat keep) files) in Hnd. apply NoDup_app in Hnd as (Hn1 & Hn2 & Hn3).
  assert (∀ p, p ∈ files ↔ p ∈ take (Z.to_nat keep) files ∨ p ∈ drop (Z.to_nat keep) files) as Hsplit.
  { intros p. rewrite <-(take_drop (Z.to_nat keep) files) at 1. apply elem_of_app. }
  assert (∀ p, p ∈ glob (remove_all (drop (Z.to_nat keep) files) fs) prefix suf ↔
    p ∈ take (Z.to_nat keep) files) as Hg.
  { intros p. rewrite elem_of_glob, remove_all_lookup. split.
    - intros [[y Hy] Hm]. destruct (decide (p ∈ drop _ files)); [done|].
      assert (p ∈ files) as Hf by (rewrite Hp, elem_of_glob; eauto). naive_solver.
    - intros Ht. rewrite decide_False by (by apply Hn2).
      apply elem_of_glob. rewrite <-Hp, Hsplit. by left. }
  split_ands; [done| |].
  - intros p Hno. rewrite remove_all_lookup, decide_False; [done|]. intros Hd. apply Hno.
    rewrite <-Hp, Hsplit. by right.
  - intros p q Hp' Hq Hq'. rewrite Hg in Hp', Hq'. rewrite <-Hp, Hsplit in Hq.
    destruct Hq as [|Hq]; [done|]. pose proof (newest_first_sorted (glob fs prefix suf)) as Hs.
    fold files in Hs. rewrite <-(take_drop (Z.to_nat keep) files) in Hs.
    exact (StronglySorted_app_1_elem_of _ _ _ _ _ Hs Hp' Hq).
Qed.

Definition a_db (b : bool) : file :=
  {| check := Some "ok"; pages := "p"; mtime := 0; audit_ts := if b then Some [] else None |}.

Definition backups_demo : dir :=
  {["/d/backups/g.db-1-1-1.db" := a_db true; "/d/backups/g.db-2-1-1.db" := a_db true; "/d/g.db" := a_db true]}.

Lemma quarantine_restores_newest_witness :
  (CheckOrQuarantine no_faults 0 "t" "/d/g.db" "/d/backups" (Some Storage.NewStorage) backups_demo)
  = (Some Storage.NewStorage, backups_demo).
Proof.
  refine (proj1 (quarantine_restores_newest 0 "t" "/d/g.db" "/d/backups" Storage.NewStorage backups_demo (a_db true) _) _);
    vm_compute; reflexivity.
Defined.

Lemma rotate_keeps_newest_witness :
  ∃ fs', rotate "/d/backups/g.db-" ".db" 1 backups_demo = Some fs' ∧
    "/d/backups/g.db-2-1-1.db" ∈ glob fs' "/d/backups/g.db-" ".db".
Proof.
  destruct (rotate_keeps_newest "/d/backups/g.db-" ".db" 1 backups_demo) as (fs' & H1 & H2 & _).
  - vm_compute. split; discriminate.
  - exists fs'. split; [exact H1|]. apply H2. vm_compute. left.
Defined.

(** Taking a snapshot panics exactly when, the new one included, fewer
    than [keep] snapshots exist (or [keep] is negative): the rotation slices
    the file list at [keep] without checking its length, so the first backups
    of every installation crash the process. *)
Theorem backup_panics_below_keep now ts pid path bdir keep fs x :
  fs !! path = Some x →
  let dest := backup_name path bdir ts pid (now / 1000000 mod 1000) in
  let fs1 := <[dest := {| check := check x; pages := pages x; mtime := now; audit_ts := audit_ts x |}]> fs in
  BackupDB no_faults now ts pid path bdir keep fs = None ↔
  keep < 0 ∨ Z.of_nat (length (glob fs1 (backup_prefix path bdir) ".db")) < keep.
Proof.
  intros Hx dest fs1. unfold BackupDB. rewrite Hx. cbn [no_faults andb]. fold dest fs1. unfold rotate.
  rewrite (Permutation_length (newest_first_Permutation _)).
  destruct ((0 <=? keep) && (keep <=? Z.of_nat (length (glob fs1 (backup_prefix path bdir) ".db")))) eqn:E.
  - split; [done|]. lia.
  - split; [|done]. intros _. lia.
Qed.

Lemma backup_panics_below_keep_witness :
  BackupDB no_faults 5 "20250101-000000" 7 "/d/g.db" "/d/backups" 5 {["/d/g.db" := a_db true]} = None.
Proof.
  apply (backup_panics_below_keep 5 "20250101-000000" 7 "/d/g.db" "/d/backups" 5 {["/d/g.db" := a_db true]} (a_db true));
    [vm_compute; reflexivity|]. right. vm_compute. reflexivity.
Defined.

(** Migrations are applied in order, each with its version in one
    transaction: from a versioned database, whatever fails on the way, the
    recorded version is that of the last script applied and the scripts
    applied are the first pending ones in version order; if every step
    succeeds the database ends at the current version, and opening it again
    does nothing. *)
Theorem migrations_in_order f fm now ts pid current ms path fs d :
  0 < user_version d → f 0%nat = false →
  ∃ ok d', EnsureSchema f no_faults fm now ts pid current ms path "" fs d = Some (ok, d', fs) ∧
    (∃ done_ rest, pending_keys (user_version d) current (sortedKeys ms) = done_ ++ rest ∧
      applied d' = applied d ++ ((λ v, default "" (ms !! v)) <$> done_) ∧
      (user_version d' = default (user_version d) (last done_) ∨ ok = true ∧ user_version d' = current) ∧
      (ok = true → rest = [] ∧ current <= user_version d')) ∧
    (ok = true → EnsureSchema f no_faults fm now ts pid current ms path "" fs d' = Some (true, d', fs)).
Proof.
  intros Hv Hf. unfold EnsureSchema. rewrite Hf.
  assert ((user_version d =? 0) = false) as Hz by lia. rewrite Hz. simpl.
  destruct (current <=? user_version d) eqn:Ec.
  { exists true, d. split; [done|]. split.
    - exists [], []. split_ands.
      + apply bfilter_none. intros v _. lia.
      + simpl. by rewrite app_nil_r.
      + by left.
      + intros _. split; [done|lia].
    - intros _. by rewrite Hz, Ec. }
  pose proof (migrate_loop_spec fm 0 current ms (sortedKeys ms) (user_version d) d (sortedKeys_sorted ms) eq_refl) as H.
  destruct (migrate_loop fm 0 current ms (sortedKeys ms) (user_version d) d) as [[ok have'] d'].
  destruct H as (H1 & l & (rest & H2 & H3) & H4 & H5).
  destruct ok; simpl.
  - specialize (H3 eq_refl). subst rest. destruct (have' <? current) eqn:Eh.
    + destruct (f 1%nat).
      * exists false, d'. split; [done|]. split; [|done]. exists l, []. split_ands; auto; [|done]. left. congruence.
      * exists true, {| user_version := current; applied := applied d' |}. split; [done|]. split.
        -- exists l, []. split_ands; auto. intros _. split; [done|]. simpl. lia.
        -- intros _. simpl. assert ((current =? 0) = false) as -> by lia. by rewrite Z.leb_refl.
    + exists true, d'. split; [done|]. split.
      * exists l, []. split_ands; auto; [left; congruence|]. intros _. split; [done|lia].
      * intros _. rewrite H1. assert ((have' =? 0) = false) as -> by lia. assert ((current <=? have') = true) as -> by lia. done.
  - exists false, d'. split; [done|]. split; [|done]. exists l, rest. split_ands; auto; [left; congruence|done].
Qed.

Lemma migrations_in_order_witness :
  ∃ ok d', EnsureSchema no_faults no_faults (λ _, no_faults) 0 "t" 1 3 {[3 := "c"; 2 := "b"]} "/d/g.db" "" ∅
    {| user_version := 1; applied := [] |} = Some (ok, d', ∅).
Proof.
  destruct (migrations_in_order no_faults (λ _, no_faults) 0 "t" 1 3 {[3 := "c"; 2 := "b"]} "/d/g.db" ∅
    {| user_version := 1; applied := [] |}) as (ok & d' & H & _).
  - vm_compute. reflexivity.
  - reflexivity.
  - exists ok, d'. exact H.
Defined.

(** Maintenance degrades a healthy system: sweeping a sound database that
    has no [admin_audit] table with the audit-retention statement (as the Bot
    API plane does for queue.db) records a persistence failure, so readiness
    is degraded from the first sweep on. *)
Theorem sweep_without_audit_degrades now days path h fs x :
  fs !! path = Some x → check x = Some "ok" → audit_ts x = None →
  let '(h', _) := sweep_one no_faults now (Some delete_old_audit) days path h fs in
  "persist:maintenance:" +:+ Storage.filepathBase path ∈ Storage.reasons h'.
Proof.
  intros Hx Hc Ha. unfold sweep_one, delete_old_audit. rewrite Hx. cbn [no_faults]. rewrite Hc, Ha.
  rewrite String.eqb_refl. simpl. set_solver.
Qed.

Lemma sweep_without_audit_degrades_witness :
  Storage.reasons (sweep_one no_faults 0 (Some delete_old_audit) 30 "/data/queue.db" Storage.NewStorage
    {["/data/queue.db" := a_db false]}).1 ≠ ∅.
Proof.
  pose proof (sweep_without_audit_degrades 0 30 "/data/queue.db" Storage.NewStorage
    {["/data/queue.db" := a_db false]} (a_db false) eq_refl eq_refl eq_refl) as H.
  intros E. vm_compute in E. discriminate E.
Defined.
