(* ===== verification/RateGuard.v ===== *)
(** * Outbound pacing of the Bot API plane (internal/rateguard/rateguard.go)

    Token buckets with pauses, and the per-bot guard that admits a request
    against the read, global, paid and per-chat buckets.  Every guard call
    runs under the guard's mutex and takes the clock reading [now] of its
    critical section; a call that may create a chat bucket also takes [born],
    the later reading [NewBucket] stamps the new bucket with. *)
From Stdlib Require Import QArith Lqa Ascii String.
From stdpp Require Import base list strings gmap.
From S2P Require Import Prelude GoValue Config.
Open Scope Z_scope.

Definition fastPath : list string :=
  ["answercallbackquery"; "answerinlinequery"; "answershippingquery"; "answerprecheckoutquery";
   "setmessageeffect"].

Definition readMethods : list string :=
  ["getme"; "getchat"; "getchatmember"; "getchatadministrators"; "getuser"; "getmycommands";
   "getmyname"; "getmydescription"; "getmyshortdescription"; "getwebhookinfo"; "getchatmenubutton";
   "getmydefaultadministratorrights"; "getfile"; "getchatmembercount"; "getforumtopiciconstickers";
   "getstickerset"].

Definition MethodKind (method : string) : string :=
  let m := to_lower method in
  if smem m fastPath then "fast"
  else if smem m readMethods || has_prefix "get" m then "read"
  else "write".

(** ** Buckets *)

Record Bucket := {
  BRate : Q; Capacity : Z; Tokens : Q; Updated : Q; PausedUntil : Q
}.

Definition NewBucket (rate : Q) (capacity : Z) (born : Q) : Bucket :=
  {| BRate := rate; Capacity := capacity; Tokens := inject_Z capacity; Updated := born;
     PausedUntil := 0 |}.

Definition with_tokens (b : Bucket) (t : Q) : Bucket :=
  {| BRate := BRate b; Capacity := Capacity b; Tokens := t; Updated := Updated b;
     PausedUntil := PausedUntil b |}.

(** The pause is over: [PausedUntil != 0 && now >= PausedUntil]. *)
Definition pause_over (now : Q) (b : Bucket) : bool :=
  negb (Qeq_bool (PausedUntil b) 0) && qle (PausedUntil b) now.

Definition Refill (now : Q) (b : Bucket) : Bucket :=
  let t := if pause_over now b then fmax (Tokens b) 1 else Tokens b in
  {| BRate := BRate b; Capacity := Capacity b;
     Tokens := fmin (inject_Z (Capacity b)) (t + (now - Updated b) * BRate b)%Q;
     Updated := now;
     PausedUntil := if pause_over now b then 0%Q else PausedUntil b |}.

Definition TryTake (now : Q) (b : Bucket) : bool * Bucket :=
  let b := Refill now b in
  if qlt now (PausedUntil b) then (false, b)
  else if qle 1 (Tokens b) then (true, with_tokens b (Tokens b - 1)%Q)
  else (false, b).

Definition NextAvailable (now : Q) (b : Bucket) : Q * Bucket :=
  let b := Refill now b in
  if qlt now (PausedUntil b) then ((PausedUntil b - now)%Q, b)
  else
    let deficit := (1 - Tokens b)%Q in
    (if qlt 0 deficit then (deficit / BRate b)%Q else 0%Q, b).

Definition Pause (seconds now : Q) (b : Bucket) : Bucket :=
  {| BRate := BRate b; Capacity := Capacity b; Tokens := 0; Updated := Updated b;
     PausedUntil := fmax (PausedUntil b) (now + seconds)%Q |}.

(** The spending tests that follow a refill. *)
Definition blocked (now : Q) (b : Bucket) : bool := qlt now (PausedUntil b) || qlt (Tokens b) 1.

(** ** The guard *)

Record Guard := {
  cfg : RateConfig;
  Private : gmap Z Bucket;
  Groups : gmap Z Bucket;
  globalWrites : Bucket;
  paid : Bucket;
  reads : Bucket;
  PaidEnabled : bool;
  egressPausedUntil : Q;
  paidLane : bool
}.

Definition NewGuard (c : RateConfig) (born : Q) : Guard := {|
  cfg := c; Private := ∅; Groups := ∅;
  globalWrites := NewBucket (GlobalRate c) (GlobalBurst c) born;
  paid := NewBucket (PaidRate c) (qtrunc (PaidRate c)) born;
  reads := NewBucket (ReadRate c) (Z.max 10 (qtrunc (ReadRate c))) born;
  PaidEnabled := false; egressPausedUntil := 0; paidLane := false
|}.

Definition set_reads (g : Guard) (b : Bucket) : Guard :=
  {| cfg := cfg g; Private := Private g; Groups := Groups g; globalWrites := globalWrites g;
     paid := paid g; reads := b; PaidEnabled := PaidEnabled g;
     egressPausedUntil := egressPausedUntil g; paidLane := paidLane g |}.

Definition set_global (g : Guard) (b : Bucket) : Guard :=
  {| cfg := cfg g; Private := Private g; Groups := Groups g; globalWrites := b;
     paid := paid g; reads := reads g; PaidEnabled := PaidEnabled g;
     egressPausedUntil := egressPausedUntil g; paidLane := paidLane g |}.

Definition set_paid (g : Guard) (b : Bucket) : Guard :=
  {| cfg := cfg g; Private := Private g; Groups := Groups g; globalWrites := globalWrites g;
     paid := b; reads := reads g; PaidEnabled := PaidEnabled g;
     egressPausedUntil := egressPausedUntil g; paidLane := paidLane g |}.

Definition set_paid_enabled (g : Guard) (b : bool) : Guard :=
  {| cfg := cfg g; Private := Private g; Groups := Groups g; globalWrites := globalWrites g;
     paid := paid g; reads := reads g; PaidEnabled := b;
     egressPausedUntil := egressPausedUntil g; paidLane := paidLane g |}.

Definition set_egress (g : Guard) (u : Q) : Guard :=
  {| cfg := cfg g; Private := Private g; Groups := Groups g; globalWrites := globalWrites g;
     paid := paid g; reads := reads g; PaidEnabled := PaidEnabled g;
     egressPausedUntil := u; paidLane := paidLane g |}.

Definition set_lane (g : Guard) (l : bool) : Guard :=
  {| cfg := cfg g; Private := Private g; Groups := Groups g; globalWrites := globalWrites g;
     paid := paid g; reads := reads g; PaidEnabled := PaidEnabled g;
     egressPausedUntil := egressPausedUntil g; paidLane := l |}.

Definition set_chats (g : Guard) (p gr : gmap Z Bucket) : Guard :=
  {| cfg := cfg g; Private := p; Groups := gr; globalWrites := globalWrites g;
     paid := paid g; reads := reads g; PaidEnabled := PaidEnabled g;
     egressPausedUntil := egressPausedUntil g; paidLane := paidLane g |}.

(** The chat's bucket, if it has been created. *)
Definition chat_of (c : Z) (g : Guard) : option Bucket :=
  if 0 <=? c then Private g !! c else Groups g !! c.

(** Writing through the [*Bucket] kept in the chat table. *)
Definition set_chat (c : Z) (b : Bucket) (g : Guard) : Guard :=
  if 0 <=? c then set_chats g (<[c := b]> (Private g)) (Groups g)
  else set_chats g (Private g) (<[c := b]> (Groups g)).

Definition chat_rate (c : Z) (rc : RateConfig) : Q := if 0 <=? c then PrivateRate rc else GroupRate rc.

Definition chat_burst (c : Z) (rc : RateConfig) : Z := if 0 <=? c then PrivateBurst rc else GroupBurst rc.

Definition chatBucket (born : Q) (c : Z) (g : Guard) : Bucket * Guard :=
  match chat_of c g with
  | Some b => (b, g)
  | None =>
      let b := NewBucket (chat_rate c (cfg g)) (chat_burst c (cfg g)) born in
      (b, set_chat c b g)
  end.

Definition EnterPaidLane (allowed : bool) (g : Guard) : Guard := set_lane g (allowed && PaidEnabled g).

Definition ExitPaidLane (g : Guard) : Guard := set_lane g false.

(** The write lane of [TryAcquire]: [chatB] is the chat's bucket pointer. *)
Definition acquire_paid (now : Q) (chat : option Z) (chatB : Bucket) (g : Guard) : bool * Guard :=
  let '(ok, p) := TryTake now (paid g) in
  let g := set_paid g p in
  if negb ok then (false, g) else
  match chat with
  | Some c => (true, set_chat c (with_tokens chatB (Tokens chatB - 1)%Q) g)
  | None => (true, g)
  end.

Definition acquire_global (now : Q) (chat : option Z) (chatB : Bucket) (g : Guard) : bool * Guard :=
  let '(ok, w) := TryTake now (globalWrites g) in
  let g := set_global g w in
  if negb ok then (false, g) else
  match chat with
  | None => (true, g)
  | Some c =>
      let chatB := Refill now chatB in
      let g := set_chat c chatB g in
      if blocked now chatB then
        (false, set_global g (with_tokens (globalWrites g) (Tokens (globalWrites g) + 1)%Q))
      else (true, set_chat c (with_tokens chatB (Tokens chatB - 1)%Q) g)
  end.

Definition TryAcquire (now born : Q) (method : string) (chatID : option Z) (g : Guard) : bool * Guard :=
  if qlt now (egressPausedUntil g) then (false, g) else
  let kind := MethodKind method in
  if (kind =? "fast")%string then (true, g) else
  if (kind =? "read")%string then
    let '(ok, r) := TryTake now (reads g) in (ok, set_reads g r)
  else
  match chatID with
  | None => if paidLane g then acquire_paid now None (paid g) g else acquire_global now None (paid g) g
  | Some c =>
      let '(b, g) := chatBucket born c g in
      let b := Refill now b in
      let g := set_chat c b g in
      if blocked now b then (false, g) else
      if paidLane g then acquire_paid now (Some c) b g else
      let b := Refill now b in
      let g := set_chat c b g in
      if blocked now b then (false, g) else acquire_global now (Some c) b g
  end.

Definition WaitTime (now born : Q) (method : string) (chatID : option Z) (g : Guard) : Q * Guard :=
  let kind := MethodKind method in
  let wait := fmax 0 (egressPausedUntil g - now)%Q in
  if (kind =? "fast")%string then (wait, g) else
  if (kind =? "read")%string then
    let '(w, r) := NextAvailable now (reads g) in (fmax wait w, set_reads g r)
  else
  let '(w, gw) := NextAvailable now (globalWrites g) in
  let wait := fmax wait w in
  let g := set_global g gw in
  match chatID with
  | None => (wait, g)
  | Some c =>
      let '(b, g) := chatBucket born c g in
      let '(w, b) := NextAvailable now b in
      (fmax wait w, set_chat c b g)
  end.

Definition Report429 (now born : Q) (chatID : option Z) (retryAfter : Q) (g : Guard) : Guard :=
  match chatID with
  | Some c => let '(b, g) := chatBucket born c g in set_chat c (Pause retryAfter now b) g
  | None =>
      let g := set_egress g (fmax (egressPausedUntil g) (now + retryAfter)%Q) in
      set_global g (Pause retryAfter now (globalWrites g))
  end.

Definition ChatSendState (now born : Q) (chatID : option Z) (g : Guard) : string * Guard :=
  if qlt now (egressPausedUntil g) then ("paused", g) else
  let '(wait, gw) := NextAvailable now (globalWrites g) in
  let g := set_global g gw in
  match chatID with
  | None => (if qlt 0 wait then "empty" else "ok", g)
  | Some c =>
      let '(b, g) := chatBucket born c g in
      if qlt now (PausedUntil b) then ("paused", g) else
      let '(w, b) := NextAvailable now b in
      (if qlt 0 (fmax wait w) then "empty" else "ok", set_chat c b g)
  end.

(** [NextAvailable(now) > 0] counted over one table; every bucket is refilled. *)
Definition count_empty (now : Q) (m : gmap Z Bucket) : Z :=
  Z.of_nat (length (bfilter (λ kb, qlt 0 (NextAvailable now kb.2).1) (map_to_list m))).

(** [math.Round] (halves away from zero) to one decimal. *)
Definition mround (x : Q) : Z :=
  if qle 0 x then qtrunc (x + (1 # 2)) else qtrunc (x - (1 # 2)).

Definition tenth (x : Q) : Q := (inject_Z (mround (x * 10)) / 10)%Q.

Definition Snapshot (now : Q) (g : Guard) : obj * Guard :=
  ([("private", AInt (count_empty now (Private g)));
    ("groups", AInt (count_empty now (Groups g)));
    ("egress_paused_for_s", AFloat (tenth (fmax 0 (egressPausedUntil g - now)%Q)))],
   set_chats g (Refill now <$> Private g) (Refill now <$> Groups g)).

Definition RestoreBackoff (now born : Q) (chatID : option Z) (remaining : Q) (g : Guard) : Guard :=
  if qle remaining 0 then g else Report429 now born chatID remaining g.

(** [rnd] is [rand.Float64()], in [0, 1). *)
Definition Jittered (rnd base capExtra : Q) : Q :=
  (base + rnd * fmin capExtra (base * (1 # 10)))%Q.

(** ** Calls as steps *)

Inductive gop :=
| OAcquire (now born : Q) (method : string) (chat : option Z)
| OWait (now born : Q) (method : string) (chat : option Z)
| OReport (now born : Q) (chat : option Z) (retry : Q)
| OState (now born : Q) (chat : option Z)
| OSnapshot (now born : Q)
| OLane (now born : Q) (enter : bool) (allowed : bool).

Definition gop_now (o : gop) : Q :=
  match o with
  | OAcquire n _ _ _ | OWait n _ _ _ | OReport n _ _ _ | OState n _ _ | OSnapshot n _ | OLane n _ _ _ => n
  end.

Definition gop_end (o : gop) : Q :=
  match o with
  | OAcquire _ b _ _ | OWait _ b _ _ | OReport _ b _ _ | OState _ b _ | OSnapshot _ b | OLane _ b _ _ => b
  end.

Definition gstep (o : gop) (g : Guard) : bool * Guard :=
  match o with
  | OAcquire n b m c => TryAcquire n b m c g
  | OWait n b m c => (false, (WaitTime n b m c g).2)
  | OReport n b c r => (false, Report429 n b c r g)
  | OState n b c => (false, (ChatSendState n b c g).2)
  | OSnapshot n _ => (false, (Snapshot n g).2)
  | OLane _ _ e a => (false, if e then EnterPaidLane a g else ExitPaidLane g)
  end.

(** The critical sections are totally ordered by the mutex: each call's clock
    readings come after the previous call's. *)
Fixpoint gtimes (t : Q) (ops : list gop) : Prop :=
  match ops with
  | [] => True
  | o :: ops' => (t <= gop_now o)%Q ∧ (gop_now o <= gop_end o)%Q ∧ gtimes (gop_end o) ops'
  end.

Definition gend (t : Q) (ops : list gop) : Q := default t (gop_end <$> last ops).

Definition is_write (m : string) : bool := (MethodKind m =? "write")%string.

(** Net charge of a call against chat [c]: a granted write counts 1, a 429 for
    the chat gives back 1. *)
Definition chat_charge (c : Z) (o : gop) (g : Guard) : Q :=
  match o with
  | OAcquire _ _ m (Some c') =>
      if (gstep o g).1 && is_write m && (c' =? c) then 1%Q else 0%Q
  | OReport _ _ (Some c') _ => if c' =? c then (-1)%Q else 0%Q
  | _ => 0%Q
  end.

(** Net charge against the bot-wide write bucket. *)
Definition global_charge (o : gop) (g : Guard) : Q :=
  match o with
  | OAcquire _ _ m _ => if (gstep o g).1 && is_write m && negb (paidLane g) then 1%Q else 0%Q
  | OReport _ _ None _ => (-1)%Q
  | _ => 0%Q
  end.

Fixpoint charges (f : gop → Guard → Q) (ops : list gop) (g : Guard) : Q :=
  match ops with
  | [] => 0
  | o :: ops' => f o g + charges f ops' (gstep o g).2
  end.

(** ** The credit argument *)

Definition paused_ind (b : Bucket) : Q := if Qeq_bool (PausedUntil b) 0 then 0 else 1.

Definition credit (b : Bucket) : Q := (fmax (Tokens b) 0 + paused_ind b)%Q.

(** [b] is the bucket of rate [r], last touched no later than [t]. *)
Record bucket_at (r : Q) (t : Q) (b : Bucket) : Prop := {
  at_rate : (BRate b == r)%Q;
  at_time : (Updated b <= t)%Q
}.

Lemma paused_ind_bounds b : (0 <= paused_ind b <= 1)%Q.
Proof. unfold paused_ind. destruct (Qeq_bool _ _); lra. Qed.

Lemma credit_nonneg b : (0 <= credit b)%Q.
Proof. unfold credit. pose proof (paused_ind_bounds b). pose proof (fmax_r (Tokens b) 0). lra. Qed.

Lemma elapsed_nonneg now u r : (0 <= r)%Q → (u <= now)%Q → (0 <= (now - u) * r)%Q.
Proof. intros. apply Qmult_le_0_compat; lra. Qed.

Lemma fmax_qle x y z : (x <= z)%Q → (y <= z)%Q → (fmax x y <= z)%Q.
Proof. apply fmax_lub. Qed.

Lemma refill_credit r now b :
  (0 <= r)%Q → bucket_at r now b →
  (credit (Refill now b) <= credit b + r * (now - Updated b))%Q ∧ bucket_at r now (Refill now b).
Proof.
  intros Hr [Hb Ht]. split; [|constructor; simpl; [done|lra]].
  pose proof (elapsed_nonneg now (Updated b) r Hr Ht) as He.
  assert ((now - Updated b) * BRate b == (now - Updated b) * r)%Q as Hq by (rewrite Hb; reflexivity).
  unfold credit, paused_ind, Refill; simpl. set (e := ((now - Updated b) * BRate b)%Q) in *.
  assert (r * (now - Updated b) == e)%Q as -> by (unfold e; rewrite Hb; ring).
  assert (0 <= e)%Q by lra. clearbody e.
  unfold pause_over. destruct (Qeq_bool (PausedUntil b) 0) eqn:Ep; simpl; [rewrite Ep; qsolve|].
  destruct (qleP (PausedUntil b) now); simpl; [|rewrite Ep]; qsolve.
Qed.

Lemma fresh_credit r cap now born :
  (0 <= r)%Q → 0 <= cap → (now <= born)%Q →
  (credit (Refill now (NewBucket r cap born)) <= inject_Z cap)%Q.
Proof.
  intros Hr Hc Hn. unfold credit, paused_ind, Refill, pause_over; simpl.
  assert (0 <= inject_Z cap)%Q by (unfold Qle; simpl; lia). qsolve.
Qed.

Lemma take_credit b : (1 <= Tokens b)%Q → (credit (with_tokens b (Tokens b - 1)) + 1 <= credit b)%Q.
Proof. intros H. unfold credit, paused_ind; simpl. qsolve. Qed.

Lemma pause_credit s now b : (credit (Pause s now b) <= 1)%Q.
Proof.
  unfold credit. pose proof (paused_ind_bounds (Pause s now b)). simpl. unfold fmax at 1. qsolve.
Qed.

Lemma blocked_false now b : blocked now b = false → (1 <= Tokens b)%Q.
Proof. unfold blocked. intros [_ H]%orb_false_iff. destruct (qltP (Tokens b) 1); [done|lra]. Qed.

Lemma chat_of_set_chat c c' b g :
  chat_of c (set_chat c' b g) = if decide (c = c') then Some b else chat_of c g.
Proof.
  unfold chat_of, set_chat. destruct (decide (c = c')) as [->|Hne].
  - destruct (0 <=? c') eqn:E; simpl; by rewrite lookup_insert_eq.
  - destruct (0 <=? c) eqn:E, (0 <=? c') eqn:E'; simpl; rewrite ?lookup_insert_ne by done; done.
Qed.

Lemma set_chat_rest c b g :
  cfg (set_chat c b g) = cfg g ∧ globalWrites (set_chat c b g) = globalWrites g ∧
  paidLane (set_chat c b g) = paidLane g ∧ egressPausedUntil (set_chat c b g) = egressPausedUntil g
  ∧ reads (set_chat c b g) = reads g ∧ paid (set_chat c b g) = paid g.
Proof. unfold set_chat. by destruct (0 <=? c). Qed.

Lemma chatBucket_spec born c g :
  chatBucket born c g =
  (default (NewBucket (chat_rate c (cfg g)) (chat_burst c (cfg g)) born) (chat_of c g),
   match chat_of c g with
   | Some _ => g
   | None => set_chat c (NewBucket (chat_rate c (cfg g)) (chat_burst c (cfg g)) born) g
   end).
Proof. unfold chatBucket. by destruct (chat_of c g). Qed.

Section bucket_budget.
Context (r : Q) (burst : Z).
Hypothesis rate_nonneg : (0 <= r)%Q.
Hypothesis burst_nonneg : 0 <= burst.

Abbreviation fresh born := (NewBucket r burst born).

(** What a bucket (absent: one not created yet) may still grant at time [t]. *)
Definition slack (t : Q) (ob : option Bucket) : Q :=
  match ob with
  | Some b => (credit b + r * (t - Updated b))%Q
  | None => inject_Z burst
  end.

Definition chat_at (t : Q) (ob : option Bucket) : Prop :=
  match ob with Some b => bucket_at r t b | None => True end.

(** Between [t] and [e] the bucket went from [ob] to [ob'] at net charge [k]. *)
Definition settled (t e : Q) (ob : option Bucket) (k : Q) (ob' : option Bucket) : Prop :=
  chat_at e ob' ∧ (k + slack e ob' <= slack t ob + r * (e - t))%Q.

Context (t now born : Q).
Hypothesis t_now : (t <= now)%Q.
Hypothesis now_born : (now <= born)%Q.

Lemma settled_stay ob : chat_at t ob → settled t born ob 0 ob.
Proof.
  intros Hob. pose proof (elapsed_nonneg born t r rate_nonneg ltac:(lra)). destruct ob as [b|]; simpl in *.
  - destruct Hob as [H1 H2]. split; [constructor; [done|lra]|]. simpl. lra.
  - split; [done|]. simpl. lra.
Qed.

Lemma settled_open ob : chat_at t ob → settled t born ob 0 (Some (default (fresh born) ob)).
Proof.
  intros Hob. destruct ob as [b|]; simpl in *; [by apply settled_stay|].
  pose proof (elapsed_nonneg born t r rate_nonneg ltac:(lra)).
  split; [constructor; simpl; [reflexivity|lra]|]. simpl. unfold credit, paused_ind. simpl.
  assert (0 <= inject_Z burst)%Q by (unfold Qle; simpl; lia). qsolve.
Qed.

Lemma settled_refill ob :
  chat_at t ob → settled t born ob 0 (Some (Refill now (default (fresh born) ob))).
Proof.
  intros Hob. destruct ob as [b|]; simpl in *.
  - destruct Hob as [H1 H2]. destruct (refill_credit r now b rate_nonneg) as [Hc [H3 H4]]; [constructor; [done|lra]|].
    split; [constructor; [done|simpl; lra]|]. simpl in *. lra.
  - pose proof (fresh_credit r burst now born rate_nonneg burst_nonneg now_born).
    pose proof (elapsed_nonneg now t r rate_nonneg t_now).
    split; [constructor; simpl; [reflexivity|lra]|]. simpl in *. lra.
Qed.

Lemma settled_again ob b :
  settled t born ob 0 (Some (Refill now b)) → settled t born ob 0 (Some (Refill now (Refill now b))).
Proof.
  intros [[H1 H2] Hc]. destruct (refill_credit r now (Refill now b) rate_nonneg) as [Hc' [H3 H4]].
  { constructor; simpl in *; [done|lra]. }
  split; [constructor; simpl in *; [done|lra]|]. simpl in *. lra.
Qed.

Lemma settled_take ob b :
  settled t born ob 0 (Some b) → (1 <= Tokens b)%Q →
  settled t born ob 1 (Some (with_tokens b (Tokens b - 1))).
Proof.
  intros [[H1 H2] Hc] Ht. pose proof (take_credit b Ht). split; [by constructor|]. simpl in *. lra.
Qed.

Lemma settled_pause ob s :
  chat_at t ob → settled t born ob (-1) (Some (Pause s now (default (fresh born) ob))).
Proof.
  intros Hob. destruct (settled_open ob Hob) as [[H1 H2] Hc]. split; [by constructor|].
  pose proof (pause_credit s now (default (fresh born) ob)).
  pose proof (credit_nonneg (default (fresh born) ob)). simpl in *. lra.
Qed.

Lemma settled_qeq ob k k' ob' : (k == k')%Q → settled t born ob k ob' → settled t born ob k' ob'.
Proof. intros Hk [H1 H2]. split; [done|lra]. Qed.
End bucket_budget.

Lemma acquire_paid_chat now c b g :
  let '(ok, g') := acquire_paid now (Some c) b g in
  cfg g' = cfg g ∧
  (∀ c', chat_of c' g' = if decide (c' = c ∧ ok = true) then Some (with_tokens b (Tokens b - 1)) else chat_of c' g).
Proof.
  unfold acquire_paid. destruct (TryTake now (paid g)) as [[] p]; simpl.
  - destruct (set_chat_rest c (with_tokens b (Tokens b - 1)) (set_paid g p)) as (-> & _). split; [done|].
    intros c'. rewrite chat_of_set_chat. destruct (decide (c' = c)); [rewrite decide_True by done; done|].
    by rewrite decide_False by naive_solver.
  - split; [done|]. intros c'. by rewrite decide_False by naive_solver.
Qed.

Lemma acquire_global_chat now c b g :
  let '(ok, g') := acquire_global now (Some c) b g in
  cfg g' = cfg g ∧ (∀ c', c' ≠ c → chat_of c' g' = chat_of c' g) ∧
  (chat_of c g' =
    if ok then Some (with_tokens (Refill now b) (Tokens (Refill now b) - 1))
    else chat_of c g' ) ∧
  (ok = true → blocked now (Refill now b) = false) ∧
  (ok = false → chat_of c g' = chat_of c g ∨ chat_of c g' = Some (Refill now b)).
Proof.
  unfold acquire_global. destruct (TryTake now (globalWrites g)) as [[] w]; simpl; [|split_ands; by auto 10].
  set (g1 := set_chat c (Refill now b) (set_global g w)).
  assert (∀ c', chat_of c' g1 = if decide (c' = c) then Some (Refill now b) else chat_of c' g) as Hg1
    by (intros c'; unfold g1; by rewrite chat_of_set_chat).
  assert (cfg g1 = cfg g) as Hc1 by (unfold g1; by destruct (set_chat_rest c (Refill now b) (set_global g w)) as (-> & _)).
  destruct (blocked now (Refill now b)) eqn:Eb; simpl.
  - split_ands; try done.
    + intros c' Hne. change (chat_of c' g1 = chat_of c' g). by rewrite Hg1, decide_False.
    + intros _. right. change (chat_of c g1 = Some (Refill now b)). by rewrite Hg1, decide_True.
  - set (b2 := with_tokens _ _). split_ands; try done.
    + by destruct (set_chat_rest c b2 g1) as (-> & _).
    + intros c' Hne. by rewrite chat_of_set_chat, decide_False, Hg1, decide_False.
    + by rewrite chat_of_set_chat, decide_True.
Qed.

Lemma MethodKind_cases m : MethodKind m = "fast" ∨ MethodKind m = "read" ∨ MethodKind m = "write".
Proof. unfold MethodKind. destruct (smem _ fastPath); [by left|]. destruct (_ || _); auto. Qed.

Lemma opened_cfg born c g : cfg (chatBucket born c g).2 = cfg g.
Proof.
  rewrite chatBucket_spec. simpl. destruct (chat_of c g); [done|]. unfold set_chat. by destruct (0 <=? c).
Qed.

Lemma opened_other born c c' g : c' ≠ c → chat_of c' (chatBucket born c g).2 = chat_of c' g.
Proof.
  intros Hne. rewrite chatBucket_spec. simpl. destruct (chat_of c g); [done|].
  by rewrite chat_of_set_chat, decide_False.
Qed.

Lemma opened_self born c g :
  chat_of c (chatBucket born c g).2 = Some (chatBucket born c g).1.
Proof.
  rewrite chatBucket_spec. simpl. destruct (chat_of c g) eqn:E; [done|].
  by rewrite chat_of_set_chat, decide_True.
Qed.

(** The chat's part of [TryAcquire]: another chat's bucket is untouched, its
    own is kept, refilled, or refilled and charged. *)
Lemma TryAcquire_chat now born m c g :
  let '(ok, g') := TryAcquire now born m (Some c) g in
  let b := Refill now (chatBucket born c g).1 in
  cfg g' = cfg g ∧ (∀ c', c' ≠ c → chat_of c' g' = chat_of c' g) ∧
  ((ok && is_write m = false ∧
     (chat_of c g' = chat_of c g ∨ chat_of c g' = Some b ∨ chat_of c g' = Some (Refill now b)
      ∨ chat_of c g' = Some (Refill now (Refill now b)))) ∨
   (ok && is_write m = true ∧ ∃ b', (b' = b ∨ b' = Refill now (Refill now b)) ∧
     (1 <= Tokens b')%Q ∧ chat_of c g' = Some (with_tokens b' (Tokens b' - 1)))).
Proof.
  unfold TryAcquire, is_write. destruct (qlt now (egressPausedUntil g)); [simpl; split_ands; by auto 10|].
  cbn zeta. destruct (MethodKind_cases m) as [Hk|[Hk|Hk]]; rewrite Hk; simpl; [split_ands; by auto 10| |].
  { destruct (TryTake now (reads g)) as [ok rd]. simpl. rewrite andb_false_r. split_ands; by auto 10. }
  pose proof (opened_cfg born c g) as Ho. pose proof (λ c', opened_other born c c' g) as Ho'.
  destruct (chatBucket born c g) as [b0 g0]; simpl in *. set (b := Refill now b0).
  set (g1 := set_chat c b g0).
  assert (∀ c', chat_of c' g1 = if decide (c' = c) then Some b else chat_of c' g) as Hg1.
  { intros c'. unfold g1. rewrite chat_of_set_chat. by destruct (decide (c' = c)); [|apply Ho']. }
  assert (cfg g1 = cfg g) as Hc1 by (unfold g1; destruct (set_chat_rest c b g0) as (-> & _); done).
  assert (∀ c', c' ≠ c → chat_of c' g1 = chat_of c' g) as Hne1
    by (intros c' Hne; by rewrite Hg1, decide_False).
  assert (chat_of c g1 = Some b) as Hs1 by (by rewrite Hg1, decide_True).
  clearbody g1. destruct (blocked now b) eqn:Eb; [simpl; split_ands; by auto 10|]. apply blocked_false in Eb.
  destruct (paidLane g1).
  { pose proof (acquire_paid_chat now c b g1) as H.
    destruct (acquire_paid now (Some c) b g1) as [[] g2]; destruct H as [H1 H2]; simpl.
    - split_ands; [congruence|intros c' Hne; rewrite H2, decide_False by naive_solver; by apply Hne1|].
      right. split; [done|]. exists b. rewrite H2, decide_True by done. auto.
    - split_ands; [congruence|intros c' Hne; rewrite H2, decide_False by naive_solver; by apply Hne1|].
      left. split; [done|]. rewrite H2, decide_False by naive_solver. auto. }
  set (g2 := set_chat c (Refill now b) g1).
  assert (∀ c', c' ≠ c → chat_of c' g2 = chat_of c' g) as Hne2.
  { intros c' Hne. unfold g2. rewrite chat_of_set_chat, decide_False by done. by apply Hne1. }
  assert (chat_of c g2 = Some (Refill now b)) as Hs2 by (unfold g2; by rewrite chat_of_set_chat, decide_True).
  assert (cfg g2 = cfg g) as Hc2 by (unfold g2; destruct (set_chat_rest c (Refill now b) g1) as (-> & _); done).
  clearbody g2. destruct (blocked now (Refill now b)) eqn:Eb2; [simpl; split_ands; by auto 10|].
  pose proof (acquire_global_chat now c (Refill now b) g2) as H.
  destruct (acquire_global now (Some c) (Refill now b) g2) as [[] g3]; destruct H as (H1 & H2 & H3 & H4 & H5); simpl.
  - split_ands; [congruence|intros c' Hne; rewrite H2 by done; by apply Hne2|].
    right. split; [done|]. exists (Refill now (Refill now b)). split_ands; [auto|by eapply blocked_false, H4|done].
  - split_ands; [congruence|intros c' Hne; rewrite H2 by done; by apply Hne2|].
    left. split; [done|]. destruct (H5 eq_refl) as [->| ->]; rewrite ?Hs2; auto 10.
Qed.

Lemma NextAvailable_snd now b : (NextAvailable now b).2 = Refill now b.
Proof. unfold NextAvailable. by destruct (qlt now _). Qed.

Lemma chat_of_snapshot c now g : chat_of c (Snapshot now g).2 = Refill now <$> chat_of c g.
Proof. unfold chat_of. simpl. destruct (0 <=? c); apply lookup_fmap. Qed.

(** The other calls, on the chat's own bucket: [kept] is what they may leave. *)
Definition kept (now born : Q) (c : Z) (g : Guard) (ob : option Bucket) : Prop :=
  ob = chat_of c g ∨ ob = Some (chatBucket born c g).1 ∨ ob = Some (Refill now (chatBucket born c g).1).

Lemma WaitTime_chat now born m chat c g :
  cfg (WaitTime now born m chat g).2 = cfg g ∧ kept now born c g (chat_of c (WaitTime now born m chat g).2).
Proof.
  unfold WaitTime, kept. cbn zeta. destruct (MethodKind m =? "fast")%string; [by auto|].
  destruct (MethodKind m =? "read")%string; [destruct (NextAvailable now (reads g)); by auto|].
  destruct (NextAvailable now (globalWrites g)) as [w gw]. destruct chat as [c'|]; [|by auto].
  set (g1 := set_global g gw).
  assert (chatBucket born c' g1 = ((chatBucket born c' g).1, (chatBucket born c' g1).2)) as He.
  { rewrite !chatBucket_spec. simpl. done. }
  pose proof (opened_cfg born c' g1) as Ho. pose proof (opened_other born c' c g1) as Ho'.
  rewrite He. destruct (chatBucket born c' g1) as [b0 g0]; simpl in *.
  pose proof (NextAvailable_snd now (chatBucket born c' g).1) as Hn.
  destruct (NextAvailable now (chatBucket born c' g).1) as [w1 b1]. simpl in *. subst b1.
  destruct (set_chat_rest c' (Refill now (chatBucket born c' g).1) g0) as (-> & _).
  rewrite Ho. split; [done|]. rewrite chat_of_set_chat. destruct (decide (c = c')) as [->|Hne]; [auto|].
  left. by apply Ho'.
Qed.

Lemma ChatSendState_chat now born chat c g :
  cfg (ChatSendState now born chat g).2 = cfg g ∧ kept now born c g (chat_of c (ChatSendState now born chat g).2).
Proof.
  unfold ChatSendState, kept. destruct (qlt now _); [by auto|].
  destruct (NextAvailable now (globalWrites g)) as [w gw]. destruct chat as [c'|]; [|by auto].
  set (g1 := set_global g gw).
  assert (chatBucket born c' g1 = ((chatBucket born c' g).1, (chatBucket born c' g1).2)) as He.
  { rewrite !chatBucket_spec. simpl. done. }
  pose proof (opened_cfg born c' g1) as Ho. pose proof (opened_other born c' c g1) as Ho'.
  pose proof (opened_self born c' g1) as Hs. rewrite He in Hs |- *.
  destruct (chatBucket born c' g1) as [b0 g0]; simpl in *.
  destruct (qlt now _); simpl.
  { rewrite Ho. split; [done|]. destruct (decide (c = c')) as [->|Hne]; [auto|left; by apply Ho']. }
  pose proof (NextAvailable_snd now (chatBucket born c' g).1) as Hn.
  destruct (NextAvailable now (chatBucket born c' g).1) as [w1 b1]. simpl in *. subst b1.
  destruct (set_chat_rest c' (Refill now (chatBucket born c' g).1) g0) as (-> & _).
  rewrite Ho. split; [done|]. rewrite chat_of_set_chat. destruct (decide (c = c')) as [->|Hne]; [auto|].
  left. by apply Ho'.
Qed.

Lemma Report429_chat now born c retry g :
  cfg (Report429 now born (Some c) retry g) = cfg g ∧
  chat_of c (Report429 now born (Some c) retry g) = Some (Pause retry now (chatBucket born c g).1) ∧
  ∀ c', c' ≠ c → chat_of c' (Report429 now born (Some c) retry g) = chat_of c' g.
Proof.
  simpl. pose proof (opened_cfg born c g) as Ho. pose proof (λ c', opened_other born c c' g) as Ho'.
  destruct (chatBucket born c g) as [b0 g0]; simpl in *.
  destruct (set_chat_rest c (Pause retry now b0) g0) as (-> & _). split_ands; [done| |].
  - by rewrite chat_of_set_chat, decide_True.
  - intros c' Hne. rewrite chat_of_set_chat, decide_False by done. by apply Ho'.
Qed.

Section chat_steps.
Context (rc : RateConfig) (c : Z).
Hypothesis rate_nonneg : (0 <= chat_rate c rc)%Q.
Hypothesis burst_nonneg : 0 <= chat_burst c rc.

Lemma opened_default born g :
  cfg g = rc →
  (chatBucket born c g).1 = default (NewBucket (chat_rate c rc) (chat_burst c rc) born) (chat_of c g).
Proof. intros <-. by rewrite chatBucket_spec. Qed.

Lemma kept_settled t now born g ob :
  cfg g = rc → (t <= now)%Q → (now <= born)%Q → chat_at (chat_rate c rc) t (chat_of c g) →
  kept now born c g ob → settled (chat_rate c rc) (chat_burst c rc) t born (chat_of c g) 0 ob.
Proof.
  intros Hc H1 H2 Hat [->|[->| ->]]; rewrite ?opened_default by done.
  - by eapply settled_stay.
  - by eapply settled_open.
  - by eapply settled_refill.
Qed.

Lemma acquire_settled t now born m g :
  cfg g = rc → (t <= now)%Q → (now <= born)%Q → chat_at (chat_rate c rc) t (chat_of c g) →
  settled (chat_rate c rc) (chat_burst c rc) t born (chat_of c g) (chat_charge c (OAcquire now born m (Some c)) g)
    (chat_of c (TryAcquire now born m (Some c) g).2).
Proof.
  intros Hc H1 H2 Hat. pose proof (TryAcquire_chat now born m c g) as H. simpl.
  destruct (TryAcquire now born m (Some c) g) as [ok g']. destruct H as (_ & _ & H). simpl in *.
  rewrite (opened_default born g Hc) in H. rewrite Z.eqb_refl, andb_true_r.
  pose proof (settled_refill (chat_rate c rc) (chat_burst c rc) rate_nonneg burst_nonneg t now born H1 H2 (chat_of c g) Hat) as S1.
  pose proof (settled_again (chat_rate c rc) (chat_burst c rc) rate_nonneg t now born H2 _ _ S1) as S2.
  pose proof (settled_again (chat_rate c rc) (chat_burst c rc) rate_nonneg t now born H2 _ _ S2) as S3.
  destruct H as [[-> [->|[->|[->| ->]]]]|[-> (b' & [->| ->] & Hb & ->)]]; try done.
  - eapply settled_stay; done.
  - by apply settled_take.
  - by apply settled_take.
Qed.

Lemma gstep_settled o t g :
  cfg g = rc → (t <= gop_now o)%Q → (gop_now o <= gop_end o)%Q → chat_at (chat_rate c rc) t (chat_of c g) →
  cfg (gstep o g).2 = rc ∧
  settled (chat_rate c rc) (chat_burst c rc) t (gop_end o) (chat_of c g) (chat_charge c o g) (chat_of c (gstep o g).2).
Proof.
  intros Hc H1 H2 Hat.
  destruct o as [n b m [c'|]|n b m ch|n b [c'|] rt|n b ch|n b|n b e a]; simpl in H1, H2 |- *.
  - pose proof (TryAcquire_chat n b m c' g) as Hacq.
    destruct (decide (c' = c)) as [->|Hne].
    + pose proof (acquire_settled t n b m g Hc H1 H2 Hat) as Hs. simpl in Hs.
      destruct (TryAcquire n b m (Some c) g) as [ok g']. destruct Hacq as (Hcfg & _). split; [simpl; congruence|exact Hs].
    + destruct (TryAcquire n b m (Some c') g) as [ok g']. destruct Hacq as (Hcfg & Ho & _). simpl.
      split; [congruence|]. rewrite (Ho c) by congruence. destruct (Z.eqb_spec c' c); [done|].
      rewrite andb_false_r. eapply settled_stay; done.
  - assert (cfg (TryAcquire n b m None g).2 = cfg g ∧ chat_of c (TryAcquire n b m None g).2 = chat_of c g) as [E1 E2].
    { unfold TryAcquire, acquire_paid, acquire_global.
      repeat (case_match; try done); simplify_eq; simpl; try done. }
    rewrite E2, E1. split; [done|]. eapply settled_stay; done.
  - destruct (WaitTime_chat n b m ch c g) as [E1 E2]. split; [congruence|].
    by eapply kept_settled.
  - destruct (Report429_chat n b c' rt g) as (E1 & E2 & E3). simpl in E1, E2, E3. split; [congruence|].
    destruct (Z.eqb_spec c' c) as [->|Hne].
    + rewrite E2, (opened_default b g Hc). by eapply settled_pause.
    + rewrite E3 by congruence. eapply settled_stay; done.
  - split; [done|]. eapply settled_stay; done.
  - destruct (ChatSendState_chat n b ch c g) as [E1 E2]. split; [congruence|].
    by eapply kept_settled.
  - split; [done|]. pose proof (chat_of_snapshot c n g) as Hsn. simpl in Hsn. rewrite Hsn.
    destruct (chat_of c g) as [b0|] eqn:Eg; simpl.
    + change (Some (Refill n b0)) with (Some (Refill n (default (NewBucket (chat_rate c rc) (chat_burst c rc) b) (Some b0)))).
      eapply settled_refill; done.
    + eapply settled_stay; done.
  - split; [by destruct e|]. assert (chat_of c (if e then EnterPaidLane a g else ExitPaidLane g) = chat_of c g) as -> by (by destruct e).
    eapply settled_stay; done.
Qed.
End chat_steps.

(** Summing the per-call charges over a run. *)
Lemma run_budget (obs : Guard → option Bucket) (r : Q) (burst : Z) (f : gop → Guard → Q)
    (inv : Guard → Prop) :
  (∀ o t g, inv g → (t <= gop_now o)%Q → (gop_now o <= gop_end o)%Q → chat_at r t (obs g) →
     inv (gstep o g).2 ∧ settled r burst t (gop_end o) (obs g) (f o g) (obs (gstep o g).2)) →
  ∀ ops t g, inv g → gtimes t ops → chat_at r t (obs g) →
  ∃ g', chat_at r (gend t ops) (obs g') ∧
    (charges f ops g + slack r burst (gend t ops) (obs g') <=
     slack r burst t (obs g) + r * (gend t ops - t))%Q.
Proof.
  intros Hstep. induction ops as [|o ops IH]; intros t g Hg Ht Hat.
  { exists g. unfold gend. simpl. split; [done|lra]. }
  destruct Ht as (H1 & H2 & Ht). destruct (Hstep o t g Hg H1 H2 Hat) as [Hg' [Hat' Hs]].
  destruct (IH (gop_end o) (gstep o g).2 Hg' Ht Hat') as (g' & Hg'' & Hr). exists g'.
  assert (gend t (o :: ops) = gend (gop_end o) ops) as ->.
  { unfold gend. destruct ops as [|o' ops']; [done|]. rewrite last_cons_cons.
    destruct (last (o' :: ops')) eqn:El; [done|]. by apply last_None in El. }
  split; [done|]. cbn [charges]. lra.
Qed.

Lemma slack_nonneg r burst t ob :
  (0 <= r)%Q → 0 <= burst → chat_at r t ob → (0 <= slack r burst t ob)%Q.
Proof.
  intros Hr Hb Hat. destruct ob as [b|]; simpl.
  - destruct Hat as [_ Hu]. pose proof (credit_nonneg b).
    pose proof (elapsed_nonneg t (Updated b) r Hr Hu). lra.
  - unfold Qle; simpl; lia.
Qed.

Lemma TryTake_spec now b :
  (TryTake now b).1 = true ∧ (1 <= Tokens (Refill now b))%Q ∧
    (TryTake now b).2 = with_tokens (Refill now b) (Tokens (Refill now b) - 1) ∨
  (TryTake now b).1 = false ∧ (TryTake now b).2 = Refill now b.
Proof.
  unfold TryTake. destruct (qlt now _); [by right|]. destruct (qleP 1 (Tokens (Refill now b))); [by left|by right].
Qed.

(** The bot-wide bucket after [acquire_global]: charged exactly when granted
    (the refund branch puts the token back). *)
Lemma acquire_global_bucket now chat b g :
  let '(ok, g') := acquire_global now chat b g in
  let w := Refill now (globalWrites g) in
  if ok then (1 <= Tokens w)%Q ∧ globalWrites g' = with_tokens w (Tokens w - 1)
  else globalWrites g' = w ∨
    (1 <= Tokens w)%Q ∧ globalWrites g' = with_tokens w (Tokens w - 1 + 1).
Proof.
  unfold acquire_global. destruct (TryTake_spec now (globalWrites g)) as [(E1 & E2 & E3)|[E1 E2]];
    destruct (TryTake now (globalWrites g)) as [ok w]; simpl in *; subst ok w; simpl; [|by left].
  destruct chat as [c|]; [|done].
  destruct (blocked now _).
  - right. split; [done|]. simpl. by rewrite (proj1 (proj2 (set_chat_rest c _ _))).
  - split; [done|]. by rewrite !(proj1 (proj2 (set_chat_rest c _ _))).
Qed.

Lemma acquire_paid_global now chat b g : globalWrites (acquire_paid now chat b g).2 = globalWrites g.
Proof.
  unfold acquire_paid. destruct (TryTake now (paid g)) as [[] p]; simpl; [|done].
  destruct chat as [c|]; [|done]. simpl. by rewrite (proj1 (proj2 (set_chat_rest c _ _))).
Qed.

Lemma opened_rest born c g :
  globalWrites (chatBucket born c g).2 = globalWrites g ∧ paidLane (chatBucket born c g).2 = paidLane g
  ∧ egressPausedUntil (chatBucket born c g).2 = egressPausedUntil g.
Proof.
  rewrite chatBucket_spec. simpl. destruct (chat_of c g); [done|].
  destruct (set_chat_rest c (NewBucket (chat_rate c (cfg g)) (chat_burst c (cfg g)) born) g) as (_ & ? & ? & ? & _).
  done.
Qed.

Lemma TryAcquire_global now born m chat g :
  let '(ok, g') := TryAcquire now born m chat g in
  let w := Refill now (globalWrites g) in
  if ok && is_write m && negb (paidLane g)
  then (1 <= Tokens w)%Q ∧ globalWrites g' = with_tokens w (Tokens w - 1)
  else globalWrites g' = globalWrites g ∨ globalWrites g' = w ∨
    (1 <= Tokens w)%Q ∧ globalWrites g' = with_tokens w (Tokens w - 1 + 1).
Proof.
  unfold TryAcquire, is_write. destruct (qlt now (egressPausedUntil g)); [simpl; by auto|].
  cbn zeta. destruct (MethodKind_cases m) as [Hk|[Hk|Hk]]; rewrite Hk; simpl; [by auto| |].
  { destruct (TryTake now (reads g)) as [ok rd]. simpl. rewrite andb_false_r. simpl. by auto. }
  assert (∀ chat b g1, globalWrites g1 = globalWrites g → paidLane g1 = paidLane g →
    let '(ok, g') := if paidLane g1 then acquire_paid now chat b g1 else acquire_global now chat b g1 in
    if ok && true && negb (paidLane g)
    then (1 <= Tokens (Refill now (globalWrites g)))%Q ∧
      globalWrites g' = with_tokens (Refill now (globalWrites g)) (Tokens (Refill now (globalWrites g)) - 1)
    else globalWrites g' = globalWrites g ∨ globalWrites g' = Refill now (globalWrites g) ∨
      (1 <= Tokens (Refill now (globalWrites g)))%Q ∧
      globalWrites g' = with_tokens (Refill now (globalWrites g)) (Tokens (Refill now (globalWrites g)) - 1 + 1)) as Hlane.
  { intros ch b g1 Hw Hl. rewrite Hl. destruct (paidLane g) eqn:Ep.
    - pose proof (acquire_paid_global now ch b g1) as H. destruct (acquire_paid now ch b g1) as [ok g'].
      simpl in H. rewrite andb_false_r. left. congruence.
    - pose proof (acquire_global_bucket now ch b g1) as H. destruct (acquire_global now ch b g1) as [ok g'].
      rewrite Hw in H. destruct ok; simpl; [done|by auto]. }
  destruct chat as [c|]; [|by apply Hlane].
  destruct (opened_rest born c g) as (Ho1 & Ho2 & _). destruct (chatBucket born c g) as [b0 g0]; simpl in *.
  set (b := Refill now b0). destruct (set_chat_rest c b g0) as (_ & Hs1 & Hs2 & _).
  destruct (blocked now b); [left; congruence|].
  destruct (paidLane (set_chat c b g0)) eqn:El.
  { specialize (Hlane (Some c) b (set_chat c b g0)). rewrite El in Hlane. apply Hlane; congruence. }
  destruct (set_chat_rest c (Refill now b) (set_chat c b g0)) as (_ & Hs3 & Hs4 & _).
  destruct (blocked now (Refill now b)); [left; congruence|].
  specialize (Hlane (Some c) (Refill now b) (set_chat c (Refill now b) (set_chat c b g0))).
  rewrite Hs4, El in Hlane. apply Hlane; congruence.
Qed.

Lemma refund_settled r burst t now born b ob :
  settled r burst t born ob 0 (Some (Refill now b)) → (1 <= Tokens (Refill now b))%Q →
  settled r burst t born ob 0 (Some (with_tokens (Refill now b) (Tokens (Refill now b) - 1 + 1))).
Proof.
  intros [[H1 H2] Hc] Ht. split; [by constructor|]. simpl in *. unfold credit, paused_ind in *. simpl in *.
  revert Hc. qsolve.
Qed.

Lemma gstep_global r burst o t g :
  (0 <= r)%Q → 0 <= burst →
  (t <= gop_now o)%Q → (gop_now o <= gop_end o)%Q → chat_at r t (Some (globalWrites g)) →
  settled r burst t (gop_end o) (Some (globalWrites g)) (global_charge o g) (Some (globalWrites (gstep o g).2)).
Proof.
  intros Hr Hb H1 H2 Hat.
  pose proof (settled_refill r burst Hr Hb t (gop_now o) (gop_end o) H1 H2 (Some (globalWrites g)) Hat) as Hre.
  pose proof (settled_stay r burst Hr t (gop_now o) (gop_end o) H1 H2 (Some (globalWrites g)) Hat) as Hst.
  simpl in Hre. destruct o as [n b m ch|n b m ch|n b [c'|] rt|n b ch|n b|n b e a]; simpl in *.
  - pose proof (TryAcquire_global n b m ch g) as H. destruct (TryAcquire n b m ch g) as [ok g']. simpl.
    destruct (ok && is_write m && negb (paidLane g)).
    + destruct H as [Ht ->]. by apply settled_take.
    + destruct H as [->|[->|[Ht ->]]]; [done|done|]. by apply refund_settled.
  - unfold WaitTime. cbn zeta. destruct (MethodKind m =? "fast")%string; [done|].
    destruct (MethodKind m =? "read")%string; [by destruct (NextAvailable n (reads g))|].
    pose proof (NextAvailable_snd n (globalWrites g)) as Hn.
    destruct (NextAvailable n (globalWrites g)) as [w gw]; simpl in *. subst gw.
    destruct ch as [c|]; [|done].
    destruct (opened_rest b c (set_global g (Refill n (globalWrites g)))) as (Ho & _).
    destruct (chatBucket b c _) as [b0 g0]; simpl in *. destruct (NextAvailable n b0) as [w1 b1]. simpl.
    rewrite (proj1 (proj2 (set_chat_rest c _ _))). by rewrite Ho.
  - destruct (opened_rest b c' g) as (Ho & _). destruct (chatBucket b c' g) as [b0 g0]; simpl in *.
    rewrite (proj1 (proj2 (set_chat_rest c' _ _))). by rewrite Ho.
  - exact (settled_pause r burst Hr Hb t n b H1 H2 (Some (globalWrites g)) rt Hat).
  - unfold ChatSendState. destruct (qlt n _); [done|].
    pose proof (NextAvailable_snd n (globalWrites g)) as Hn.
    destruct (NextAvailable n (globalWrites g)) as [w gw]; simpl in *. subst gw.
    destruct ch as [c|]; [|done].
    destruct (opened_rest b c (set_global g (Refill n (globalWrites g)))) as (Ho & _).
    destruct (chatBucket b c _) as [b0 g0]; simpl in *. destruct (qlt n (PausedUntil b0)); simpl; [by rewrite Ho|].
    destruct (NextAvailable n b0) as [w1 b1]. simpl.
    rewrite (proj1 (proj2 (set_chat_rest c _ _))). by rewrite Ho.
  - done.
  - by destruct e.
Qed.

(** ** Waiting is enough *)

(** A bucket that can ever grant: positive rate, room for one token. *)
Definition usable (b : Bucket) : Prop := (0 < BRate b)%Q ∧ 1 <= Capacity b.

Lemma usable_refill now b : usable b → usable (Refill now b).
Proof. done. Qed.

Lemma cap_one b : usable b → (1 <= inject_Z (Capacity b))%Q.
Proof. intros [_ H]. unfold Qle; simpl; lia. Qed.

Lemma wait_unblocks now now' b :
  usable b → (0 <= now)%Q → (now + (NextAvailable now b).1 <= now')%Q → (now <= now')%Q →
  blocked now' (Refill now' (NextAvailable now b).2) = false.
Proof.
  intros Hu H0 Hw Hn. pose proof (cap_one b Hu) as Hc. destruct Hu as [Hr _].
  rewrite NextAvailable_snd. revert Hw. unfold NextAvailable. set (b1 := Refill now b).
  assert (BRate b1 = BRate b ∧ Capacity b1 = Capacity b ∧ Updated b1 = now) as (Er & Ec & Eu) by done.
  assert (PausedUntil b1 == 0 ∨ now < PausedUntil b1)%Q as Hp.
  { unfold b1; simpl. unfold pause_over. destruct (Qeq_bool (PausedUntil b) 0) eqn:Ep; simpl.
    - left. by apply Qeq_bool_iff.
    - destruct (qleP (PausedUntil b) now); [left; reflexivity|right; lra]. }
  clearbody b1. rewrite <-Er, <-Ec in *. intros Hw.
  pose proof (elapsed_nonneg now' now (BRate b1) ltac:(lra) Hn) as He.
  unfold blocked, Refill; simpl. rewrite Eu. destruct (qltP now (PausedUntil b1)) as [Hlt|Hlt]; simpl in Hw.
  - assert (pause_over now' b1 = true) as ->.
    { unfold pause_over. apply andb_true_iff. split; [|apply qle_true; lra].
      destruct (Qeq_bool (PausedUntil b1) 0) eqn:Eq; [|done]. apply Qeq_bool_iff in Eq. lra. }
    rewrite (qlt_false now' 0) by lra. simpl. apply qlt_false. qsolve.
  - destruct Hp as [Hp|]; [|lra]. assert (pause_over now' b1 = false) as ->.
    { unfold pause_over. by apply Qeq_bool_iff in Hp as ->. }
    rewrite (qlt_false now' (PausedUntil b1)) by lra. simpl. apply qlt_false.
    assert (1 <= Tokens b1 + (now' - now) * BRate b1)%Q as Hge.
    { destruct (qltP 0 (1 - Tokens b1)) as [Hd|Hd]; [|lra].
      assert ((1 - Tokens b1) / BRate b1 * BRate b1 == 1 - Tokens b1)%Q as Hdiv by (field; lra).
      assert ((1 - Tokens b1) / BRate b1 * BRate b1 <= (now' - now) * BRate b1)%Q; [|lra].
      apply Qmult_le_compat_r; lra. }
    qsolve.
Qed.

Lemma blocked_again now b :
  usable b → blocked now (Refill now b) = false → blocked now (Refill now (Refill now b)) = false.
Proof.
  intros Hu Hb. pose proof (cap_one b Hu) as Hc. unfold blocked in *. apply orb_false_iff in Hb as [H1 H2].
  set (b1 := Refill now b) in *. assert (Updated b1 = now ∧ Capacity b1 = Capacity b) as [Eu Ec] by done.
  assert (PausedUntil b1 == 0 ∨ now < PausedUntil b1)%Q as Hp.
  { unfold b1; simpl. unfold pause_over. destruct (Qeq_bool (PausedUntil b) 0) eqn:Ep; simpl.
    - left. by apply Qeq_bool_iff.
    - destruct (qleP (PausedUntil b) now); [left; reflexivity|right; lra]. }
  clearbody b1. destruct (qltP now (PausedUntil b1)) as [|Hlt]; [done|]. destruct Hp as [Hp|]; [|lra].
  assert (pause_over now b1 = false) as Ho by (unfold pause_over; by apply Qeq_bool_iff in Hp as ->).
  unfold Refill. rewrite Ho. simpl. rewrite Eu. rewrite (qlt_false now) by lra. simpl.
  destruct (qltP (Tokens b1) 1); [done|]. apply qlt_false. rewrite Ec.
  assert ((now - now) * BRate b1 == 0)%Q by ring. qsolve.
Qed.

Lemma TryTake_ready now b : blocked now (Refill now b) = false → (TryTake now b).1 = true.
Proof.
  unfold blocked, TryTake. intros [-> H]%orb_false_iff.
  destruct (qltP (Tokens (Refill now b)) 1); [done|]. rewrite qle_true by lra. done.
Qed.

(** The guard's own buckets and, once created, the chat's. *)
Record guard_ok (chat : option Z) (g : Guard) : Prop := {
  ok_global : usable (globalWrites g);
  ok_reads : usable (reads g);
  ok_chat_cfg : ∀ c, chat = Some c → (0 < chat_rate c (cfg g))%Q ∧ 1 <= chat_burst c (cfg g);
  ok_chat : ∀ c b, chat = Some c → chat_of c g = Some b → usable b
}.

Lemma opened_usable born c g : guard_ok (Some c) g → usable (chatBucket born c g).1.
Proof.
  intros [_ _ H1 H2]. rewrite chatBucket_spec. simpl. destruct (chat_of c g) as [b|] eqn:E; simpl; [by eapply H2|].
  by apply H1.
Qed.

Lemma fmax_ge x y z : (fmax x y <= z)%Q → (x <= z)%Q ∧ (y <= z)%Q.
Proof. intros. pose proof (fmax_l x y). pose proof (fmax_r x y). lra. Qed.

Lemma acquire_global_ready now chat b g :
  blocked now (Refill now (globalWrites g)) = false →
  (∀ c, chat = Some c → blocked now (Refill now b) = false) →
  (acquire_global now chat b g).1 = true.
Proof.
  intros Hg Hb. unfold acquire_global. pose proof (TryTake_ready now _ Hg) as Ht.
  destruct (TryTake now (globalWrites g)) as [ok w]; simpl in Ht. subst ok. simpl.
  destruct chat as [c|]; [|done]. by rewrite (Hb c).
Qed.

Lemma chatBucket_known born c b g : chat_of c g = Some b → chatBucket born c g = (b, g).
Proof. intros H. unfold chatBucket. by rewrite H. Qed.

Lemma TryAcquire_ready now born c b m g :
  qlt now (egressPausedUntil g) = false → MethodKind m = "write" → paidLane g = false →
  chat_of c g = Some b → usable b → blocked now (Refill now b) = false →
  blocked now (Refill now (globalWrites g)) = false →
  (TryAcquire now born m (Some c) g).1 = true.
Proof.
  intros He Hk Hl Hc Hu Hb Hg. unfold TryAcquire. rewrite He, Hk. simpl.
  rewrite (chatBucket_known born c b g Hc), Hb.
  destruct (set_chat_rest c (Refill now b) g) as (_ & Ew & El & _). rewrite El, Hl.
  rewrite (blocked_again now b Hu Hb).
  apply acquire_global_ready.
  - destruct (set_chat_rest c (Refill now (Refill now b)) (set_chat c (Refill now b) g)) as (_ & -> & _).
    by rewrite Ew.
  - intros _ _. apply blocked_again; [done|]. by apply blocked_again.
Qed.

(** ** Waiting *)

Lemma wait_long_enough now now' born born' m chat g :
  (0 <= now)%Q → guard_ok chat g → paidLane g = false →
  (now + (WaitTime now born m chat g).1 <= now')%Q →
  (TryAcquire now' born' m chat (WaitTime now born m chat g).2).1 = true.
Proof.
  intros H0 Hok Hl. unfold WaitTime. cbn zeta. pose proof (fmax_l 0 (egressPausedUntil g - now)) as Hw0.
  pose proof (fmax_r 0 (egressPausedUntil g - now)) as Hwe.
  set (w0 := fmax 0 (egressPausedUntil g - now)) in *.
  destruct (MethodKind_cases m) as [Hk|[Hk|Hk]]; rewrite Hk; simpl.
  { intros Hn. unfold TryAcquire. rewrite Hk, (qlt_false now') by lra. done. }
  { pose proof (λ n', wait_unblocks now n' (reads g) (ok_reads _ _ Hok) H0) as Hun.
    destruct (NextAvailable now (reads g)) as [w rd] eqn:E; simpl in *. intros Hn.
    pose proof (fmax_l w0 w). pose proof (fmax_r w0 w).
    unfold TryAcquire. rewrite Hk, (qlt_false now') by (simpl; lra). simpl.
    pose proof (TryTake_ready now' rd ltac:(apply Hun; lra)) as Ht.
    by destruct (TryTake _ rd). }
  pose proof (λ n', wait_unblocks now n' (globalWrites g) (ok_global _ _ Hok) H0) as Hun.
  destruct (NextAvailable now (globalWrites g)) as [w gw] eqn:E; simpl in Hun.
  pose proof (fmax_l w0 w). pose proof (fmax_r w0 w).
  destruct chat as [c|].
  - pose proof (opened_usable born c g Hok) as Hu.
    assert (chatBucket born c (set_global g gw) =
      ((chatBucket born c g).1, (chatBucket born c (set_global g gw)).2)) as He.
    { rewrite !chatBucket_spec. simpl. done. }
    destruct (opened_rest born c (set_global g gw)) as (Ho1 & Ho2 & Ho3). rewrite He.
    destruct (chatBucket born c (set_global g gw)) as [b0' g0]; simpl in *.
    pose proof (λ n', wait_unblocks now n' _ Hu H0) as Hun'.
    pose proof (NextAvailable_snd now (chatBucket born c g).1) as Hsnd.
    destruct (NextAvailable now (chatBucket born c g).1) as [w1 b1]; simpl in *. intros Hn.
    pose proof (fmax_l (fmax w0 w) w1). pose proof (fmax_r (fmax w0 w) w1).
    destruct (set_chat_rest c b1 g0) as (_ & Ew & El & Ee & _).
    apply (TryAcquire_ready _ born' c b1); try done.
    + rewrite Ee, Ho3. apply qlt_false. lra.
    + by rewrite El, Ho2.
    + by rewrite chat_of_set_chat, decide_True.
    + by rewrite Hsnd.
    + apply Hun'; lra.
    + rewrite Ew, Ho1. apply Hun; lra.
  - simpl. intros Hn. unfold TryAcquire. rewrite Hk, (qlt_false now') by (simpl; lra). simpl. rewrite Hl.
    apply acquire_global_ready; [simpl; apply Hun; lra|done].
Qed.

Lemma WaitTime_nonneg now born m chat g : (0 <= (WaitTime now born m chat g).1)%Q.
Proof.
  unfold WaitTime. cbn zeta. pose proof (fmax_l 0 (egressPausedUntil g - now)) as H0.
  set (w0 := fmax 0 (egressPausedUntil g - now)) in *.
  destruct (MethodKind m =? "fast")%string; [done|]. destruct (MethodKind m =? "read")%string.
  { destruct (NextAvailable now (reads g)) as [w r]. simpl. pose proof (fmax_l w0 w). lra. }
  destruct (NextAvailable now (globalWrites g)) as [w gw]. pose proof (fmax_l w0 w).
  destruct chat as [c|]; [|simpl; lra]. destruct (chatBucket born c _) as [b g1].
  destruct (NextAvailable now b) as [w1 b1]. simpl. pose proof (fmax_l (fmax w0 w) w1). lra.
Qed.

(** What the two calls keep: usable buckets and the lane. *)
Definition stays (chat : option Z) (g g' : Guard) : Prop :=
  guard_ok chat g → guard_ok chat g' ∧ paidLane g' = paidLane g.

Lemma stays_trans chat g1 g2 g3 : stays chat g1 g2 → stays chat g2 g3 → stays chat g1 g3.
Proof. intros H1 H2 H. destruct (H1 H) as [H' <-]. by apply H2. Qed.

Lemma stays_global chat g b : (usable (globalWrites g) → usable b) → stays chat g (set_global g b).
Proof. intros Hb [H1 H2 H3 H4]. split; [|done]. constructor; auto. Qed.

Lemma stays_reads chat g b : (usable (reads g) → usable b) → stays chat g (set_reads g b).
Proof. intros Hb [H1 H2 H3 H4]. split; [|done]. constructor; auto. Qed.

Lemma stays_paid chat g b : stays chat g (set_paid g b).
Proof. intros [H1 H2 H3 H4]. split; [|done]. constructor; auto. Qed.

Lemma stays_chat c g b : usable b → stays (Some c) g (set_chat c b g).
Proof.
  intros Hb [H1 H2 H3 H4]. destruct (set_chat_rest c b g) as (E1 & E2 & E3 & E4 & E5 & E6).
  split; [|done]. constructor; rewrite ?E1, ?E2, ?E5; auto.
  intros c' b' [= <-]. rewrite chat_of_set_chat, decide_True by done. by intros [= <-].
Qed.

Lemma stays_open c born g : stays (Some c) g (chatBucket born c g).2.
Proof.
  intros Hg. rewrite chatBucket_spec. simpl. destruct (chat_of c g); [done|].
  apply (stays_chat c); [|done]. destruct Hg as [_ _ H3 _]. destruct (H3 c eq_refl) as [Hr Hb]. done.
Qed.

Lemma TryTake_usable now b : usable b → usable (TryTake now b).2.
Proof. intros Hb. by destruct (TryTake_spec now b) as [(_ & _ & ->)|(_ & ->)]. Qed.

Lemma acquire_paid_stays now chat b g :
  (∀ c, chat = Some c → usable b) → stays chat g (acquire_paid now chat b g).2.
Proof.
  intros Hb. unfold acquire_paid. destruct (TryTake now (paid g)) as [[] p]; simpl; [|apply stays_paid].
  destruct chat as [c|]; [|apply stays_paid]. eapply stays_trans; [apply stays_paid|].
  apply stays_chat. by apply (Hb c).
Qed.

Lemma acquire_global_stays now chat b g :
  (∀ c, chat = Some c → usable b) → stays chat g (acquire_global now chat b g).2.
Proof.
  intros Hb. unfold acquire_global. pose proof (TryTake_usable now (globalWrites g)) as Hu.
  destruct (TryTake now (globalWrites g)) as [[] w]; simpl in *; [|by apply stays_global].
  destruct chat as [c|]; [|by apply stays_global]. specialize (Hb c eq_refl).
  assert (stays (Some c) g (set_chat c (Refill now b) (set_global g w))) as H1
    by (eapply stays_trans; [by apply stays_global|by apply stays_chat]).
  destruct (blocked _ _); simpl; (eapply stays_trans; [exact H1|]); [by apply stays_global|by apply stays_chat].
Qed.

Lemma TryAcquire_stays now born m chat g : stays chat g (TryAcquire now born m chat g).2.
Proof.
  unfold TryAcquire. destruct (qlt now _); [done|]. cbn zeta. destruct (_ =? "fast")%string; [done|].
  destruct (_ =? "read")%string.
  { pose proof (TryTake_usable now (reads g)). destruct (TryTake now (reads g)). by apply stays_reads. }
  destruct chat as [c|].
  2: { destruct (paidLane g); [by apply acquire_paid_stays|by apply acquire_global_stays]. }
  intros Hg. pose proof (opened_usable born c g Hg) as Hu. pose proof (stays_open c born g) as Ho.
  destruct (chatBucket born c g) as [b g1]; simpl in *. revert Hg.
  match goal with |- _ → guard_ok _ ?g' ∧ _ => change (stays (Some c) g g') end.
  assert (stays (Some c) g (set_chat c (Refill now b) g1)) as H1 by (eapply stays_trans; [done|by apply stays_chat]).
  destruct (blocked _ _); [done|]. destruct (paidLane _).
  { eapply stays_trans; [done|]. by apply acquire_paid_stays. }
  assert (stays (Some c) g (set_chat c (Refill now (Refill now b)) (set_chat c (Refill now b) g1))) as H2
    by (eapply stays_trans; [done|by apply stays_chat]).
  destruct (blocked _ _); [done|]. eapply stays_trans; [done|]. by apply acquire_global_stays.
Qed.

Lemma NextAvailable_usable now b : usable b → usable (NextAvailable now b).2.
Proof. by rewrite NextAvailable_snd. Qed.

Lemma WaitTime_stays now born m chat g : stays chat g (WaitTime now born m chat g).2.
Proof.
  unfold WaitTime. cbn zeta. destruct (_ =? "fast")%string; [done|]. destruct (_ =? "read")%string.
  { pose proof (NextAvailable_usable now (reads g)). destruct (NextAvailable _ _). by apply stays_reads. }
  pose proof (NextAvailable_usable now (globalWrites g)) as Hu. destruct (NextAvailable _ _) as [w gw]; simpl in Hu.
  pose proof (stays_global chat g gw Hu) as H1. destruct chat as [c|]; [|done].
  intros Hg. destruct (H1 Hg) as [Hg1 El]. pose proof (opened_usable born c _ Hg1) as Hub.
  pose proof (stays_open c born (set_global g gw) Hg1) as [Hg2 El2].
  destruct (chatBucket born c _) as [b g1]; simpl in *.
  pose proof (NextAvailable_usable now b Hub). destruct (NextAvailable now b) as [w1 b1]. simpl in *.
  destruct (stays_chat c g1 b1 ltac:(done) Hg2) as [? ->]. split; [done|congruence].
Qed.

(** ** Properties *)

(** C31. No chat is ever flooded: over any run of guard calls in mutex order,
    the writes granted to a chat (paid lane included) exceed the 429s reported
    for it by at most its burst plus its rate times the elapsed time. *)
Theorem chat_pacing c g ops t0 :
  (0 <= chat_rate c (cfg g))%Q → 0 <= chat_burst c (cfg g) →
  chat_of c g = None → gtimes t0 ops →
  (charges (chat_charge c) ops g <=
   inject_Z (chat_burst c (cfg g)) + chat_rate c (cfg g) * (gend t0 ops - t0))%Q.
Proof.
  intros Hr Hb Hn Ht. set (rc := cfg g) in *.
  destruct (run_budget (chat_of c) (chat_rate c rc) (chat_burst c rc) (chat_charge c) (λ g, cfg g = rc))
    with (ops := ops) (t := t0) (g := g) as (g' & Hat & Hle).
  - intros o t g1 Hc H1 H2 Hat. by apply gstep_settled.
  - done.
  - done.
  - by rewrite Hn.
  - rewrite Hn in Hle. simpl in Hle.
    pose proof (slack_nonneg _ _ _ _ Hr Hb Hat). lra.
Qed.

(** The bot as a whole respects Telegram's global limit: over any run, the
    unpaid writes granted, to whatever chats, exceed the bot-wide 429s by at
    most the global burst plus the global rate times the elapsed time. *)
Theorem global_pacing g ops t0 :
  (0 <= GlobalRate (cfg g))%Q → 0 <= GlobalBurst (cfg g) →
  globalWrites g = NewBucket (GlobalRate (cfg g)) (GlobalBurst (cfg g)) t0 → gtimes t0 ops →
  (charges global_charge ops g <=
   inject_Z (GlobalBurst (cfg g)) + GlobalRate (cfg g) * (gend t0 ops - t0))%Q.
Proof.
  intros Hr Hb Hn Ht.
  destruct (run_budget (λ g, Some (globalWrites g)) (GlobalRate (cfg g)) (GlobalBurst (cfg g)) global_charge (λ _, True))
    with (ops := ops) (t := t0) (g := g) as (g' & Hat & Hle).
  - intros o t g1 _ H1 H2 Hat. split; [done|]. by apply gstep_global.
  - done.
  - done.
  - rewrite Hn. constructor; simpl; [reflexivity|lra].
  - pose proof (slack_nonneg _ _ _ _ Hr Hb Hat). rewrite Hn in Hle. simpl in Hle.
    unfold credit at 2, paused_ind in Hle. simpl in Hle.
    assert (0 <= inject_Z (GlobalBurst (cfg g)))%Q by (unfold Qle; simpl; lia).
    revert Hle. qsolve.
Qed.

(** Waiting what [WaitTime] says is enough: a request that waits at least
    the reported time (and finds the guard as it left it) is admitted, for
    every method kind and chat, through 429 pauses and freshly created
    buckets alike.  Clocks count from a non-negative origin and every rate and
    burst allows at least one send. *)
Theorem waiting_admits now now' born born' m chat g :
  (0 <= now)%Q → guard_ok chat g → paidLane g = false →
  let '(w, g') := WaitTime now born m chat g in
  (now + w <= now')%Q → (TryAcquire now' born' m chat g').1 = true.
Proof.
  intros H0 Hok Hl. pose proof (wait_long_enough now now' born born' m chat g H0 Hok Hl) as H.
  by destruct (WaitTime now born m chat g).
Qed.

Definition demo_cfg : RateConfig := DefaultRate (λ _, None).

Definition demo_guard : Guard := NewGuard demo_cfg 100.

Definition demo_ops : list gop :=
  [OAcquire 100 100 "sendMessage" (Some 7); OAcquire 100 100 "sendMessage" (Some 7);
   OAcquire 100 100 "sendMessage" (Some 7); OAcquire 100 100 "sendMessage" (Some 7);
   OWait 100 100 "sendMessage" (Some 7); OAcquire 101 101 "sendMessage" (Some 7)].

Lemma demo_times : gtimes 100 demo_ops.
Proof. repeat split; vm_compute; discriminate. Qed.

Lemma chat_pacing_witness :
  charges (chat_charge 7) demo_ops demo_guard = 4%Q ∧ (charges (chat_charge 7) demo_ops demo_guard <= 3 + 1 * (101 - 100))%Q.
Proof.
  split; [vm_compute; reflexivity|].
  apply (chat_pacing 7 demo_guard demo_ops 100); [vm_compute; discriminate|vm_compute; discriminate|reflexivity|].
  apply demo_times.
Defined.

Lemma global_pacing_witness : (charges global_charge demo_ops demo_guard <= 30 + 30 * (101 - 100))%Q.
Proof.
  apply (global_pacing demo_guard demo_ops 100); [vm_compute; discriminate|vm_compute; discriminate|reflexivity|].
  apply demo_times.
Defined.

Definition paused_demo : Guard := Report429 100 100 (Some 7) 5 demo_guard.

Lemma waiting_admits_witness :
  (WaitTime 101 101 "sendMessage" (Some 7) paused_demo).1 = 4%Q ∧
  (TryAcquire (101 + 4) 105 "sendMessage" (Some 7) (WaitTime 101 101 "sendMessage" (Some 7) paused_demo).2).1 = true.
Proof.
  split; [vm_compute; reflexivity|].
  refine (waiting_admits 101 (101 + 4) 101 105 "sendMessage" (Some 7) paused_demo _ _ eq_refl _).
  - vm_compute. discriminate.
  - constructor; [split; vm_compute; [reflexivity|discriminate]..| |].
    + intros c [= <-]. split; vm_compute; [reflexivity|discriminate].
    + intros c b [= <-] Hb. vm_compute in Hb. injection Hb as <-. split; vm_compute; [reflexivity|discriminate].
  - vm_compute. discriminate.
Defined.

(** A refused attempt is free. *)
Definition uncharged (now : Q) (b b' : Bucket) : Prop :=
  b' = b ∨ b' = Refill now b ∨ b' = Refill now (Refill now b) ∨
  b' = Refill now (Refill now (Refill now b)) ∨
  ∃ x, (x == Tokens (Refill now b))%Q ∧ b' = with_tokens (Refill now b) x.

(** A refused attempt costs nothing: when [TryAcquire] answers no, the
    bot-wide bucket and the chat's bucket have at most been refilled (a token
    taken on the way is refunded), and no other chat's bucket is touched. *)
Theorem denied_is_free now born m chat g g' :
  TryAcquire now born m chat g = (false, g') →
  uncharged now (globalWrites g) (globalWrites g') ∧
  (∀ c, chat = Some c → chat_of c g' = chat_of c g ∨
     ∃ b', chat_of c g' = Some b' ∧ uncharged now (chatBucket born c g).1 b') ∧
  (∀ c, chat ≠ Some c → chat_of c g' = chat_of c g).
Proof.
  intros E. pose proof (TryAcquire_global now born m chat g) as Hg. rewrite E in Hg. simpl in Hg.
  unfold uncharged. split_ands.
  - destruct Hg as [->|[->|[_ ->]]]; auto. do 4 right.
    exists (Tokens (Refill now (globalWrites g)) - 1 + 1)%Q. split; [lra|done].
  - intros c ->. pose proof (TryAcquire_chat now born m c g) as Hc. rewrite E in Hc.
    destruct Hc as (_ & _ & [[_ [->|[->|[->| ->]]]]|[? _]]); [auto| | | |done]; right; eexists; split; eauto 7.
  - intros c Hne. destruct chat as [c'|].
    + pose proof (TryAcquire_chat now born m c' g) as Hc. rewrite E in Hc. apply Hc. congruence.
    + clear Hg. revert E. unfold TryAcquire, acquire_paid, acquire_global.
      repeat (case_match; try done); intros; simplify_eq; done.
Qed.

Lemma denied_is_free_witness :
  chat_of 8 (TryAcquire 101 101 "sendMessage" (Some 7) paused_demo).2 = None.
Proof.
  refine (proj2 (proj2 (denied_is_free 101 101 "sendMessage" (Some 7) paused_demo
    (TryAcquire 101 101 "sendMessage" (Some 7) paused_demo).2 _)) 8 _).
  - vm_compute. reflexivity.
  - discriminate.
Defined.

(** ** 429 pauses hold *)

Definition held_until (u : Q) (ob : option Bucket) : Prop :=
  match ob with Some b => (u <= PausedUntil b)%Q | None => False end.

Lemma held_refill u now b : (now < u)%Q → (u <= PausedUntil b)%Q → (u <= PausedUntil (Refill now b))%Q.
Proof.
  intros H1 H2. unfold Refill, pause_over; simpl. rewrite (qle_false (PausedUntil b) now) by lra.
  by rewrite andb_false_r.
Qed.

Lemma paused_with_tokens b x : PausedUntil (with_tokens b x) = PausedUntil b.
Proof. done. Qed.

Lemma held_bucket u born c g : held_until u (chat_of c g) → (u <= PausedUntil (chatBucket born c g).1)%Q.
Proof. rewrite chatBucket_spec. simpl. by destruct (chat_of c g). Qed.

Lemma held_step u c o g :
  (gop_now o < u)%Q → held_until u (chat_of c g) → held_until u (chat_of c (gstep o g).2).
Proof.
  intros Hn Hh.
  assert (∀ now born ob, (now < u)%Q → kept now born c g ob → held_until u ob) as Hk.
  { intros now born ob Hlt [->|[->| ->]]; [done|by apply held_bucket|apply held_refill, held_bucket; done]. }
  destruct o as [n b m [c'|]|n b m ch|n b [c'|] rt|n b ch|n b|n b e a]; simpl in Hn |- *.
  - pose proof (TryAcquire_chat n b m c' g) as Hacq. destruct (TryAcquire n b m (Some c') g) as [ok g'].
    destruct Hacq as (_ & Ho & Hs). simpl. destruct (decide (c = c')) as [<-|Hne]; [|by rewrite Ho].
    pose proof (held_bucket u b c g Hh) as Hb.
    destruct Hs as [[_ [->|[->|[->| ->]]]]|[_ (b' & [->| ->] & _ & ->)]]; try done;
      cbn [held_until]; rewrite ?paused_with_tokens; by repeat apply held_refill.
  - assert (chat_of c (TryAcquire n b m None g).2 = chat_of c g) as ->; [|done].
    unfold TryAcquire, acquire_paid, acquire_global. repeat (case_match; try done); simplify_eq; simpl; done.
  - eapply Hk; [exact Hn|apply WaitTime_chat].
  - destruct (Report429_chat n b c' rt g) as (_ & E2 & E3). simpl in E2, E3. destruct (decide (c = c')) as [<-|Hne].
    + rewrite E2. simpl. pose proof (held_bucket u b c g Hh). eapply Qle_trans; [done|apply fmax_l].
    + by rewrite E3.
  - done.
  - eapply Hk; [exact Hn|apply ChatSendState_chat].
  - pose proof (chat_of_snapshot c n g) as Hsn. simpl in Hsn. rewrite Hsn.
    destruct (chat_of c g) as [b0|]; [|done]. simpl in *. by apply held_refill.
  - by destruct e.
Qed.

Fixpoint grun (ops : list gop) (g : Guard) : Guard :=
  match ops with [] => g | o :: ops' => grun ops' (gstep o g).2 end.

Lemma held_run u c ops g :
  Forall (λ o, gop_now o < u)%Q ops → held_until u (chat_of c g) → held_until u (chat_of c (grun ops g)).
Proof.
  intros H. revert g. induction H as [|o ops Ho Hops IH]; intros g Hg; simpl; [done|].
  by apply IH, held_step.
Qed.

Lemma write_held u c now born m g :
  held_until u (chat_of c g) → (now < u)%Q → MethodKind m = "write" →
  (TryAcquire now born m (Some c) g).1 = false.
Proof.
  intros Hh Hn Hm. unfold TryAcquire. destruct (qlt now (egressPausedUntil g)); [done|]. rewrite Hm. simpl.
  pose proof (held_bucket _ born c g Hh) as Hb. destruct (chatBucket born c g) as [b0 g0]. simpl in Hb.
  assert (blocked now (Refill now b0) = true) as ->; [|done].
  unfold blocked. apply orb_true_iff. left. apply qlt_true.
  pose proof (held_refill _ now b0 Hn Hb). lra.
Qed.

(** C36. A real 429 is honoured: after Telegram answers 429 for a chat with
    retry_after [s], no write to that chat is admitted before [s] seconds have
    passed, whatever guard calls (for this chat or others, further 429s or
    paid-lane toggles included) are made in the meantime. *)
Theorem report_429_is_honoured now born c s ops g now' born' m :
  Forall (λ o, gop_now o < now + s)%Q ops → (now' < now + s)%Q → MethodKind m = "write" →
  (TryAcquire now' born' m (Some c) (grun ops (Report429 now born (Some c) s g))).1 = false.
Proof.
  intros Hops Hn Hm. apply (write_held (now + s)); [|done|done].
  apply held_run; [done|]. destruct (Report429_chat now born c s g) as (_ & -> & _). simpl. apply fmax_r.
Qed.

Lemma report_429_is_honoured_witness :
  (TryAcquire 104 104 "sendMessage" (Some 7)
     (grun [OSnapshot 101 101; OAcquire 102 102 "sendMessage" (Some 7)] (Report429 100 100 (Some 7) 5 demo_guard))).1 = false.
Proof.
  apply report_429_is_honoured.
  - repeat constructor; vm_compute; reflexivity.
  - vm_compute. reflexivity.
  - vm_compute. reflexivity.
Defined.

(** A first send can be refused spuriously: with a burst of one, a chat
    whose bucket is created by the call itself is refused whenever the clock
    advanced between the call's own reading and the one [NewBucket] takes,
    because the negative elapsed time drains the fresh token. *)
Theorem fresh_chat_can_be_refused now born c m g :
  (now < born)%Q → chat_of c g = None → MethodKind m = "write" →
  chat_burst c (cfg g) = 1 → (0 < chat_rate c (cfg g))%Q →
  (TryAcquire now born m (Some c) g).1 = false.
Proof.
  intros Hn Hc Hm Hb Hr. unfold TryAcquire. destruct (qlt now _); [done|]. rewrite Hm. simpl.
  rewrite chatBucket_spec, Hc. simpl. rewrite Hb.
  assert (blocked now (Refill now (NewBucket (chat_rate c (cfg g)) 1 born)) = true) as ->; [|done].
  unfold blocked, Refill, pause_over; simpl. apply orb_true_iff. right. apply qlt_true.
  assert ((now - born) * chat_rate c (cfg g) < 0)%Q.
  { assert (0 < (born - now) * chat_rate c (cfg g))%Q; [|lra]. apply Qmult_lt_0_compat; lra. }
  change (inject_Z 1) with 1%Q. eapply Qle_lt_trans; [apply fmin_r|]. lra.
Qed.

Definition burst1_cfg : RateConfig :=
  DefaultRate (λ n, if (n =? "GW_PRIVATE_BURST")%string then Some "1" else None).

Lemma fresh_chat_can_be_refused_witness :
  (TryAcquire 100 (100 + (1 # 1000000)) "sendMessage" (Some 7) (NewGuard burst1_cfg 99)).1 = false.
Proof.
  apply fresh_chat_can_be_refused; vm_compute; reflexivity.
Defined.

Lemma jittered_bounds rnd base cap :
  (0 <= rnd)%Q → (rnd <= 1)%Q → (0 <= base)%Q → (0 <= cap)%Q →
  (base <= Jittered rnd base cap)%Q ∧ (Jittered rnd base cap <= base + cap)%Q.
Proof.
  intros H1 H2 H3 H4. unfold Jittered. set (x := fmin cap (base * (1 # 10))).
  assert (0 <= x ∧ x <= cap)%Q as [Hx1 Hx2] by (unfold x; qsolve).
  assert (0 <= rnd * x)%Q by (apply Qmult_le_0_compat; lra).
  assert (rnd * x <= 1 * x)%Q by (apply Qmult_le_compat_r; lra). lra.
Qed.
