(* ===== verification/Regex.v ===== *)
(** * The regular expressions of FLOOD_WAIT parsing

    The subset of Go's regexp syntax that internal/rateguard/mt.go uses: byte
    classes, greedy and lazy stars over a class, and one capturing [(\d+)].
    Matching is leftmost-first, with the backtracking preference order that
    regexp documents.  Under [(?i)] the letter s also matches U+017F (bytes
    C5 BF), its only other simple fold. *)
From Stdlib Require Import Ascii String.
From stdpp Require Import base list strings.
From S2P Require Import Prelude GoValue.
Open Scope Z_scope.

Inductive item :=
| IByte (p : ascii → bool)
| IFoldS
| IStar (greedy : bool) (p : ascii → bool)
| IDigits.

(** A star over a class, then the continuation [k]. *)
Fixpoint star_go (greedy : bool) (p : ascii → bool) (k : string → option string) (s : string)
    : option string :=
  let stop := k s in
  let more := match s with
              | String c s' => if p c then star_go greedy p k s' else None
              | EmptyString => None
              end in
  if greedy then match more with Some r => Some r | None => stop end
  else match stop with Some r => Some r | None => more end.

(** [(\d+)], then the continuation; the result is the captured text. *)
Fixpoint digits_go (k : string → option string) (s : string) : option string :=
  match s with
  | String c s' =>
      if is_digit c then
        match digits_go k s' with
        | Some r => Some (String c r)
        | None => match k s' with Some _ => Some (String c "") | None => None end
        end
      else None
  | EmptyString => None
  end.

Fixpoint mitems (its : list item) (s : string) {struct its} : option string :=
  match its with
  | [] => Some ""
  | IByte p :: rest =>
      match s with
      | String c s' => if p c then mitems rest s' else None
      | EmptyString => None
      end
  | IFoldS :: rest =>
      match s with
      | String c s' =>
          if (code c =? 115) || (code c =? 83) then mitems rest s'
          else if code c =? 197 then
            match s' with
            | String d s'' => if code d =? 191 then mitems rest s'' else None
            | EmptyString => None
            end
          else None
      | EmptyString => None
      end
  | IStar greedy p :: rest => star_go greedy p (mitems rest) s
  | IDigits :: rest => digits_go (mitems rest) s
  end.

(** [FindStringSubmatch]: the captured text of the leftmost match. *)
Fixpoint find (its : list item) (s : string) : option string :=
  match mitems its s with
  | Some r => Some r
  | None => match s with EmptyString => None | String _ s' => find its s' end
  end.

(** A literal under [(?i)]. *)
Fixpoint fold_lit (s : string) : list item :=
  match s with
  | EmptyString => []
  | String c s' =>
      (if (lower_ascii c =? "s")%char then IFoldS
       else IByte (λ d, (lower_ascii d =? lower_ascii c)%char)) :: fold_lit s'
  end.

Definition lit_byte (c : ascii) : item := IByte (λ d, (d =? c)%char).

(** [\S]. *)
Definition not_space (c : ascii) : bool :=
  negb ((code c =? 9) || (code c =? 10) || (code c =? 12) || (code c =? 13) || (code c =? 32)).

Definition any_byte (c : ascii) : bool := true.

(** ** Lemmas *)

Lemma find_skip its c s : mitems its (String c s) = None → find its (String c s) = find its s.
Proof. simpl. by intros ->. Qed.

(** A pattern whose first item is a single byte never starts inside text that
    byte rejects. *)
Lemma find_skip_text p rest a s :
  (∀ c, p c = true → ∀ a1 a2, a ≠ (a1 +:+ String c a2)%string) →
  find (IByte p :: rest) (a +:+ s) = find (IByte p :: rest) s.
Proof.
  induction a as [|c a IH]; intros H; [done|]. simpl.
  destruct (p c) eqn:E; [by destruct (H c E "" a)|].
  apply IH. intros d Hd a1 a2 ->. by apply (H d Hd (String c a1) a2).
Qed.

(** Digits followed by text whose first byte is no digit: the capture takes
    them all, when what follows matches. *)
Lemma capture_digits k d s :
  all_digits d = true → d ≠ "" →
  match s with EmptyString => True | String c _ => is_digit c = false end →
  is_Some (k s) → digits_go k (d +:+ s) = Some d.
Proof.
  intros Hd Hne Hs [r Hr].
  induction d as [|c d IH]; [done|]. simpl in Hd. apply andb_true_iff in Hd as [Hc Hd].
  change (String c d +:+ s) with (String c (d +:+ s)). cbn [digits_go]. rewrite Hc. destruct d as [|c' d'].
  - change ("" +:+ s) with s. assert (digits_go k s = None) as ->; [|by rewrite Hr].
    destruct s as [|e s']; [done|]. simpl. by rewrite Hs.
  - by rewrite IH.
Qed.

Lemma skip_digits its d s :
  (∀ c s', is_digit c = true → mitems its (String c s') = None) → all_digits d = true →
  find its (d +:+ s) = find its s.
Proof.
  intros H. induction d as [|c d IH]; [done|]. intros [Hc Hd]%andb_true_iff.
  change (String c d +:+ s) with (String c (d +:+ s)). rewrite find_skip by auto. by apply IH.
Qed.

Lemma digit_code c : is_digit c = true → 48 <= code c <= 57.
Proof. unfold is_digit. lia. Qed.

Lemma byte_no_digit p rest c s :
  (∀ c, is_digit c = true → p c = false) → is_digit c = true → mitems (IByte p :: rest) (String c s) = None.
Proof. intros H Hc. simpl. by rewrite H. Qed.

Lemma folds_no_digit rest c s : is_digit c = true → mitems (IFoldS :: rest) (String c s) = None.
Proof.
  intros Hc%digit_code. simpl. assert ((code c =? 115) || (code c =? 83) = false) as -> by lia.
  assert ((code c =? 197) = false) as -> by lia. done.
Qed.

Lemma fold_no_digit x c : is_digit x = false → is_digit c = true → (lower_ascii c =? lower_ascii x)%char = false.
Proof.
  intros Hx Hc. apply Ascii.eqb_neq. intros E. pose proof (digit_code c Hc) as Hd.
  assert (lower_ascii c = c) as Hl.
  { unfold lower_ascii. destruct (Z.leb_spec 65 (code c)); [lia|]. done. }
  rewrite Hl in E. subst c. unfold lower_ascii in *.
  destruct ((65 <=? code x) && (code x <=? 90)) eqn:Ex; [|congruence].
  rewrite code_chr in Hd by lia. lia.
Qed.

(** A literal that does not begin with a digit never starts inside digits. *)
Lemma lit_skips_digits x name rest d s :
  is_digit x = false → all_digits d = true →
  find (fold_lit (String x name) ++ rest) (d +:+ s) = find (fold_lit (String x name) ++ rest) s.
Proof.
  intros Hx Hd. apply skip_digits; [|done]. intros c s' Hc. cbn [fold_lit app].
  destruct (lower_ascii x =? "s")%char; [by apply folds_no_digit|].
  apply byte_no_digit; [|done]. intros c' Hc'. by apply fold_no_digit.
Qed.
