(* ===== verification/MTGuard.v ===== *)
(** * Outbound pacing of the MTProto plane (internal/rateguard/mt.go)

    The FAQ buckets of [RateGuard] plus FLOOD_WAIT parsing and the per-peer
    adaptive backoff. *)
From Stdlib Require Import QArith Qpower Lqa Ascii String.
From stdpp Require Import base list strings gmap.
From S2P Require Import Prelude GoValue Config RateGuard Regex.
Open Scope Z_scope.

(** ** FLOOD_WAIT parsing *)

Definition call_re (name : string) : list item :=
  fold_lit name ++ [lit_byte "("; IDigits; lit_byte ")"].

Definition floodWaitRe : list item := call_re "FloodWait".

Definition floodPremiumRe : list item := call_re "FloodPremiumWait".

Definition slowmodeWaitRe : list item := call_re "SlowmodeWait".

Definition peerFloodRe : list item := fold_lit "PeerFloodInvalid" ++ [].

Definition tg_re (name : string) : list item :=
  fold_lit name ++ [IStar true not_space; IStar false any_byte] ++
  fold_lit "wait of " ++ [IDigits] ++ fold_lit " seconds".

Definition tgFloodWaitRe : list item := tg_re "FLOOD_WAIT".

Definition tgSlowmodeRe : list item := tg_re "SLOWMODE_WAIT".

Record FloodInfo := { Type_ : string; Wait : Z }.

Definition ParseFloodWait (s : string) : option FloodInfo :=
  match find floodWaitRe s with
  | Some m => Some {| Type_ := "flood_wait"; Wait := atoi m |}
  | None =>
  match find floodPremiumRe s with
  | Some m => Some {| Type_ := "flood_premium"; Wait := atoi m |}
  | None =>
  match find slowmodeWaitRe s with
  | Some m => Some {| Type_ := "slowmode"; Wait := atoi m |}
  | None =>
  match find peerFloodRe s with
  | Some _ => Some {| Type_ := "peer_flood"; Wait := 300 |}
  | None =>
  match find tgFloodWaitRe s with
  | Some m => Some {| Type_ := "flood_wait"; Wait := atoi m |}
  | None =>
  match find tgSlowmodeRe s with
  | Some m => Some {| Type_ := "slowmode"; Wait := atoi m |}
  | None => None
  end end end end end end.

(** ** The guard *)

Record peerBackoff := { offences : Z; lastWait : Q; peer_until : Q }.

Definition no_backoff : peerBackoff := {| offences := 0; lastWait := 0; peer_until := 0 |}.

(** The FAQ part has the fields and the chat tables of [Guard]. *)
Record MTGuard := {
  faq : Guard;
  MT : MTProtoRate;
  silent : Bucket;
  peerBackoffs : gmap Z peerBackoff
}.

Definition NewMTGuard (c : RateConfig) (m : MTProtoRate) (born : Q) : MTGuard := {|
  faq := NewGuard c born; MT := m;
  silent := NewBucket (SilentRate m) (Z.max 5 (qtrunc (SilentRate m))) born;
  peerBackoffs := ∅
|}.

Definition set_faq (g : MTGuard) (f : Guard) : MTGuard :=
  {| faq := f; MT := MT g; silent := silent g; peerBackoffs := peerBackoffs g |}.

Definition set_silent (g : MTGuard) (b : Bucket) : MTGuard :=
  {| faq := faq g; MT := MT g; silent := b; peerBackoffs := peerBackoffs g |}.

Definition set_peer (g : MTGuard) (p : Z) (pb : peerBackoff) : MTGuard :=
  {| faq := faq g; MT := MT g; silent := silent g; peerBackoffs := <[p := pb]> (peerBackoffs g) |}.

Definition peerState (p : Z) (g : MTGuard) : peerBackoff * MTGuard :=
  match peerBackoffs g !! p with
  | Some pb => (pb, g)
  | None => (no_backoff, set_peer g p no_backoff)
  end.

Definition EnterPaidLane (allowed : bool) (g : MTGuard) : MTGuard :=
  set_faq g (RateGuard.EnterPaidLane allowed (faq g)).

Definition ExitPaidLane (g : MTGuard) : MTGuard := set_faq g (RateGuard.ExitPaidLane (faq g)).

Definition silentMethods : list string :=
  ["resolve_username"; "get_participants"; "join_channel"; "leave_chat"].

(** The write lane: the same buckets as the Bot API guard, without its second
    look at the chat bucket before the global one. *)
Definition acquire_write (now born : Q) (chatID : option Z) (g : Guard) : bool * Guard :=
  match chatID with
  | None => if paidLane g then acquire_paid now None (paid g) g else acquire_global now None (paid g) g
  | Some c =>
      let '(b, g) := chatBucket born c g in
      let b := Refill now b in
      let g := set_chat c b g in
      if blocked now b then (false, g) else
      if paidLane g then acquire_paid now (Some c) b g else acquire_global now (Some c) b g
  end.

Definition TryAcquire (now born : Q) (method : string) (chatID : option Z) (g : MTGuard) : bool * MTGuard :=
  let '(peer_ok, g) :=
    match chatID with
    | None => (true, g)
    | Some c => let '(pb, g) := peerState c g in (negb (qlt now (peer_until pb)), g)
    end in
  if negb peer_ok then (false, g) else
  if qlt now (egressPausedUntil (faq g)) then (false, g) else
  let kind := MethodKind method in
  if (kind =? "fast")%string then (true, g) else
  if (kind =? "read")%string then
    let '(ok, r) := TryTake now (reads (faq g)) in (ok, set_faq g (set_reads (faq g) r))
  else if smem (to_lower method) silentMethods then
    let '(ok, s) := TryTake now (silent g) in (ok, set_silent g s)
  else
    let '(ok, f) := acquire_write now born chatID (faq g) in (ok, set_faq g f).

Definition WaitTime (now born : Q) (method : string) (chatID : option Z) (g : MTGuard) : Q * MTGuard :=
  let wait := fmax 0 (egressPausedUntil (faq g) - now)%Q in
  let '(wait, g) :=
    match chatID with
    | None => (wait, g)
    | Some c => let '(pb, g) := peerState c g in (fmax wait (peer_until pb - now)%Q, g)
    end in
  let kind := MethodKind method in
  if (kind =? "fast")%string then (fmax 0 wait, g) else
  if (kind =? "read")%string then
    let '(w, r) := NextAvailable now (reads (faq g)) in (fmax wait w, set_faq g (set_reads (faq g) r))
  else
  let '(w, gw) := NextAvailable now (globalWrites (faq g)) in
  let wait := fmax wait w in
  let f := set_global (faq g) gw in
  match chatID with
  | None => (fmax 0 wait, set_faq g f)
  | Some c =>
      let '(b, f) := chatBucket born c f in
      let '(w, b) := NextAvailable now b in
      (fmax 0 (fmax wait w), set_faq g (set_chat c b f))
  end.

(** [math.Min(wait * math.Pow(base, offences-1), 3600)]. *)
Definition adaptive (base : Q) (wait : Q) (n : Z) : Q := fmin (wait * base ^ (n - 1)) 3600.

Definition ReportFloodWait (now born : Q) (errText : string) (chatID : option Z) (g : MTGuard)
    : option FloodInfo * MTGuard :=
  match ParseFloodWait errText with
  | None => (None, g)
  | Some info =>
      let wait := inject_Z (Wait info) in
      if (Type_ info =? "peer_flood")%string then
        (Some info,
         match chatID with
         | None => g
         | Some c =>
             let '(pb, g) := peerState c g in
             set_peer g c {| offences := offences pb + 1; lastWait := lastWait pb;
                             peer_until := (now + PeerFloodCooldown (MT g))%Q |}
         end)
      else if (Type_ info =? "slowmode")%string && negb (SlowmodeRespect (MT g)) then (Some info, g)
      else
        (Some info,
         match chatID with
         | Some c =>
             let '(pb, g) := peerState c g in
             let n := offences pb + 1 in
             let a := adaptive (FloodBackoffBase (MT g)) wait n in
             let g := set_peer g c {| offences := n; lastWait := wait; peer_until := (now + a)%Q |} in
             let '(b, f) := chatBucket born c (faq g) in
             set_faq g (set_chat c (Pause a now b) f)
         | None =>
             let f := set_egress (faq g) (fmax (egressPausedUntil (faq g)) (now + wait)%Q) in
             set_faq g (set_global f (Pause wait now (globalWrites f)))
         end)
  end.

Definition AdaptiveWait (info : option FloodInfo) (chatID : option Z) (g : MTGuard) : Z * MTGuard :=
  match info with
  | None => (0, g)
  | Some i =>
      match chatID with
      | None => (Wait i, g)
      | Some c =>
          let '(pb, g) := peerState c g in
          (qtrunc (adaptive (FloodBackoffBase (MT g)) (inject_Z (Wait i)) (offences pb)), g)
      end
  end.

Definition ClearPeerBackoff (c : Z) (g : MTGuard) : MTGuard :=
  {| faq := faq g; MT := MT g; silent := silent g; peerBackoffs := delete c (peerBackoffs g) |}.

Definition peer_view (now : Q) (kv : Z * peerBackoff) : string * any :=
  (itoa kv.1, AMap [("offences", AInt (offences kv.2));
                    ("paused_for_s", AFloat (tenth (peer_until kv.2 - now)%Q))]).

Definition Snapshot (now : Q) (g : MTGuard) : obj * MTGuard :=
  let peers := bfilter (λ kv, qlt now (peer_until kv.2)) (map_to_list (peerBackoffs g)) in
  ([("private_empty", AInt (count_empty now (Private (faq g))));
    ("group_empty", AInt (count_empty now (Groups (faq g))));
    ("egress_paused_for_s", AFloat (tenth (fmax 0 (egressPausedUntil (faq g) - now)%Q)));
    ("peer_backoffs", AMap (map (peer_view now) peers))],
   set_faq g (set_chats (faq g) (Refill now <$> Private (faq g)) (Refill now <$> Groups (faq g)))).

(** ** Parsing lemmas *)

Lemma append_empty s : "" +:+ s = s.
Proof. done. Qed.

Section texts.
Context (d : string).
Hypothesis digits : all_digits d = true.
Hypothesis nonempty : d ≠ "".

Lemma flood_call_text : ParseFloodWait ("FloodWait(" +:+ d +:+ ")") = Some {| Type_ := "flood_wait"; Wait := atoi d |}.
Proof.
  unfold ParseFloodWait, floodWaitRe. simpl. rewrite !append_empty. rewrite (capture_digits _ d) by (done || by eexists). done.
Qed.

(** After the concrete part of the text no pattern starts inside the digits. *)
Ltac misses re t :=
  assert (find re t = None) as ->;
  [lazymatch t with
   | context [d +:+ ?rest] => transitivity (find re (d +:+ rest)); [reflexivity|];
       transitivity (find re rest); [by apply lit_skips_digits|reflexivity]
   end|].

Lemma premium_call_text :
  ParseFloodWait ("FloodPremiumWait(" +:+ d +:+ ")") = Some {| Type_ := "flood_premium"; Wait := atoi d |}.
Proof.
  unfold ParseFloodWait. misses floodWaitRe ("FloodPremiumWait(" +:+ d +:+ ")").
  assert (find floodPremiumRe ("FloodPremiumWait(" +:+ d +:+ ")") = Some d) as ->; [|done].
  unfold floodPremiumRe. simpl. rewrite !append_empty. rewrite (capture_digits _ d) by (done || by eexists). done.
Qed.

Lemma slowmode_call_text :
  ParseFloodWait ("SlowmodeWait(" +:+ d +:+ ")") = Some {| Type_ := "slowmode"; Wait := atoi d |}.
Proof.
  unfold ParseFloodWait.
  misses floodWaitRe ("SlowmodeWait(" +:+ d +:+ ")"). misses floodPremiumRe ("SlowmodeWait(" +:+ d +:+ ")").
  assert (find slowmodeWaitRe ("SlowmodeWait(" +:+ d +:+ ")") = Some d) as ->; [|done].
  unfold slowmodeWaitRe. simpl. rewrite !append_empty. rewrite (capture_digits _ d) by (done || by eexists). done.
Qed.

Lemma raw_flood_text :
  let t := "Telegram says: [420 FLOOD_WAIT_X] - A wait of " +:+ d +:+ " seconds is required" in
  ParseFloodWait t = Some {| Type_ := "flood_wait"; Wait := atoi d |}.
Proof.
  cbn zeta. unfold ParseFloodWait.
  misses floodWaitRe ("Telegram says: [420 FLOOD_WAIT_X] - A wait of " +:+ d +:+ " seconds is required").
  misses floodPremiumRe ("Telegram says: [420 FLOOD_WAIT_X] - A wait of " +:+ d +:+ " seconds is required").
  misses slowmodeWaitRe ("Telegram says: [420 FLOOD_WAIT_X] - A wait of " +:+ d +:+ " seconds is required").
  misses peerFloodRe ("Telegram says: [420 FLOOD_WAIT_X] - A wait of " +:+ d +:+ " seconds is required").
  assert (find tgFloodWaitRe ("Telegram says: [420 FLOOD_WAIT_X] - A wait of " +:+ d +:+ " seconds is required") = Some d) as ->; [|done].
  unfold tgFloodWaitRe. simpl. rewrite !append_empty. rewrite (capture_digits _ d) by (done || by eexists). done.
Qed.
Lemma raw_slowmode_text :
  let t := "Telegram says: [420 SLOWMODE_WAIT_X] - A wait of " +:+ d +:+ " seconds is required" in
  ParseFloodWait t = Some {| Type_ := "slowmode"; Wait := atoi d |}.
Proof.
  cbn zeta. unfold ParseFloodWait.
  misses floodWaitRe ("Telegram says: [420 SLOWMODE_WAIT_X] - A wait of " +:+ d +:+ " seconds is required").
  misses floodPremiumRe ("Telegram says: [420 SLOWMODE_WAIT_X] - A wait of " +:+ d +:+ " seconds is required").
  misses slowmodeWaitRe ("Telegram says: [420 SLOWMODE_WAIT_X] - A wait of " +:+ d +:+ " seconds is required").
  misses peerFloodRe ("Telegram says: [420 SLOWMODE_WAIT_X] - A wait of " +:+ d +:+ " seconds is required").
  misses tgFloodWaitRe ("Telegram says: [420 SLOWMODE_WAIT_X] - A wait of " +:+ d +:+ " seconds is required").
  assert (find tgSlowmodeRe ("Telegram says: [420 SLOWMODE_WAIT_X] - A wait of " +:+ d +:+ " seconds is required") = Some d) as ->; [|done].
  unfold tgSlowmodeRe. simpl. rewrite !append_empty. rewrite (capture_digits _ d) by (done || by eexists). done.
Qed.
End texts.

(** ** Adaptive backoff *)

Lemma adaptive_cap base wait n : (adaptive base wait n <= 3600)%Q.
Proof. apply fmin_r. Qed.

Lemma adaptive_first base wait : (0 <= wait)%Q → (wait <= 3600)%Q → (adaptive base wait 1 == wait)%Q.
Proof.
  intros H1 H2. unfold adaptive. change (base ^ (1 - 1))%Q with 1%Q.
  unfold fmin. destruct (qleP (wait * 1) 3600); lra.
Qed.

Lemma Qpower_step base n : (1 <= base)%Q → 1 <= n → (base ^ (n - 1) <= base ^ n)%Q.
Proof.
  intros Hb Hn. replace n with (n - 1 + 1) at 2 by lia.
  rewrite Qpower_plus by lra. change (base ^ 1)%Q with base.
  assert (0 <= base ^ (n - 1))%Q by (apply Qpower_0_le; lra).
  assert (base ^ (n - 1) * 1 <= base ^ (n - 1) * base)%Q; [|lra].
  rewrite !(Qmult_comm (base ^ (n - 1))). apply Qmult_le_compat_r; lra.
Qed.

(** Every further offence waits at least as long as the one before. *)
Lemma adaptive_grows base wait n :
  (1 <= base)%Q → (0 <= wait)%Q → 1 <= n → (adaptive base wait n <= adaptive base wait (n + 1))%Q.
Proof.
  intros Hb Hw Hn. unfold adaptive. replace (n + 1 - 1) with n by lia.
  pose proof (Qpower_step base n Hb Hn) as Hp.
  assert (wait * base ^ (n - 1) <= wait * base ^ n)%Q.
  { rewrite !(Qmult_comm wait). apply Qmult_le_compat_r; lra. }
  qsolve.
Qed.

Lemma peerState_spec c g :
  (peerState c g).1 = default no_backoff (peerBackoffs g !! c) ∧
  peerBackoffs (peerState c g).2 !! c = Some (default no_backoff (peerBackoffs g !! c)) ∧
  faq (peerState c g).2 = faq g ∧ MT (peerState c g).2 = MT g ∧ silent (peerState c g).2 = silent g.
Proof.
  unfold peerState. destruct (peerBackoffs g !! c) eqn:E; simpl; [done|]. by rewrite lookup_insert_eq.
Qed.

(** ** Properties *)

(** Every documented rate-limit text is understood: for any wait that fits
    an int, the Pyrogram forms FloodWait(n), FloodPremiumWait(n) and
    SlowmodeWait(n) and Telegram's raw [420 FLOOD_WAIT_X] and SLOWMODE_WAIT_X
    messages parse to their kind and exactly [n] seconds. *)
Theorem flood_texts_parse n :
  0 <= n <= int64_max →
  ParseFloodWait ("FloodWait(" +:+ itoa n +:+ ")") = Some {| Type_ := "flood_wait"; Wait := n |} ∧
  ParseFloodWait ("FloodPremiumWait(" +:+ itoa n +:+ ")") = Some {| Type_ := "flood_premium"; Wait := n |} ∧
  ParseFloodWait ("SlowmodeWait(" +:+ itoa n +:+ ")") = Some {| Type_ := "slowmode"; Wait := n |} ∧
  ParseFloodWait ("Telegram says: [420 FLOOD_WAIT_X] - A wait of " +:+ itoa n +:+ " seconds is required")
    = Some {| Type_ := "flood_wait"; Wait := n |} ∧
  ParseFloodWait ("Telegram says: [420 SLOWMODE_WAIT_X] - A wait of " +:+ itoa n +:+ " seconds is required")
    = Some {| Type_ := "slowmode"; Wait := n |}.
Proof.
  intros Hn. destruct (itoa_nat n Hn) as (Hd & Hne & Ha & _).
  rewrite flood_call_text, premium_call_text, slowmode_call_text, raw_flood_text, raw_slowmode_text by done.
  by rewrite Ha.
Qed.

Lemma flood_texts_parse_witness :
  ParseFloodWait ("SlowmodeWait(" +:+ itoa 42 +:+ ")") = Some {| Type_ := "slowmode"; Wait := 42 |}.
Proof. apply (flood_texts_parse 42). vm_compute. split; discriminate. Defined.

(** A reported FLOOD_WAIT backs the peer off adaptively: the n-th offence
    pauses it for wait * base^(n-1) seconds, never more than an hour and never
    less than the previous offence's pause for the same wait; and until then
    every request to that peer is refused, callback answers and reads
    included. *)
Theorem flood_wait_backs_off now born err c g info now' born' m :
  ParseFloodWait err = Some info → Type_ info = "flood_wait" →
  (1 <= FloodBackoffBase (MT g))%Q → 0 <= Wait info →
  0 <= offences (default no_backoff (peerBackoffs g !! c)) →
  let n := offences (default no_backoff (peerBackoffs g !! c)) + 1 in
  let a := adaptive (FloodBackoffBase (MT g)) (inject_Z (Wait info)) n in
  let '(r, g') := ReportFloodWait now born err (Some c) g in
  r = Some info ∧
  peerBackoffs g' !! c = Some {| offences := n; lastWait := inject_Z (Wait info); peer_until := (now + a)%Q |} ∧
  (a <= 3600)%Q ∧ (a <= adaptive (FloodBackoffBase (MT g)) (inject_Z (Wait info)) (n + 1))%Q ∧
  ((now' < now + a)%Q → (TryAcquire now' born' m (Some c) g').1 = false).
Proof.
  intros Hp Ht Hb Hw Hoff n a. unfold ReportFloodWait. rewrite Hp, Ht. simpl.
  destruct (peerState_spec c g) as (E1 & E2 & E3 & E4 & E5). destruct (peerState c g) as [pb g1]. simpl in *. subst pb.
  rewrite E4. fold n a. destruct (chatBucket born c _) as [b f]. simpl.
  assert (0 <= inject_Z (Wait info))%Q by (unfold Qle; simpl; lia).
  split_ands; [done|by rewrite lookup_insert_eq|apply adaptive_cap| |].
  - apply adaptive_grows; [done|done|lia].
  - intros Hlt. unfold TryAcquire, peerState. simpl. rewrite lookup_insert_eq. simpl.
    by rewrite (qlt_true now') by done.
Qed.

Definition mt_demo_guard : MTGuard := NewMTGuard (DefaultRate (λ _, None)) (DefaultMTProtoRate (λ _, None)) 100.

Lemma flood_wait_backs_off_witness :
  (TryAcquire 109 109 "answerCallbackQuery" (Some 7) (ReportFloodWait 100 100 "FloodWait(10)" (Some 7) mt_demo_guard).2).1 = false.
Proof.
  pose proof (flood_wait_backs_off 100 100 "FloodWait(10)" 7 mt_demo_guard {| Type_ := "flood_wait"; Wait := 10 |}
    109 109 "answerCallbackQuery") as H.
  destruct (ReportFloodWait 100 100 "FloodWait(10)" (Some 7) mt_demo_guard) as [r g'].
  destruct H as (_ & _ & _ & _ & H).
  - vm_compute. reflexivity.
  - reflexivity.
  - vm_compute. discriminate.
  - vm_compute. discriminate.
  - vm_compute. discriminate.
  - apply H. vm_compute. reflexivity.
Defined.

(** The wait reported for a silent method ignores the bucket that gates
    it: the answer of [WaitTime] does not depend on the silent bucket at all,
    and with that bucket drained a resolve_username is refused while the
    reported wait is zero. *)
Theorem silent_wait_underreported :
  (∀ now born m chat g b, (WaitTime now born m chat (set_silent g b)).1 = (WaitTime now born m chat g).1) ∧
  (let g := set_silent mt_demo_guard (with_tokens (NewBucket 5 5 100) 0) in
   (TryAcquire 100 100 "resolve_username" None g).1 = false ∧
   (WaitTime 100 100 "resolve_username" None g).1 = 0%Q).
Proof.
  split; [|vm_compute; done]. intros now born m chat g b. unfold WaitTime. cbn zeta.
  destruct chat as [c|].
  - unfold peerState. simpl. destruct (peerBackoffs g !! c); simpl; repeat (case_match; simpl; try done).
  - repeat (case_match; simpl; try done).
Qed.

Example get_participants_is_a_read : MethodKind "get_participants" = "read".
Proof. reflexivity. Qed.
