(* ===== verification/Lock.v ===== *)
(** * The singleton session lock (internal/lock)

    An exclusive lock on one file per alias.  The kernel's part is the record
    of which open file description holds the exclusive lock of each file, and
    that a process's descriptors are closed when it dies.  [Acquire] and
    [Release] are the code's; the diagnostic content is written as the code
    writes it because the transitional Python-holder check reads it back.

    The package has two backends chosen at build time.  [Backend] is what they
    offer to [Acquire] and [Release], [Lawful] what these rely on; [flock]
    (lock_flock.go, the default instance) and [lockfileex] (lock_windows.go)
    both satisfy the laws, so the ownership theorems hold for either build.
    They differ in what a second handle of a locked file can read, which
    decides the Python-holder check ([python_holder_refused],
    [windows_python_guard_blind]). *)
From Stdlib Require Import QArith Lqa Ascii String.
From stdpp Require Import base list strings gmap.
From S2P Require Import Prelude GoValue Crypto Config.
Open Scope Z_scope.

Definition StaleAfter : Z := 60 * 1000000000.

Record lockfile := { holder : option nat; content : string }.

(** Kernel state: lock files by path, and the next file description. *)
Record kernel := { files : gmap string lockfile; next_fd : nat; tokenCounter : Z }.

Record Lock := { Alias : string; LockDir : string; fd : option nat; Token : Z }.

(** What [os.Hostname], the boot id, the pid and the clock say. *)
Record host := { pid : Z; hostname : string; bootID : string; now : Z }.

Definition Path (l : Lock) : string := LockDir l +:+ "/" +:+ Alias l +:+ ".lock".

Definition Held (l : Lock) : bool := bool_decide (is_Some (fd l)).

(** [splitLines]: a trailing newline opens no further line. *)
Fixpoint split_from (s cur : string) : list string :=
  match s with
  | EmptyString => if (cur =? "")%string then [] else [cur]
  | String c s' =>
      if (c =? "010")%char then cur :: split_from s' ""
      else split_from s' (cur +:+ String c "")
  end.

Definition splitLines (raw : string) : list string := split_from raw "".

Definition readHolder (raw : option string) : string :=
  match raw with
  | None => "unknown"
  | Some r =>
      let lines := splitLines r in
      match lines with
      | [] => "unknown"
      | l0 :: rest =>
          if (l0 =? "")%string then "unknown" else
          let h := match rest with
                   | l1 :: _ => if (l1 =? "")%string then "unknown-host" else l1
                   | [] => "unknown-host"
                   end in
          "pid=" +:+ l0 +:+ "@" +:+ h
      end
  end.

Definition line (i : nat) (lines : list string) : string := default "" (lines !! i).

(** [int64(ts*1e9)] nanoseconds; [time.Since] saturates, which the range test
    that follows cannot tell apart. *)
Definition pythonHolderFresh (h : host) (raw : string) : bool :=
  if (raw =? "")%string then false else
  let lines := splitLines raw in
  if (5 <=? length lines)%nat && (line 4 lines =? "tggw")%string then false
  else if (length lines <? 4)%nat || (line 3 lines =? "")%string || (line 0 lines =? "")%string then false
  else
    match ParseFloat (trim_space (line 3 lines)) with
    | None => false
    | Some ts => let age := now h - f2i (ts * inject_Z 1000000000)%Q in (0 <=? age) && (age <? StaleAfter)
    end.

Definition nl : string := String "010" "".

(** Zero-padded to six digits. *)
Definition pad6 (n : Z) : string :=
  let s := itoa n in String.concat "" (repeat "0" (6 - String.length s)) +:+ s.

(** [%f]: six decimals, rounded half to even. *)
Definition fmt_f (q : Q) : string :=
  let m := (q * inject_Z 1000000)%Q in
  let fl := (Qnum m / Zpos (Qden m)) in
  let r := (m - inject_Z fl)%Q in
  let n := if qlt (1 # 2) r then fl + 1
           else if qlt r (1 # 2) then fl else if Z.even fl then fl else fl + 1 in
  itoa (n / 1000000) +:+ "." +:+ pad6 (n mod 1000000).

Definition holder_text (h : host) : string :=
  itoa (pid h) +:+ nl +:+ hostname h +:+ nl +:+ bootID h +:+ nl +:+ fmt_f (secs (now h)) +:+ nl +:+ "tggw" +:+ nl.

Definition put (p : string) (x : lockfile) (k : kernel) : kernel :=
  {| files := <[p := x]> (files k); next_fd := next_fd k; tokenCounter := tokenCounter k |}.

(** Opening creates the file; each open is a new file description. *)
Definition open_file (p : string) (k : kernel) : nat * kernel :=
  (next_fd k,
   {| files := <[p := default {| holder := None; content := "" |} (files k !! p)]> (files k);
      next_fd := S (next_fd k); tokenCounter := tokenCounter k |}).

Definition holder_of (p : string) (k : kernel) : option nat := x ← files k !! p; holder x.

(** [flock(LOCK_EX|LOCK_NB)]: fails while another description holds it. *)
Definition flockExclusive (p : string) (d : nat) (k : kernel) : bool * kernel :=
  match files k !! p with
  | None => (false, k)
  | Some x =>
      match holder x with
      | Some d' => (bool_decide (d' = d), k)
      | None => (true, put p {| holder := Some d; content := content x |} k)
      end
  end.

(** Unlocking, or closing the last descriptor of the description. *)
Definition flockUnlock (p : string) (d : nat) (k : kernel) : kernel :=
  match files k !! p with
  | Some x => if bool_decide (holder x = Some d) then put p {| holder := None; content := content x |} k else k
  | None => k
  end.

(** [LockFileEx] of lock_windows.go: the locked range starts at byte 0 and its
    length is the 64-bit number with halves [lockRange], [lockRange]. *)
Definition lockRange : Z := 2 ^ 32 - 1.

Definition in_lock_range (off : Z) : bool := (0 <=? off) && (off <? lockRange + Z.shiftl lockRange 32).

(** Exclusive and fail-immediately: the range must overlap no lock, not even
    one taken through the same handle. *)
Definition win_flockExclusive (p : string) (d : nat) (k : kernel) : bool * kernel :=
  match files k !! p with
  | None => (false, k)
  | Some x =>
      match holder x with
      | Some _ => (false, k)
      | None => (true, put p {| holder := Some d; content := content x |} k)
      end
  end.

(** [UnlockFileEx] of the same range, or closing the handle. *)
Definition win_flockUnlock (p : string) (d : nat) (k : kernel) : kernel :=
  match files k !! p with
  | Some x => if bool_decide (holder x = Some d) then put p {| holder := None; content := content x |} k else k
  | None => k
  end.

(** ** The interface of the backends

    [lockExclusive] and [unlock] are the two functions each build file
    defines; [readable p k]: the first byte of [p] can be read through a
    handle that is not the lock's. *)
Class Backend := {
  lockExclusive : string → nat → kernel → bool * kernel;
  unlock : string → nat → kernel → kernel;
  readable : string → kernel → bool
}.

Definition set_holder (p : string) (o : option nat) (k : kernel) : kernel :=
  match files k !! p with Some x => put p {| holder := o; content := content x |} k | None => k end.

(** A free file is taken, a file another handle holds is refused and left
    alone, and only the holder's unlock frees it. *)
Class Lawful (B : Backend) : Prop := {
  lock_free p d k : is_Some (files k !! p) → holder_of p k = None → lockExclusive p d k = (true, set_holder p (Some d) k);
  lock_busy p d d' k : holder_of p k = Some d' → d' ≠ d → lockExclusive p d k = (false, k);
  unlock_own p d k : holder_of p k = Some d → unlock p d k = set_holder p None k;
  unlock_other p d k : holder_of p k ≠ Some d → unlock p d k = k
}.

(** Advisory: a reader never meets the lock. *)
#[global] Instance flock : Backend :=
  {| lockExclusive := flockExclusive; unlock := flockUnlock; readable _ _ := true |}.

(** Mandatory: a second handle, of the same process too, cannot read the
    locked range. *)
Definition lockfileex : Backend :=
  {| lockExclusive := win_flockExclusive; unlock := win_flockUnlock;
     readable p k := negb (bool_decide (is_Some (holder_of p k)) && in_lock_range 0) |}.

#[global] Instance flock_lawful : Lawful flock.
Proof.
  constructor; simpl; unfold flockExclusive, flockUnlock, set_holder, holder_of.
  - intros p d k [x ->]. simpl. by intros ->.
  - intros p d d' k. destruct (files k !! p) as [x|]; simpl; [|done]. intros -> ?. by rewrite bool_decide_false.
  - intros p d k. destruct (files k !! p) as [x|]; simpl; [|done]. intros ->. by rewrite bool_decide_true.
  - intros p d k. destruct (files k !! p) as [x|]; simpl; [|done]. intros ?. by rewrite bool_decide_false.
Qed.

#[global] Instance lockfileex_lawful : Lawful lockfileex.
Proof.
  constructor; simpl; unfold win_flockExclusive, win_flockUnlock, set_holder, holder_of.
  - intros p d k [x ->]. simpl. by intros ->.
  - intros p d d' k. destruct (files k !! p) as [x|]; simpl; [|done]. by intros ->.
  - intros p d k. destruct (files k !! p) as [x|]; simpl; [|done]. intros ->. by rewrite bool_decide_true.
  - intros p d k. destruct (files k !! p) as [x|]; simpl; [|done]. intros ?. by rewrite bool_decide_false.
Qed.

Section WithBackend.
Context {B : Backend}.

(** [os.ReadFile], through a handle of its own; [None] is its error. *)
Definition ReadFile (p : string) (k : kernel) : option string :=
  if readable p k then content <$> files k !! p else None.

(** [open_err]: the open itself fails. *)
Definition Acquire (h : host) (open_err : bool) (l : Lock) (k : kernel) : bool * Lock * kernel :=
  if open_err then (false, l, k) else
  let p := Path l in
  let '(d, k) := open_file p k in
  let '(ok, k) := lockExclusive p d k in
  if negb ok then (false, l, k) else
  if pythonHolderFresh h (default "" (ReadFile p k)) then (false, l, unlock p d k) else
  let t := tokenCounter k + 1 in
  (true,
   {| Alias := Alias l; LockDir := LockDir l; fd := Some d; Token := t |},
   {| files := <[p := {| holder := Some d; content := holder_text h |}]> (files k);
      next_fd := next_fd k; tokenCounter := t |}).

Definition Release (l : Lock) (k : kernel) : Lock * kernel :=
  match fd l with
  | None => (l, k)
  | Some d => ({| Alias := Alias l; LockDir := LockDir l; fd := None; Token := Token l |},
               unlock (Path l) d k)
  end.

(** The owning process dies: the kernel closes its description. *)
Definition Crash (l : Lock) (k : kernel) : Lock * kernel :=
  match fd l with
  | None => (l, k)
  | Some d => ({| Alias := Alias l; LockDir := LockDir l; fd := None; Token := 0 |},
               unlock (Path l) d k)
  end.

(** ** Many instances, any interleaving *)

Record system := { insts : gmap nat Lock; kern : kernel }.

Inductive lstep : system → system → Prop :=
| lstep_acquire i l h e b l' k' s :
    insts s !! i = Some l → fd l = None → Acquire h e l (kern s) = (b, l', k') →
    lstep s {| insts := <[i := l']> (insts s); kern := k' |}
| lstep_release i l l' k' s :
    insts s !! i = Some l → Release l (kern s) = (l', k') →
    lstep s {| insts := <[i := l']> (insts s); kern := k' |}
| lstep_crash i l l' k' s :
    insts s !! i = Some l → Crash l (kern s) = (l', k') →
    lstep s {| insts := <[i := l']> (insts s); kern := k' |}.

(** Every held instance is the kernel's holder of its file, and descriptions
    are never reused. *)
Record lock_ok (s : system) : Prop := {
  ok_held : ∀ i l d, insts s !! i = Some l → fd l = Some d → holder_of (Path l) (kern s) = Some d;
  ok_fresh : ∀ p d, holder_of p (kern s) = Some d → (d < next_fd (kern s))%nat;
  ok_distinct : ∀ i j l l' d, insts s !! i = Some l → insts s !! j = Some l' →
    fd l = Some d → fd l' = Some d → i = j
}.

Context {LB : Lawful B}.

Lemma set_holder_of p o k p' :
  holder_of p' (set_holder p o k) =
  if decide (p' = p ∧ is_Some (files k !! p)) then o else holder_of p' k.
Proof.
  unfold set_holder, holder_of. destruct (files k !! p) as [x|] eqn:E; simpl.
  - destruct (decide (p' = p)) as [->|Hne].
    + rewrite lookup_insert_eq. simpl. by rewrite decide_True by eauto.
    + rewrite lookup_insert_ne by done. by rewrite decide_False by naive_solver.
  - rewrite decide_False; [done|]. intros [_ [? ?]]. done.
Qed.

Lemma set_holder_content p o k p' : content <$> files (set_holder p o k) !! p' = content <$> files k !! p'.
Proof.
  unfold set_holder. destruct (files k !! p) as [x|] eqn:E; [|done]. simpl.
  destruct (decide (p' = p)) as [->|?]; [by rewrite lookup_insert_eq, E|by rewrite lookup_insert_ne].
Qed.

Lemma set_holder_next p o k : next_fd (set_holder p o k) = next_fd k.
Proof. unfold set_holder. by destruct (files k !! p). Qed.

Lemma held_file p k d : holder_of p k = Some d → is_Some (files k !! p).
Proof. unfold holder_of. destruct (files k !! p); [eauto|done]. Qed.

Lemma unlock_holder p d k p' :
  holder_of p' (unlock p d k) =
  if decide (p' = p ∧ holder_of p k = Some d) then None else holder_of p' k.
Proof.
  destruct (decide (holder_of p k = Some d)) as [Hd|Hd].
  - rewrite (unlock_own p d k Hd), set_holder_of. pose proof (held_file _ _ _ Hd).
    destruct (decide (p' = p)); [by rewrite !decide_True|by rewrite !decide_False by naive_solver].
  - rewrite (unlock_other p d k Hd). by rewrite decide_False by naive_solver.
Qed.

Lemma unlock_next p d k : next_fd (unlock p d k) = next_fd k.
Proof.
  destruct (decide (holder_of p k = Some d)) as [Hd|Hd];
    [by rewrite (unlock_own p d k Hd), set_holder_next|by rewrite (unlock_other p d k Hd)].
Qed.

Lemma unlock_content p d k p' : content <$> files (unlock p d k) !! p' = content <$> files k !! p'.
Proof.
  destruct (decide (holder_of p k = Some d)) as [Hd|Hd];
    [by rewrite (unlock_own p d k Hd), set_holder_content|by rewrite (unlock_other p d k Hd)].
Qed.

Lemma open_holder p k p' : holder_of p' (open_file p k).2 = holder_of p' k.
Proof.
  unfold open_file, holder_of. simpl. destruct (decide (p' = p)) as [->|Hne].
  - rewrite lookup_insert_eq. by destruct (files k !! p).
  - by rewrite lookup_insert_ne.
Qed.

Lemma open_present p k : is_Some (files (open_file p k).2 !! p).
Proof. simpl. rewrite lookup_insert_eq. eauto. Qed.

Lemma open_content p k : content <$> files (open_file p k).2 !! p = Some (default "" (content <$> files k !! p)).
Proof. simpl. rewrite lookup_insert_eq. by destruct (files k !! p). Qed.

(** What [Acquire] does to the holders: nothing, or takes a free file with a
    fresh description. *)
Lemma Acquire_spec h e l k :
  fd l = None → (∀ p d, holder_of p k = Some d → (d < next_fd k)%nat) →
  let '(b, l', k') := Acquire h e l k in
  Path l' = Path l ∧ (next_fd k <= next_fd k')%nat ∧
  if b then fd l' = Some (next_fd k) ∧ holder_of (Path l) k = None ∧ next_fd k' = S (next_fd k) ∧
    ∀ p, holder_of p k' = if decide (p = Path l) then Some (next_fd k) else holder_of p k
  else fd l' = None ∧ ∀ p, holder_of p k' = holder_of p k.
Proof.
  intros Hl Hf. unfold Acquire. destruct e; [done|].
  destruct (open_file (Path l) k) as [d k1] eqn:Eo.
  pose proof (open_holder (Path l) k) as H1. pose proof (open_present (Path l) k) as H2. rewrite Eo in H1, H2.
  assert (d = next_fd k ∧ next_fd k1 = S (next_fd k)) as [-> Hn] by (by injection Eo as <- <-). simpl in H1, H2.
  destruct (holder_of (Path l) k) as [d'|] eqn:Eh.
  - assert (d' < next_fd k)%nat by (by apply (Hf (Path l))).
    rewrite (lock_busy (Path l) (next_fd k) d') by (first [by rewrite H1|lia]). simpl.
    split_ands; [done|lia|done|exact H1].
  - rewrite lock_free by (first [done|by rewrite H1]). simpl.
    assert (∀ p, holder_of p (set_holder (Path l) (Some (next_fd k)) k1) =
      if decide (p = Path l) then Some (next_fd k) else holder_of p k) as H3.
    { intros p. rewrite set_holder_of, H1. by repeat destruct (decide _); try naive_solver. }
    destruct (pythonHolderFresh _ _).
    + split_ands; [done|rewrite unlock_next, set_holder_next; lia|done|].
      intros p. rewrite unlock_holder, !H3. rewrite (decide_True (P := Path l = Path l)) by done.
      destruct (decide (p = Path l)) as [->|Hne]; [by rewrite decide_True|by rewrite decide_False by naive_solver].
    + split_ands; [done|simpl; rewrite set_holder_next; lia|done|done|simpl; by rewrite set_holder_next|].
      intros p. specialize (H3 p). unfold holder_of at 1. simpl. destruct (decide (p = Path l)) as [->|Hne].
      * by rewrite lookup_insert_eq.
      * by rewrite lookup_insert_ne.
Qed.

Lemma drop_ok s i l l' d :
  lock_ok s → insts s !! i = Some l → fd l = Some d → fd l' = None → Path l' = Path l →
  lock_ok {| insts := <[i := l']> (insts s); kern := unlock (Path l) d (kern s) |}.
Proof.
  intros [H1 H2 H3] Hi Hd Hd' Hp. constructor; simpl.
  - intros j m e Hj He. destruct (decide (i = j)) as [<-|Hne].
    { rewrite lookup_insert_eq in Hj. simplify_eq. }
    rewrite lookup_insert_ne in Hj by done. rewrite unlock_holder, decide_False; [by eapply H1|].
    intros [E Hh]. pose proof (H1 j m e Hj He) as Hm.
    rewrite E in Hm. assert (e = d) as -> by congruence. apply Hne. by eapply H3.
  - intros p e. rewrite unlock_holder, unlock_next. destruct (decide _); [done|]. apply H2.
  - intros j j' m m' e. rewrite !lookup_insert_Some. naive_solver.
Qed.

Lemma lstep_ok s s' : lstep s s' → lock_ok s → lock_ok s'.
Proof.
  intros Hstep Hok. pose proof Hok as [H1 H2 H3]. destruct Hstep as [i l h e b l' k' s Hi Hl E|i l l' k' s Hi E|i l l' k' s Hi E].
  - pose proof (Acquire_spec h e l (kern s) Hl H2) as H. rewrite E in H. destruct H as (Hp & Hn & H).
    destruct b; destruct H as (Hf & H).
    + destruct H as (Hfree & Hnext & Hh). constructor; simpl.
      * intros j m d Hj Hd. rewrite Hh. destruct (decide (i = j)) as [<-|Hne].
        { rewrite lookup_insert_eq in Hj. simplify_eq. rewrite decide_True by done. congruence. }
        rewrite lookup_insert_ne in Hj by done. pose proof (H1 j m d Hj Hd).
        rewrite decide_False; [done|]. intros Ep. rewrite Ep in *. congruence.
      * intros p d. rewrite Hh, Hnext. destruct (decide _); [intros [= <-]; lia|]. intros Hd. apply H2 in Hd. lia.
      * intros j j' m m' d. rewrite !lookup_insert_Some.
        assert (∀ j m, insts s !! j = Some m → fd m ≠ Some (next_fd (kern s))) as Hnew.
        { intros j0 m0 Hj0 Hd0. pose proof (H2 _ _ (H1 j0 m0 _ Hj0 Hd0)). lia. }
        intros [[<- <-]|[Hne Hj]] [[<- <-]|[Hne' Hj']] Hd Hd'; [done| | |by eapply H3].
        -- destruct (Hnew j' m' Hj'). congruence.
        -- destruct (Hnew j m Hj). congruence.
    + constructor; simpl.
      * intros j m d Hj Hd. rewrite H. destruct (decide (i = j)) as [<-|Hne].
        { rewrite lookup_insert_eq in Hj. simplify_eq. }
        rewrite lookup_insert_ne in Hj by done. by eapply H1.
      * intros p d. rewrite H. intros Hd. apply H2 in Hd. lia.
      * intros j j' m m' d. rewrite !lookup_insert_Some. naive_solver.
  - unfold Release in E. destruct (fd l) as [d|] eqn:Ed; injection E as <- <-; [by eapply drop_ok|].
    rewrite insert_id by done. by destruct s.
  - unfold Crash in E. destruct (fd l) as [d|] eqn:Ed; injection E as <- <-; [by eapply drop_ok|].
    rewrite insert_id by done. by destruct s.
Qed.

(** ** Properties *)

(** C32. At most one owner per session: in every interleaving of acquire
    attempts, releases and process deaths, from a start where nobody holds
    anything, no two instances for the same lock file hold it at once; so no
    two processes ever connect the same auth_key.  Proved from the backend's
    laws alone, so it holds for the flock and the LockFileEx build. *)
Theorem lock_mutual_exclusion s0 s i j l l' :
  (∀ i l, insts s0 !! i = Some l → fd l = None) → files (kern s0) = ∅ →
  rtc lstep s0 s →
  insts s !! i = Some l → insts s !! j = Some l' → Path l = Path l' →
  Held l = true → Held l' = true → i = j.
Proof.
  intros Hno Hfs Hrun Hi Hj Hp Hh Hh'.
  assert (lock_ok s0) as Hok.
  { constructor.
    - intros i0 l0 d Hl Hd. rewrite (Hno i0 l0 Hl) in Hd. done.
    - intros p d. unfold holder_of. rewrite Hfs, lookup_empty. done.
    - intros i0 j0 l0 l0' d Hl _ Hd. rewrite (Hno i0 l0 Hl) in Hd. done. }
  assert (lock_ok s) as [H1 _ H3].
  { clear -LB Hok Hrun. induction Hrun; eauto using lstep_ok. }
  unfold Held in *. apply bool_decide_eq_true in Hh as [d Hd], Hh' as [d' Hd'].
  pose proof (H1 i l d Hi Hd) as E1. pose proof (H1 j l' d' Hj Hd') as E2. rewrite Hp in E1.
  assert (d = d') as <- by congruence. by eapply H3.
Qed.

End WithBackend.

Definition inst0 : Lock := {| Alias := "s1"; LockDir := "/l"; fd := None; Token := 0 |}.

Definition host0 : host := {| pid := 1; hostname := "h"; bootID := "b"; now := 5000000000 |}.

Definition sys0 : system :=
  {| insts := {[0%nat := inst0; 1%nat := inst0]}; kern := {| files := ∅; next_fd := 3; tokenCounter := 0 |} |}.

Lemma lock_mutual_exclusion_witness :
  let '(b, l, k) := Acquire host0 false inst0 (kern sys0) in
  let s := {| insts := <[0%nat := l]> (insts sys0); kern := k |} in
  b = true ∧ ∀ j l', insts s !! j = Some l' → Path l' = Path inst0 → Held l' = true → 0%nat = j.
Proof.
  destruct (Acquire host0 false inst0 (kern sys0)) as [[b l] k] eqn:E. cbn zeta.
  pose proof E as E'. vm_compute in E'. injection E' as Eb El Ek. split; [by subst|]. intros j l' Hj Hp Hh.
  refine (lock_mutual_exclusion sys0 _ 0 j l l' _ eq_refl _ _ Hj _ _ Hh).
  - intros i l0 Hl0. unfold sys0 in Hl0. simpl in Hl0.
    rewrite lookup_insert_Some, lookup_singleton_Some in Hl0. naive_solver.
  - apply rtc_once. apply (lstep_acquire 0 inst0 host0 false b); [reflexivity|reflexivity|exact E].
  - apply lookup_insert_eq.
  - rewrite Hp. subst l. reflexivity.
  - subst l. reflexivity.
Defined.

Lemma own_format_not_python h raw :
  (5 <= length (splitLines raw))%nat → line 4 (splitLines raw) = "tggw" → pythonHolderFresh h raw = false.
Proof.
  intros H1 H2. unfold pythonHolderFresh. destruct (raw =? "")%string; [done|].
  rewrite H2. assert ((5 <=? length (splitLines raw))%nat = true) as -> by (by apply Nat.leb_le). done.
Qed.

(** ** The file the code writes is in its own format *)

Fixpoint no_nl (s : string) : bool :=
  match s with
  | EmptyString => true
  | String c s' => negb (c =? "010")%char && no_nl s'
  end.


Lemma split_line a rest cur :
  no_nl a = true → split_from (a +:+ nl +:+ rest) cur = (cur +:+ a) :: split_from rest "".
Proof.
  revert cur. induction a as [|c a IH]; intros cur Ha.
  - change ("" +:+ nl +:+ rest) with (String "010" rest). simpl. by rewrite append_nil_r.
  - change (String c a +:+ nl +:+ rest) with (String c (a +:+ nl +:+ rest)). simpl in Ha |- *.
    apply andb_true_iff in Ha as [Hc%negb_true_iff Ha]. rewrite Hc, IH by done. by rewrite append_assoc.
Qed.

Lemma no_nl_app a b : no_nl (a +:+ b) = no_nl a && no_nl b.
Proof.
  induction a as [|c a IH]; [done|]. change (String c a +:+ b) with (String c (a +:+ b)).
  simpl. by rewrite IH, andb_assoc.
Qed.

Lemma digits_no_nl s : all_digits s = true → no_nl s = true.
Proof.
  induction s as [|c s IH]; simpl; [done|]. intros [Hc Hs]%andb_true_iff. rewrite IH by done.
  rewrite andb_true_r, negb_true_iff. apply Ascii.eqb_neq. by intros ->.
Qed.

Lemma itoa_no_nl n : 0 <= n <= int64_max → no_nl (itoa n) = true.
Proof. intros H. by apply digits_no_nl, itoa_nat. Qed.

Lemma pad6_no_nl n : 0 <= n <= int64_max → no_nl (pad6 n) = true.
Proof.
  intros Hn. unfold pad6. rewrite no_nl_app, itoa_no_nl, andb_true_r by done.
  generalize (6 - String.length (itoa n))%nat. intros m.
  induction m as [|m IH]; [done|]. destruct m; [done|]. exact IH.
Qed.

Lemma fmt_f_no_nl q : (0 <= q)%Q → (q < inject_Z 1000000000000)%Q → no_nl (fmt_f q) = true.
Proof.
  intros Hq Hb. unfold fmt_f. set (m := (q * inject_Z 1000000)%Q). set (fl := Qnum m / Z.pos (Qden m)).
  set (n := if qlt (1 # 2) _ then _ else _).
  assert (0 <= fl < 1000000000000000000) as Hfl.
  { assert (0 <= m)%Q as H1 by (unfold m; apply Qmult_le_0_compat; [done|discriminate]).
    assert (m < inject_Z 1000000000000000000)%Q as H2.
    { unfold m. change (inject_Z 1000000000000000000) with (inject_Z 1000000000000 * inject_Z 1000000)%Q.
      apply Qmult_lt_compat_r; [reflexivity|done]. }
    unfold fl. unfold Qle, Qlt in *. simpl in *. split; [apply Z.div_pos; lia|apply Z.div_lt_upper_bound; lia]. }
  assert (0 <= n <= 1000000000000000000) as Hn by (unfold n; repeat case_match; lia).
  assert (0 <= n / 1000000 <= int64_max) by (split; [apply Z.div_pos; lia|]; pose proof (Z.div_le_upper_bound n 1000000 int64_max); unfold int64_max in *; lia).
  pose proof (Z.mod_pos_bound n 1000000).
  rewrite !no_nl_app, itoa_no_nl, pad6_no_nl; [done|unfold int64_max; lia|done].
Qed.

Lemma holder_text_own h :
  0 <= pid h <= int64_max → 0 <= now h < 1000000000000000000000 →
  no_nl (hostname h) = true → no_nl (bootID h) = true →
  (5 <= length (splitLines (holder_text h)))%nat ∧ line 4 (splitLines (holder_text h)) = "tggw".
Proof.
  intros Hp Hn Hh Hb. unfold splitLines, holder_text. rewrite !split_line; try done.
  - by apply fmt_f_no_nl; [unfold Qle, secs; simpl; lia|unfold Qlt, secs; simpl; lia].
  - by apply itoa_no_nl.
Qed.

(** A free file is acquired unless the check sees a fresh Python holder. *)
Lemma Acquire_free {B : Backend} {LB : Lawful B} h l k :
  holder_of (Path l) k = None →
  (Acquire h false l k).1.1 =
  negb (pythonHolderFresh h (default "" (ReadFile (Path l) (set_holder (Path l) (Some (next_fd k)) (open_file (Path l) k).2)))).
Proof.
  intros Hh. unfold Acquire. destruct (open_file (Path l) k) as [d k1] eqn:Eo.
  pose proof (open_holder (Path l) k (Path l)) as H1. pose proof (open_present (Path l) k) as H2. rewrite Eo in H1, H2.
  assert (d = next_fd k) as -> by (by injection Eo as <- <-). simpl in *.
  rewrite lock_free by (first [done|by rewrite H1]). simpl. by destruct (pythonHolderFresh _ _).
Qed.

(** There is no stale window: the moment the holder releases or dies, the
    next [Acquire] of that file by anyone succeeds, whatever the age of what
    the holder wrote, because the holder identity [Acquire] writes is in the
    gateway's own format. *)
Theorem acquire_after_crash {B : Backend} {LB : Lawful B} h l k h' l' h0 d :
  holder_of (Path l) k = Some d → fd l = Some d → Path l' = Path l →
  content <$> files k !! Path l = Some (holder_text h0) →
  0 <= pid h0 <= int64_max → 0 <= now h0 < 1000000000000000000000 →
  no_nl (hostname h0) = true → no_nl (bootID h0) = true →
  (Acquire h' false l' (Crash l k).2).1.1 = true ∧
  (Acquire h false l' (Release l k).2).1.1 = true.
Proof.
  intros Hh Hf Hp Hc Hpid Hnow Hho Hbo.
  destruct (holder_text_own h0 Hpid Hnow Hho Hbo) as [Hl Ht].
  assert (∀ h1, (Acquire h1 false l' (unlock (Path l) d k)).1.1 = true) as Hacq.
  { intros h1. rewrite Acquire_free by (rewrite unlock_holder, Hp; by rewrite decide_True).
    apply negb_true_iff. unfold ReadFile. destruct (readable _ _); [|done].
    rewrite set_holder_content, open_content, unlock_content, Hp, Hc. simpl. by apply own_format_not_python. }
  unfold Crash, Release. rewrite Hf. auto.
Qed.

(** On the flock build a lock file the Python sidecar refreshed within the
    last minute keeps the gateway out: [Acquire] refuses, the instance stays
    unlocked and no file changes hands. *)
Lemma python_holder_refused h e l k raw :
  fd l = None → (∀ p d, holder_of p k = Some d → (d < next_fd k)%nat) →
  content <$> files k !! Path l = Some raw → pythonHolderFresh h raw = true →
  let '(b, l', k') := Acquire h e l k in b = false ∧ fd l' = None ∧ ∀ p, holder_of p k' = holder_of p k.
Proof.
  intros Hl Hf Hc Hp. pose proof (Acquire_spec h e l k Hl Hf) as H.
  destruct (Acquire h e l k) as [[b l'] k'] eqn:E. destruct H as (_ & _ & H). destruct b; [|tauto].
  exfalso. destruct H as (_ & Hfree & _ & _). destruct e; [by unfold Acquire in E|].
  pose proof (Acquire_free h l k Hfree) as Ha. rewrite E in Ha. unfold ReadFile in Ha. simpl readable in Ha. cbv iota in Ha.
  rewrite set_holder_content, open_content, Hc in Ha. simpl in Ha. by rewrite Hp in Ha.
Qed.

(** On the LockFileEx build the check reads through a second handle while the
    first holds the whole range, so the read fails and the check passes
    whatever the file says: a free lock file of a live Python sidecar is
    taken over. *)
Lemma windows_python_guard_blind h l k :
  holder_of (Path l) k = None → (Acquire (B := lockfileex) h false l k).1.1 = true.
Proof.
  intros Hh. rewrite Acquire_free by done. apply negb_true_iff. unfold ReadFile. simpl readable.
  rewrite set_holder_of, decide_True by (split; [done|apply open_present]). done.
Qed.

(** The two builds disagree on one and the same file. *)
Lemma builds_disagree :
  let k := {| files := {["/l/s1.lock" := {| holder := None; content := "7" +:+ nl +:+ "h" +:+ nl +:+ "b" +:+ nl +:+ "4.5" +:+ nl |}]};
              next_fd := 3; tokenCounter := 0 |} in
  (Acquire (B := flock) host0 false inst0 k).1.1 = false ∧ (Acquire (B := lockfileex) host0 false inst0 k).1.1 = true.
Proof. split; vm_compute; reflexivity. Qed.

Lemma acquire_after_crash_witness :
  let '(_, l, k) := Acquire host0 false inst0 (kern sys0) in
  (Acquire host0 false inst0 (Crash l k).2).1.1 = true.
Proof.
  destruct (Acquire host0 false inst0 (kern sys0)) as [[b l] k] eqn:E.
  vm_compute in E. injection E as Eb El Ek.
  refine (proj1 (acquire_after_crash host0 l k host0 inst0 host0 3 _ _ _ _ _ _ _ _)).
  - subst. vm_compute. reflexivity.
  - subst. reflexivity.
  - subst. reflexivity.
  - subst. vm_compute. reflexivity.
  - vm_compute. split; discriminate.
  - vm_compute. split; [discriminate|reflexivity].
  - reflexivity.
  - reflexivity.
Defined.
