(* ===== verification/Http.v ===== *)
(** * The upstream HTTP surface (internal/botapi/client.go)

    Requests as the gateway builds them and how the client puts them on the
    wire.  The network itself is the function [transport]; a body is either a
    JSON document (as text up to parsing) or opaque bytes. *)
From Stdlib Require Import QArith Lqa Ascii String.
From stdpp Require Import base list strings gmap.
From S2P Require Import Prelude GoValue.
Open Scope Z_scope.

Inductive payload :=
| PNone
| PJson (t : json_text)
| PBytes (b : string).

Record httpRequest := {
  Method : string;
  URL : string;
  Body : option obj;
  RawBody : option payload;
  Reader : option (string * Z);
  ContentType : string
}.

(** [RType] is the Content-Type header, the only one that is read. *)
Record httpResponse := { StatusCode : Z; RBody : json_text; RType : string }.

Definition json_post (url : string) (body : obj) : httpRequest :=
  {| Method := "POST"; URL := url; Body := Some body; RawBody := None; Reader := None; ContentType := "" |}.

Definition raw_post (url : string) (raw : payload) (ct : string) : httpRequest :=
  {| Method := "POST"; URL := url; Body := None; RawBody := Some raw; Reader := None; ContentType := ct |}.

(** What reaches the wire: [w_length] is [None] for a chunked request. *)
Record wire := { w_method : string; w_url : string; w_body : payload; w_length : option Z; w_ctype : string }.

Definition wire_of (base : string) (r : httpRequest) : option wire :=
  let url := if has_prefix "http" (URL r) then URL r else base +:+ URL r in
  let body :=
    match Reader r with
    | Some (b, n) => Some (PBytes b)
    | None =>
        match RawBody r with
        | Some p => Some p
        | None =>
            match Body r with
            | Some o => PJson <$> json_marshal o
            | None => Some (if (Method r =? "POST")%string then PJson (JText (AMap [])) else PNone)
            end
        end
    end in
  match body with
  | None => None
  | Some p =>
      Some {| w_method := Method r; w_url := url; w_body := p;
              w_length := match Reader r with Some (_, n) => Some n | None => None end;
              w_ctype := if negb (ContentType r =? "")%string then ContentType r
                         else if bool_decide (is_Some (Body r)) || bool_decide (is_Some (RawBody r))
                              || bool_decide (is_Some (Reader r)) then "application/json" else "" |}
  end.

(** [UpstreamClient.Do]; [None] is the error return. *)
Definition Do (transport : wire → option httpResponse) (base : string) (r : httpRequest) : option httpResponse :=
  match wire_of base r with
  | None => None
  | Some w => transport w
  end.
