(* ===== verification/Mux.v ===== *)
(** * The request router (net/http's ServeMux) and URL queries

    Both planes register "METHOD /pattern" handlers on a [ServeMux].  A request
    path is the list of its segments (no percent-escapes), so that "/a/b" is
    [["a"; "b"]] and "/a/" is [["a"; ""]].  A pattern is matched the way the
    mux does it: among the patterns of the request's method the one that has a
    literal where another has a wildcard wins; a path that is not its own
    cleaned form, or that only lacks the trailing slash of a subtree, is
    redirected. *)
From Stdlib Require Import Ascii String.
From stdpp Require Import base list strings gmap.
From S2P Require Import Prelude GoValue.
Open Scope Z_scope.

(** A segment of a pattern: a literal, a wildcard, or the rest of the path. *)
Inductive seg := Lit (s : string) | Wild | Rest.

#[export] Instance seg_eq_dec : EqDecision seg.
Proof. solve_decision. Defined.

(** The values of the wildcards. *)
Fixpoint match_path (ps : list seg) (path : list string) : option (list string) :=
  match ps, path with
  | [], [] => Some []
  | [Rest], _ :: _ => Some []
  | Lit a :: ps', b :: path' => if (a =? b)%string then match_path ps' path' else None
  | Wild :: ps', b :: path' => if (b =? "")%string then None else cons b <$> match_path ps' path'
  | _, _ => None
  end.

(** [beats p q]: at the first segment that differs, [p] is the more specific. *)
Fixpoint beats (p q : list seg) : bool :=
  match p, q with
  | Lit a :: p', Lit b :: q' => (a =? b)%string && beats p' q'
  | Lit _ :: _, _ => true
  | Wild :: p', Wild :: q' => beats p' q'
  | Wild :: _, Rest :: _ => true
  | _, _ => false
  end.

(** A GET pattern serves HEAD too. *)
Definition verb_ok (pattern verb : string) : bool :=
  (pattern =? verb)%string || ((pattern =? "GET")%string && (verb =? "HEAD")%string).

(** A subtree pattern matched at its own root, "/a/" by "/a/". *)
Definition at_root (ps : list seg) (path : list string) : bool :=
  bool_decide (List.last ps Wild = Rest) && (List.last path "x" =? "")%string && (length ps =? length path)%nat.

(** Not a subtree pattern, or matched at its root. *)
Definition exact (ps : list seg) (path : list string) : bool :=
  negb (bool_decide (List.last ps Wild = Rest)) || at_root ps path.

(** Whether cleaning leaves the path alone. *)
Fixpoint is_clean (path : list string) : bool :=
  match path with
  | [] => true
  | [s] => negb (smem s ["."; ".."])
  | s :: path' => negb (smem s [""; "."; ".."]) && is_clean path'
  end.

Section mux.
Context {H : Type}.

(** Method, pattern and handler. *)
Definition route : Type := string * list seg * H.

(** The most specific match so far, and the next route. *)
Definition better (verb : string) (path : list string) (best : option (list seg * H * list string)) (r : route)
    : option (list seg * H * list string) :=
  let '(v, ps, hd) := r in
  if verb_ok v verb then
    match match_path ps path with
    | None => best
    | Some vals =>
        match best with
        | Some (ps', _, _) => if beats ps ps' then Some (ps, hd, vals) else best
        | None => Some (ps, hd, vals)
        end
    end
  else best.

Definition find_route (verb : string) (path : list string) (rs : list route) : option (list seg * H * list string) :=
  fold_left (better verb path) rs None.

Inductive routed := Found (hd : H) (vals : list string) | Redirect | NoMethod | NoPath.

Definition matches (path : list string) (r : route) : bool := bool_decide (is_Some (match_path r.1.2 path)).

Definition lookup_route (verb : string) (path : list string) (rs : list route) : routed :=
  if negb (is_clean path) then Redirect else
  let found := find_route verb path rs in
  let here := match found with Some (ps, _, _) => exact ps path | None => false end in
  let slash := path ++ [""] in
  let there := match find_route verb slash rs with Some (ps, _, _) => exact ps slash | None => false end in
  if negb here && negb (List.last path "" =? "")%string && there then Redirect else
  match found with
  | Some (_, hd, vals) => Found hd vals
  | None => if existsb (matches path) rs then NoMethod else NoPath
  end.

(** ** Lemmas *)

Lemma find_from verb path rs best ps hd vals :
  fold_left (better verb path) rs best = Some (ps, hd, vals) →
  best = Some (ps, hd, vals) ∨
  ∃ v, (v, ps, hd) ∈ rs ∧ verb_ok v verb = true ∧ match_path ps path = Some vals.
Proof.
  revert best. induction rs as [|[[v ps'] hd'] rs IH]; intros best E; simpl in E; [by left|].
  destruct (IH _ E) as [Hb|(w & Hin & Hv & Hm)]; [|right; exists w; split; [by right|done]].
  unfold better in Hb. destruct (verb_ok v verb) eqn:Ev; [|by left].
  destruct (match_path ps' path) as [vals'|] eqn:Em; [|by left].
  assert (Some (ps', hd', vals') = Some (ps, hd, vals) → ∃ w, (w, ps, hd) ∈ (v, ps', hd') :: rs ∧
    verb_ok w verb = true ∧ match_path ps path = Some vals) as Hnew.
  { intros [= -> -> ->]. exists v. split; [by left|done]. }
  destruct best as [[[ps0 hd0] vals0]|]; [destruct (beats ps' ps0)|]; auto.
Qed.

(** What is found was registered, for this method and path. *)
Lemma lookup_route_found verb path rs hd vals :
  lookup_route verb path rs = Found hd vals →
  ∃ v ps, (v, ps, hd) ∈ rs ∧ verb_ok v verb = true ∧ match_path ps path = Some vals.
Proof.
  unfold lookup_route. destruct (negb (is_clean path)); [done|]. cbv zeta.
  destruct (_ && _); [done|]. destruct (find_route verb path rs) as [[[ps hd'] vals']|] eqn:E; [|by destruct (existsb _ _)].
  intros [= -> ->]. apply find_from in E as [E|(v & E1 & E2 & E3)]; [done|]. by exists v, ps.
Qed.
End mux.
Arguments route : clear implicits.
Arguments routed : clear implicits.

(** ** URL-encoded queries *)

Definition hex_digit (c : ascii) : option Z :=
  let n := code c in
  if is_digit c then Some (n - 48)
  else if (97 <=? n) && (n <=? 102) then Some (n - 87)
  else if (65 <=? n) && (n <=? 70) then Some (n - 55)
  else None.

(** [url.QueryUnescape]; [None] is its error. *)
Fixpoint QueryUnescape (s : string) : option string :=
  match s with
  | EmptyString => Some ""
  | String c s' =>
      if (c =? "%")%char then
        match s' with
        | String a (String b s'') =>
            match hex_digit a, hex_digit b with
            | Some x, Some y => String (chr (16 * x + y)) <$> QueryUnescape s''
            | _, _ => None
            end
        | _ => None
        end
      else String (if (c =? "+")%char then " "%char else c) <$> QueryUnescape s'
  end.

(** [strings.Split] on one character. *)
Fixpoint split_on (c : ascii) (s : string) : list string :=
  match s with
  | EmptyString => [""]
  | String a s' =>
      if (a =? c)%char then "" :: split_on c s'
      else match split_on c s' with
           | [] => [String a ""]
           | w :: ws => String a w :: ws
           end
  end.

(** One "key=value"; [None] is an error, [Some None] nothing. *)
Definition query_pair (s : string) : option (option (string * string)) :=
  if has_char ";" s then None
  else if (s =? "")%string then Some None
  else
    let '(k, v) := default (s, "") (cut_at "=" s) in
    match QueryUnescape k, QueryUnescape v with
    | Some k, Some v => Some (Some (k, v))
    | _, _ => None
    end.

(** [url.ParseQuery]: the well-formed pairs in order, and whether all were. *)
Definition ParseQuery (s : string) : list (string * string) * bool :=
  let ps := map query_pair (split_on "&" s) in
  (omap (λ p, default None p) ps, forallb (λ p, bool_decide (is_Some p)) ps).

(** The map of first values of each key. *)
Fixpoint first_values (l : list (string * string)) (acc : obj) : obj :=
  match l with
  | [] => acc
  | (k, v) :: l' => first_values l' (match mget acc k with None => acc ++ [(k, AStr v)] | Some _ => acc end)
  end.

Lemma mget_app {V} (m : list (string * V)) k v k' :
  mget m k = None → mget (m ++ [(k, v)]) k' = if (k =? k')%string then Some v else mget m k'.
Proof.
  induction m as [|[k0 v0] m IH]; simpl; [done|]. destruct (String.eqb_spec k0 k) as [->|Hne]; [done|].
  intros Hm. rewrite IH by done. destruct (String.eqb_spec k0 k') as [->|]; [|done].
  by rewrite (proj2 (String.eqb_neq k k')).
Qed.

(** [Values.Get] through the map is [Values.Get] on the pairs. *)
Lemma first_values_get l acc k :
  mget (first_values l acc) k =
  match mget acc k with Some v => Some v | None => AStr <$> mget l k end.
Proof.
  revert acc. induction l as [|[k0 v0] l IH]; intros acc; simpl; [by destruct (mget acc k)|].
  rewrite IH. destruct (mget acc k0) eqn:E0.
  - destruct (mget acc k) eqn:E; [done|]. destruct (String.eqb_spec k0 k) as [->|]; [congruence|done].
  - rewrite mget_app by done. destruct (String.eqb_spec k0 k) as [->|]; [by rewrite E0|]. by destruct (mget acc k).
Qed.
