(* ===== verification/Typing.v ===== *)
(** * The auto-typing indicator (internal/botapi/typing.go)

    Settings in three layers, the loops that re-send [sendChatAction], and the
    bookkeeping that stops them.  A loop record is shared by the [active]
    table and its goroutine, so records live in a heap ([recs]) and both refer
    to them by id; a goroutine ends by running [cleanup]. *)
From Stdlib Require Import QArith Lqa Ascii String.
From stdpp Require Import base list strings gmap.
From S2P Require Import Prelude GoValue Config RateGuard Http.
Open Scope Z_scope.

(** ** Settings *)

Record settings := { s_enabled : bool; s_private_only : bool; s_interval : Q; s_timeout : Q; s_text : string }.

Definition settingsFromConfig (c : TypingConfig) : settings :=
  {| s_enabled := Enabled c; s_private_only := PrivateOnly c; s_interval := IntervalS c;
     s_timeout := TimeoutS c; s_text := TimeoutText c |}.

(** A patch, and also a session's overrides: absent fields are unchanged. *)
Record TypingPatch := {
  p_enabled : option bool; p_private_only : option bool; p_interval : option Q;
  p_timeout : option Q; p_text : option string
}.

Definition no_patch : TypingPatch :=
  {| p_enabled := None; p_private_only := None; p_interval := None; p_timeout := None; p_text := None |}.

Definition overlay (p : TypingPatch) (s : settings) : settings :=
  {| s_enabled := default (s_enabled s) (p_enabled p);
     s_private_only := default (s_private_only s) (p_private_only p);
     s_interval := default (s_interval s) (p_interval p);
     s_timeout := default (s_timeout s) (p_timeout p);
     s_text := default (s_text s) (p_text p) |}.

Definition snapshotLocked (s : settings) : obj :=
  [("enabled", ABool (s_enabled s)); ("private_only", ABool (s_private_only s));
   ("interval_s", AFloat (s_interval s)); ("timeout_s", AFloat (s_timeout s));
   ("timeout_text", AStr (s_text s))].

(** [RuntimeTypingSettings.Apply]: the new layer and the view it answers. *)
Definition Apply (p : TypingPatch) (s : settings) : settings * obj :=
  let s' := overlay p s in (s', snapshotLocked s').

(** ** Loops *)

(** [l_deadline = None] is [+Inf]. *)
Record activeLoop := {
  l_alias : string; l_chat : Z; l_deadline : option Q; l_notify : bool; l_cancelled : bool
}.

Record TypingManager := {
  global : settings;
  recs : gmap nat activeLoop;
  next_rec : nat;
  active : gmap string (gmap Z nat);
  running : gset nat;
  cbToChat : gmap string (string * Z);
  closed : bool
}.

Definition NewTypingManager (c : TypingConfig) : TypingManager :=
  {| global := settingsFromConfig c; recs := ∅; next_rec := 0; active := ∅; running := ∅;
     cbToChat := ∅; closed := false |}.

(** The part of a session the typing plane reads. *)
Record tsession := { t_alias : string; t_token : string; t_over : TypingPatch }.

Definition effective (t : TypingManager) (s : tsession) : settings := overlay (t_over s) (global t).

Definition set_active (t : TypingManager) (a : gmap string (gmap Z nat)) : TypingManager :=
  {| global := global t; recs := recs t; next_rec := next_rec t; active := a; running := running t;
     cbToChat := cbToChat t; closed := closed t |}.

Definition set_recs (t : TypingManager) (r : gmap nat activeLoop) : TypingManager :=
  {| global := global t; recs := r; next_rec := next_rec t; active := active t; running := running t;
     cbToChat := cbToChat t; closed := closed t |}.

Definition set_cb (t : TypingManager) (c : gmap string (string * Z)) : TypingManager :=
  {| global := global t; recs := recs t; next_rec := next_rec t; active := active t; running := running t;
     cbToChat := c; closed := closed t |}.

Definition per_bot (alias : string) (t : TypingManager) : gmap Z nat := default ∅ (active t !! alias).

Definition ActiveCount (alias : string) (t : TypingManager) : Z := Z.of_nat (size (per_bot alias t)).

Definition overridden (p : TypingPatch) : list string :=
  (if bool_decide (is_Some (p_enabled p)) then ["enabled"] else []) ++
  (if bool_decide (is_Some (p_private_only p)) then ["private_only"] else []) ++
  (if bool_decide (is_Some (p_interval p)) then ["interval_s"] else []) ++
  (if bool_decide (is_Some (p_timeout p)) then ["timeout_s"] else []) ++
  (if bool_decide (is_Some (p_text p)) then ["timeout_text"] else []).

Definition StatusFor (t : TypingManager) (s : tsession) : obj :=
  snapshotLocked (effective t s) ++
  [("overridden", AList (AStr <$> overridden (t_over s)));
   ("active_chats", AInt (ActiveCount (t_alias s) t))].

(** ** Update shapes *)

Definition as_map (v : any) : option obj := match v with AMap m => Some m | _ => None end.

(** [x, _ := v.(map[string]any)] followed by a nil test. *)
Definition chatOfUpdate (u : obj) : option Z :=
  let msg := match as_map (mget1 u "message") with
             | Some m => Some m
             | None => match as_map (mget1 u "edited_message") with
                       | Some m => Some m
                       | None => match as_map (mget1 u "callback_query") with
                                 | Some cbq => as_map (mget1 cbq "message")
                                 | None => None
                                 end
                       end
             end in
  match msg with
  | None => None
  | Some m =>
      match as_map (mget1 m "chat") with
      | None => None
      | Some chat =>
          match mget1 chat "id" with
          | AFloat f => Some (f2i f)
          | AInt64 n => Some n
          | AInt n => Some n
          | _ => None
          end
      end
  end.

Definition toStr (v : any) : string :=
  match v with
  | AStr s => s
  | AFloat f => itoa (f2i f)
  | ANumber s => s
  | _ => ""
  end.

Definition is_nil (v : any) : bool := match v with ANil => true | _ => false end.

(** ** Starting and stopping *)

Definition upd_rec (i : nat) (f : activeLoop → activeLoop) (t : TypingManager) : TypingManager :=
  match recs t !! i with
  | Some r => set_recs t (<[i := f r]> (recs t))
  | None => t
  end.

Definition with_deadline (d : option Q) (r : activeLoop) : activeLoop :=
  {| l_alias := l_alias r; l_chat := l_chat r; l_deadline := d; l_notify := l_notify r;
     l_cancelled := l_cancelled r |}.

Definition cancel (r : activeLoop) : activeLoop :=
  {| l_alias := l_alias r; l_chat := l_chat r; l_deadline := l_deadline r; l_notify := l_notify r;
     l_cancelled := true |}.

Definition mute (r : activeLoop) : activeLoop :=
  {| l_alias := l_alias r; l_chat := l_chat r; l_deadline := None; l_notify := false;
     l_cancelled := l_cancelled r |}.

Definition start (now : Q) (s : tsession) (chatID : Z) (timeoutS : Q) (t : TypingManager) : TypingManager :=
  if closed t then t else
  let per := per_bot (t_alias s) t in
  let t := set_active t (<[t_alias s := per]> (active t)) in
  match per !! chatID with
  | Some i =>
      upd_rec i (λ r, if l_notify r then with_deadline (Some (now + timeoutS)%Q) r else r) t
  | None =>
      let i := next_rec t in
      {| global := global t;
         recs := <[i := {| l_alias := t_alias s; l_chat := chatID; l_deadline := Some (now + timeoutS)%Q;
                           l_notify := true; l_cancelled := false |}]> (recs t);
         next_rec := S i;
         active := <[t_alias s := <[chatID := i]> per]> (active t);
         running := {[i]} ∪ running t; cbToChat := cbToChat t; closed := closed t |}
  end.

Definition note_callback (s : tsession) (u : obj) (chatID : Z) (t : TypingManager) : TypingManager :=
  match as_map (mget1 u "callback_query") with
  | Some cbq => if is_nil (mget1 cbq "id") then t
                else set_cb t (<[toStr (mget1 cbq "id") := (t_alias s, chatID)]> (cbToChat t))
  | None => t
  end.

(** [clk i] are the clock readings of the i-th update. *)
Fixpoint on_updates (eff : settings) (clk : nat → Q) (i : nat) (s : tsession) (us : list obj) (g : Guard)
    (t : TypingManager) : Guard * TypingManager :=
  match us with
  | [] => (g, t)
  | u :: us' =>
      match chatOfUpdate u with
      | None => on_updates eff clk (S i) s us' g t
      | Some c =>
          if s_private_only eff && (c <=? 0) then on_updates eff clk (S i) s us' g t else
          let t := note_callback s u c t in
          let '(st, g) := ChatSendState (clk i) (clk i) (Some c) g in
          if (st =? "paused")%string then on_updates eff clk (S i) s us' g t
          else on_updates eff clk (S i) s us' g (start (clk i) s c (s_timeout eff) t)
      end
  end.

Definition OnUpdates (clk : nat → Q) (s : tsession) (us : list obj) (g : Guard) (t : TypingManager)
    : Guard * TypingManager :=
  let eff := effective t s in
  if s_enabled eff then on_updates eff clk 0 s us g t else (g, t).

Definition Stop (s : tsession) (chatID : option Z) (t : TypingManager) : TypingManager :=
  match chatID with
  | None => t
  | Some c =>
      match per_bot (t_alias s) t !! c with
      | Some i => upd_rec i cancel t
      | None => t
      end
  end.

Definition purgeCallbacksLocked (alias : string) (t : TypingManager) : TypingManager :=
  set_cb t (filter (λ kv, kv.2.1 ≠ alias) (cbToChat t)).

Definition cancel_ids (ids : list nat) (t : TypingManager) : TypingManager :=
  fold_left (λ t i, upd_rec i cancel t) ids t.

Definition StopAll (s : tsession) (t : TypingManager) : TypingManager :=
  let t := cancel_ids (map snd (map_to_list (per_bot (t_alias s) t))) t in
  let t := set_active t (delete (t_alias s) (active t)) in
  purgeCallbacksLocked (t_alias s) t.

Definition StopByCallbackID (s : tsession) (cbid : any) (t : TypingManager) : TypingManager :=
  if is_nil cbid then t else
  let k := toStr cbid in
  let target := cbToChat t !! k in
  let t := set_cb t (delete k (cbToChat t)) in
  match target with
  | None => t
  | Some (alias, c) => if (alias =? t_alias s)%string then Stop s (Some c) t else t
  end.

Definition CancelTimeout (s : tsession) (chatID : option Z) (t : TypingManager) : bool * TypingManager :=
  match chatID with
  | None => (false, t)
  | Some c =>
      match per_bot (t_alias s) t !! c with
      | None => (false, t)
      | Some i => (true, upd_rec i mute t)
      end
  end.

Definition cleanup (alias : string) (chatID : Z) (t : TypingManager) : TypingManager :=
  let t :=
    match active t !! alias with
    | None => t
    | Some per =>
        let per := delete chatID per in
        if decide (per = ∅) then set_active t (delete alias (active t))
        else set_active t (<[alias := per]> (active t))
    end in
  set_cb t (filter (λ kv, kv.2 ≠ (alias, chatID)) (cbToChat t)).

Definition Close (t : TypingManager) : TypingManager :=
  let ids := flat_map (λ kv, map snd (map_to_list kv.2)) (map_to_list (active t)) in
  let t := cancel_ids ids t in
  {| global := global t; recs := recs t; next_rec := next_rec t; active := active t; running := running t;
     cbToChat := cbToChat t; closed := true |}.

(** ** The loop body *)

Definition beat_request (s : tsession) (c : Z) : httpRequest :=
  json_post ("/bot" +:+ t_token s +:+ "/sendChatAction") [("chat_id", AInt64 c); ("action", AStr "typing")].

Definition onTimeout (s : tsession) (c : Z) (r : activeLoop) (eff : settings) : list httpRequest :=
  if (c <=? 0) || negb (l_notify r) then []
  else [json_post ("/bot" +:+ t_token s +:+ "/sendMessage") [("chat_id", AInt64 c); ("text", AStr (s_text eff))]].

Inductive verdict := Leave | Continue (sleep : Q).

(** One iteration: the requests it sends, the guard after its probe, and
    whether the loop goes on (after sleeping, unless cancelled meanwhile). *)
Definition loop_iter (now : Q) (s : tsession) (i : nat) (g : Guard) (t : TypingManager)
    : list httpRequest * verdict * Guard :=
  match recs t !! i with
  | None => ([], Leave, g)
  | Some r =>
      let c := l_chat r in
      let eff := effective t s in
      if negb (s_enabled eff) then ([], Leave, g)
      else if s_private_only eff && (c <=? 0) then ([], Leave, g)
      else
        let '(st, g) := ChatSendState now now (Some c) g in
        if (st =? "paused")%string then ([], Leave, g)
        else if match l_deadline r with Some d => qle d now | None => false end
        then (onTimeout s c r eff, Leave, g)
        else
          (if (st =? "ok")%string then [beat_request s c] else [],
           Continue (if qle (s_interval eff) 0 then 9 # 2 else s_interval eff)%Q, g)
  end.

(** The goroutine ends: its deferred cleanup, by alias and chat. *)
Definition leave (i : nat) (r : activeLoop) (t : TypingManager) : TypingManager :=
  let t := cleanup (l_alias r) (l_chat r) t in
  {| global := global t; recs := recs t; next_rec := next_rec t; active := active t;
     running := running t ∖ {[i]}; cbToChat := cbToChat t; closed := closed t |}.

(** One wake-up of goroutine [i]: by its timer (also the first iteration), or
    by its cancelled context, whichever the select takes. *)
Definition loop_step (now : Q) (timer : bool) (s : tsession) (i : nat) (g : Guard) (t : TypingManager)
    : list httpRequest * Guard * TypingManager :=
  match recs t !! i with
  | None => ([], g, t)
  | Some r =>
      if negb timer then (if l_cancelled r then ([], g, leave i r t) else ([], g, t)) else
      let '(reqs, v, g) := loop_iter now s i g t in
      match v with
      | Continue _ => (reqs, g, t)
      | Leave => (reqs, g, leave i r t)
      end
  end.

(** ** Properties *)

(** Only a refill may have happened to the guard's buckets. *)
Definition untaxed (now : Q) (g g' : Guard) : Prop :=
  (globalWrites g' = globalWrites g ∨ globalWrites g' = Refill now (globalWrites g)) ∧
  (∀ c, kept now now c g (chat_of c g')) ∧
  reads g' = reads g ∧ paid g' = paid g ∧ egressPausedUntil g' = egressPausedUntil g.

Lemma ChatSendState_untaxed now chat g : untaxed now g (ChatSendState now now chat g).2.
Proof.
  unfold untaxed. split_ands.
  - unfold ChatSendState. destruct (qlt now _); [by left|].
    pose proof (NextAvailable_snd now (globalWrites g)) as Hn.
    destruct (NextAvailable now (globalWrites g)) as [w gw]; simpl in *. subst gw.
    destruct chat as [c|]; [|by right]. right.
    destruct (opened_rest now c (set_global g (Refill now (globalWrites g)))) as (Ho & _).
    destruct (chatBucket now c _) as [b0 g0]; simpl in *. destruct (qlt now (PausedUntil b0)); simpl; [done|].
    destruct (NextAvailable now b0) as [w1 b1]. simpl.
    by rewrite (proj1 (proj2 (set_chat_rest c _ _))).
  - intros c. apply ChatSendState_chat.
  - unfold ChatSendState, chatBucket. repeat (case_match; simplify_eq; try done);
      unfold set_chat; repeat case_match; done.
  - unfold ChatSendState, chatBucket. repeat (case_match; simplify_eq; try done);
      unfold set_chat; repeat case_match; done.
  - unfold ChatSendState, chatBucket. repeat (case_match; simplify_eq; try done);
      unfold set_chat; repeat case_match; done.
Qed.

Lemma untaxed_refl now g : untaxed now g g.
Proof. unfold untaxed, kept. split_ands; auto. Qed.

(** The typing indicator never steals capacity: whatever a typing loop
    does when it wakes (beat, skip, time out, stop), no token is taken from
    any bucket, no pause is set, and the requests it sends are only the typing
    action, or one timeout notice, to a private chat past its deadline, after
    which the loop ends. *)
Theorem typing_is_free now timer s i g t r reqs g' t' :
  recs t !! i = Some r → loop_step now timer s i g t = (reqs, g', t') →
  untaxed now g g' ∧
  (reqs = [] ∨ reqs = [beat_request s (l_chat r)] ∨
   0 < l_chat r ∧ l_notify r = true ∧ i ∉ running t' ∧
   (∃ d, l_deadline r = Some d ∧ (d <= now)%Q) ∧
   reqs = [json_post ("/bot" +:+ t_token s +:+ "/sendMessage")
            [("chat_id", AInt64 (l_chat r)); ("text", AStr (s_text (effective t s)))]]).
Proof.
  intros Hr. unfold loop_step, loop_iter. rewrite Hr.
  destruct timer; cbn [negb]; [|destruct (l_cancelled r); intros [= <- <- <-]; split; auto using untaxed_refl].
  destruct (s_enabled (effective t s)); cbn [negb]; [|intros [= <- <- <-]; split; auto using untaxed_refl].
  destruct (s_private_only (effective t s) && (l_chat r <=? 0)); [intros [= <- <- <-]; split; auto using untaxed_refl|].
  pose proof (ChatSendState_untaxed now (Some (l_chat r)) g) as Hu.
  destruct (ChatSendState now now (Some (l_chat r)) g) as [st g1]; simpl in Hu.
  destruct (st =? "paused")%string; [intros [= <- <- <-]; split; auto|].
  destruct (l_deadline r) as [d|] eqn:Ed.
  - destruct (qleP d now) as [Hd|].
    + intros [= <- <- <-]. split; [done|]. unfold onTimeout.
      destruct (Z.leb_spec (l_chat r) 0); simpl; [by left|]. destruct (l_notify r) eqn:En; simpl; [|by left].
      right. right. split_ands; [lia|done| |eauto|done]. set_solver.
    + destruct (st =? "ok")%string; intros [= <- <- <-]; auto.
  - destruct (st =? "ok")%string; intros [= <- <- <-]; auto.
Qed.

Definition ts0 : tsession := {| t_alias := "b1"; t_token := "T"; t_over := no_patch |}.

Definition tm0 : TypingManager := NewTypingManager (DefaultTyping (λ _, None)).

Definition guard0 : Guard := NewGuard (DefaultRate (λ _, None)) 0.

Lemma typing_is_free_witness :
  untaxed 40 guard0 (loop_step 40 true ts0 0 guard0 (start 1 ts0 7 30 tm0)).1.2.
Proof.
  destruct (loop_step 40 true ts0 0 guard0 (start 1 ts0 7 30 tm0)) as [[reqs g'] t'] eqn:E.
  refine (proj1 (typing_is_free 40 true ts0 0 guard0 (start 1 ts0 7 30 tm0)
    {| l_alias := "b1"; l_chat := 7; l_deadline := Some (1 + 30)%Q; l_notify := true; l_cancelled := false |}
    reqs g' t' _ E)).
  vm_compute. reflexivity.
Defined.

(** A goroutine for the chat that no table entry refers to. *)
Definition orphan (t : TypingManager) (i : nat) : Prop :=
  i ∈ running t ∧ ∃ r, recs t !! i = Some r ∧ l_cancelled r = false ∧
  per_bot (l_alias r) t !! l_chat r = None.

(** A typing loop can escape its stop signal: when a chat's loop is stopped
    with its session (pause, drain) and a new one starts for the same chat
    before the old goroutine has run its deferred cleanup, that cleanup, keyed
    by chat only, removes the new loop's entry; from then on stopping the chat
    or the whole session does nothing to the running loop. *)
Theorem stale_cleanup_orphans_loop :
  let t1 := start 0 ts0 7 30 tm0 in
  let t2 := StopAll ts0 t1 in
  let t3 := start 1 ts0 7 30 t2 in
  let t4 := (loop_step 1 false ts0 0 guard0 t3).2 in
  orphan t4 1 ∧ Stop ts0 (Some 7) t4 = t4 ∧ recs (StopAll ts0 t4) !! 1%nat = recs t4 !! 1%nat.
Proof.
  cbn zeta. split; [|split; vm_compute; reflexivity].
  split; [vm_compute; reflexivity|]. eexists. vm_compute. done.
Qed.
