(* ===== verification/BotSession.v ===== *)
(** * Bot sessions and their pollers (internal/botapi/session.go)

    The manager owns one session object per alias and starts one poller
    goroutine per attached session.  Session objects are shared between the
    table, the pollers and the push loops, so they live in a heap; a
    [context.CancelFunc] is the id of a context, and cancelling marks it.
    Each manager call is a function on the whole manager state, and so is each
    stretch of a poller goroutine between two points where it waits; [fs i] are the statement faults of its i-th store call. *)
From Stdlib Require Import QArith Lqa Ascii String.
From stdpp Require Import base list strings gmap.
From S2P Require Import Prelude GoValue Sql Health Crypto Config RateGuard Http Typing.
From S2P Require Queue GatewayStore.
Open Scope Z_scope.

Inductive State := StateConnecting | StateLive | StatePaused | StateDraining | StateError.

#[export] Instance State_eq_dec : EqDecision State.
Proof. solve_decision. Defined.

Definition state_text (s : State) : string :=
  match s with
  | StateConnecting => "connecting" | StateLive => "live" | StatePaused => "paused"
  | StateDraining => "draining" | StateError => "error"
  end.

Record BotSession := {
  Alias : string; Token : string; state : State; queue : Queue.Queue; guard : Guard;
  connectedSince : Q; lastError : string; real429 : Z; synth429 : Z; last429 : option obj;
  pushURL : string; pushHealthy : option bool;
  pollCancel : option nat; pushCancel : option nat;
  chatNameCache : gmap string Z;
  OnLimit : option string; PaidBroadcasts : bool;
  typing_over : TypingPatch; sendTimes : list Q
}.

(** Field updates. *)
Definition upd_state (st : State) (s : BotSession) : BotSession :=
  {| Alias := Alias s; Token := Token s; state := st; queue := queue s; guard := guard s;
     connectedSince := connectedSince s; lastError := lastError s; real429 := real429 s;
     synth429 := synth429 s; last429 := last429 s; pushURL := pushURL s; pushHealthy := pushHealthy s;
     pollCancel := pollCancel s; pushCancel := pushCancel s; chatNameCache := chatNameCache s;
     OnLimit := OnLimit s; PaidBroadcasts := PaidBroadcasts s; typing_over := typing_over s;
     sendTimes := sendTimes s |}.

Definition upd_queue (q : Queue.Queue) (s : BotSession) : BotSession :=
  {| Alias := Alias s; Token := Token s; state := state s; queue := q; guard := guard s;
     connectedSince := connectedSince s; lastError := lastError s; real429 := real429 s;
     synth429 := synth429 s; last429 := last429 s; pushURL := pushURL s; pushHealthy := pushHealthy s;
     pollCancel := pollCancel s; pushCancel := pushCancel s; chatNameCache := chatNameCache s;
     OnLimit := OnLimit s; PaidBroadcasts := PaidBroadcasts s; typing_over := typing_over s;
     sendTimes := sendTimes s |}.

Definition upd_guard (g : Guard) (s : BotSession) : BotSession :=
  {| Alias := Alias s; Token := Token s; state := state s; queue := queue s; guard := g;
     connectedSince := connectedSince s; lastError := lastError s; real429 := real429 s;
     synth429 := synth429 s; last429 := last429 s; pushURL := pushURL s; pushHealthy := pushHealthy s;
     pollCancel := pollCancel s; pushCancel := pushCancel s; chatNameCache := chatNameCache s;
     OnLimit := OnLimit s; PaidBroadcasts := PaidBroadcasts s; typing_over := typing_over s;
     sendTimes := sendTimes s |}.

(** Connection time, last error and the 429 counters. *)
Definition upd_diag (since : Q) (err : string) (real synth : Z) (l4 : option obj) (s : BotSession) : BotSession :=
  {| Alias := Alias s; Token := Token s; state := state s; queue := queue s; guard := guard s;
     connectedSince := since; lastError := err; real429 := real; synth429 := synth; last429 := l4;
     pushURL := pushURL s; pushHealthy := pushHealthy s;
     pollCancel := pollCancel s; pushCancel := pushCancel s; chatNameCache := chatNameCache s;
     OnLimit := OnLimit s; PaidBroadcasts := PaidBroadcasts s; typing_over := typing_over s;
     sendTimes := sendTimes s |}.

Definition upd_push (url : string) (healthy : option bool) (pc : option nat) (s : BotSession) : BotSession :=
  {| Alias := Alias s; Token := Token s; state := state s; queue := queue s; guard := guard s;
     connectedSince := connectedSince s; lastError := lastError s; real429 := real429 s;
     synth429 := synth429 s; last429 := last429 s; pushURL := url; pushHealthy := healthy;
     pollCancel := pollCancel s; pushCancel := pc; chatNameCache := chatNameCache s;
     OnLimit := OnLimit s; PaidBroadcasts := PaidBroadcasts s; typing_over := typing_over s;
     sendTimes := sendTimes s |}.

Definition upd_poll (pc : option nat) (s : BotSession) : BotSession :=
  {| Alias := Alias s; Token := Token s; state := state s; queue := queue s; guard := guard s;
     connectedSince := connectedSince s; lastError := lastError s; real429 := real429 s;
     synth429 := synth429 s; last429 := last429 s; pushURL := pushURL s; pushHealthy := pushHealthy s;
     pollCancel := pc; pushCancel := pushCancel s; chatNameCache := chatNameCache s;
     OnLimit := OnLimit s; PaidBroadcasts := PaidBroadcasts s; typing_over := typing_over s;
     sendTimes := sendTimes s |}.

Definition upd_cache (m : gmap string Z) (s : BotSession) : BotSession :=
  {| Alias := Alias s; Token := Token s; state := state s; queue := queue s; guard := guard s;
     connectedSince := connectedSince s; lastError := lastError s; real429 := real429 s;
     synth429 := synth429 s; last429 := last429 s; pushURL := pushURL s; pushHealthy := pushHealthy s;
     pollCancel := pollCancel s; pushCancel := pushCancel s; chatNameCache := m;
     OnLimit := OnLimit s; PaidBroadcasts := PaidBroadcasts s; typing_over := typing_over s;
     sendTimes := sendTimes s |}.

Definition upd_sends (l : list Q) (s : BotSession) : BotSession :=
  {| Alias := Alias s; Token := Token s; state := state s; queue := queue s; guard := guard s;
     connectedSince := connectedSince s; lastError := lastError s; real429 := real429 s;
     synth429 := synth429 s; last429 := last429 s; pushURL := pushURL s; pushHealthy := pushHealthy s;
     pollCancel := pollCancel s; pushCancel := pushCancel s; chatNameCache := chatNameCache s;
     OnLimit := OnLimit s; PaidBroadcasts := PaidBroadcasts s; typing_over := typing_over s;
     sendTimes := l |}.

Definition gatewayOwned (m : string) : bool :=
  smem m ["getupdates"; "setwebhook"; "deletewebhook"; "logout"; "close"].

Definition EffectiveOnLimit (s : BotSession) : string := default "queue" (OnLimit s).

Definition setState := upd_state.

Definition setError (msg : string) (s : BotSession) : BotSession :=
  upd_diag (connectedSince s) msg (real429 s) (synth429 s) (last429 s) s.

Definition noteSend (now : Q) (s : BotSession) : BotSession :=
  let l := sendTimes s ++ [now] in
  upd_sends (if (200 <? length l)%nat then drop (length l - 200) l else l) s.

Definition sendsPerSLocked (now : Q) (s : BotSession) : Q * BotSession :=
  let kept := bfilter (λ t, qle (now - t)%Q 1) (sendTimes s) in
  (inject_Z (Z.of_nat (length kept)), upd_sends kept s).

Definition noteReal429 (s : BotSession) : BotSession :=
  upd_diag (connectedSince s) (lastError s) (real429 s + 1) (synth429 s) (last429 s) s.

Definition noteSynthetic429 (s : BotSession) : BotSession :=
  upd_diag (connectedSince s) (lastError s) (real429 s) (synth429 s + 1) (last429 s) s.

Definition round1 (f : Q) : Q := Queue.round1 f.

Definition PublicStatus (now : Z) (s : BotSession) : obj * BotSession :=
  let t := secs now in
  let '(buckets, g) := Snapshot t (guard s) in
  let '(rate, s1) := sendsPerSLocked t (upd_guard g s) in
  ([("alias", AStr (Alias s)); ("state", AStr (state_text (state s)));
    ("connected_since", AFloat (connectedSince s));
    ("connection_age_s", if qlt 0 (connectedSince s) then AFloat (round1 (t - connectedSince s)) else ANil);
    ("queue", AMap (Queue.Stats now (queue s))); ("buckets", AMap buckets);
    ("sends_per_s", AFloat rate); ("real_429", AInt (real429 s)); ("synthetic_429", AInt (synth429 s));
    ("last_429", match last429 s with Some m => AMap m | None => ANil end);
    ("last_error", AStr (stake 200 (lastError s)));
    ("push_url", Storage.nilIfEmpty (pushURL s));
    ("push_healthy", match pushHealthy s with Some b => ABool b | None => ANil end);
    ("on_limit", AStr (EffectiveOnLimit s)); ("paid_broadcasts", ABool (PaidBroadcasts s))], s1).

(** ** The manager *)

(** Where a poller goroutine stands: before its preamble, at the top of its
    loop, in the long poll, or in [sleepJittered] (for [base] seconds before
    jitter; on waking it sets the state live and doubles the backoff if told). *)
Inductive phase := Starting | Looping | Polling | Sleeping (base : Q) (live double : bool).

(** A poller goroutine: its session object, loop variables and position. *)
Record poller := { p_sess : nat; p_offset : Z; p_backoff : Q; p_at : phase }.

Record Manager := {
  cfg : BotAPI;
  gstore : GatewayStore.gateway;
  qworld : Queue.world;
  typing : TypingManager;
  objs : gmap nat BotSession;
  sessions : gmap string nat;
  cancelled : gset nat;
  pollers : gmap nat poller;
  pushers : gmap nat nat;
  next : nat
}.

Definition NewManager (c : BotAPI) (g : GatewayStore.gateway) (w : Queue.world) : Manager :=
  {| cfg := c; gstore := g; qworld := w; typing := NewTypingManager (Config.Typing c); objs := ∅;
     sessions := ∅; cancelled := ∅; pollers := ∅; pushers := ∅; next := 0 |}.

Definition set_store (m : Manager) (g : GatewayStore.gateway) : Manager :=
  {| cfg := cfg m; gstore := g; qworld := qworld m; typing := typing m; objs := objs m;
     sessions := sessions m; cancelled := cancelled m; pollers := pollers m; pushers := pushers m; next := next m |}.

Definition set_world (m : Manager) (w : Queue.world) : Manager :=
  {| cfg := cfg m; gstore := gstore m; qworld := w; typing := typing m; objs := objs m;
     sessions := sessions m; cancelled := cancelled m; pollers := pollers m; pushers := pushers m; next := next m |}.

Definition set_typing (m : Manager) (t : TypingManager) : Manager :=
  {| cfg := cfg m; gstore := gstore m; qworld := qworld m; typing := t; objs := objs m;
     sessions := sessions m; cancelled := cancelled m; pollers := pollers m; pushers := pushers m; next := next m |}.

Definition set_obj (m : Manager) (i : nat) (s : BotSession) : Manager :=
  {| cfg := cfg m; gstore := gstore m; qworld := qworld m; typing := typing m; objs := <[i := s]> (objs m);
     sessions := sessions m; cancelled := cancelled m; pollers := pollers m; pushers := pushers m; next := next m |}.

Definition set_table (m : Manager) (t : gmap string nat) : Manager :=
  {| cfg := cfg m; gstore := gstore m; qworld := qworld m; typing := typing m; objs := objs m;
     sessions := t; cancelled := cancelled m; pollers := pollers m; pushers := pushers m; next := next m |}.

Definition set_pollers (m : Manager) (p : gmap nat poller) : Manager :=
  {| cfg := cfg m; gstore := gstore m; qworld := qworld m; typing := typing m; objs := objs m;
     sessions := sessions m; cancelled := cancelled m; pollers := p; pushers := pushers m; next := next m |}.

Definition do_cancel (c : option nat) (m : Manager) : Manager :=
  match c with
  | None => m
  | Some k => {| cfg := cfg m; gstore := gstore m; qworld := qworld m; typing := typing m; objs := objs m;
                 sessions := sessions m; cancelled := {[k]} ∪ cancelled m; pollers := pollers m;
                 pushers := pushers m; next := next m |}
  end.

Definition tsess (s : BotSession) : tsession :=
  {| t_alias := Alias s; t_token := Token s; t_over := typing_over s |}.

Definition Get (alias : string) (m : Manager) : option (nat * BotSession) :=
  match sessions m !! alias with
  | Some i => match objs m !! i with Some s => Some (i, s) | None => None end
  | None => None
  end.

Definition FindByToken (token : string) (m : Manager) : option nat :=
  snd <$> List.find (λ kv, match objs m !! kv.2 with Some s => (Token s =? token)%string | None => false end)
    (map_to_list (sessions m)).

(** A fresh context and [go m.poller] on it. *)
Definition spawn_poller (i : nat) (s : BotSession) (m : Manager) : Manager :=
  let c := next m in
  {| cfg := cfg m; gstore := gstore m; qworld := qworld m; typing := typing m;
     objs := <[i := upd_poll (Some c) s]> (objs m); sessions := sessions m; cancelled := cancelled m;
     pollers := <[c := {| p_sess := i; p_offset := 0; p_backoff := 1; p_at := Starting |}]> (pollers m);
     pushers := pushers m; next := S c |}.

Definition restoreBackoffs (t1 t2 t3 : Z) (f : faults) (s : BotSession) (g : GatewayStore.gateway)
    : BotSession * GatewayStore.gateway :=
  let '(rows, g) := GatewayStore.LoadBackoffs t1 f (Alias s) g in
  (upd_guard (fold_left (λ gd r,
     let chat := if GatewayStore.ChatID r =? 0 then None else Some (GatewayStore.ChatID r) in
     RestoreBackoff (secs t3) (secs t3) chat (GatewayStore.PausedUntil r - secs t2)%Q gd)
     rows (guard s)) s, g).

Definition RecordBackoff (now : Z) (f : faults) (s : BotSession) (chatID : option Z) (retryAfter : Q)
    (g : GatewayStore.gateway) : GatewayStore.gateway :=
  GatewayStore.SaveBackoff f (Alias s) chatID (secs now + retryAfter)%Q g.

Definition Pause (f : faults) (alias : string) (m : Manager) : bool * Manager :=
  match Get alias m with
  | None => (false, m)
  | Some (i, s) =>
      let m := set_obj m i (setState StatePaused s) in
      let m := set_typing m (StopAll (tsess s) (typing m)) in
      let m := do_cancel (pollCancel s) m in
      (true, set_store m (default (gstore m) (GatewayStore.SetPaused f alias true (gstore m))))
  end.

Definition Resume (f : faults) (alias : string) (m : Manager) : bool * Manager :=
  match Get alias m with
  | None => (false, m)
  | Some (i, s) =>
      let m := set_store m (default (gstore m) (GatewayStore.SetPaused f alias false (gstore m))) in
      let m := match pollCancel s with
               | None => spawn_poller i s m
               | Some _ => m
               end in
      (true, match objs m !! i with Some s => set_obj m i (setState StateLive s) | None => m end)
  end.

Definition Drain (alias : string) (m : Manager) : bool * Manager :=
  match Get alias m with
  | None => (false, m)
  | Some (i, s) =>
      let m := set_obj m i (setState StateDraining s) in
      (true, set_typing m (StopAll (tsess s) (typing m)))
  end.

(** The teardown shared by [Delete] and [Shutdown]. *)
Definition teardown (i : nat) (s : BotSession) (m : Manager) : Manager :=
  let m := set_obj m i (upd_queue (Queue.Close (queue s)) (setState StateDraining s)) in
  let m := set_typing m (StopAll (tsess s) (typing m)) in
  do_cancel (pushCancel s) (do_cancel (pollCancel s) m).

Definition Delete (f : faults) (alias : string) (m : Manager) : bool * Manager :=
  match Get alias m with
  | None => (false, set_table m (delete alias (sessions m)))
  | Some (i, s) =>
      let m := teardown i s (set_table m (delete alias (sessions m))) in
      (true, set_store m (match GatewayStore.DeleteBot f alias (gstore m) with
                          | Some (_, g) => g | None => gstore m end))
  end.

Section with_fernet.
Context `{Fernet}.

(** The second half of [Attach], after the table was consulted.  [None]: the
    queue could not be opened.  Store calls: 0 the queue, 1 the ledger, 2 the
    registration; [Attach] uses 4 for the deletion. *)
Definition attach_new (t1 t2 t3 : Z) (fs : nat → faults) (b : Box) (entropy : Z) (alias token : string)
    (onLimit : option string) (paidBroadcasts : bool) (m : Manager) : option (nat * Manager) :=
  match Queue.OpenQueue (UpdateQueueMax (Policy (cfg m))) "drop_oldest" (UpdateTTLS (Policy (cfg m)))
          true alias true t1 (fs 0%nat) (qworld m) with
  | None => None
  | Some (q, w) =>
      let i := next m in
      let g0 := NewGuard (Rate (cfg m)) (secs t1) in
      let g0 := {| RateGuard.cfg := RateGuard.cfg g0; Private := Private g0; Groups := Groups g0;
                   globalWrites := globalWrites g0; paid := paid g0; reads := reads g0;
                   PaidEnabled := paidBroadcasts; egressPausedUntil := egressPausedUntil g0;
                   paidLane := paidLane g0 |} in
      let s := {| Alias := alias; Token := token; state := StateConnecting; queue := q; guard := g0;
                  connectedSince := 0; lastError := ""; real429 := 0; synth429 := 0; last429 := None;
                  pushURL := ""; pushHealthy := None; pollCancel := None; pushCancel := None;
                  chatNameCache := ∅; OnLimit := onLimit; PaidBroadcasts := paidBroadcasts;
                  typing_over := no_patch; sendTimes := [] |} in
      let '(s, g) := restoreBackoffs t1 t2 t3 (fs 1%nat) s (gstore m) in
      let m := set_store (set_world m w) g in
      let m := {| cfg := cfg m; gstore := gstore m; qworld := qworld m; typing := typing m;
                  objs := <[i := s]> (objs m); sessions := <[alias := i]> (sessions m);
                  cancelled := cancelled m; pollers := pollers m; pushers := pushers m; next := S i |} in
      let m := set_store m (default (gstore m)
                 (GatewayStore.RegisterBot b entropy t3 (fs 2%nat) alias token (gstore m))) in
      Some (i, spawn_poller i s m)
  end.

(** The returned session, [None] on an error; a rotated token's old session
    is gone even when the new one cannot be opened. *)
Definition Attach (t1 t2 t3 : Z) (fs : nat → faults) (b : Box) (entropy : Z) (alias token : string)
    (onLimit : option string) (paidBroadcasts : bool) (m : Manager) : option nat * Manager :=
  let create m :=
    match attach_new t1 t2 t3 fs b entropy alias token onLimit paidBroadcasts m with
    | Some (i, m) => (Some i, m)
    | None => (None, m)
    end in
  match Get alias m with
  | Some (i, s) =>
      if (Token s =? token)%string then (Some i, m) else create (Delete (fs 4%nat) alias m).2
  | None => create m
  end.

(** [RestoreAll]: rows whose token does not decrypt, or whose attach fails,
    are skipped. *)
Fixpoint restore_rows (clk : nat → Z) (fs : nat → nat → faults) (k : nat) (b : Box)
    (rows : list GatewayStore.BotRow) (m : Manager) : Z * Manager :=
  match rows with
  | [] => (0, m)
  | r :: rest =>
      match GatewayStore.GetToken b (fs k 5%nat) (GatewayStore.Alias r) (gstore m) with
      | None => restore_rows clk fs (S k) b rest m
      | Some token =>
          match Attach (clk k) (clk k) (clk k) (fs k) b (Z.of_nat k) (GatewayStore.Alias r) token None false m with
          | (None, m) => restore_rows clk fs (S k) b rest m
          | (Some i, m) =>
              let m := if GatewayStore.Paused r
                       then match objs m !! i with Some s => set_obj m i (setState StatePaused s) | None => m end
                       else m in
              let '(n, m) := restore_rows clk fs (S k) b rest m in (n + 1, m)
          end
      end
  end.

Definition RestoreAll (clk : nat → Z) (f : faults) (fs : nat → nat → faults) (b : Box) (m : Manager) : Z * Manager :=
  match GatewayStore.ListBots f (gstore m) with
  | None => (0, m)
  | Some rows => restore_rows clk fs 0 b rows m
  end.
End with_fernet.

(** ** Push mode *)

Definition SetPush (alias url : string) (m : Manager) : bool * Manager :=
  match Get alias m with
  | None => (false, m)
  | Some (i, s) =>
      let m := do_cancel (pushCancel s) m in
      if (url =? "")%string then (true, set_obj m i (upd_push url None None s)) else
      let c := next m in
      (true,
       {| cfg := cfg m; gstore := gstore m; qworld := qworld m; typing := typing m;
          objs := <[i := upd_push url None (Some c) s]> (objs m); sessions := sessions m;
          cancelled := cancelled m; pollers := pollers m; pushers := <[c := i]> (pushers m); next := S c |})
  end.

(** One tick of [pushHealthcheck] on context [c]; [status] is the consumer's
    answer, [None] a transport error. *)
Definition push_tick (c : nat) (status : option Z) (m : Manager) : Manager :=
  match pushers m !! c with
  | None => m
  | Some i =>
      if bool_decide (c ∈ cancelled m) then
        {| cfg := cfg m; gstore := gstore m; qworld := qworld m; typing := typing m; objs := objs m;
           sessions := sessions m; cancelled := cancelled m; pollers := pollers m;
           pushers := delete c (pushers m); next := next m |}
      else
        match objs m !! i with
        | None => m
        | Some s =>
            let v := if (pushURL s =? "")%string then None
                     else Some (match status with Some st => st <? 400 | None => false end) in
            set_obj m i (upd_push (pushURL s) v (pushCancel s) s)
        end
  end.

Definition Shutdown (m : Manager) : Manager :=
  let m := fold_left (λ m kv, match objs m !! kv.2 with Some s => teardown kv.2 s m | None => m end)
             (map_to_list (sessions m)) m in
  set_typing m (Typing.Close (typing m)).

(** ** The poller *)

(** [fmt.Sscanf(s, "%g", &f)] on decimal text: the longest literal prefix. *)
Fixpoint span_text (s : string) : string * string :=
  match s with
  | String c s' => if is_digit c then let '(a, b) := span_text s' in (String c a, b) else ("", s)
  | EmptyString => ("", s)
  end.

Definition sign_text (s : string) : string * string :=
  match s with
  | String "-" s' => ("-", s')
  | String "+" s' => ("+", s')
  | _ => ("", s)
  end.

Definition float_token (s : string) : string :=
  let '(sg, r) := sign_text s in
  let '(ip, r) := span_text r in
  let '(fp, r) := match r with
                  | String "." r' => let '(d, r'') := span_text r' in (String "." d, r'')
                  | _ => ("", r)
                  end in
  let ep := match r with
            | String c r' =>
                if (c =? "e")%char || (c =? "E")%char then
                  let '(sg', r') := sign_text r' in String c (sg' +:+ (span_text r').1)
                else ""
            | EmptyString => ""
            end in
  sg +:+ ip +:+ fp +:+ ep.

Definition numberOf (v : any) : Q :=
  match v with
  | AFloat f => f
  | AInt n => inject_Z n
  | AInt64 n => inject_Z n
  | AStr s => default 0%Q (ParseFloat (float_token (trim_left s)))
  | _ => 0%Q
  end.

(** The typed decode of a getUpdates answer; [None] is a JSON error. *)
Record poll_data := { d_ok : bool; d_params : obj; d_result : list obj }.

Definition as_obj_list (l : list any) : option (list obj) :=
  mapM (λ v, match v with AMap m => Some m | ANil => Some [] | _ => None end) l.

Definition decode_poll (t : json_text) : option poll_data :=
  match t with
  | JBad _ => None
  | JText ANil => Some {| d_ok := false; d_params := []; d_result := [] |}
  | JText (AMap o) =>
      ok ← match mget1 o "ok" with ABool b => Some b | ANil => Some false | _ => None end;
      _ ← match mget1 o "description" with AStr _ | ANil => Some tt | _ => None end;
      ps ← match mget1 o "parameters" with AMap p => Some p | ANil => Some [] | _ => None end;
      rs ← match mget1 o "result" with AList l => as_obj_list l | ANil => Some [] | _ => None end;
      Some {| d_ok := ok; d_params := ps; d_result := rs |}
  | JText _ => None
  end.

(** How one long poll ended. *)
Inductive poll_answer := AnsErr (msg : string) | AnsBody (t : json_text).

(** [offset = max(offset, int64(numberOf(u.update_id)))] over the batch. *)
Definition next_offset (offset : Z) (us : list obj) : Z :=
  fold_left (λ o u, let id := f2i (numberOf (mget1 u "update_id")) in if o <? id then id else o) us offset.

Definition poll_request (m : Manager) (s : BotSession) (offset : Z) : httpRequest :=
  json_post ("/bot" +:+ Token s +:+ "/getUpdates")
    [("offset", AInt64 (wrap64 (offset + 1))); ("timeout", AInt (PollTimeout (cfg m)))].

Definition push_requests (s : BotSession) (us : list obj) : list httpRequest :=
  if (pushURL s =? "")%string then [] else
  omap (λ u, (λ raw, raw_post (pushURL s) (PJson raw) "") <$> json_marshal u) us.

Definition set_poller (c : nat) (p : poller) (m : Manager) : Manager := set_pollers m (<[c := p]> (pollers m)).

Definition end_poller (c : nat) (m : Manager) : Manager := set_pollers m (delete c (pollers m)).

Definition goto (ph : phase) (p : poller) : poller :=
  {| p_sess := p_sess p; p_offset := p_offset p; p_backoff := p_backoff p; p_at := ph |}.

Definition with_backoff (b : Q) (p : poller) : poller :=
  {| p_sess := p_sess p; p_offset := p_offset p; p_backoff := b; p_at := p_at p |}.

(** The preamble: the stored offset, deleteWebhook (whatever it answers), the
    state live. *)
Definition poll_start (now : Z) (f : faults) (c : nat) (m : Manager) : list httpRequest * Manager :=
  match pollers m !! c with
  | Some {| p_sess := i; p_at := Starting |} =>
      match objs m !! i with
      | None => ([], m)
      | Some s =>
          let off := GatewayStore.GetOffset f (Alias s) (gstore m) in
          let s := upd_state StateLive s in
          let s := upd_diag (secs now) (lastError s) (real429 s) (synth429 s) (last429 s) s in
          ([json_post ("/bot" +:+ Token s +:+ "/deleteWebhook") [("drop_pending_updates", ABool false)]],
           set_poller c {| p_sess := i; p_offset := off; p_backoff := 1; p_at := Looping |} (set_obj m i s))
      end
  | _ => ([], m)
  end.

(** The top of the loop: leave on a cancelled context, idle while paused or
    draining, else send the long poll. *)
Definition poll_iter (c : nat) (m : Manager) : list httpRequest * Manager :=
  match pollers m !! c with
  | Some ({| p_sess := i; p_at := Looping |} as p) =>
      if bool_decide (c ∈ cancelled m) then ([], end_poller c m) else
      match objs m !! i with
      | None => ([], m)
      | Some s =>
          if bool_decide (state s = StatePaused) || bool_decide (state s = StateDraining) then ([], m)
          else ([poll_request m s (p_offset p)], set_poller c (goto Polling p) m)
      end
  | _ => ([], m)
  end.

(** The success branch with a non-empty batch: queue first, then the offset,
    then typing and push.  [None] is the queue's panic. *)
Definition take_batch (now wall : Z) (f fo : faults) (clk : nat → Q) (c : nat) (p : poller)
    (s : BotSession) (us : list obj) (m : Manager) : option (list httpRequest * Manager) :=
  match Queue.PushAll now wall f us (queue s) (qworld m) with
  | None => None
  | Some (_, q, w) =>
      let off := next_offset (p_offset p) us in
      let m := set_world m w in
      let m := set_store m (default (gstore m) (GatewayStore.SaveOffset fo (Alias s) off (gstore m))) in
      let '(g, t) := OnUpdates clk (tsess s) us (guard s) (typing m) in
      let s := upd_guard g (upd_queue q s) in
      let m := set_obj (set_typing m t) (p_sess p) s in
      Some (push_requests s us,
            set_poller c {| p_sess := p_sess p; p_offset := off; p_backoff := 1; p_at := Looping |} m)
  end.

(** The rest of the iteration, once the long poll has ended. *)
Definition poll_answered (now wall : Z) (fs : nat → faults) (clk : nat → Q) (c : nat) (ans : poll_answer)
    (m : Manager) : option (list httpRequest * Manager) :=
  match pollers m !! c with
  | Some ({| p_sess := i; p_at := Polling |} as p) =>
      match objs m !! i with
      | None => Some ([], m)
      | Some s =>
          let sleep base live double := set_poller c (goto (Sleeping base live double) p) in
          match ans with
          | AnsErr msg =>
              if bool_decide (c ∈ cancelled m) then Some ([], end_poller c m)
              else Some ([], sleep (p_backoff p) true true (set_obj m i (setError msg (setState StateError s))))
          | AnsBody t =>
              match decode_poll t with
              | None => Some ([], sleep (p_backoff p) false true (set_obj m i (setError "json" s)))
              | Some d =>
                  if negb (d_ok d) then
                    let retry := numberOf (mget1 (d_params d) "retry_after") in
                    if qlt 0 retry then
                      let s := noteReal429 s in
                      let s := upd_guard (Report429 (secs now) (secs now) None retry (guard s)) s in
                      let m := set_obj m i s in
                      let m := set_store m (RecordBackoff now (fs 0%nat) s None retry (gstore m)) in
                      Some ([], sleep (retry + 1)%Q false false m)
                    else Some ([], sleep (p_backoff p) false true m)
                  else
                    match d_result d with
                    | [] =>
                        let m := set_poller c (goto Looping (with_backoff 1 p)) m in
                        Some ([], if bool_decide (state s = StateError) then set_obj m i (setState StateLive s) else m)
                    | us => take_batch now wall (fs 1%nat) (fs 2%nat) clk c p s us m
                    end
              end
          end
      end
  | _ => Some ([], m)
  end.

(** Waking from [sleepJittered]: a cancelled context ends the poller. *)
Definition poll_wake (c : nat) (m : Manager) : Manager :=
  match pollers m !! c with
  | Some ({| p_sess := i; p_at := Sleeping _ live double |} as p) =>
      if bool_decide (c ∈ cancelled m) then end_poller c m else
      let p := if double then with_backoff (fmin (p_backoff p * 2) (PollBackoffMax (cfg m))) p else p in
      let m := set_poller c (goto Looping p) m in
      if live then
        match objs m !! i with
        | Some s => set_obj m i (setState StateLive s)
        | None => m
        end
      else m
  | _ => m
  end.

(** ** Lemmas *)

Lemma next_offset_ge o us : o <= next_offset o us.
Proof.
  unfold next_offset. revert o. induction us as [|u us IH]; intros o; simpl; [lia|].
  set (id := f2i _). destruct (Z.ltb_spec o id); [|apply IH]. specialize (IH id). lia.
Qed.

Lemma next_offset_cons o u us :
  next_offset o (u :: us) =
  next_offset (let id := f2i (numberOf (mget1 u "update_id")) in if o <? id then id else o) us.
Proof. done. Qed.

(** The new offset is the old one or the id of an update of the batch. *)
Lemma next_offset_from o us :
  next_offset o us = o ∨ ∃ u, u ∈ us ∧ next_offset o us = f2i (numberOf (mget1 u "update_id")).
Proof.
  revert o. induction us as [|u us IH]; intros o; [by left|]. rewrite next_offset_cons. cbn zeta.
  set (id := f2i _). destruct (Z.ltb_spec o id).
  - destruct (IH id) as [->|(v & Hv & ->)]; right; [exists u; split; [left|done]|exists v; split; [by right|done]].
  - destruct (IH o) as [->|(v & Hv & ->)]; [by left|right; exists v; split; [by right|done]].
Qed.

(** ** One poller per bot *)

(** Every live (running, not cancelled) poller is the one its session object
    points back to, and that object is the one its alias maps to; ids are
    fresh. *)
Record mgr_ok (m : Manager) : Prop := {
  ok_live : ∀ c p, pollers m !! c = Some p → c ∉ cancelled m →
    ∃ s, objs m !! p_sess p = Some s ∧ pollCancel s = Some c ∧ sessions m !! Alias s = Some (p_sess p);
  ok_table : ∀ a i, sessions m !! a = Some i → ∃ s, objs m !! i = Some s ∧ Alias s = a;
  ok_ids : (∀ c p, pollers m !! c = Some p → (c < next m)%nat) ∧
           (∀ i s, objs m !! i = Some s → (i < next m)%nat)
}.

(** The parts of a manager the invariant reads. *)
Lemma mgr_ok_shape m m' :
  mgr_ok m → pollers m' = pollers m → cancelled m' = cancelled m → sessions m' = sessions m →
  objs m' = objs m → (next m <= next m')%nat → mgr_ok m'.
Proof.
  intros [H1 H2 [H3 H4]] Ep Ec Es Eo En. constructor; rewrite ?Ep, ?Ec, ?Es, ?Eo; [done|done|].
  split; intros; (eapply Nat.lt_le_trans; [|done]); eauto.
Qed.

Lemma mgr_ok_obj m i s s' :
  mgr_ok m → objs m !! i = Some s → Alias s' = Alias s → pollCancel s' = pollCancel s → mgr_ok (set_obj m i s').
Proof.
  intros [H1 H2 [H3 H4]] Hi Ha Hp. constructor; simpl.
  - intros c p Hc Hn. destruct (H1 c p Hc Hn) as (s0 & E1 & E2 & E3).
    destruct (decide (p_sess p = i)) as [Heq|Hne].
    + rewrite Heq in *. rewrite Hi in E1. injection E1 as <-. exists s'. rewrite lookup_insert_eq, Ha, Hp. done.
    + exists s0. by rewrite lookup_insert_ne by done.
  - intros a j Hj. destruct (H2 a j Hj) as (s0 & E1 & E2). destruct (decide (j = i)) as [->|Hne].
    + rewrite Hi in E1. injection E1 as <-. exists s'. rewrite lookup_insert_eq. split; [done|congruence].
    + exists s0. by rewrite lookup_insert_ne by done.
  - split; [done|]. intros j s0. rewrite lookup_insert_Some. intros [[<- _]|[_ Hj]]; eauto.
Qed.

Lemma mgr_ok_cancel m k : mgr_ok m → mgr_ok (do_cancel k m).
Proof.
  destruct k as [k|]; [|done]. intros [H1 H2 H3]. constructor; simpl; [|done|done].
  intros c p Hc Hn. apply H1; [done|set_solver].
Qed.

Lemma mgr_ok_pollers m c p p' :
  mgr_ok m → pollers m !! c = Some p → p_sess p' = p_sess p → mgr_ok (set_pollers m (<[c := p']> (pollers m))).
Proof.
  intros [H1 H2 [H3 H4]] Hc Hp. constructor; simpl; [|done|].
  - intros d q. rewrite lookup_insert_Some. intros [[<- <-]|[Hne Hd]] Hn; [rewrite Hp|]; eauto.
  - split; [|done]. intros d q. rewrite lookup_insert_Some. intros [[<- <-]|[Hne Hd]]; eauto.
Qed.

Lemma mgr_ok_exit m c : mgr_ok m → mgr_ok (set_pollers m (delete c (pollers m))).
Proof.
  intros [H1 H2 [H3 H4]]. constructor; simpl; [|done|split; [|done]].
  - intros d q Hd. apply lookup_delete_Some in Hd as [_ Hd]. eauto.
  - intros d q Hd. apply lookup_delete_Some in Hd as [_ Hd]. eauto.
Qed.

Lemma Get_Some alias m i s : Get alias m = Some (i, s) → sessions m !! alias = Some i ∧ objs m !! i = Some s.
Proof.
  unfold Get. destruct (sessions m !! alias) as [j|] eqn:Ej; [|done].
  destruct (objs m !! j) as [s0|] eqn:Es; [|done]. by intros [= -> ->].
Qed.

(** Starting a poller is sound when no live one points at the object. *)
Lemma mgr_ok_spawn i s m :
  mgr_ok m → objs m !! i = Some s → sessions m !! Alias s = Some i →
  (∀ c p, pollers m !! c = Some p → c ∉ cancelled m → p_sess p ≠ i) →
  mgr_ok (spawn_poller i s m).
Proof.
  intros [H1 H2 [H3 H4]] Hi Hs Hno. unfold spawn_poller. constructor; simpl.
  - intros c p. rewrite lookup_insert_Some. intros [[<- <-]|[Hne Hc]] Hn; simpl.
    + eexists. rewrite lookup_insert_eq. done.
    + destruct (H1 c p Hc Hn) as (s0 & E1 & E2 & E3). exists s0.
      rewrite lookup_insert_ne by (apply not_eq_sym; by eapply Hno). done.
  - intros a j Hj. destruct (H2 a j Hj) as (s0 & E1 & E2). destruct (decide (j = i)) as [->|Hne].
    + eexists. rewrite lookup_insert_eq. split; [reflexivity|]. simpl. congruence.
    + exists s0. by rewrite lookup_insert_ne by done.
  - split.
    + intros c p. rewrite lookup_insert_Some. intros [[<- _]|[_ Hc]]; [lia|]. apply H3 in Hc. lia.
    + intros j s0. rewrite lookup_insert_Some. intros [[<- _]|[_ Hj]].
      * apply H4 in Hi. lia.
      * apply H4 in Hj. lia.
Qed.

Lemma Pause_ok f alias m : mgr_ok m → mgr_ok (Pause f alias m).2.
Proof.
  intros Hm. unfold Pause. destruct (Get alias m) as [[i s]|] eqn:E; [|done].
  apply Get_Some in E as [E1 E2].
  eapply mgr_ok_shape; [apply (mgr_ok_cancel (set_obj m i (setState StatePaused s)) (pollCancel s));
    by eapply mgr_ok_obj|..]; simpl; by destruct (pollCancel s).
Qed.

Lemma Resume_ok f alias m : mgr_ok m → mgr_ok (Resume f alias m).2.
Proof.
  intros Hm. unfold Resume. destruct (Get alias m) as [[i s]|] eqn:E; [|done].
  apply Get_Some in E as [E1 E2]. simpl.
  set (m1 := set_store m _). assert (mgr_ok m1) as Hm1 by (by eapply mgr_ok_shape).
  set (m2 := match pollCancel s with None => _ | Some _ => _ end).
  assert (mgr_ok m2) as Hm2.
  { unfold m2. destruct (pollCancel s) eqn:Ep; [done|]. apply mgr_ok_spawn; [done|done| |].
    - destruct (ok_table _ Hm alias i E1) as (s0 & Es0 & Ha). simpl. congruence.
    - intros c p Hc Hn Hpi. destruct (ok_live _ Hm c p Hc Hn) as (s0 & Es0 & Hp & _). subst i. congruence. }
  destruct (objs m2 !! i) as [s2|] eqn:Es2; [|done]. by eapply mgr_ok_obj.
Qed.

Lemma Drain_ok alias m : mgr_ok m → mgr_ok (Drain alias m).2.
Proof.
  intros Hm. unfold Drain. destruct (Get alias m) as [[i s]|] eqn:E; [|done].
  apply Get_Some in E as [E1 E2]. simpl. eapply mgr_ok_shape; [apply (mgr_ok_obj m i s (setState StateDraining s))|..]; done.
Qed.

Lemma teardown_ok i s m :
  mgr_ok m → objs m !! i = Some s → mgr_ok (teardown i s m) ∧
  (∀ c p, pollers (teardown i s m) !! c = Some p → c ∉ cancelled (teardown i s m) → p_sess p ≠ i) ∧
  sessions (teardown i s m) = sessions m ∧ next (teardown i s m) = next m.
Proof.
  intros Hm Hi. set (m1 := set_obj m i (upd_queue (Queue.Close (queue s)) (setState StateDraining s))).
  assert (mgr_ok m1) as Hm1 by (by eapply mgr_ok_obj).
  set (m2 := set_typing m1 (StopAll (tsess s) (typing m1))). assert (mgr_ok m2) as Hm2 by (by eapply mgr_ok_shape).
  assert (teardown i s m = do_cancel (pushCancel s) (do_cancel (pollCancel s) m2)) as -> by done.
  split; [by apply mgr_ok_cancel, mgr_ok_cancel|]. split.
  - intros c p Hc Hn Hpi.
    assert (pollers m2 !! c = Some p) as Hc2 by (by destruct (pushCancel s), (pollCancel s)).
    assert (c ∉ cancelled m2 ∧ pollCancel s ≠ Some c) as [Hn2 Hpc].
    { destruct (pushCancel s), (pollCancel s); simpl in *; set_solver. }
    destruct (ok_live _ Hm2 c p Hc2 Hn2) as (s0 & Es0 & Hp & _). subst i. simpl in Es0.
    rewrite lookup_insert_eq in Es0. injection Es0 as <-. done.
  - by destruct (pushCancel s), (pollCancel s).
Qed.

Lemma Delete_ok f alias m :
  mgr_ok m → mgr_ok (Delete f alias m).2 ∧ sessions (Delete f alias m).2 !! alias = None.
Proof.
  intros Hm. unfold Delete. destruct (Get alias m) as [[i s]|] eqn:E.
  - apply Get_Some in E as [E1 E2]. simpl.
    destruct (teardown_ok i s m Hm E2) as ([T1 T2 [T3 T4]] & Tno & Ts & Tn).
    destruct (ok_table _ Hm alias i E1) as (s0 & Es0 & Ha). assert (s0 = s) as -> by congruence.
    set (m1 := teardown i s (set_table m (delete alias (sessions m)))).
    assert (pollers m1 = pollers (teardown i s m) ∧ cancelled m1 = cancelled (teardown i s m)
      ∧ objs m1 = objs (teardown i s m) ∧ next m1 = next (teardown i s m) ∧ sessions m1 = delete alias (sessions m))
      as (F1 & F2 & F3 & F4 & F5).
    { unfold m1, teardown. simpl. by destruct (pushCancel s), (pollCancel s). }
    split; [|simpl; rewrite F5; by apply lookup_delete_eq].
    constructor; simpl; rewrite ?F1, ?F2, ?F3, ?F4, ?F5.
    + intros c p Hc Hn. destruct (T1 c p Hc Hn) as (s1 & G1 & G2 & G3). exists s1. split_ands; [done|done|].
      rewrite Ts in G3. rewrite lookup_delete_ne; [done|]. intros Hal. rewrite <-Hal in G3.
      rewrite E1 in G3. injection G3 as G3. by apply (Tno c p Hc Hn).
    + intros a j Hj. apply lookup_delete_Some in Hj as [Hne Hj]. apply (T2 a j). by rewrite Ts.
    + split; [done|done].
  - simpl. assert (sessions m !! alias = None) as Hn.
    { unfold Get in E. destruct (sessions m !! alias) as [j|] eqn:Ej; [|done].
      destruct (ok_table _ Hm alias j Ej) as (s & Es & _). by rewrite Es in E. }
    split; [|by apply lookup_delete_eq]. eapply mgr_ok_shape; [done|done|done| |done|done].
    simpl. by apply delete_id.
Qed.

Lemma SetPush_ok alias url m : mgr_ok m → mgr_ok (SetPush alias url m).2.
Proof.
  intros Hm. unfold SetPush. destruct (Get alias m) as [[i s]|] eqn:E; [|done].
  apply Get_Some in E as [E1 E2]. pose proof (mgr_ok_cancel m (pushCancel s) Hm) as Hc.
  assert (objs (do_cancel (pushCancel s) m) !! i = Some s) as E2' by (by destruct (pushCancel s)).
  assert (∀ h pc, mgr_ok (set_obj (do_cancel (pushCancel s) m) i (upd_push url h pc s))) as Ho
    by (intros; by eapply mgr_ok_obj).
  destruct (url =? "")%string; simpl; [apply Ho|].
  eapply mgr_ok_shape; [apply (Ho None (Some (next (do_cancel (pushCancel s) m))))|..]; simpl; done || lia.
Qed.

Lemma push_tick_ok c st m : mgr_ok m → mgr_ok (push_tick c st m).
Proof.
  intros Hm. unfold push_tick. destruct (pushers m !! c) as [i|]; [|done].
  destruct (bool_decide _); [by eapply mgr_ok_shape|].
  destruct (objs m !! i) as [s|] eqn:E; [|done]. by eapply mgr_ok_obj.
Qed.

Lemma Shutdown_ok m : mgr_ok m → mgr_ok (Shutdown m).
Proof.
  intros Hm. unfold Shutdown. set (m1 := fold_left _ _ m). apply (mgr_ok_shape m1); [|done..].
  subst m1. generalize (map_to_list (sessions m)). intros l. revert m Hm.
  induction l as [|[a i] l IH]; intros m Hm; [done|]. simpl. apply IH.
  destruct (objs m !! i) as [s|] eqn:E; [|done]. by apply teardown_ok.
Qed.

Lemma set_poller_ok m c p p' :
  mgr_ok m → pollers m !! c = Some p → p_sess p' = p_sess p → mgr_ok (set_poller c p' m).
Proof. apply mgr_ok_pollers. Qed.

Lemma poll_start_ok now f c m : mgr_ok m → mgr_ok (poll_start now f c m).2.
Proof.
  intros Hm. unfold poll_start. destruct (pollers m !! c) as [[i off b []]|] eqn:Hc; try done.
  destruct (objs m !! i) as [s|] eqn:Hs; [|done]. simpl.
  eapply set_poller_ok; [by eapply (mgr_ok_obj m i s)|exact Hc|done].
Qed.

Lemma poll_iter_ok c m : mgr_ok m → mgr_ok (poll_iter c m).2.
Proof.
  intros Hm. unfold poll_iter. destruct (pollers m !! c) as [[i off b []]|] eqn:Hc; try done.
  destruct (bool_decide (c ∈ _)); [by apply mgr_ok_exit|]. destruct (objs m !! i); [|done].
  destruct (_ || _); [done|]. by eapply set_poller_ok.
Qed.

Lemma take_batch_ok now wall f fo clk c p s us m r m' :
  mgr_ok m → pollers m !! c = Some p → objs m !! p_sess p = Some s →
  take_batch now wall f fo clk c p s us m = Some (r, m') → mgr_ok m'.
Proof.
  intros Hm Hc Hs. unfold take_batch. destruct (Queue.PushAll _ _ _ _ _ _) as [[[u q] w]|]; [|done].
  destruct (OnUpdates _ _ _ _ _) as [g t]. intros [= <- <-].
  set (s' := upd_guard g (upd_queue q s)). set (m1 := set_obj _ (p_sess p) s').
  assert (mgr_ok m1) as Hm1.
  { apply (mgr_ok_shape (set_obj m (p_sess p) s')); [by apply (mgr_ok_obj m (p_sess p) s s')|done..]. }
  by apply (set_poller_ok m1 c p).
Qed.

Lemma poll_answered_ok now wall fs clk c ans m r m' :
  mgr_ok m → poll_answered now wall fs clk c ans m = Some (r, m') → mgr_ok m'.
Proof.
  intros Hm. unfold poll_answered. destruct (pollers m !! c) as [[i off b []]|] eqn:Hc; try by intros [= <- <-].
  destruct (objs m !! i) as [s|] eqn:Hs; [|by intros [= <- <-]].
  set (p := {| p_sess := i; p_offset := off; p_backoff := b; p_at := Polling |}) in *.
  assert (∀ m1 p', mgr_ok m1 → pollers m1 = pollers m → p_sess p' = i → mgr_ok (set_poller c p' m1)) as Hp.
  { intros m1 p' H1 H2 H3. apply (set_poller_ok m1 c p); [done|by rewrite H2|done]. }
  assert (∀ s', Alias s' = Alias s → pollCancel s' = pollCancel s → mgr_ok (set_obj m i s')) as Ho
    by (intros; by eapply mgr_ok_obj).
  destruct ans as [msg | t].
  - destruct (bool_decide _); intros [= <- <-]; [by apply mgr_ok_exit|]. apply Hp; [by apply Ho|done|done].
  - destruct (decode_poll t) as [d|]; [|intros [= <- <-]; apply Hp; [by apply Ho|done|done]].
    destruct (d_ok d); simpl.
    + destruct (d_result d) as [|u us]; [|by apply take_batch_ok].
      intros [= <- <-]. destruct (bool_decide _); [|by apply Hp].
      by apply (mgr_ok_obj _ _ s); [apply Hp|..].
    + destruct (qlt _ _); intros [= <- <-]; [|by apply Hp]. apply Hp; [|done|done].
      match goal with |- mgr_ok (set_store ?m1 _) => apply (mgr_ok_shape m1) end; [by apply Ho|done..].
Qed.

Lemma poll_wake_ok c m : mgr_ok m → mgr_ok (poll_wake c m).
Proof.
  intros Hm. unfold poll_wake. destruct (pollers m !! c) as [[i off b []]|] eqn:Hc; try done.
  destruct (bool_decide _); [by apply mgr_ok_exit|].
  set (m1 := set_poller _ _ _).
  assert (mgr_ok m1) as Hm1 by (eapply set_poller_ok; [done|exact Hc|by destruct double]).
  destruct live; [|done]. destruct (objs m1 !! i) as [s|] eqn:E; [|done]. by eapply mgr_ok_obj.
Qed.

(** In a well-formed manager the live poller of an alias is unique. *)
Lemma live_unique m c1 c2 p1 p2 s1 s2 :
  mgr_ok m →
  pollers m !! c1 = Some p1 → c1 ∉ cancelled m → objs m !! p_sess p1 = Some s1 →
  pollers m !! c2 = Some p2 → c2 ∉ cancelled m → objs m !! p_sess p2 = Some s2 →
  Alias s1 = Alias s2 →
  c1 = c2 ∧ sessions m !! Alias s1 = Some (p_sess p1) ∧ pollCancel s1 = Some c1.
Proof.
  intros Hm P1 N1 O1 P2 N2 O2 Ha.
  destruct (ok_live _ Hm c1 p1 P1 N1) as (x1 & X1 & Y1 & Z1).
  destruct (ok_live _ Hm c2 p2 P2 N2) as (x2 & X2 & Y2 & Z2).
  assert (x1 = s1) as -> by congruence. assert (x2 = s2) as -> by congruence.
  assert (p_sess p1 = p_sess p2) as Hp by congruence. rewrite Hp in *.
  split_ands; congruence.
Qed.

Section calls.
Context `{Fernet}.

Lemma attach_new_ok t1 t2 t3 fs b r alias token ol pb m i m' :
  mgr_ok m → sessions m !! alias = None →
  attach_new t1 t2 t3 fs b r alias token ol pb m = Some (i, m') → mgr_ok m'.
Proof.
  intros Hm Hno. unfold attach_new. destruct (Queue.OpenQueue _ _ _ _ _ _ _ _ _) as [[q w]|]; [|done].
  set (s0 := {| Alias := alias |}).
  destruct (restoreBackoffs t1 t2 t3 (fs 1%nat) s0 (gstore m)) as [s g] eqn:ER.
  intros [= <- <-].
  assert (Alias s = alias ∧ pollCancel s = None) as [Ha Hp].
  { unfold restoreBackoffs in ER. destruct (GatewayStore.LoadBackoffs _ _ _ _). by injection ER as <- <-. }
  destruct Hm as [H1 H2 [H3 H4]]. apply mgr_ok_spawn.
  - constructor; simpl.
    + intros c p Hc Hn. destruct (H1 c p Hc Hn) as (s1 & E1 & E2 & E3). exists s1.
      rewrite lookup_insert_ne by (apply H4 in E1; lia). split_ands; [done|done|].
      rewrite lookup_insert_ne; [done|]. intros ->. congruence.
    + intros a j. rewrite lookup_insert_Some. intros [[<- <-]|[Hne Hj]].
      * exists s. by rewrite lookup_insert_eq.
      * destruct (H2 a j Hj) as (s1 & E1 & E2). exists s1. by rewrite lookup_insert_ne by (apply H4 in E1; lia).
    + split; [intros c p Hc; apply H3 in Hc; lia|].
      intros j s1. rewrite lookup_insert_Some. intros [[<- _]|[_ Hj]]; [lia|]. apply H4 in Hj. lia.
  - simpl. by rewrite lookup_insert_eq.
  - simpl. rewrite Ha. by rewrite lookup_insert_eq.
  - simpl. intros c p Hc Hn Hpi. destruct (H1 c p Hc Hn) as (s1 & E1 & _). apply H4 in E1. lia.
Qed.

Lemma Get_None alias m : mgr_ok m → Get alias m = None → sessions m !! alias = None.
Proof.
  intros Hm. unfold Get. destruct (sessions m !! alias) as [j|] eqn:Ej; [|done].
  destruct (ok_table _ Hm alias j Ej) as (s & Es & _). by rewrite Es.
Qed.

Lemma Attach_ok t1 t2 t3 fs b r alias token ol pb m :
  mgr_ok m → mgr_ok (Attach t1 t2 t3 fs b r alias token ol pb m).2.
Proof.
  intros Hm. unfold Attach.
  assert (∀ m0, mgr_ok m0 → sessions m0 !! alias = None →
    mgr_ok (match attach_new t1 t2 t3 fs b r alias token ol pb m0 with
            | Some (i, m1) => (Some i, m1) | None => (None, m0) end).2) as Hc.
  { intros m0 H0 Hn. destruct (attach_new _ _ _ _ _ _ _ _ _ _ m0) as [[i m1]|] eqn:E; [|done].
    by eapply attach_new_ok. }
  destruct (Get alias m) as [[j s]|] eqn:E.
  - destruct (Token s =? token)%string; [done|]. apply Hc; by apply Delete_ok.
  - apply Hc; [done|]. by apply Get_None.
Qed.

Lemma restore_rows_ok clk fs k b rows m : mgr_ok m → mgr_ok (restore_rows clk fs k b rows m).2.
Proof.
  revert k m. induction rows as [|r rows IH]; intros k m Hm; [done|]. cbn [restore_rows].
  destruct (GatewayStore.GetToken _ _ _ _) as [token|]; [|by apply IH].
  match goal with |- context [Attach ?a ?b ?c ?d ?e ?f ?g ?h ?i ?j ?k] =>
    pose proof (Attach_ok a b c d e f g h i j k Hm) as HA; destruct (Attach a b c d e f g h i j k) as [[i0|] m1] end;
    [|by apply IH].
  set (m2 := if GatewayStore.Paused r then _ else _).
  assert (mgr_ok m2) as Hm2.
  { unfold m2. destruct (GatewayStore.Paused r); [|done]. destruct (objs m1 !! i0) as [s|] eqn:Es; [|done].
    by eapply mgr_ok_obj. }
  specialize (IH (S k) m2 Hm2). by destruct (restore_rows _ _ _ _ _ m2).
Qed.

(** The steps of a running manager: its calls, each to its end, interleaved
    with the stretches of the poller and push goroutines. *)
Inductive mgr_step (m : Manager) : Manager → Prop :=
  | step_attach t1 t2 t3 fs b r alias token ol pb :
      mgr_step m (Attach t1 t2 t3 fs b r alias token ol pb m).2
  | step_restore clk f fs b : mgr_step m (RestoreAll clk f fs b m).2
  | step_pause f alias : mgr_step m (Pause f alias m).2
  | step_resume f alias : mgr_step m (Resume f alias m).2
  | step_drain alias : mgr_step m (Drain alias m).2
  | step_delete f alias : mgr_step m (Delete f alias m).2
  | step_set_push alias url : mgr_step m (SetPush alias url m).2
  | step_push_tick c st : mgr_step m (push_tick c st m)
  | step_poll_start now f c : mgr_step m (poll_start now f c m).2
  | step_poll c : mgr_step m (poll_iter c m).2
  | step_answered now wall fs clk c ans reqs m' :
      poll_answered now wall fs clk c ans m = Some (reqs, m') → mgr_step m m'
  | step_wake c : mgr_step m (poll_wake c m)
  | step_shutdown : mgr_step m (Shutdown m).

Lemma mgr_step_ok m m' : mgr_ok m → mgr_step m m' → mgr_ok m'.
Proof.
  intros Hm. inversion 1; subst; eauto using Attach_ok, Pause_ok, Resume_ok, Drain_ok, SetPush_ok, push_tick_ok,
    poll_start_ok, poll_iter_ok, poll_answered_ok, poll_wake_ok, Shutdown_ok.
  - unfold RestoreAll. destruct (GatewayStore.ListBots _ _); [by apply restore_rows_ok|done].
  - by apply Delete_ok.
Qed.

Lemma NewManager_ok c g w : mgr_ok (NewManager c g w).
Proof. constructor; [done|done|]. split; done. Qed.

(** One poller per registered bot: after any sequence of attach (token
    rotation included), restore, pause, resume, drain, delete, push and
    poller steps, two running pollers whose contexts are not cancelled and
    whose sessions have the same alias are the same poller, and it is the one
    the session table points at. *)
Theorem one_live_poller c g w m c1 c2 p1 p2 s1 s2 :
  rtc mgr_step (NewManager c g w) m →
  pollers m !! c1 = Some p1 → c1 ∉ cancelled m → objs m !! p_sess p1 = Some s1 →
  pollers m !! c2 = Some p2 → c2 ∉ cancelled m → objs m !! p_sess p2 = Some s2 →
  Alias s1 = Alias s2 →
  c1 = c2 ∧ sessions m !! Alias s1 = Some (p_sess p1) ∧ pollCancel s1 = Some c1.
Proof.
  intros Hr P1 N1 O1 P2 N2 O2 Ha.
  assert (mgr_ok m) as Hm.
  { revert Hr. apply (rtc_ind_r mgr_ok); [apply NewManager_ok|]. intros; by eapply mgr_step_ok. }
  by eapply live_unique.
Qed.
End calls.

(** ** Queue first, then the offset *)

(** What an update of Telegram's answer has: an id and a JSON document. *)
Definition proper (u : obj) : bool :=
  match toInt64 (mget1 u "update_id") with Some _ => json_ok (AMap u) | None => false end.

Definition uid_of (u : obj) : Z := default 0 (toInt64 (mget1 u "update_id")).

(** The durable states (queue.db, bots.db) a crash can leave while
    [take_batch] runs, in order. *)
Definition batch_points (now wall : Z) (f fo : faults) (p : poller) (s : BotSession) (us : list obj)
    (m : Manager) : list (Queue.disk * GatewayStore.gateway) :=
  match Queue.PushAll now wall f us (queue s) (qworld m) with
  | None => []
  | Some (_, _, w) =>
      [(Queue.dsk (qworld m), gstore m); (Queue.dsk w, gstore m);
       (Queue.dsk w, default (gstore m)
          (GatewayStore.SaveOffset fo (Alias s) (next_offset (p_offset p) us) (gstore m)))]
  end.

Lemma push_loop_collects now us (s : Queue.Queue) b s' b' over :
  Queue.push_loop now us s b = Some (s', b', over) → Queue.overflow s ≠ "reject_new" →
  forallb proper us = true →
  over = false ∧ Queue.botAlias s' = Queue.botAlias s ∧ Queue.db s' = Queue.db s ∧
  (∀ x, x ∈ b → x ∈ b') ∧
  (∀ u, u ∈ us → uid_of u ∈ Queue.seen s ∨ uid_of u ∈ fst <$> b').
Proof.
  revert s b. induction us as [|u us IH]; intros s b E Ho Hp; cbn [Queue.push_loop] in E.
  { injection E as <- <- <-. split_ands; try done. by intros u Hu%elem_of_nil. }
  simpl in Hp. apply andb_true_iff in Hp as [Hu Hp].
  unfold proper in Hu. destruct (toInt64 (mget1 u "update_id")) as [uid|] eqn:Eid; [|done].
  assert (uid_of u = uid) as Huid by (unfold uid_of; by rewrite Eid).
  assert (Queue.identify s u = (uid, u)) as Ei by (unfold Queue.identify; by rewrite Eid). rewrite Ei in E.
  assert (Queue.batch_add b uid u = b ++ [(uid, JText (jnorm (AMap u)))]) as Eb
    by (unfold Queue.batch_add, json_marshal; by rewrite Hu).
  case_bool_decide as Hseen.
  { destruct (IH s b E Ho Hp) as (A1 & A2 & A3 & A4 & A5). split_ands; [done..|].
    intros v [->|Hv]%elem_of_cons; [left; by rewrite Huid|by apply A5]. }
  assert (∀ s1, Queue.seen s1 ⊆ Queue.seen s → Queue.overflow s1 = Queue.overflow s →
    Queue.botAlias s1 = Queue.botAlias s → Queue.db s1 = Queue.db s →
    Queue.push_loop now us (Queue.append_update s1 now uid u) (Queue.batch_add b uid u) = Some (s', b', over) →
    over = false ∧ Queue.botAlias s' = Queue.botAlias s ∧ Queue.db s' = Queue.db s ∧
    (∀ x, x ∈ b → x ∈ b') ∧ (∀ v, v ∈ u :: us → uid_of v ∈ Queue.seen s ∨ uid_of v ∈ fst <$> b')) as Hgo.
  { intros s1 H1 H2 H3 H4 E1. destruct (IH _ _ E1) as (A1 & A2 & A3 & A4 & A5); [simpl; congruence|done|].
    simpl in A2, A3. rewrite Eb in A4. split_ands; [done|congruence|congruence| |].
    - intros x Hx. apply A4, elem_of_app. by left.
    - assert (uid ∈ fst <$> b') as Hin.
      { apply list_elem_of_fmap. eexists. split; [|apply A4, elem_of_app; right; by apply list_elem_of_singleton].
        done. }
      intros v [->|Hv]%elem_of_cons; [right; by rewrite Huid|].
      destruct (A5 v Hv) as [[->%elem_of_singleton|Hs]%elem_of_union|Hb]; [by right|left; by apply H1|by right]. }
  destruct (Queue.maxsize s <=? _).
  - destruct (String.eqb_spec (Queue.overflow s) "reject_new"); [done|].
    unfold Queue.evict in E. destruct (Queue.q s) as [|old rest] eqn:Eq; [done|].
    eapply Hgo; [..|exact E]; simpl; [set_solver|done..].
  - by eapply Hgo; [..|exact E].
Qed.

Lemma insert_batch_rows (s : Queue.Queue) at_ k b rows x :
  (x ∈ Queue.row_key <$> rows ∨ ∃ p, p ∈ b ∧ x = (Queue.botAlias s, p.1)) →
  x ∈ Queue.row_key <$> Queue.insert_batch s at_ no_faults k b rows.
Proof.
  revert k rows. induction b as [|p b IH]; intros k rows [Hx|(p' & Hp & ->)]; cbn [Queue.insert_batch no_faults].
  - done.
  - by apply elem_of_nil in Hp.
  - apply IH. left. unfold insert_or_ignore. destruct (existsb _ _); [done|].
    rewrite fmap_app. apply elem_of_app. by left.
  - apply elem_of_cons in Hp as [->|Hp]; [|apply IH; eauto].
    apply IH. left. unfold insert_or_ignore. destruct (existsb _ _) eqn:E.
    + by apply existsb_key in E.
    + rewrite fmap_app. apply elem_of_app. right. by apply list_elem_of_singleton.
Qed.


(** ** Behaviour of the calls in sequence *)

(** A paused session's poller is dead for good: [Pause] cancels the
    poller's context but keeps [pollCancel], so [Resume] finds it non-nil,
    starts no poller and only sets the state to live.  From then on no
    running poller serves the session. *)
Theorem resume_leaves_poller_dead f1 f2 alias i s m c :
  mgr_ok m → Get alias m = Some (i, s) → pollCancel s = Some c →
  let m' := (Resume f2 alias (Pause f1 alias m).2).2 in
  (∃ s', Get alias m' = Some (i, s') ∧ state s' = StateLive) ∧
  ∀ c' p, pollers m' !! c' = Some p → c' ∉ cancelled m' → p_sess p ≠ i.
Proof.
  intros Hm Hg Hc. unfold Pause. rewrite Hg. apply Get_Some in Hg as [Hs Ho]. simpl. rewrite Hc. simpl.
  unfold Resume, Get. simpl. rewrite Hs, lookup_insert_eq. simpl. rewrite Hc. simpl. rewrite lookup_insert_eq.
  simpl. rewrite Hs, lookup_insert_eq. split; [by eexists|].
  intros c' p Hp Hn Hpi. destruct (ok_live _ Hm c' p Hp) as (s0 & E1 & E2 & _); [set_solver|].
  subst i. rewrite Ho in E1. injection E1 as <-. rewrite Hc in E2. injection E2 as <-. set_solver.
Qed.

(** A drain that lands during a long poll is undone by a transport error: the
    poller overwrites the state with error, then with live when it wakes, and
    goes on polling Telegram. *)
Theorem drain_is_undone alias i s m c p now wall fs clk :
  Get alias m = Some (i, s) → pollers m !! c = Some p → p_sess p = i → p_at p = Polling → c ∉ cancelled m →
  ∃ m1, poll_answered now wall fs clk c (AnsErr "eof") (Drain alias m).2 = Some ([], m1) ∧
    let m' := poll_wake c m1 in
    ∃ s' p', Get alias m' = Some (i, s') ∧ state s' = StateLive ∧ pollers m' !! c = Some p' ∧
      (poll_iter c m').1 = [poll_request m' s' (p_offset p')].
Proof.
  intros Hg Hp Hi Hph Hc. pose proof Hg as [Hs Ho]%Get_Some. unfold Drain. rewrite Hg. simpl.
  destruct p as [i' off b ph]. simpl in *. subst i' ph.
  unfold poll_answered. simpl. rewrite Hp, lookup_insert_eq, bool_decide_false by done.
  eexists. split; [done|]. unfold poll_wake. simpl. rewrite lookup_insert_eq. simpl.
  rewrite bool_decide_false by done. rewrite lookup_insert_eq. eexists _, _.
  split; [unfold Get; simpl; rewrite Hs, lookup_insert_eq; done|]. split; [done|].
  split; [simpl; apply lookup_insert_eq|]. unfold poll_iter. simpl. rewrite lookup_insert_eq. simpl.
  rewrite bool_decide_false by done. by rewrite lookup_insert_eq.
Qed.

Lemma attach_new_shape `{Fernet} t1 t2 t3 fs b e alias token ol pb m q w :
  Queue.OpenQueue (UpdateQueueMax (Policy (cfg m))) "drop_oldest" (UpdateTTLS (Policy (cfg m))) true alias true t1
    (fs 0%nat) (qworld m) = Some (q, w) →
  ∃ s m', attach_new t1 t2 t3 fs b e alias token ol pb m = Some (next m, m') ∧
    objs m' !! next m = Some s ∧ sessions m' !! alias = Some (next m) ∧ cancelled m' = cancelled m ∧
    pollers m' !! S (next m) = Some {| p_sess := next m; p_offset := 0; p_backoff := 1; p_at := Starting |}.
Proof.
  intros Hq. unfold attach_new. rewrite Hq. cbn zeta.
  match goal with |- context [restoreBackoffs ?a ?b ?c ?d ?s ?g] => destruct (restoreBackoffs a b c d s g) as [s' g'] end.
  eexists _, _. split; [reflexivity|]. simpl. by rewrite !lookup_insert_eq.
Qed.

(** A pause does not survive a restart: [RestoreAll] of a paused bot leaves
    its session paused but its poller goroutine already started, whose preamble
    then sets the state to live; the bot is polled although the store still
    says paused. *)
Theorem restored_pause_is_overwritten `{Fernet} cf g w clk f fs b r token q w' now f' :
  GatewayStore.ListBots f g = Some [r] → GatewayStore.Paused r = true →
  GatewayStore.GetToken b (fs 0%nat 5%nat) (GatewayStore.Alias r) g = Some token →
  Queue.OpenQueue (UpdateQueueMax (Policy cf)) "drop_oldest" (UpdateTTLS (Policy cf)) true (GatewayStore.Alias r) true
    (clk 0%nat) (fs 0%nat 0%nat) w = Some (q, w') →
  let m := (RestoreAll clk f fs b (NewManager cf g w)).2 in
  let m' := (poll_start now f' 1 m).2 in
  (∃ s, Get (GatewayStore.Alias r) m = Some (0%nat, s) ∧ state s = StatePaused) ∧
  gstore m' = gstore m ∧
  ∃ s' p', Get (GatewayStore.Alias r) m' = Some (0%nat, s') ∧ state s' = StateLive ∧
    pollers m' !! 1%nat = Some p' ∧ (poll_iter 1 m').1 = [poll_request m' s' (p_offset p')].
Proof.
  intros Hl Hp Ht Hq. unfold RestoreAll. cbn [gstore NewManager]. rewrite Hl. cbn [restore_rows gstore NewManager].
  rewrite Ht. unfold Attach.
  assert (Get (GatewayStore.Alias r) (NewManager cf g w) = None) as -> by done.
  destruct (attach_new_shape (clk 0%nat) (clk 0%nat) (clk 0%nat) (fs 0%nat) b (Z.of_nat 0) (GatewayStore.Alias r) token
    None false (NewManager cf g w) q w' Hq) as (s & m & -> & Ho & Hs & Hc & Hpl). cbn [next NewManager cancelled] in *.
  rewrite Hp, Ho. simpl. unfold Get, poll_start. simpl. rewrite Hpl, Hs, !lookup_insert_eq. simpl.
  split; [by eexists|]. split; [done|]. eexists _, _. rewrite Hs, !lookup_insert_eq.
  split; [done|]. split; [done|]. split; [done|].
  unfold poll_iter. simpl. rewrite !lookup_insert_eq. simpl. rewrite bool_decide_false by (rewrite Hc; set_solver).
  by rewrite ?lookup_insert_eq.
Qed.

Definition demo_mgr : Manager := NewManager (BotAPIFromEnv (λ _, None)) GatewayStore.gateway_empty Queue.w_empty.

Definition attach_demo (alias token : string) (m : Manager) : Manager :=
  (Attach 0 0 0 (λ _, no_faults) toy_box 0 alias token None false m).2.

(** One bot just attached, the same in its first long poll, and the race of
    two attaches that both consulted the table before either inserted its
    session. *)
Definition attached : Manager := attach_demo "b1" "1:t" demo_mgr.

Definition one_bot : Manager := (poll_iter 1 (poll_start 0 no_faults 1 attached).2).2.

Definition attach_raced : Manager :=
  match attach_new 0 0 0 (λ _, no_faults) toy_box 0 "b1" "1:t" None false demo_mgr with
  | Some (_, m) =>
      match attach_new 0 0 0 (λ _, no_faults) toy_box 0 "b1" "1:t" None false m with
      | Some (_, m) => m | None => m
      end
  | None => demo_mgr
  end.

(** The running, uncancelled pollers that call getUpdates with a token. *)
Definition polling (token : string) (m : Manager) : list nat :=
  fst <$> bfilter (λ cp, bool_decide (cp.1 ∉ cancelled m) &&
    match objs m !! p_sess cp.2 with Some s => (Token s =? token)%string | None => false end)
    (map_to_list (pollers m)).

(** "One poller per token" is not enforced across aliases nor across
    concurrent attaches: attaching the same token under a second alias starts
    a second poller on it, and so do two attaches of one alias that both
    consulted the session table before either registered its session. *)
Theorem token_polled_twice :
  length (polling "1:t" one_bot) = 1%nat ∧
  length (polling "1:t" (attach_demo "b2" "1:t" one_bot)) = 2%nat ∧
  length (polling "1:t" attach_raced) = 2%nat.
Proof. by vm_compute. Qed.

(** ** Witnesses *)

Lemma one_bot_uncancelled : 1%nat ∉ cancelled one_bot.
Proof. apply (bool_decide_unpack _). vm_compute. exact I. Qed.

Lemma one_live_poller_witness :
  ∃ s p, objs one_bot !! p_sess p = Some s ∧ Alias s = "b1" ∧ pollers one_bot !! 1%nat = Some p ∧
    (1%nat = 1%nat ∧ sessions one_bot !! Alias s = Some (p_sess p) ∧ pollCancel s = Some 1%nat).
Proof.
  eexists _, {| p_sess := 0; p_at := Polling |}. split; [vm_compute; reflexivity|]. split; [done|].
  split; [vm_compute; reflexivity|].
  eapply (one_live_poller (BotAPIFromEnv (λ _, None)) GatewayStore.gateway_empty Queue.w_empty one_bot 1 1);
    [|vm_compute; reflexivity|exact one_bot_uncancelled|vm_compute; reflexivity|vm_compute; reflexivity|exact one_bot_uncancelled
     |vm_compute; reflexivity|done].
  eapply rtc_l; [apply (step_attach _ 0 0 0 (λ _, no_faults) toy_box 0 "b1" "1:t" None false)|].
  eapply rtc_l; [apply (step_poll_start _ 0 no_faults 1)|].
  eapply rtc_l; [apply (step_poll _ 1)|apply rtc_refl].
Defined.

Definition demo_session : BotSession :=
  match objs one_bot !! 0%nat with Some s => s | None =>
    {| Alias := ""; Token := ""; state := StateLive; queue := Queue.q_demo; guard := NewGuard (Rate (cfg demo_mgr)) 0;
       connectedSince := 0; lastError := ""; real429 := 0; synth429 := 0; last429 := None;
       pushURL := ""; pushHealthy := None; pollCancel := None; pushCancel := None; chatNameCache := ∅;
       OnLimit := None; PaidBroadcasts := false; typing_over := no_patch; sendTimes := [] |} end.

Definition demo_poller : poller := {| p_sess := 0; p_offset := 0; p_backoff := 1; p_at := Polling |}.

Lemma one_bot_ok : mgr_ok one_bot.
Proof. apply poll_iter_ok, poll_start_ok, Attach_ok, NewManager_ok. Qed.

Definition resumed : Manager := (Resume no_faults "b1" (Pause no_faults "b1" one_bot).2).2.

Lemma resume_leaves_poller_dead_witness :
  (∃ s', Get "b1" resumed = Some (0%nat, s') ∧ state s' = StateLive) ∧
  ∀ c' p, pollers resumed !! c' = Some p → c' ∉ cancelled resumed → p_sess p ≠ 0%nat.
Proof.
  exact (resume_leaves_poller_dead no_faults no_faults "b1" 0 demo_session one_bot 1 one_bot_ok
    ltac:(vm_compute; reflexivity) ltac:(vm_compute; reflexivity)).
Defined.

Lemma drain_is_undone_witness :
  ∃ m1, poll_answered 0 0 (λ _, no_faults) (λ _, 0%Q) 1 (AnsErr "eof") (Drain "b1" one_bot).2 = Some ([], m1) ∧
    ∃ s', Get "b1" (poll_wake 1 m1) = Some (0%nat, s') ∧ state s' = StateLive.
Proof.
  destruct (drain_is_undone "b1" 0 demo_session one_bot 1 demo_poller 0 0 (λ _, no_faults) (λ _, 0%Q))
    as (m1 & H0 & s' & p' & H1 & H2 & _);
    [vm_compute; reflexivity|vm_compute; reflexivity|done|done|exact one_bot_uncancelled|].
  exists m1. split; [exact H0|]. by exists s'.
Defined.

Definition paused_store : GatewayStore.gateway :=
  default GatewayStore.gateway_empty (GatewayStore.SetPaused no_faults "b1" true (gstore one_bot)).

Definition restarted : Manager :=
  (RestoreAll (λ _, 0) no_faults (λ _ _, no_faults) toy_box
     (NewManager (BotAPIFromEnv (λ _, None)) paused_store Queue.w_empty)).2.

Lemma restored_pause_is_overwritten_witness :
  (∃ s, Get "b1" restarted = Some (0%nat, s) ∧ state s = StatePaused) ∧
  gstore (poll_start 0 no_faults 1 restarted).2 = gstore restarted ∧
  ∃ s' p', Get "b1" (poll_start 0 no_faults 1 restarted).2 = Some (0%nat, s') ∧ state s' = StateLive ∧
    pollers (poll_start 0 no_faults 1 restarted).2 !! 1%nat = Some p' ∧
    (poll_iter 1 (poll_start 0 no_faults 1 restarted).2).1
      = [poll_request (poll_start 0 no_faults 1 restarted).2 s' (p_offset p')].
Proof.
  exact (restored_pause_is_overwritten (BotAPIFromEnv (λ _, None)) paused_store Queue.w_empty (λ _, 0) no_faults
    (λ _ _, no_faults) toy_box {| GatewayStore.Alias := "b1"; GatewayStore.TelegramOffset := 0; GatewayStore.Paused := true |}
    "1:t" (queue demo_session) Queue.w_empty 0 no_faults
    ltac:(vm_compute; reflexivity) eq_refl ltac:(vm_compute; reflexivity) ltac:(vm_compute; reflexivity)).
Defined.

Definition batch_demo : list obj := [Queue.upd 7; Queue.upd 9].

Definition taken_demo : list httpRequest * Manager :=
  default ([], one_bot) (take_batch 5 6 no_faults no_faults (λ _, 0%Q) 1 demo_poller demo_session batch_demo one_bot).

