(* ===== verification/BotProxy.v ===== *)
(** * The Bot API proxy (internal/botapi/proxy.go)

    One consumer request: gateway-owned methods, idempotency, auto-typing
    bookkeeping, the paid lane, admission through the rate guard, the upstream
    call and what is learnt from its answer.  A request runs against the shared
    manager state; what it cannot know (clock readings, statement faults, the
    upstream's answers, what other goroutines do while it sleeps) is the
    [call_env] argument.  [None] results: the environment script ended while
    the request was still waiting. *)
From Stdlib Require Import QArith Lqa Ascii String.
From stdpp Require Import base list strings gmap.
From S2P Require Import Prelude GoValue Sql Health Idempotency Crypto Config RateGuard Http Typing BotSession.
From S2P Require Queue GatewayStore.
Open Scope Z_scope.

(** ** Small helpers of the source *)

Record gwResponse := { status : Z; jsonBody : obj; raw : option json_text }.

Definition jsonResp (status_ : Z) (body : obj) : gwResponse :=
  {| status := status_; jsonBody := body; raw := None |}.

Definition withStatus (status_ : Z) (r : gwResponse) : gwResponse :=
  {| status := status_; jsonBody := jsonBody r; raw := raw r |}.

Definition isRaw (r : gwResponse) : bool := bool_decide (is_Some (raw r)).

Definition truthyBool (v : any) : bool := match v with ABool b => b | _ => false end.

Definition isFalseBool (v : any) : bool := match v with ABool b => negb b | _ => false end.

Definition truthy (v : any) : bool := truthyBool v.

Definition nullableInt (p : option Z) : any := match p with Some n => AInt64 n | None => ANil end.

Definition isNumeric (s : string) : bool :=
  match s with
  | EmptyString => false
  | String c s' =>
      if (c =? "-")%char then negb (s' =? "")%string && all_digits s' else all_digits s
  end.

Fixpoint first_chat (keys : list string) (body : obj) : any :=
  match keys with
  | [] => ANil
  | k :: keys' =>
      let v := mget1 body k in
      if negb (is_nil v) && negb (truthyBool v) && negb (isFalseBool v) then v else first_chat keys' body
  end.

Definition extractChatID (body : obj) : option Z :=
  match first_chat ["chat_id"; "chat_username"; "chat"] body with
  | AFloat f => if Qeq_bool f (inject_Z (f2i f)) then Some (f2i f) else None
  | AInt n => Some n
  | AInt64 n => Some n
  | AStr s => if isNumeric s then parse_int64 s else None
  | _ => None
  end.

(** The multipart chat_id field: the literal [name="chat_id"], two line ends
    (carriage return optional), an optionally signed number, a line end. *)
Definition dquote : string := String (chr 34) "".

Definition chat_field : string := "name=" +:+ dquote +:+ "chat_id" +:+ dquote.

Definition line_end (s : string) : option string :=
  let s := match s with String c s' => if code c =? 13 then s' else s | EmptyString => s end in
  match s with String c s' => if code c =? 10 then Some s' else None | EmptyString => None end.

Definition match_chat (s : string) : option string :=
  if has_prefix chat_field s then
    match line_end (sdrop (String.length chat_field) s) with
    | None => None
    | Some s =>
        match line_end s with
        | None => None
        | Some s =>
            let '(sg, s) := match s with String "-" s' => ("-", s') | _ => ("", s) end in
            let '(ds, s) := span_text s in
            if (ds =? "")%string then None
            else match line_end s with Some _ => Some (sg +:+ ds) | None => None end
        end
    end
  else None.

Fixpoint multipartChatIDRe (s : string) : option string :=
  match match_chat s with
  | Some r => Some r
  | None => match s with EmptyString => None | String _ s' => multipartChatIDRe s' end
  end.

Definition too_many (retry : Q) : gwResponse :=
  jsonResp 429 [("ok", ABool false); ("error_code", AInt 429);
    ("description", AStr ("Too Many Requests: retry after " +:+ itoa (f2i retry)));
    ("parameters", AMap [("retry_after", AInt (f2i retry))])].

Definition queue_exceeded : gwResponse :=
  jsonResp 429 [("ok", ABool false); ("error_code", AInt 429);
    ("description", AStr "Queue wait exceeded GW_QUEUE_WAIT_TIMEOUT");
    ("parameters", AMap [("retry_after", AInt 1)])].

Definition replayed : gwResponse :=
  jsonResp 200 [("ok", ABool true); ("result", ANil); ("idempotent_replay", ABool true);
    ("description", AStr "duplicate send suppressed (Idempotency-Key already seen)")].

Definition ok_true : gwResponse := jsonResp 200 [("ok", ABool true); ("result", ABool true)].

Definition bad_gateway (err : string) : gwResponse :=
  jsonResp 502 [("ok", ABool false); ("error_code", AInt 502); ("description", AStr ("upstream: " +:+ err))].

(** ** The environment of a request *)

(** One turn of the admission loop: the clock readings of its two guard calls
    (and of a bucket they create), what other goroutines do during the sleep
    and whether the request is cancelled meanwhile. *)
Record tick := {
  t_try : Q; t_try_born : Q; t_wait : Q; t_wait_born : Q; t_others : Manager → Manager; t_done : bool
}.

(** [client] and [during]: the upstream's answer to call number n (0 the
    getChat lookup, 1 the forwarded request) and what other goroutines do while
    it is in flight; number 2 is the long poll of getUpdates. *)
Record call_env := {
  client : nat → httpRequest → string + httpResponse;
  during : nat → Manager → Manager;
  ticks : list tick;
  claim_at : Z; claim_faults : faults;
  settle_at : Z; settle_faults : faults;
  answer_mono : Q; answer_born : Q; answer_wall : Z; ledger_faults : faults;
  pull_at : Z; pull_faults : faults; pull_events : list (Z * Queue.wakeup)
}.

(** Through the session pointer. *)
Definition upd_sess (i : nat) (f : BotSession → BotSession) (mg : Manager) : Manager :=
  match objs mg !! i with Some s => set_obj mg i (f s) | None => mg end.

Definition upd_typing (f : TypingManager → TypingManager) (mg : Manager) : Manager := set_typing mg (f (typing mg)).

Definition upd_store (f : GatewayStore.gateway → GatewayStore.gateway) (mg : Manager) : Manager :=
  set_store mg (f (gstore mg)).

Definition set_last429 (l : obj) (s : BotSession) : BotSession :=
  upd_diag (connectedSince s) (lastError s) (real429 s) (synth429 s) (Some l) s.

(** The retry_after of a 429 body, 5 s when it has none. *)
Definition retry_of (t : json_text) : Q :=
  match json_unmarshal t with
  | Some parsed =>
      match mget1 parsed "parameters" with
      | AMap params => let v := numberOf (mget1 params "retry_after") in if qlt 0 v then v else 5
      | _ => 5
      end
  | None => 5
  end.

(** What an upstream answer teaches: a 429 pauses the chat in the guard and in
    the ledger. *)
Definition learn (e : call_env) (i : nat) (s : BotSession) (method : string) (chatID : option Z)
    (resp : httpResponse) (mg : Manager) : Manager :=
  if StatusCode resp =? 429 then
    let retry := retry_of (RBody resp) in
    let mg := upd_sess i (λ s, upd_guard (Report429 (answer_mono e) (answer_born e) chatID retry (guard s))
                                 (noteReal429 s)) mg in
    let mg := upd_store (RecordBackoff (answer_wall e) (ledger_faults e) s chatID retry) mg in
    upd_sess i (set_last429 [("method", AStr method); ("chat_id", nullableInt chatID);
                             ("retry_after", AFloat retry); ("at", AFloat (secs (answer_wall e)))]) mg
  else mg.

Definition passthrough (resp : httpResponse) : gwResponse :=
  {| status := StatusCode resp; jsonBody := []; raw := Some (RBody resp) |}.

(** ** Admission *)

Inductive admission := Granted | Refused (r : gwResponse).

(** The admission loop of [admitAndForward]; the [Q] is [waited]. *)
Fixpoint admission_loop (timeout : Q) (i : nat) (m : string) (chatID : option Z) (kind : string) (waited : Q)
    (ks : list tick) (mg : Manager) : option (admission * Q * Manager) :=
  match ks with
  | [] => None
  | k :: ks' =>
      match objs mg !! i with
      | None => None
      | Some s =>
          let '(ok, g) := TryAcquire (t_try k) (t_try_born k) m chatID (guard s) in
          let s := upd_guard g s in
          if ok then Some (Granted, waited, set_obj mg i s) else
          let '(w, g) := WaitTime (t_wait k) (t_wait_born k) m chatID (guard s) in
          let s := upd_guard g s in
          if (EffectiveOnLimit s =? "reject")%string || negb (kind =? "write")%string then
            Some (Refused (too_many (fmax 1 (fmin w 60))), waited, set_obj mg i (noteSynthetic429 s))
          else
            let wait := fmin w 2 in
            if qlt timeout (waited + wait)%Q
            then Some (Refused queue_exceeded, waited, set_obj mg i (noteSynthetic429 s))
            else
              let mg := t_others k (set_obj mg i s) in
              if t_done k then Some (Refused queue_exceeded, waited, mg)
              else admission_loop timeout i m chatID kind (waited + wait)%Q ks' mg
      end
  end.

Definition result : Type := gwResponse * list httpRequest * Manager.

(** The upstream call of an admitted JSON request. *)
Definition forward (e : call_env) (i : nat) (s : BotSession) (method : string) (body : obj)
    (chatID : option Z) (kind : string) (mg : Manager) : result :=
  match json_marshal body with
  | None => (jsonResp 500 [("ok", ABool false); ("error_code", AInt 500); ("description", AStr "json")], [], mg)
  | Some raw =>
      let req := raw_post ("/bot" +:+ Token s +:+ "/" +:+ method) (PJson raw) "" in
      let mg := during e 1%nat mg in
      match client e 1%nat req with
      | inl err => (bad_gateway err, [req], mg)
      | inr resp =>
          let mg := if (kind =? "write")%string then upd_sess i (noteSend (secs (answer_wall e))) mg else mg in
          (passthrough resp, [req], learn e i s method chatID resp mg)
      end
  end.

Definition admitAndForward (e : call_env) (timeout : Q) (i : nat) (s : BotSession) (m method : string)
    (body : obj) (chatID : option Z) (kind : string) (mg : Manager) : option result :=
  match admission_loop timeout i m chatID kind 0 (ticks e) mg with
  | None => None
  | Some (Refused r, _, mg) => Some (r, [], mg)
  | Some (Granted, _, mg) => Some (forward e i s method body chatID kind mg)
  end.

(** ** The other entry points *)

(** One admission attempt, as the raw and multipart paths make it. *)
Definition admit_once (k : tick) (i : nat) (m : string) (chatID : option Z) (mg : Manager)
    : option (admission * Manager) :=
  match objs mg !! i with
  | None => None
  | Some s =>
      let '(ok, g) := TryAcquire (t_try k) (t_try_born k) m chatID (guard s) in
      let s := upd_guard g s in
      if ok then Some (Granted, set_obj mg i s) else
      let '(w, g) := WaitTime (t_wait k) (t_wait_born k) m chatID (guard s) in
      Some (Refused (too_many (fmax 1 (fmin w 60))), set_obj mg i (noteSynthetic429 (upd_guard g s)))
  end.

(** [prefix] is what was read to find the chat; [body] the whole upload. *)
Definition forwardMultipart (e : call_env) (k : tick) (i : nat) (s : BotSession) (method prefix body : string)
    (total : Z) (contentType : string) (mg : Manager) : option result :=
  let chatID := match multipartChatIDRe prefix with Some d => parse_int64 d | None => None end in
  let mg := upd_typing (Stop (tsess s) chatID) mg in
  match admit_once k i method chatID mg with
  | None => None
  | Some (Refused r, mg) => Some (r, [], mg)
  | Some (Granted, mg) =>
      let req := {| Method := "POST"; URL := "/bot" +:+ Token s +:+ "/" +:+ method; Body := None;
                    RawBody := None; Reader := Some (body, total); ContentType := contentType |} in
      let mg := during e 1%nat mg in
      match client e 1%nat req with
      | inl err => Some (bad_gateway err, [req], mg)
      | inr resp =>
          Some (passthrough resp, [req],
                learn e i s method chatID resp (upd_sess i (noteSend (secs (answer_wall e))) mg))
      end
  end.

Definition ForwardStream (e : call_env) (k : tick) (i : nat) (s : BotSession) (method prefix rest : string)
    (total : Z) (contentType : string) (mg : Manager) : option result :=
  forwardMultipart e k i s method prefix (prefix +:+ rest) total contentType mg.

Definition forwardRaw (e : call_env) (k : tick) (i : nat) (s : BotSession) (method raw contentType : string)
    (mg : Manager) : option result :=
  forwardMultipart e k i s method raw raw (Z.of_nat (String.length raw)) contentType mg.

Definition CallRawWithChat (e : call_env) (k : tick) (i : nat) (s : BotSession) (method raw contentType : string)
    (chatID : option Z) (idemKey : string) (mg : Manager) : option result :=
  let m := to_lower method in
  let kind := MethodKind m in
  let idemActive := negb (idemKey =? "")%string && (kind =? "write")%string in
  let '(verdict, g) := if idemActive
                       then GatewayStore.IdempotencyClaim (claim_at e) (claim_faults e) (Alias s) idemKey (gstore mg)
                       else ("", gstore mg) in
  let mg := set_store mg g in
  if idemActive && (verdict =? "replay")%string then Some (replayed, [], mg) else
  let mg := if (kind =? "write")%string then upd_typing (Stop (tsess s) chatID) mg else mg in
  match admit_once k i m chatID mg with
  | None => None
  | Some (Refused r, mg) => Some (r, [], mg)
  | Some (Granted, mg) =>
      let req := raw_post ("/bot" +:+ Token s +:+ "/" +:+ method) (PBytes raw) contentType in
      let ans := client e 1%nat req in
      let mg := during e 1%nat mg in
      let mg := if idemActive then
                  upd_store (match ans with
                             | inl _ => GatewayStore.IdempotencyFail (settle_faults e) (Alias s) idemKey
                             | inr resp =>
                                 if 500 <=? StatusCode resp
                                 then GatewayStore.IdempotencyFail (settle_faults e) (Alias s) idemKey
                                 else GatewayStore.IdempotencyFinish (settle_at e) (settle_faults e) (Alias s) idemKey
                             end) mg
                else mg in
      match ans with
      | inl err => Some (bad_gateway err, [req], mg)
      | inr resp =>
          Some (passthrough resp, [req],
                learn e i s m chatID resp (upd_sess i (noteSend (secs (answer_wall e))) mg))
      end
  end.

Definition internalGetUpdates (e : call_env) (i : nat) (body : obj) (mg : Manager) : option result :=
  let timeout := fmin (numberOf (mget1 body "timeout")) 50 in
  let limit_ := f2i (numberOf (mget1 body "limit")) in
  let limit_ := if limit_ =? 0 then 100 else limit_ in
  let offset := match mget1 body "offset" with
                | AFloat n => Some (f2i n)
                | AInt64 n => Some n
                | AStr s => parse_int64 s
                | _ => None
                end in
  let wait := if qle timeout 0 then (1 # 100)%Q else timeout in
  match objs mg !! i with
  | None => None
  | Some s =>
      let '(out, q, w) := Queue.Pull offset wait limit_ (pull_at e) (pull_faults e) (queue s) (qworld mg) (pull_events e) in
      match out with
      | None => None
      | Some updates =>
          Some (jsonResp 200 [("ok", ABool true); ("result", AList (AMap <$> updates))], [],
                during e 2%nat (set_obj (set_world mg w) i (upd_queue q s)))
      end
  end.

(** The numeric id of a getChat answer. *)
Definition chat_of_answer (t : json_text) : option Z :=
  match json_unmarshal t with
  | Some parsed =>
      if truthyBool (mget1 parsed "ok") then
        match mget1 parsed "result" with
        | AMap r => let n := numberOf (mget1 r "id") in if Qeq_bool n 0 then None else Some (f2i n)
        | _ => None
        end
      else None
  | None => None
  end.

Definition resolveUsernameChat (e : call_env) (i : nat) (s : BotSession) (body : obj) (mg : Manager)
    : obj * list httpRequest * Manager :=
  match mget1 body "chat_id" with
  | AStr cid =>
      if negb (has_prefix "@" cid) then (body, [], mg) else
      match match objs mg !! i with Some s => chatNameCache s !! cid | None => None end with
      | Some cached => (mset body "chat_id" (AInt64 cached), [], mg)
      | None =>
          let req := json_post ("/bot" +:+ Token s +:+ "/getChat") [("chat_id", AStr cid)] in
          let mg := during e 0%nat mg in
          match client e 0%nat req with
          | inl _ => (body, [req], mg)
          | inr resp =>
              match chat_of_answer (RBody resp) with
              | Some n => (mset body "chat_id" (AInt64 n), [req],
                           upd_sess i (λ s, upd_cache (<[cid := n]> (chatNameCache s)) s) mg)
              | None => (body, [req], mg)
              end
          end
      end
  | _ => (body, [], mg)
  end.

(** Auto-typing bookkeeping: [Some] answers the request locally. *)
Definition typing_stage (s : BotSession) (m kind : string) (body : obj) (chatID : option Z) (mg : Manager)
    : option gwResponse * Manager :=
  if (m =? "sendchataction")%string then
    let action := to_lower (toStr (mget1 body "action")) in
    if (action =? "cancel")%string then (Some ok_true, upd_typing (Stop (tsess s) chatID) mg)
    else if (action =? "cancel_timeout")%string
    then (Some ok_true, upd_typing (λ t, (CancelTimeout (tsess s) chatID t).2) mg)
    else (None, upd_typing (Stop (tsess s) chatID) mg)
  else if (m =? "answercallbackquery")%string
  then (None, upd_typing (StopByCallbackID (tsess s) (mget1 body "callback_query_id")) mg)
  else if (kind =? "write")%string && bool_decide (is_Some chatID)
  then (None, upd_typing (Stop (tsess s) chatID) mg)
  else (None, mg).

Definition leave_paid (i : nat) (mg : Manager) : Manager :=
  upd_sess i (λ s, upd_guard (ExitPaidLane (guard s)) s) mg.

Definition fail_key (e : call_env) (s : BotSession) (idemKey : string) (mg : Manager) : Manager :=
  upd_store (GatewayStore.IdempotencyFail (settle_faults e) (Alias s) idemKey) mg.

Definition finish_key (e : call_env) (s : BotSession) (idemKey : string) (mg : Manager) : Manager :=
  upd_store (GatewayStore.IdempotencyFinish (settle_at e) (settle_faults e) (Alias s) idemKey) mg.

(** From the paid-lane decision to the end; [defer ExitPaidLane] runs last. *)
Definition paid_stage (e : call_env) (timeout : Q) (i : nat) (s : BotSession) (m method : string) (body : obj)
    (chatID : option Z) (kind : string) (idemActive : bool) (idemKey : string) (mg : Manager) : option result :=
  let paidRequested := truthy (mget1 body "allow_paid_broadcast") in
  let mg := upd_sess i (λ s, upd_guard (EnterPaidLane paidRequested (guard s)) s) mg in
  if paidRequested && negb (PaidBroadcasts s) then
    let mg := if idemActive then fail_key e s idemKey mg else mg in
    Some (jsonResp 403 [("ok", ABool false); ("error_code", AInt 403);
      ("description", AStr "allow_paid_broadcast requires the gateway-side paid_broadcasts opt-in for this bot")],
      [], leave_paid i mg)
  else
    match admitAndForward e timeout i s m method body chatID kind mg with
    | None => None
    | Some (r, reqs, mg) =>
        let mg := if idemActive then if status r <? 400 then finish_key e s idemKey mg else fail_key e s idemKey mg
                  else mg in
        Some (r, reqs, leave_paid i mg)
    end.

(** After the ownership check. *)
Definition call_open (e : call_env) (timeout : Q) (i : nat) (s : BotSession) (m method : string) (body : obj)
    (idemKey : string) (mg : Manager) : option result :=
  let chatID := extractChatID body in
  let kind := MethodKind m in
  let idemActive := negb (idemKey =? "")%string && (kind =? "write")%string in
  let '(verdict, g) := if idemActive
                       then GatewayStore.IdempotencyClaim (claim_at e) (claim_faults e) (Alias s) idemKey (gstore mg)
                       else ("", gstore mg) in
  let mg := set_store mg g in
  if idemActive && (verdict =? "replay")%string then Some (replayed, [], mg) else
  match typing_stage s m kind body chatID mg with
  | (Some r, mg) => Some (r, [], mg)
  | (None, mg) => paid_stage e timeout i s m method body chatID kind idemActive idemKey mg
  end.

(** [Call]; [timeout] is the proxy's [queueWaitTimeout], [s] the session
    object [i] as the caller found it. *)
Definition Call (e : call_env) (k : tick) (timeout : Q) (i : nat) (s : BotSession) (method : string) (body : obj)
    (contentType : string) (rawBody : option string) (idemKey : string) (mg : Manager) : option result :=
  let m := to_lower method in
  match rawBody with
  | Some raw => forwardRaw e k i s method raw contentType mg
  | None =>
      let '(body, reqs, mg) := resolveUsernameChat e i s body mg in
      let out :=
        if gatewayOwned m then
          if (m =? "getupdates")%string then internalGetUpdates e i body mg
          else if (m =? "deletewebhook")%string then Some (ok_true, [], mg)
          else Some (withStatus 403 (jsonResp 200 [("ok", ABool false); ("error_code", AInt 403);
                 ("description", AStr "Conflict: gateway owns this method (spec §4.6)")]), [], mg)
        else call_open e timeout i s m method body idemKey mg in
      match out with
      | None => None
      | Some (r, reqs', mg) => Some (r, reqs ++ reqs', mg)
      end
  end.

(** ** Admission: bounded and terminating *)

Lemma admit_bounded timeout i m chatID kind waited ks mg v w mg' :
  admission_loop timeout i m chatID kind waited ks mg = Some (v, w, mg') →
  (waited <= timeout)%Q → (w <= timeout)%Q ∧ (∀ r, v = Refused r → status r = 429).
Proof.
  revert waited mg. induction ks as [|k ks IH]; intros waited mg; cbn [admission_loop]; [done|].
  destruct (objs mg !! i) as [s|]; [|done].
  destruct (TryAcquire _ _ _ _ _) as [[] g]; [by intros [= <- <- <-]|].
  destruct (WaitTime _ _ _ _ _) as [wt g']. destruct (_ || _).
  { intros [= <- <- <-] Hw. split; [done|]. by intros r [= <-]. }
  destruct (qltP timeout (waited + fmin wt 2)) as [Hlt|Hge].
  { intros [= <- <- <-] Hw. split; [done|]. by intros r [= <-]. }
  destruct (t_done k).
  { intros [= <- <- <-] Hw. split; [done|]. by intros r [= <-]. }
  intros E _. eapply IH; [exact E|lra].
Qed.

(** A queued write never waits longer than GW_QUEUE_WAIT_TIMEOUT: however
    the admission loop ends (admitted, refused or cancelled), and whatever
    other requests do to the guard meanwhile, the time it slept is at most the
    timeout, and a refusal is always a 429. *)
Theorem queue_wait_bounded timeout i m chatID kind ks mg v w mg' :
  (0 <= timeout)%Q → admission_loop timeout i m chatID kind 0 ks mg = Some (v, w, mg') →
  (w <= timeout)%Q ∧ (∀ r, v = Refused r → status r = 429).
Proof. intros H0 E. by eapply admit_bounded. Qed.

(** A request alone on the guard: nobody else touches it during the sleeps, it
    is not cancelled, and no timer fires early. *)
Definition alone (ks : list tick) : Prop :=
  Forall (λ k, t_done k = false ∧ ∀ mg, t_others k mg = mg) ks.

Fixpoint timely (m : string) (chatID : option Z) (ks : list tick) (g : Guard) : Prop :=
  match ks with
  | k :: rest =>
      let g1 := (TryAcquire (t_try k) (t_try_born k) m chatID g).2 in
      let wg := WaitTime (t_wait k) (t_wait_born k) m chatID g1 in
      (0 <= t_wait k)%Q ∧
      (∀ k', head rest = Some k' → (t_wait k + fmin wg.1 2 <= t_try k')%Q) ∧
      timely m chatID rest wg.2
  | [] => True
  end.

Lemma admit_settles timeout i m chatID kind waited ks mg s (n : nat) :
  objs mg !! i = Some s → guard_ok chatID (guard s) → paidLane (guard s) = false →
  alone ks → timely m chatID ks (guard s) →
  (timeout - waited < 2 * inject_Z (Z.of_nat n))%Q → (n < length ks)%nat →
  is_Some (admission_loop timeout i m chatID kind waited ks mg).
Proof.
  revert waited ks mg s. induction n as [|n IH]; intros waited ks mg s Ho Hg Hl Ha Ht Hn Hlen;
    (destruct ks as [|k ks]; [simpl in Hlen; lia|]); cbn [admission_loop timely] in *; rewrite Ho;
    destruct (TryAcquire_stays (t_try k) (t_try_born k) m chatID (guard s) Hg) as [Hg1 Hl1];
    destruct (TryAcquire (t_try k) (t_try_born k) m chatID (guard s)) as [[] g1]; try done; simpl in *;
    pose proof (WaitTime_nonneg (t_wait k) (t_wait_born k) m chatID g1) as Hw0;
    destruct (WaitTime_stays (t_wait k) (t_wait_born k) m chatID g1 Hg1) as [Hg2 Hl2];
    pose proof (λ n' b', wait_long_enough (t_wait k) n' (t_wait_born k) b' m chatID g1) as Hwait;
    destruct (WaitTime (t_wait k) (t_wait_born k) m chatID g1) as [w g2]; simpl in *;
    destruct (_ || _); try done;
    destruct (qltP timeout (waited + fmin w 2)) as [Hlt|Hge]; try done.
  { exfalso. unfold fmin in Hge. destruct (qleP w 2); change (inject_Z (Z.of_nat 0)) with 0%Q in Hn; lra. }
  destruct Ht as (Ht0 & Htn & Ht). apply Forall_cons in Ha as [[-> He] Ha]. rewrite He.
  destruct ks as [|k' ks]; [simpl in Hlen; lia|]. specialize (Htn k' eq_refl).
  unfold fmin in *. destruct (qleP w 2) as [Hw2|Hw2].
  - cbn [admission_loop]. simpl. rewrite lookup_insert_eq. simpl.
    specialize (Hwait (t_try k') (t_try_born k') Ht0 Hg1 ltac:(congruence) Htn).
    destruct (TryAcquire (t_try k') (t_try_born k') m chatID g2) as [ok g3]. simpl in Hwait. by subst ok.
  - eapply IH; [simpl; apply lookup_insert_eq|done|simpl; congruence|done|done| |simpl in *; lia].
    rewrite Nat2Z.inj_succ in Hn. unfold Z.succ in Hn. rewrite inject_Z_plus in Hn.
    change (inject_Z 1) with 1%Q in Hn. lra.
Qed.


(** ** What reaches Telegram *)

Lemma resolve_requests e i s body mg b reqs mg' :
  resolveUsernameChat e i s body mg = (b, reqs, mg') →
  Forall (λ r, URL r = "/bot" +:+ Token s +:+ "/getChat") reqs ∧
  (gstore mg' = gstore mg ∨ gstore mg' = gstore (during e 0%nat mg)).
Proof.
  unfold resolveUsernameChat, upd_sess. intros E.
  repeat match type of E with context [match ?x with _ => _ end] => destruct x end;
    injection E as <- <- <-; split_ands; simpl; auto.
Qed.

(** Gateway-owned methods are answered locally: a JSON or form call of
    getUpdates, setWebhook, deleteWebhook, logOut or close (any letter case)
    sends nothing upstream but the getChat lookup of an @username, takes no
    send token and, unless another goroutine touches them, leaves the
    idempotency keys, the ledger and the bots alone. *)
Theorem owned_methods_stay_home e k timeout i s method body ct idemKey mg r reqs mg' :
  gatewayOwned (to_lower method) = true → (∀ n mg, gstore (during e n mg) = gstore mg) →
  Call e k timeout i s method body ct None idemKey mg = Some (r, reqs, mg') →
  Forall (λ q, URL q = "/bot" +:+ Token s +:+ "/getChat") reqs ∧ gstore mg' = gstore mg.
Proof.
  intros Ho Hd. unfold Call. destruct (resolveUsernameChat e i s body mg) as [[b rq] mg1] eqn:E.
  apply resolve_requests in E as (Hr & Hg). rewrite Hd in Hg. rewrite Ho.
  destruct (_ =? "getupdates")%string.
  - unfold internalGetUpdates. destruct (objs mg1 !! i) as [s1|]; [|done].
    destruct (Queue.Pull _ _ _ _ _ _ _ _) as [[[out|] q] w]; [|done].
    intros [= <- <- <-]. rewrite app_nil_r, Hd. by destruct Hg.
  - destruct (_ =? "deletewebhook")%string; intros [= <- <- <-]; rewrite app_nil_r; by destruct Hg.
Qed.

(** The multipart path skips the ownership check: a multipart request whose
    method is gateway-owned is forwarded to Telegram as soon as the guard
    admits it. *)
Theorem multipart_bypasses_ownership e k timeout i s s0 method body ct rb idemKey mg :
  gatewayOwned (to_lower method) = true → objs mg !! i = Some s0 → multipartChatIDRe rb = None →
  (TryAcquire (t_try k) (t_try_born k) method None (guard s0)).1 = true →
  ∃ r mg' q, Call e k timeout i s method body ct (Some rb) idemKey mg = Some (r, [q], mg') ∧
    URL q = "/bot" +:+ Token s +:+ "/" +:+ method ∧ Reader q = Some (rb, Z.of_nat (String.length rb)).
Proof.
  intros _ Ho Hre Ht. unfold Call, forwardRaw, forwardMultipart, admit_once. rewrite Hre. simpl. rewrite Ho.
  destruct (TryAcquire _ _ _ _ _) as [ok g]; simpl in Ht; subst ok.
  destruct (client e 1%nat _) as [err|resp]; by eauto 10.
Qed.

(** ** Idempotency of a send *)

Lemma upd_sess_store i f mg : gstore (upd_sess i f mg) = gstore mg ∧ pollers (upd_sess i f mg) = pollers mg.
Proof. unfold upd_sess. by destruct (objs mg !! i). Qed.

Lemma typing_stage_store s m kind body chatID mg : gstore (typing_stage s m kind body chatID mg).2 = gstore mg.
Proof. unfold typing_stage. repeat case_match; done. Qed.

(** The other goroutines leave this send's key alone. *)
Definition spares (alias key : string) (f : Manager → Manager) : Prop :=
  ∀ mg, GatewayStore.store_ok (gstore mg) →
    GatewayStore.store_ok (gstore (f mg)) ∧
    entry_view (GatewayStore.idempotency_keys (gstore (f mg))) (alias, key) =
    entry_view (GatewayStore.idempotency_keys (gstore mg)) (alias, key).

Definition others_spare (alias key : string) (e : call_env) : Prop :=
  Forall (λ k, spares alias key (t_others k)) (ticks e) ∧ ∀ n, spares alias key (during e n).

Definition key_state (alias key : string) (mg : Manager) : option entry :=
  entry_view (GatewayStore.idempotency_keys (gstore mg)) (alias, key).

Lemma admit_key timeout i m chatID kind waited ks mg v w mg' alias key :
  Forall (λ k, spares alias key (t_others k)) ks → GatewayStore.store_ok (gstore mg) →
  admission_loop timeout i m chatID kind waited ks mg = Some (v, w, mg') →
  GatewayStore.store_ok (gstore mg') ∧ key_state alias key mg' = key_state alias key mg.
Proof.
  revert waited mg. induction ks as [|k ks IH]; intros waited mg Hs Hok; cbn [admission_loop]; [done|].
  destruct (objs mg !! i) as [s|]; [|done].
  destruct (TryAcquire _ _ _ _ _) as [[] g]; [by intros [= <- <- <-]|].
  destruct (WaitTime _ _ _ _ _) as [wt g']. destruct (_ || _); [by intros [= <- <- <-]|].
  destruct (qlt _ _); [by intros [= <- <- <-]|]. apply Forall_cons in Hs as [Hk Hs].
  set (mg1 := set_obj _ _ _). destruct (Hk mg1) as [Hok1 Hv]; [done|].
  assert (key_state alias key (t_others k mg1) = key_state alias key mg) as Hv' by (unfold key_state; by rewrite Hv).
  destruct (t_done k); [by intros [= <- <- <-]|].
  intros E. destruct (IH _ _ Hs Hok1 E) as [H1 H2]. split; [done|]. by rewrite H2.
Qed.

Lemma learn_key e i s method chatID resp mg alias key :
  GatewayStore.store_ok (gstore mg) →
  GatewayStore.store_ok (gstore (learn e i s method chatID resp mg)) ∧
  key_state alias key (learn e i s method chatID resp mg) = key_state alias key mg.
Proof.
  intros Hok. unfold learn. destruct (_ =? 429); [|done]. cbn zeta. unfold key_state.
  rewrite !(proj1 (upd_sess_store _ _ _)). simpl. rewrite !(proj1 (upd_sess_store _ _ _)).
  unfold RecordBackoff. split; [by apply GatewayStore.save_ok|].
  unfold GatewayStore.SaveBackoff. by destruct (ledger_faults e 0%nat).
Qed.

Lemma claim_key now f alias key g :
  GatewayStore.store_ok g →
  let '(v, g') := GatewayStore.IdempotencyClaim now f alias key g in
  GatewayStore.store_ok g' ∧
  (v = "replay" ∨ entry_view (GatewayStore.idempotency_keys g') (alias, key) = Some (Pending, secs now)).
Proof.
  intros Hok. pose proof (@idem_claim_law _ GatewayStore.gateway_idem now f alias key g (GatewayStore.ok_idem _ Hok)) as (_ & Hv & Hk).
  assert (GatewayStore.store_ok (GatewayStore.IdempotencyClaim now f alias key g).2) as Hok'
    by (eapply (GatewayStore.gateway_call_ok (H := toy_fernet)); [constructor|done]).
  specialize (Hk (alias, key)). rewrite decide_True in Hk by done. simpl in Hv, Hk.
  destruct (GatewayStore.IdempotencyClaim now f alias key g) as [v g']. simpl in *. split; [done|].
  rewrite Hk, Hv. unfold claim_entry. destruct (if f 0%nat then _ else _) as [[st t]|].
  - destruct (negb (f 2%nat) && _) eqn:E; [right|by left].
    by apply andb_true_iff in E as [_ [->%bool_decide_eq_true _]%andb_true_iff].
  - destruct (f 1%nat); [by left|by right].
Qed.

Lemma finish_key_state e s key mg :
  GatewayStore.store_ok (gstore mg) → settle_faults e 0%nat = false →
  is_Some (key_state (Alias s) key mg) →
  key_state (Alias s) key (finish_key e s key mg) = Some (Done, secs (settle_at e)).
Proof.
  intros Hok Hf [[st t] Hs].
  pose proof (@idem_finish_law _ GatewayStore.gateway_idem (settle_at e) (settle_faults e) (Alias s) key (gstore mg) (GatewayStore.ok_idem _ Hok))
    as (_ & Hk). specialize (Hk (Alias s, key)). rewrite decide_True in Hk by done. simpl in Hk.
  unfold key_state, finish_key in *. simpl. rewrite Hk, Hs. simpl. by rewrite Hf.
Qed.

Lemma fail_key_state e s key mg t :
  GatewayStore.store_ok (gstore mg) → settle_faults e 0%nat = false →
  key_state (Alias s) key mg = Some (Pending, t) → key_state (Alias s) key (fail_key e s key mg) = None.
Proof.
  intros Hok Hf Hs.
  pose proof (@idem_fail_law _ GatewayStore.gateway_idem (settle_faults e) (Alias s) key (gstore mg) (GatewayStore.ok_idem _ Hok))
    as (_ & Hk). specialize (Hk (Alias s, key)). rewrite decide_True in Hk by done. simpl in Hk.
  unfold key_state, fail_key in *. simpl. rewrite Hk, Hs. simpl. by rewrite Hf.
Qed.

Lemma key_state_sess alias key i f mg : key_state alias key (upd_sess i f mg) = key_state alias key mg.
Proof. unfold key_state. by rewrite (proj1 (upd_sess_store _ _ _)). Qed.

Lemma admitAndForward_key e timeout i s m method body chatID kind mg r reqs mg' alias key :
  others_spare alias key e → GatewayStore.store_ok (gstore mg) →
  admitAndForward e timeout i s m method body chatID kind mg = Some (r, reqs, mg') →
  GatewayStore.store_ok (gstore mg') ∧ key_state alias key mg' = key_state alias key mg.
Proof.
  intros Hs Hok. unfold admitAndForward.
  destruct (admission_loop timeout i m chatID kind 0 (ticks e) mg) as [[[v w] mg1]|] eqn:E; [|done].
  destruct (admit_key _ _ _ _ _ _ _ _ _ _ _ _ _ (proj1 Hs) Hok E) as [Hok1 Hk1]. rewrite <-Hk1.
  destruct v as [|r0]; [|by intros [= <- <- <-]]. intros [= Hf]. unfold forward in Hf.
  destruct (json_marshal body); [|by injection Hf as <- <- <-].
  destruct (proj2 Hs 1%nat mg1 Hok1) as [Hokd Hkd].
  assert (key_state alias key (during e 1%nat mg1) = key_state alias key mg1) as Hkd' by exact Hkd. rewrite <-Hkd'.
  destruct (client e 1%nat _) as [err|resp]; [by injection Hf as <- <- <-|].
  set (mg2 := if (kind =? "write")%string then _ else _) in Hf.
  assert (GatewayStore.store_ok (gstore mg2) ∧ key_state alias key mg2 = key_state alias key (during e 1%nat mg1)) as [Hok2 Hk2].
  { unfold mg2. destruct (_ =? "write")%string; [|done].
    by rewrite key_state_sess, (proj1 (upd_sess_store _ _ _)). }
  injection Hf as <- <- <-. rewrite <-Hk2. by apply learn_key.
Qed.

Lemma paid_stage_settles e timeout i s m method body chatID kind key mg r reqs mg' t :
  others_spare (Alias s) key e → GatewayStore.store_ok (gstore mg) → settle_faults e 0%nat = false →
  key_state (Alias s) key mg = Some (Pending, t) →
  paid_stage e timeout i s m method body chatID kind true key mg = Some (r, reqs, mg') →
  key_state (Alias s) key mg' = if status r <? 400 then Some (Done, secs (settle_at e)) else None.
Proof.
  intros Hs Hok Hf Hk. unfold paid_stage. cbn zeta. set (mg1 := upd_sess i _ mg).
  assert (GatewayStore.store_ok (gstore mg1) ∧ key_state (Alias s) key mg1 = Some (Pending, t)) as [Hok1 Hk1].
  { unfold mg1. by rewrite key_state_sess, (proj1 (upd_sess_store _ _ _)). }
  destruct (truthy _ && _).
  { intros [= <- <- <-]. simpl. unfold leave_paid. rewrite key_state_sess. by eapply fail_key_state. }
  destruct (admitAndForward _ _ _ _ _ _ _ _ _ mg1) as [[[r0 reqs0] mg2]|] eqn:E; [|done].
  destruct (admitAndForward_key _ _ _ _ _ _ _ _ _ _ _ _ _ _ _ Hs Hok1 E) as [Hok2 Hk2]. rewrite Hk1 in Hk2.
  intros [= <- <- <-]. unfold leave_paid. rewrite key_state_sess.
  destruct (status r0 <? 400); [apply finish_key_state; [done|done|by rewrite Hk2]|by eapply fail_key_state].
Qed.

Lemma call_open_settles e timeout i s m method body key mg r reqs mg' :
  MethodKind m = "write" → m ≠ "sendchataction" → key ≠ "" →
  others_spare (Alias s) key e → GatewayStore.store_ok (gstore mg) → settle_faults e 0%nat = false →
  call_open e timeout i s m method body key mg = Some (r, reqs, mg') →
  (r = replayed ∧ reqs = []) ∨
  key_state (Alias s) key mg' = (if status r <? 400 then Some (Done, secs (settle_at e)) else None).
Proof.
  intros Hm Hact Hkey Hs Hok Hf. unfold call_open. rewrite Hm.
  destruct (String.eqb_spec key ""); [done|]. simpl.
  pose proof (claim_key (claim_at e) (claim_faults e) (Alias s) key (gstore mg) Hok) as Hc.
  destruct (GatewayStore.IdempotencyClaim _ _ _ _ _) as [v g]. destruct Hc as [Hok1 Hv].
  destruct (String.eqb_spec v "replay") as [|Hne]; [intros [= <- <- <-]; by left|]. destruct Hv as [|Hv]; [done|].
  pose proof (typing_stage_store s m "write" body (extractChatID body) (set_store mg g)) as Ht.
  assert ((typing_stage s m "write" body (extractChatID body) (set_store mg g)).1 = None) as Hn.
  { unfold typing_stage. destruct (String.eqb_spec m "sendchataction"); [done|].
    destruct (_ =? "answercallbackquery")%string; [done|]. by destruct (_ && _). }
  destruct (typing_stage _ _ _ _ _ _) as [o mg1]; simpl in *; subst o. intros E. right.
  eapply (paid_stage_settles _ _ _ _ _ _ _ _ _ _ mg1); [done|by rewrite Ht|done| |done].
  unfold key_state. by rewrite Ht.
Qed.

Lemma resolve_key e i s body mg b reqs mg' alias key :
  spares alias key (during e 0%nat) → GatewayStore.store_ok (gstore mg) →
  resolveUsernameChat e i s body mg = (b, reqs, mg') →
  GatewayStore.store_ok (gstore mg') ∧ key_state alias key mg' = key_state alias key mg.
Proof.
  intros Hs Hok E. apply resolve_requests in E as (_ & [Hg|Hg]); unfold key_state; rewrite Hg; [done|]. by apply Hs.
Qed.

(** Every keyed send settles its key: a write with an Idempotency-Key is
    either answered as a replay, with nothing sent, or leaves its key done
    exactly when its answer is below 400 and released otherwise, whatever the
    admission loop, the paid-lane check and the upstream did. *)
Theorem keyed_send_settles e k timeout i s method body ct key mg r reqs mg' :
  gatewayOwned (to_lower method) = false → MethodKind (to_lower method) = "write" →
  to_lower method ≠ "sendchataction" → key ≠ "" →
  others_spare (Alias s) key e → GatewayStore.store_ok (gstore mg) → settle_faults e 0%nat = false →
  Call e k timeout i s method body ct None key mg = Some (r, reqs, mg') →
  (r = replayed ∧ Forall (λ q, URL q = "/bot" +:+ Token s +:+ "/getChat") reqs) ∨
  key_state (Alias s) key mg' = (if status r <? 400 then Some (Done, secs (settle_at e)) else None).
Proof.
  intros Ho Hm Ha Hk Hs Hok Hf. unfold Call.
  destruct (resolveUsernameChat e i s body mg) as [[b rq] mg1] eqn:E.
  destruct (resolve_key _ _ _ _ _ _ _ _ _ key (proj2 Hs 0%nat) Hok E) as [Hok1 _].
  apply resolve_requests in E as (Hr & _). rewrite Ho.
  destruct (call_open _ _ _ _ _ _ _ _ mg1) as [[[r0 rq0] mg2]|] eqn:E; [|done]. intros [= <- <- <-].
  by eapply call_open_settles in E as [[-> ->]|Hst]; [left; rewrite app_nil_r|right|..].
Qed.

Lemma done_key_replays now f alias key g t :
  GatewayStore.store_ok g → entry_view (GatewayStore.idempotency_keys g) (alias, key) = Some (Done, t) →
  (secs now <= t + IdempotencyTTL)%Q → (GatewayStore.IdempotencyClaim now f alias key g).1 = "replay".
Proof.
  intros Hok Hv Ht.
  pose proof (@idem_claim_law _ GatewayStore.gateway_idem now f alias key g (GatewayStore.ok_idem _ Hok)) as (_ & Hc & _).
  simpl in Hc. rewrite Hc, Hv. unfold claim_entry, unexpired. rewrite (qlt_false t) by lra.
  destruct (f 0%nat); by destruct (_ && _) eqn:E; try done; rewrite andb_false_r in E.
Qed.

Lemma call_marks_done e k timeout i s method body ct key mg r reqs mg' :
  gatewayOwned (to_lower method) = false → MethodKind (to_lower method) = "write" → to_lower method ≠ "sendchataction" → key ≠ "" →
  others_spare (Alias s) key e → GatewayStore.store_ok (gstore mg) → settle_faults e 0%nat = false →
  Call e k timeout i s method body ct None key mg = Some (r, reqs, mg') → r ≠ replayed → status r < 400 →
  key_state (Alias s) key mg' = Some (Done, secs (settle_at e)).
Proof.
  intros Ho Hm Ha Hk Hs Hok Hf E1 Hr1 Hst. revert E1. unfold Call.
  destruct (resolveUsernameChat e i s body mg) as [[b rq] mg0] eqn:E.
  destruct (resolve_key _ _ _ _ _ _ _ _ _ key (proj2 Hs 0%nat) Hok E) as [Hok1 _]. rewrite Ho.
  destruct (call_open _ _ _ _ _ _ _ _ mg0) as [[[r0 rq0] mg4]|] eqn:E4; [|done]. intros [= -> <- ->].
  eapply call_open_settles in E4 as [[-> _]|Hs1]; [done| |try done..].
  by rewrite (proj2 (Z.ltb_lt _ _) Hst) in Hs1.
Qed.

(** A call whose key is done is answered as a replay, at once. *)
Lemma call_replays e k timeout i s method body ct key mg t :
  gatewayOwned (to_lower method) = false → MethodKind (to_lower method) = "write" → key ≠ "" →
  others_spare (Alias s) key e → GatewayStore.store_ok (gstore mg) →
  key_state (Alias s) key mg = Some (Done, t) → (secs (claim_at e) <= t + IdempotencyTTL)%Q →
  ∃ reqs mg', Call e k timeout i s method body ct None key mg = Some (replayed, reqs, mg') ∧
    Forall (λ q, URL q = "/bot" +:+ Token s +:+ "/getChat") reqs.
Proof.
  intros Ho Hm Hk Hs Hok Hkey Ht. unfold Call.
  destruct (resolveUsernameChat e i s body mg) as [[b rq] mg0] eqn:E.
  destruct (resolve_key _ _ _ _ _ _ _ _ _ key (proj2 Hs 0%nat) Hok E) as [Hok0 Hk0]. rewrite Hkey in Hk0.
  apply resolve_requests in E as (Hr & _). rewrite Ho. unfold call_open. rewrite Hm.
  destruct (String.eqb_spec key ""); [done|]. simpl.
  pose proof (done_key_replays (claim_at e) (claim_faults e) (Alias s) key (gstore mg0) _ Hok0 Hk0 Ht) as Hv.
  destruct (GatewayStore.IdempotencyClaim _ _ _ _ _) as [v g]. simpl in Hv. subst v. simpl.
  eexists _, _. split; [reflexivity|]. by rewrite app_nil_r.
Qed.

(** C7. Exactly once: after a keyed send whose answer was below 400, a second
    keyed call with the same key within 300 s (any method and body) is answered
    as a replay and nothing but a getChat lookup reaches Telegram, provided
    what happened in between left that key alone. *)
Theorem keyed_send_once e1 e2 k1 k2 timeout i s meth1 meth2 body1 body2 ct key mg r1 rq1 mg1 mg2 r2 rq2 mg3 :
  gatewayOwned (to_lower meth1) = false → MethodKind (to_lower meth1) = "write" →
  to_lower meth1 ≠ "sendchataction" → key ≠ "" →
  others_spare (Alias s) key e1 → GatewayStore.store_ok (gstore mg) → settle_faults e1 0%nat = false →
  Call e1 k1 timeout i s meth1 body1 ct None key mg = Some (r1, rq1, mg1) → r1 ≠ replayed → status r1 < 400 →
  GatewayStore.store_ok (gstore mg2) → key_state (Alias s) key mg2 = key_state (Alias s) key mg1 →
  gatewayOwned (to_lower meth2) = false → MethodKind (to_lower meth2) = "write" → others_spare (Alias s) key e2 →
  (secs (claim_at e2) <= secs (settle_at e1) + IdempotencyTTL)%Q →
  Call e2 k2 timeout i s meth2 body2 ct None key mg2 = Some (r2, rq2, mg3) →
  r2 = replayed ∧ Forall (λ q, URL q = "/bot" +:+ Token s +:+ "/getChat") rq2.
Proof.
  intros Ho Hm Ha Hk Hs Hok Hf E1 Hr1 Hst Hok2 Hkey Ho2 Hm2 Hs2 Ht E2.
  rewrite (call_marks_done e1 k1 timeout i s meth1 body1 ct key mg r1 rq1 mg1) in Hkey by done.
  destruct (call_replays e2 k2 timeout i s meth2 body2 ct key mg2 _ Ho2 Hm2 Hk Hs2 Hok2 Hkey Ht) as (rq & mg' & E & Hr).
  rewrite E2 in E. by injection E as -> -> ->.
Qed.

(** The verbatim form path loses sends: when the guard refuses a keyed form
    post, the client gets a 429 but the key stays claimed, so its retry within
    60 s is answered 200 as a duplicate although nothing was ever sent. *)
Theorem raw_refusal_loses_send e1 e2 k1 k2 i s method rb1 rb2 ct chatID key mg r1 rq1 mg1 :
  MethodKind (to_lower method) = "write" → key ≠ "" → GatewayStore.store_ok (gstore mg) →
  CallRawWithChat e1 k1 i s method rb1 ct chatID key mg = Some (r1, rq1, mg1) → rq1 = [] → r1 ≠ replayed →
  (secs (claim_at e1) <= secs (claim_at e2))%Q → (secs (claim_at e2) <= secs (claim_at e1) + StalePendingS)%Q →
  status r1 = 429 ∧
  ∃ mg2, CallRawWithChat e2 k2 i s method rb2 ct chatID key mg1 = Some (replayed, [], mg2).
Proof.
  intros Hm Hk Hok. unfold CallRawWithChat. rewrite Hm. destruct (String.eqb_spec key ""); [done|]. simpl.
  pose proof (claim_key (claim_at e1) (claim_faults e1) (Alias s) key (gstore mg) Hok) as Hc.
  destruct (GatewayStore.IdempotencyClaim _ _ _ _ (gstore mg)) as [v g]. destruct Hc as [Hok1 Hv].
  destruct (String.eqb_spec v "replay") as [|Hne]; [by intros [= <- <- <-]|]. destruct Hv as [|Hv]; [done|].
  unfold admit_once. simpl. destruct (objs mg !! i) as [s0|]; [|done].
  destruct (TryAcquire _ _ _ _ _) as [[] g1].
  { destruct (client e1 1%nat _); by intros [= <- <- <-]. }
  destruct (WaitTime _ _ _ _ _) as [w g2]. intros [= <- <- <-] _ _ Ht1 Ht2. split; [done|]. simpl.
  assert ((GatewayStore.IdempotencyClaim (claim_at e2) (claim_faults e2) (Alias s) key g).1 = "replay") as Hr.
  { pose proof (@idem_claim_law _ GatewayStore.gateway_idem (claim_at e2) (claim_faults e2) (Alias s) key g
      (GatewayStore.ok_idem _ Hok1)) as (_ & Hc & _).
    simpl in Hc. rewrite Hc, Hv. unfold claim_entry, unexpired, StalePendingS, IdempotencyTTL in *.
    rewrite (qlt_false (secs (claim_at e1))) by lra.
    destruct (claim_faults e2 0%nat); rewrite (qlt_false (secs (claim_at e1))) by lra;
      by rewrite andb_false_r. }
  destruct (GatewayStore.IdempotencyClaim _ _ _ _ g) as [v' g']. simpl in Hr. subst v'. simpl. by eauto.
Qed.

(** A real 429 is learnt and survives: when Telegram answers 429 to a send
    into a chat, no write to that chat is admitted before the answer's
    retry_after (5 s when it names none) has passed, the ledger in bots.db
    holds the same deadline for the next start, and the counter moves. *)
Theorem real_429_is_learnt e i s s0 method c resp mg now' born' m :
  objs mg !! i = Some s0 → StatusCode resp = 429 → ledger_faults e 0%nat = false →
  (now' < answer_mono e + retry_of (RBody resp))%Q → MethodKind m = "write" →
  let mg' := learn e i s method (Some c) resp mg in
  ∃ s', objs mg' !! i = Some s' ∧ real429 s' = real429 s0 + 1 ∧
    (TryAcquire now' born' m (Some c) (guard s')).1 = false ∧
    GatewayStore.pause (Alias s) c (gstore mg') = Some (secs (answer_wall e) + retry_of (RBody resp))%Q.
Proof.
  intros Ho Hst Hf Hn Hm. unfold learn. rewrite Hst. simpl. unfold upd_sess. rewrite Ho. simpl.
  rewrite lookup_insert_eq. simpl. rewrite lookup_insert_eq. eexists. split; [done|]. split; [done|]. split.
  - simpl. apply (write_held (answer_mono e + retry_of (RBody resp))); [|done|done].
    change (held_until (answer_mono e + retry_of (RBody resp)) (chat_of c
      (Report429 (answer_mono e) (answer_born e) (Some c) (retry_of (RBody resp)) (guard s0)))).
    destruct (Report429_chat (answer_mono e) (answer_born e) c (retry_of (RBody resp)) (guard s0)) as (_ & -> & _).
    simpl. apply fmax_r.
  - unfold RecordBackoff. rewrite GatewayStore.pause_save by done. by rewrite decide_True.
Qed.

(** ** Witnesses and concrete runs *)

Definition idle_tick (t : Q) : tick :=
  {| t_try := t; t_try_born := t; t_wait := t; t_wait_born := t; t_others := λ mg, mg; t_done := false |}.

Definition ok_answer : httpResponse := {| StatusCode := 200; RBody := JText (AMap [("ok", ABool true)]); RType := "" |}.

Definition flood_answer : httpResponse :=
  {| StatusCode := 429; RBody := JText (AMap [("parameters", AMap [("retry_after", AFloat 7)])]); RType := "" |}.

Definition env_demo (resp : httpResponse) (ks : list tick) (at_ : Z) : call_env :=
  {| client := λ _ _, inr resp; during := λ _ mg, mg; ticks := ks; claim_at := at_; claim_faults := no_faults;
     settle_at := at_; settle_faults := no_faults; answer_mono := secs at_; answer_born := secs at_;
     answer_wall := at_; ledger_faults := no_faults; pull_at := at_; pull_faults := no_faults; pull_events := [] |}.

(** A guard whose bot-wide bucket is empty at second 1. *)
Definition drained_guard (g : Guard) : Guard :=
  Nat.iter 30 (λ g, (TryAcquire 1 1 "sendmessage" None g).2) g.

Definition drained (mg : Manager) : Manager := upd_sess 0 (λ s, upd_guard (drained_guard (guard s)) s) mg.

Definition text_body : obj := [("chat_id", AFloat 7); ("text", AStr "hi")].

Definition waits : list tick := [idle_tick 1; idle_tick 2].

Lemma queue_wait_bounded_witness :
  match admission_loop 30 0 "sendmessage" (Some 7) "write" 0 waits (drained one_bot) with
  | Some (v, w, _) => (w <= 30)%Q ∧ (∀ r, v = Refused r → status r = 429) | None => False
  end.
Proof.
  destruct (admission_loop 30 0 "sendmessage" (Some 7) "write" 0 waits (drained one_bot)) as [[[v w] mg']|] eqn:E.
  - apply (queue_wait_bounded 30 0 "sendmessage" (Some 7) "write" waits (drained one_bot) v w mg'); [vm_compute; discriminate|done].
  - vm_compute in E. discriminate E.
Defined.


Definition owned_call : option result :=
  Call (env_demo ok_answer [] 1) (idle_tick 1) 30 0 demo_session "setWebhook" text_body "" None "" one_bot.

Lemma owned_methods_stay_home_witness :
  match owned_call with
  | Some (r, reqs, mg') => status r = 403 ∧
      (Forall (λ q, URL q = "/bot" +:+ Token demo_session +:+ "/getChat") reqs ∧ gstore mg' = gstore one_bot)
  | None => False
  end.
Proof.
  destruct owned_call as [[[r reqs] mg']|] eqn:E; [|vm_compute in E; discriminate E]. split.
  - unfold owned_call in E. vm_compute in E. by injection E as <- <- <-.
  - exact (owned_methods_stay_home (env_demo ok_answer [] 1) (idle_tick 1) 30 0 demo_session "setWebhook" text_body ""
      "" one_bot r reqs mg' eq_refl (λ _ _, eq_refl) E).
Defined.

Lemma multipart_bypasses_ownership_witness :
  ∃ r mg' q, Call (env_demo ok_answer [] 1) (idle_tick 1) 30 0 demo_session "setWebhook" [] "multipart/form-data"
      (Some "--b--") "" one_bot = Some (r, [q], mg') ∧ URL q = "/bot1:t/setWebhook".
Proof.
  destruct (multipart_bypasses_ownership (env_demo ok_answer [] 1) (idle_tick 1) 30 0 demo_session demo_session
    "setWebhook" [] "multipart/form-data" "--b--" "" one_bot) as (r & mg' & q & E & U & _);
    [reflexivity|vm_compute; reflexivity|reflexivity|vm_compute; reflexivity|].
  exists r, mg', q. split; [exact E|]. exact U.
Defined.

Definition keyed_env : call_env := env_demo ok_answer [idle_tick 1] 1.

Definition keyed_call (mg : Manager) : option result :=
  Call keyed_env (idle_tick 1) 30 0 demo_session "sendMessage" text_body "" None "k1" mg.

Lemma one_bot_store : GatewayStore.store_ok (gstore one_bot).
Proof. constructor; vm_compute; repeat constructor; try (intros Hx; inversion Hx). Qed.

Lemma spared : others_spare (Alias demo_session) "k1" keyed_env.
Proof. split; [apply Forall_cons; split; [done|apply Forall_nil_2]|done]. Qed.

Lemma keyed_send_settles_witness :
  match keyed_call one_bot with
  | Some (r, reqs, mg') =>
      (r = replayed ∧ Forall (λ q, URL q = "/bot" +:+ Token demo_session +:+ "/getChat") reqs) ∨
      key_state (Alias demo_session) "k1" mg' = (if status r <? 400 then Some (Done, secs 1) else None)
  | None => False
  end.
Proof.
  destruct (keyed_call one_bot) as [[[r reqs] mg']|] eqn:E; [|vm_compute in E; discriminate E].
  apply (keyed_send_settles keyed_env (idle_tick 1) 30 0 demo_session "sendMessage" text_body "" "k1" one_bot r reqs mg');
    [reflexivity|reflexivity|vm_compute; discriminate|discriminate|exact spared|exact one_bot_store|reflexivity|exact E].
Defined.

Definition sent_once : Manager := match keyed_call one_bot with Some (_, _, mg) => mg | None => one_bot end.

Lemma sent_once_store : GatewayStore.store_ok (gstore sent_once).
Proof. constructor; vm_compute; repeat constructor; try (intros Hx; inversion Hx). Qed.

Lemma keyed_send_once_witness :
  match keyed_call sent_once with
  | Some (r, reqs, _) => r = replayed ∧ Forall (λ q, URL q = "/bot" +:+ Token demo_session +:+ "/getChat") reqs
  | None => False
  end.
Proof.
  destruct (keyed_call sent_once) as [[[r2 rq2] mg3]|] eqn:E2; [|vm_compute in E2; discriminate E2].
  destruct (keyed_call one_bot) as [[[r1 rq1] mg1]|] eqn:E1; [|vm_compute in E1; discriminate E1].
  assert (r1 ≠ replayed ∧ status r1 < 400 ∧ mg1 = sent_once) as (H1 & H2 & H3).
  { split_ands; [| |unfold sent_once; by rewrite E1]; vm_compute in E1; injection E1 as <- <- <-; done. }
  subst mg1.
  apply (keyed_send_once keyed_env keyed_env (idle_tick 1) (idle_tick 1) 30 0 demo_session "sendMessage" "sendMessage"
    text_body text_body "" "k1" one_bot r1 rq1 sent_once sent_once r2 rq2 mg3);
    [reflexivity|reflexivity|vm_compute; discriminate|discriminate|exact spared|exact one_bot_store|reflexivity
    |exact E1|exact H1|exact H2|exact sent_once_store|reflexivity|reflexivity|reflexivity|exact spared
    |vm_compute; discriminate|exact E2].
Defined.

Definition raw_call (mg : Manager) : option result :=
  CallRawWithChat keyed_env (idle_tick 1) 0 demo_session "sendMessage" "chat_id=7" "application/x-www-form-urlencoded"
    (Some 7) "k1" mg.

Lemma drained_store : GatewayStore.store_ok (gstore (drained one_bot)).
Proof. constructor; vm_compute; repeat constructor; try (intros Hx; inversion Hx). Qed.

Lemma raw_refusal_loses_send_witness :
  match raw_call (drained one_bot) with
  | Some (r1, _, mg1) => status r1 = 429 ∧ ∃ mg2, raw_call mg1 = Some (replayed, [], mg2)
  | None => False
  end.
Proof.
  destruct (raw_call (drained one_bot)) as [[[r1 rq1] mg1]|] eqn:E; [|vm_compute in E; discriminate E].
  apply (raw_refusal_loses_send keyed_env keyed_env (idle_tick 1) (idle_tick 1) 0 demo_session "sendMessage"
    "chat_id=7" "chat_id=7" "application/x-www-form-urlencoded" (Some 7) "k1" (drained one_bot) r1 rq1 mg1);
    [reflexivity|discriminate|exact drained_store|exact E| | |vm_compute; discriminate|vm_compute; discriminate];
    vm_compute in E; injection E as <- <- <-; done.
Defined.

Lemma real_429_is_learnt_witness :
  let mg' := learn keyed_env 0 demo_session "sendMessage" (Some 7) flood_answer one_bot in
  ∃ s', objs mg' !! 0%nat = Some s' ∧ real429 s' = real429 demo_session + 1 ∧
    (TryAcquire 5 5 "sendMessage" (Some 7) (guard s')).1 = false ∧
    GatewayStore.pause "b1" 7 (gstore mg') = Some (secs 1 + 7)%Q.
Proof.
  exact (real_429_is_learnt keyed_env 0 demo_session demo_session "sendMessage" 7 flood_answer one_bot 5 5 "sendMessage"
    ltac:(vm_compute; reflexivity) eq_refl eq_refl ltac:(vm_compute; reflexivity) eq_refl).
Defined.

(** An opted-in bot with an empty bot-wide bucket. *)
Definition paid_bot : Manager :=
  drained (Attach 0 0 0 (λ _, no_faults) toy_box 0 "b1" "1:t" None true demo_mgr).2.

Definition paid_session : BotSession := match objs paid_bot !! 0%nat with Some s => s | None => demo_session end.

(** While the unpaid request sleeps, a paid broadcast of another goroutine
    enters the lane. *)
Definition lane_tick : tick :=
  {| t_try := 1; t_try_born := 1; t_wait := 1; t_wait_born := 1; t_done := false;
     t_others := upd_sess 0 (λ s, upd_guard (EnterPaidLane true (guard s)) s) |}.

(** The paid lane is a flag of the shared guard, not of the request: a send
    without allow_paid_broadcast that sleeps in admission while another
    request's paid broadcast is in progress is then charged to the paid
    bucket (999 of 1000 tokens left) instead of the bot-wide one. *)
Theorem paid_lane_leaks :
  match Call (env_demo ok_answer [lane_tick; idle_tick 2] 2) (idle_tick 1) 30 0 paid_session "sendMessage" text_body
          "" None "" paid_bot with
  | Some (r, _, mg') =>
      status r = 200 ∧ truthy (mget1 text_body "allow_paid_broadcast") = false ∧
      match objs mg' !! 0%nat with
      | Some s' => (Tokens (paid (guard s')) == 999)%Q
      | None => False
      end
  | None => False
  end.
Proof. vm_compute. done. Qed.
