(* ===== verification/BotApp.v ===== *)
(** * The Bot API plane's HTTP application (internal/botapi/app.go)

    Routing, the token, alias and file routes, the body formats, the admin
    handlers, the probes and the boot sequence, over [BotSession] and
    [BotProxy].  A handler maps the application state to an outcome, the
    requests it sent upstream and a new state; what it cannot know (clock
    readings, statement faults, the upstream's answers, what other goroutines
    do meanwhile) is the [app_env] argument.  [None]: the environment script
    ended while the request was still waiting. *)
From Stdlib Require Import QArith Lqa Ascii String.
From stdpp Require Import base list strings gmap.
From S2P Require Import Prelude GoValue Sql Health Idempotency Crypto Config RateGuard Http Mux Typing BotSession BotProxy.
From S2P Require Queue GatewayStore Maintenance.
Open Scope Z_scope.

(** ** Requests and responses *)

(** A request: the segments of its path, the raw query, the headers the code
    reads, ContentLength (-1 when unknown) and the body.  [r_raw] is what
    arrives, [r_cut] says that the connection broke before its end, [r_doc] is
    what the whole body parses to as JSON and [r_first] the first JSON value of
    its first MiB, which is what a decoder reads. *)
Record request := {
  r_method : string; r_path : list string; r_query : string; r_auth : string; r_ctype : string; r_idem : string;
  r_length : Z; r_raw : string; r_cut : bool; r_doc : json_text; r_first : json_text
}.

(** [r.URL.Path]. *)
Definition url_path (r : request) : string := "/" +:+ String.concat "/" (r_path r).

(** A metric sample: name, labels and value. *)
Record sample := { m_name : string; m_labels : string; m_value : Q }.

Inductive content := BJson (v : obj) | BRaw (t : json_text) | BFile (ctype : string) (t : json_text) | BMetrics (l : list sample) | BNone.

Record response := { code_ : Z; pay : content }.

Inductive outcome := Reply (r : response) | Panicked.

Definition writeJSON (code : Z) (body : obj) : response := {| code_ := code; pay := BJson body |}.

Definition fail (code : Z) : response := writeJSON code [("ok", ABool false); ("error_code", AInt code)].

Definition failed (code : Z) (description : string) : response :=
  writeJSON code [("ok", ABool false); ("error_code", AInt code); ("description", AStr description)].

Definition writeGwResponse (r : gwResponse) : response :=
  match raw r with
  | Some t => {| code_ := status r; pay := BRaw t |}
  | None => writeJSON (status r) (jsonBody r)
  end.

Definition tooLarge : response := failed 413 "request body exceeds the gateway limit".

(** Equal lengths and a constant-time comparison of the bytes: equality. *)
Definition bearerOK (header secret : string) : bool := (trim_prefix "Bearer " header =? secret)%string.

Definition splitBotTokenPath (path prefix : string) : option (string * string) :=
  let p := trim_prefix "/" (trim_prefix prefix path) in
  if negb (has_prefix "bot" p) then None
  else cut_at "/" (sdrop 3 p).

(** ** What a request cannot know *)

(** [calls] and [once] are the proxy's environment ([client] number 3 answers a
    file download); [probe n] is the error of the n-th statement of the
    readiness probe; [quote] and [show] are fmt's %q and %v of a float. *)
Record app_env := {
  calls : call_env; once : tick;
  clock : nat → Z; admin_faults : nat → faults; restore_faults : nat → nat → faults; entropy : Z;
  attach_error : string; meanwhile : Manager → Manager;
  probe : nat → option string; probe_others : Manager → Manager;
  beat_now : Z; unresolved : Z; quote : string → string; show : Q → string
}.

Record App := { Mgr : Manager; Boot : BootTracker.t; boots : BootTracker.history; SafeMode : bool; beat_last : Z; closed : bool }.

Definition set_mgr (mg : Manager) (a : App) : App :=
  {| Mgr := mg; Boot := Boot a; boots := boots a; SafeMode := SafeMode a; beat_last := beat_last a; closed := closed a |}.

Definition set_safe (b : bool) (h : BootTracker.history) (a : App) : App :=
  {| Mgr := Mgr a; Boot := Boot a; boots := h; SafeMode := b; beat_last := beat_last a; closed := closed a |}.

Definition health (mg : Manager) : Storage.t := Queue.hs (qworld mg).

(** An answer, the upstream requests and the manager. *)
Definition served : Type := outcome * list httpRequest * Manager.

Definition refuse (r : response) (mg : Manager) : option served := Some (Reply r, [], mg).

Definition reply_gw (x : option result) : option served :=
  match x with
  | Some (r, reqs, mg) => Some (Reply (writeGwResponse r), reqs, mg)
  | None => None
  end.

(** ** Bodies *)

Definition maxMultipartBody : Z := 64 * 2 ^ 20.

Definition maxFormBody : Z := 2 ^ 20.

Definition maxJSONBody : Z := 8 * 2 ^ 20.

(** [io.ReadAll] of a [MaxBytesReader] ends in a [MaxBytesError]. *)
Definition isTooLarge (limit_ : Z) (r : request) : bool := limit_ <? Z.of_nat (String.length (r_raw r)).

Definition formChatID (raw : string) : option Z :=
  let '(vals, ok) := ParseQuery raw in
  if negb ok then None else
  match mget vals "chat_id" with
  | Some v => if (v =? "")%string then None else parse_int64 v
  | None => None
  end.

Definition parseFormBody (raw : string) : obj :=
  let '(vals, ok) := ParseQuery raw in if ok then first_values vals [] else [].

Definition stream_prefix : nat := Z.to_nat (64 * 1024).

Definition callRoute (e : app_env) (r : request) (i : nat) (s : BotSession) (method : string) (mg : Manager)
    : option served :=
  let timeout := QueueWaitTimeout (Policy (cfg mg)) in
  let ctype := r_ctype r in
  if has_prefix "multipart/" ctype then
    if (0 <? r_length r) && (r_length r <=? maxMultipartBody) then
      let prefix := stake stream_prefix (r_raw r) in
      reply_gw (ForwardStream (calls e) (once e) i s method prefix (sdrop stream_prefix (r_raw r)) (r_length r) ctype mg)
    else if isTooLarge maxMultipartBody r then refuse tooLarge mg
    else reply_gw (Call (calls e) (once e) timeout i s method [] ctype (Some (r_raw r)) "" mg)
  else if has_prefix "application/x-www-form-urlencoded" ctype then
    if isTooLarge maxFormBody r then refuse tooLarge mg
    else if gatewayOwned (to_lower method)
    then reply_gw (Call (calls e) (once e) timeout i s method (parseFormBody (r_raw r)) "" None (r_idem r) mg)
    else reply_gw (CallRawWithChat (calls e) (once e) i s method (r_raw r) ctype (formChatID (r_raw r)) (r_idem r) mg)
  else if isTooLarge maxJSONBody r then refuse tooLarge mg
  else
    let body := if (r_raw r =? "")%string then [] else default [] (json_unmarshal (r_doc r)) in
    reply_gw (Call (calls e) (once e) timeout i s method body "" None (r_idem r) mg).

(** ** Consumer routes *)

Definition handleTGAPIPost (e : app_env) (r : request) (mg : Manager) : option served :=
  match splitBotTokenPath (url_path r) "/tgapi" with
  | None => refuse (fail 404) mg
  | Some (token, method) =>
      match FindByToken token mg with
      | None => refuse (failed 404 "unknown bot token") mg
      | Some i => match objs mg !! i with Some s => callRoute e r i s method mg | None => None end
      end
  end.

Definition handleFileRoute (e : app_env) (r : request) (mg : Manager) : option served :=
  match (match splitBotTokenPath (url_path r) "/file" with
         | Some x => Some x
         | None => splitBotTokenPath (url_path r) "/tgapi/file"
         end) with
  | None => refuse (fail 404) mg
  | Some (token, path) =>
      match FindByToken token mg with
      | None => refuse (fail 404) mg
      | Some _ =>
          let req := {| Method := "GET"; URL := "/file/bot" +:+ token +:+ "/" +:+ path; Body := None;
                        RawBody := None; Reader := None; ContentType := "" |} in
          let mg := during (calls e) 3%nat mg in
          match client (calls e) 3%nat req with
          | inl err => Some (Reply (failed 502 ("upstream: " +:+ err)), [req], mg)
          | inr resp =>
              let ct := if (RType resp =? "")%string then "application/octet-stream" else RType resp in
              Some (Reply {| code_ := StatusCode resp; pay := BFile ct (RBody resp) |}, [req], mg)
          end
      end
  end.

Definition handleTGAPIGetRoute (e : app_env) (r : request) (mg : Manager) : option served :=
  if has_prefix "/tgapi/file/" (url_path r) then handleFileRoute e r mg else
  match splitBotTokenPath (url_path r) "/tgapi" with
  | None => refuse (fail 404) mg
  | Some (token, method) =>
      match FindByToken token mg with
      | None => refuse (fail 404) mg
      | Some i =>
          match objs mg !! i with
          | None => None
          | Some s =>
              let q := first_values (ParseQuery (r_query r)).1 [] in
              reply_gw (Call (calls e) (once e) (QueueWaitTimeout (Policy (cfg mg))) i s method q "" None "" mg)
          end
      end
  end.

Definition handleByAlias (e : app_env) (r : request) (alias method : string) (mg : Manager) : option served :=
  if negb (bearerOK (r_auth r) (AppSecret (cfg mg))) then refuse (fail 401) mg else
  match Get alias mg with
  | None => refuse (failed 404 "unknown alias") mg
  | Some (i, s) => callRoute e r i s method mg
  end.

(** ** Decoding admin bodies *)

(** The members of the decoded value and whether it is an object (or null). *)
Definition members (t : json_text) : obj * bool :=
  match t with JText (AMap m) => (m, true) | JText ANil => ([], true) | _ => ([], false) end.

(** A pointer field of a struct: keys match case-insensitively, the last one
    counts, null is nil; the flag is lost on a value of the wrong type. *)
Fixpoint ptr_field {A} (as_ : any → option A) (name : string) (m : obj) (acc : option A) (ok : bool) : option A * bool :=
  match m with
  | [] => (acc, ok)
  | (k, v) :: m' =>
      if (to_lower k =? name)%string then
        match v with
        | ANil => ptr_field as_ name m' None ok
        | _ => match as_ v with
               | Some x => ptr_field as_ name m' (Some x) ok
               | None => ptr_field as_ name m' acc false
               end
        end
      else ptr_field as_ name m' acc ok
  end.

(** A plain field: null leaves it alone. *)
Fixpoint val_field {A} (as_ : any → option A) (name : string) (m : obj) (acc : A) (ok : bool) : A * bool :=
  match m with
  | [] => (acc, ok)
  | (k, v) :: m' =>
      if (to_lower k =? name)%string then
        match v with
        | ANil => val_field as_ name m' acc ok
        | _ => match as_ v with
               | Some x => val_field as_ name m' x ok
               | None => val_field as_ name m' acc false
               end
        end
      else val_field as_ name m' acc ok
  end.

Definition as_str (v : any) : option string := match v with AStr s => Some s | _ => None end.

Definition as_bool (v : any) : option bool := match v with ABool b => Some b | _ => None end.

Definition as_float (v : any) : option Q := match v with AFloat f => Some f | _ => None end.

Record register_body := { g_alias : option string; g_token : string; g_limit : option string; g_paid : bool }.

Definition decode_register (t : json_text) : option register_body :=
  let '(m, ok) := members t in
  let '(alias, o1) := ptr_field as_str "alias" m None true in
  let '(token, o2) := val_field as_str "token" m "" true in
  let '(limit_, o3) := ptr_field as_str "on_limit" m None true in
  let '(paid_, o4) := val_field as_bool "paid_broadcasts" m false true in
  if ok && o1 && o2 && o3 && o4 then Some {| g_alias := alias; g_token := token; g_limit := limit_; g_paid := paid_ |}
  else None.

Definition decode_patch (t : json_text) : option TypingPatch :=
  let '(m, ok) := members t in
  let '(en, o1) := ptr_field as_bool "enabled" m None true in
  let '(po, o2) := ptr_field as_bool "private_only" m None true in
  let '(iv, o3) := ptr_field as_float "interval_s" m None true in
  let '(tm, o4) := ptr_field as_float "timeout_s" m None true in
  let '(tx, o5) := ptr_field as_str "timeout_text" m None true in
  if ok && o1 && o2 && o3 && o4 && o5
  then Some {| p_enabled := en; p_private_only := po; p_interval := iv; p_timeout := tm; p_text := tx |}
  else None.

(** ** Admin handlers *)

Definition adminAuthed (r : request) (mg : Manager) : bool := bearerOK (r_auth r) (AdminSecret (cfg mg)).

(** The audit row is the last store call of a handler: fault set 9. *)
Definition audit (e : app_env) (action alias detail : string) (mg : Manager) : Manager :=
  upd_store (GatewayStore.Audit (clock e 9%nat) (admin_faults e 9%nat) action alias detail) mg.

Definition hexdigits : string := "0123456789abcdef".

Definition hex_char (n : Z) : ascii := default "0"%char (String.get (Z.to_nat n) hexdigits).

(** [n] characters, each from its own clock reading. *)
Fixpoint rand_hex (now : nat → Z) (i n : nat) : string :=
  match n with
  | O => ""
  | S n' => String (hex_char (Z.land (Z.shiftr (now i) (4 * Z.of_nat i)) 15)) (rand_hex now (S i) n')
  end.

Definition randHex (now : nat → Z) (n : nat) : string := rand_hex now 0 n.

Definition ok_limit (l : option string) : bool :=
  match l with Some x => smem x ["queue"; "reject"] | None => true end.

(** The alias of a registration, made up when none is given. *)
Definition register_alias (e : app_env) (b : register_body) : string :=
  let alias := default "" (g_alias b) in
  if (alias =? "")%string then "bot-" +:+ randHex (clock e) 4 else alias.

Definition adminRegister `{Fernet} (e : app_env) (bx : Box) (r : request) (mg : Manager) : outcome * Manager :=
  if negb (adminAuthed r mg) then (Reply (fail 401), mg) else
  match decode_register (r_first r) with
  | None => (Reply (failed 400 "token required"), mg)
  | Some b =>
      if (g_token b =? "")%string then (Reply (failed 400 "token required"), mg)
      else if negb (ok_limit (g_limit b)) then (Reply (failed 400 "on_limit must be queue|reject"), mg)
      else
        let alias := register_alias e b in
        match Attach (clock e 4%nat) (clock e 5%nat) (clock e 6%nat) (admin_faults e) bx (entropy e) alias (g_token b)
                (g_limit b) (g_paid b) mg with
        | (None, mg) => (Reply (failed 500 (attach_error e)), mg)
        | (Some i, mg) =>
            match objs mg !! i with
            | None => (Panicked, mg)
            | Some s =>
                let mg := audit e "register" alias
                  ("token=" +:+ GatewayStore.TokenSuffix (g_token b) +:+ " on_limit=" +:+ EffectiveOnLimit s) mg in
                (Reply (writeJSON 200 [("ok", ABool true); ("alias", AStr alias); ("state", AStr (state_text (state s)));
                   ("on_limit", AStr (EffectiveOnLimit s))]), mg)
            end
        end
  end.

Definition sortedAliases (mg : Manager) : list string := Storage.sortStrings (map fst (map_to_list (sessions mg))).

Fixpoint status_loop (now : Z) (aliases : list string) (mg : Manager) : list any * Manager :=
  match aliases with
  | [] => ([], mg)
  | alias :: rest =>
      match Get alias mg with
      | None => status_loop now rest mg
      | Some (i, s) =>
          let '(st, s') := PublicStatus now s in
          let st := mset st "typing" (AMap (StatusFor (typing mg) (tsess s))) in
          let '(l, mg) := status_loop now rest (set_obj mg i s') in
          (AMap st :: l, mg)
      end
  end.

Definition adminStatus (e : app_env) (r : request) (mg : Manager) : outcome * Manager :=
  if negb (adminAuthed r mg) then (Reply (fail 401), mg) else
  let '(bots, mg) := status_loop (clock e 0%nat) (sortedAliases mg) mg in
  (Reply (writeJSON 200 [("ok", ABool true); ("bots", AList bots)]), mg).

(** The shape of the four calls that answer true or false. *)
Definition admin_call (e : app_env) (action : string) (call : Manager → bool * Manager) (r : request) (alias : string)
    (mg : Manager) : outcome * Manager :=
  if negb (adminAuthed r mg) then (Reply (fail 401), mg) else
  let '(ok, mg) := call mg in
  (Reply (writeJSON 200 [("ok", ABool ok)]), if ok then audit e action alias "" mg else mg).

Definition adminPause (e : app_env) (r : request) (alias : string) : Manager → outcome * Manager :=
  admin_call e "pause" (Pause (admin_faults e 0%nat) alias) r alias.

Definition adminResume (e : app_env) (r : request) (alias : string) : Manager → outcome * Manager :=
  admin_call e "resume" (Resume (admin_faults e 0%nat) alias) r alias.

Definition adminDrain (e : app_env) (r : request) (alias : string) : Manager → outcome * Manager :=
  admin_call e "drain" (Drain alias) r alias.

Definition adminDelete (e : app_env) (r : request) (alias : string) : Manager → outcome * Manager :=
  admin_call e "delete" (Delete (admin_faults e 0%nat) alias) r alias.

(** [Panicked]: the session was deleted between the call and the answer. *)
Definition adminSetPush (e : app_env) (r : request) (alias : string) (mg : Manager) : outcome * Manager :=
  if negb (adminAuthed r mg) then (Reply (fail 401), mg) else
  let url := default "" (ptr_field as_str "url" (members (r_first r)).1 None true).1 in
  match SetPush alias url mg with
  | (false, mg) => (Reply (fail 404), mg)
  | (true, mg) =>
      let mg := meanwhile e (audit e "set_push" alias ("url=" +:+ url) mg) in
      match Get alias mg with
      | None => (Panicked, mg)
      | Some (_, s) => (Reply (writeJSON 200 [("ok", ABool true); ("push_url", Storage.nilIfEmpty (pushURL s))]), mg)
      end
  end.

Definition show_bool (b : bool) : string := if b then "true" else "false".

Definition upd_paid (b : bool) (s : BotSession) : BotSession :=
  {| Alias := Alias s; Token := Token s; state := state s; queue := queue s; guard := set_paid_enabled (guard s) b;
     connectedSince := connectedSince s; lastError := lastError s; real429 := real429 s;
     synth429 := synth429 s; last429 := last429 s; pushURL := pushURL s; pushHealthy := pushHealthy s;
     pollCancel := pollCancel s; pushCancel := pushCancel s; chatNameCache := chatNameCache s;
     OnLimit := OnLimit s; PaidBroadcasts := b; typing_over := typing_over s; sendTimes := sendTimes s |}.

Definition adminSetPaid (e : app_env) (r : request) (alias : string) (mg : Manager) : outcome * Manager :=
  if negb (adminAuthed r mg) then (Reply (fail 401), mg) else
  let enabled := (val_field as_bool "enabled" (members (r_first r)).1 false true).1 in
  match Get alias mg with
  | None => (Reply (fail 404), mg)
  | Some (i, s) =>
      (Reply (writeJSON 200 [("ok", ABool true); ("paid_broadcasts", ABool enabled)]),
       audit e "set_paid" alias ("enabled=" +:+ show_bool enabled) (set_obj mg i (upd_paid enabled s)))
  end.

Definition upd_over (p : TypingPatch) (s : BotSession) : BotSession :=
  {| Alias := Alias s; Token := Token s; state := state s; queue := queue s; guard := guard s;
     connectedSince := connectedSince s; lastError := lastError s; real429 := real429 s;
     synth429 := synth429 s; last429 := last429 s; pushURL := pushURL s; pushHealthy := pushHealthy s;
     pollCancel := pollCancel s; pushCancel := pushCancel s; chatNameCache := chatNameCache s;
     OnLimit := OnLimit s; PaidBroadcasts := PaidBroadcasts s; typing_over := p; sendTimes := sendTimes s |}.

Definition part {A} (name : string) (f : A → string) (v : option A) : list string :=
  match v with Some x => [name +:+ "=" +:+ f x] | None => [] end.

Definition describePatch (show_ : Q → string) (p : TypingPatch) : string :=
  let parts := part "enabled" show_bool (p_enabled p) ++ part "private_only" show_bool (p_private_only p) ++
               part "interval_s" show_ (p_interval p) ++ part "timeout_s" show_ (p_timeout p) ++
               part "timeout_text" id (p_text p) in
  match parts with [] => "reset-all" | _ => String.concat ", " parts end.

Definition adminSetBotTyping (e : app_env) (r : request) (alias : string) (mg : Manager) : outcome * Manager :=
  if negb (adminAuthed r mg) then (Reply (fail 401), mg) else
  match decode_patch (r_first r) with
  | None => (Reply (failed 400 "invalid JSON"), mg)
  | Some p =>
      match Get alias mg with
      | None => (Reply (fail 404), mg)
      | Some (i, s) =>
          let s := upd_over p s in
          (Reply (writeJSON 200 [("ok", ABool true); ("typing", AMap (StatusFor (typing mg) (tsess s)))]),
           audit e "set_typing" alias (describePatch (show e) p) (set_obj mg i s))
      end
  end.

Definition adminGetTypingSettings (r : request) (mg : Manager) : outcome :=
  if negb (adminAuthed r mg) then Reply (fail 401) else
  Reply (writeJSON 200 [("ok", ABool true); ("settings", AMap (snapshotLocked (global (typing mg))))]).

Definition set_global (s : settings) (t : TypingManager) : TypingManager :=
  {| global := s; recs := recs t; next_rec := next_rec t; active := active t; running := running t;
     cbToChat := cbToChat t; Typing.closed := Typing.closed t |}.

Definition adminSetTypingSettings (e : app_env) (r : request) (mg : Manager) : outcome * Manager :=
  if negb (adminAuthed r mg) then (Reply (fail 401), mg) else
  match decode_patch (r_first r) with
  | None => (Reply (failed 400 "invalid JSON"), mg)
  | Some p =>
      let '(s, view) := Apply p (global (typing mg)) in
      (Reply (writeJSON 200 [("ok", ABool true); ("settings", AMap view)]),
       audit e "set_typing_global" "global" (describePatch (show e) p) (upd_typing (set_global s) mg))
  end.

Definition adminSafeModeAck `{Fernet} (e : app_env) (bx : Box) (r : request) (a : App) : outcome * App :=
  if negb (adminAuthed r (Mgr a)) then (Reply (fail 401), a) else
  let a := set_safe false (BootTracker.Clear (boots a)) a in
  let '(n, mg) := RestoreAll (clock e) (admin_faults e 0%nat) (restore_faults e) bx (Mgr a) in
  (Reply (writeJSON 200 [("ok", ABool true); ("safe_mode", ABool false); ("restored", AInt n)]),
   set_mgr (audit e "safe_mode_ack" "global" ("restored=" +:+ itoa n) mg) a).

Definition audit_json (a : GatewayStore.audit_row) : any :=
  AMap [("ts", AInt (GatewayStore.a_ts a)); ("action", AStr (GatewayStore.a_action a));
        ("alias", AStr (GatewayStore.a_alias a)); ("detail", AStr (GatewayStore.a_detail a))].

Definition adminAudit (e : app_env) (r : request) (mg : Manager) : outcome :=
  if negb (adminAuthed r mg) then Reply (fail 401) else
  Reply (writeJSON 200 [("ok", ABool true);
    ("entries", AList (map audit_json (GatewayStore.GetAudit (admin_faults e 0%nat) 100 (gstore mg))))]).

(** ** Probes and metrics *)

Definition version : string := "0.1.0-dev".

Definition round2 (f : Q) : Q := (inject_Z (f2i (f * 100 + (1 # 2))) / 100)%Q.

Definition b2i (b : bool) : Z := if b then 1 else 0.

Definition handleHealthz (e : app_env) (last : Z) : outcome :=
  Reply (writeJSON 200 [("ok", ABool (Beat.Alive last (beat_now e))); ("version", AStr version);
    ("loop_lag_s", AFloat (round2 (Beat.Lag last (beat_now e))))]).

(** An em dash. *)
Definition dash : string := String (chr 226) (String (chr 128) (String (chr 148) "")).

(** The sessions of the table, by alias. *)
Definition listed (mg : Manager) : list (string * BotSession) :=
  omap (λ a, match Get a mg with Some (_, s) => Some (a, s) | None => None end) (sortedAliases mg).

Definition is_live (s : BotSession) : bool := bool_decide (state s = StateLive).

(** The answer once the write probe has passed. *)
Definition readiness (safe : bool) (mg : Manager) : outcome :=
  if negb (Storage.Degraded (health mg) =? "")%string
  then Reply (writeJSON 503 [("ok", ABool false); ("storage", AMap (Storage.Snapshot (health mg)))])
  else if safe
  then Reply (writeJSON 503 [("ok", ABool false); ("safe_mode", ABool true);
         ("description", AStr ("crash-loop safe mode " +:+ dash +:+ " ack via POST /admin/safe_mode/ack"))])
  else
    Reply (writeJSON 200 [("ok", ABool true);
      ("sessions", AMap (map (λ kv, (kv.1, AStr (state_text (state kv.2)))) (listed mg)));
      ("live", AInt (Z.of_nat (length (bfilter (λ kv, is_live kv.2) (listed mg)))))]).

(** The store has one connection, so what other goroutines write between BEGIN
    and ROLLBACK ([probe_others]) is part of the transaction rolled back. *)
Definition handleReadyz (e : app_env) (safe : bool) (mg : Manager) : outcome * Manager :=
  match probe e 0%nat with
  | Some err => (Reply (writeJSON 503 [("ok", ABool false); ("error", AStr err)]), mg)
  | None =>
      let mg' := probe_others e mg in
      match probe e 1%nat with
      | Some err => (Reply (writeJSON 503 [("ok", ABool false); ("error", AStr err)]), mg')
      | None => let mg := set_store mg' (gstore mg) in (readiness safe mg, mg)
      end
  end.

Definition real429Total (s : BotSession) : Z := real429 s.

Definition synth429Total (s : BotSession) : Z := synth429 s.

Definition session_samples (e : app_env) (mg : Manager) (kv : string * BotSession) : list sample :=
  let s := kv.2 in
  let sam name v := {| m_name := name; m_labels := "alias=" +:+ quote e (Alias s); m_value := v |} in
  let q := Queue.Stats (clock e 0%nat) (queue s) in
  let num name := numberOf (mget1 q name) in
  let age_ := if qlt 0 (connectedSince s) then f2i (secs (clock e 1%nat) - connectedSince s)%Q else 0 in
  [sam "tg_gateway_session_state" (inject_Z (b2i (is_live s)));
   sam "tg_gateway_session_connection_age_seconds" (inject_Z age_);
   sam "tg_gateway_update_queue_depth" (num "depth");
   sam "tg_gateway_updates_dropped_oldest_total" (num "dropped_oldest");
   sam "tg_gateway_updates_expired_by_ttl_total" (num "expired_by_ttl");
   sam "tg_gateway_queue_persistent" (inject_Z (b2i (Queue.Persistent (queue s))));
   sam "tg_gateway_real_429_total" (inject_Z (real429Total s));
   sam "tg_gateway_synthetic_429_total" (inject_Z (synth429Total s));
   sam "tg_gateway_typing_active" (inject_Z (ActiveCount (Alias s) (typing mg)));
   sam "tg_gateway_persist_failures_total" (inject_Z (Storage.PersistFailures (health mg)));
   sam "tg_gateway_corrupt_rows_total" (inject_Z (Storage.CorruptRows (health mg)));
   sam "tg_gateway_queue_max_age_seconds" (num "max_age_s")]
  ++ (let bl := Queue.UnloadedBacklog (queue s) in
      if 0 <? bl then [sam "tg_gateway_backlog_unloaded" (inject_Z bl)] else []).

(** [unresolved] is the proxy's process-wide counter. *)
Definition handleMetrics (e : app_env) (last : Z) (mg : Manager) : outcome :=
  let sam labels name v := {| m_name := name; m_labels := labels; m_value := v |} in
  let plane := "plane=" +:+ dquote +:+ "bot" +:+ dquote in
  Reply {| code_ := 200; pay := BMetrics (concat (map (session_samples e mg) (listed mg)) ++
    (if 0 <? unresolved e then [sam "" "tg_gateway_multipart_chat_unresolved_total" (inject_Z (unresolved e))] else []) ++
    [sam plane "tg_gateway_storage_degraded" (inject_Z (b2i (negb (Storage.Degraded (health mg) =? "")%string)));
     sam plane "tg_gateway_loop_lag_seconds" (round2 (Beat.Lag last (beat_now e)))]) |}.

(** ** Routing *)

Inductive handler :=
| HPost | HGet | HAlias | HFile | HHealthz | HReadyz
| HRegister | HStatus | HPause | HResume | HDrain | HDelete | HSetPush | HSetPaid | HBotTyping
| HGetTyping | HSetTyping | HSafeModeAck | HAudit | HMetrics | HPprof.

Definition publicRoutes : list (route handler) :=
  [("POST", [Lit "tgapi"; Rest], HPost);
   ("GET", [Lit "tgapi"; Rest], HGet);
   ("POST", [Lit "bots"; Wild; Wild], HAlias);
   ("GET", [Lit "file"; Rest], HFile);
   ("GET", [Lit "tgapi"; Lit "file"; Rest], HFile);
   ("GET", [Lit "healthz"], HHealthz);
   ("GET", [Lit "readyz"], HReadyz)].

Definition pprof_at (name : string) : route handler := ("GET", [Lit "debug"; Lit "pprof"; Lit name], HPprof).

Definition mountPprof (on : bool) : list (route handler) :=
  if on then
    ("GET", [Lit "debug"; Lit "pprof"; Rest], HPprof) :: map pprof_at ["cmdline"; "profile"; "symbol"; "trace"]
  else [].

Definition bot_action (action : string) (hd : handler) : route handler :=
  ("POST", [Lit "admin"; Lit "bots"; Wild; Lit action], hd).

Definition adminRoutes (pprof : bool) : list (route handler) :=
  mountPprof pprof ++
  [("POST", [Lit "admin"; Lit "bots"], HRegister);
   ("GET", [Lit "admin"; Lit "status"], HStatus);
   bot_action "pause" HPause;
   bot_action "resume" HResume;
   bot_action "drain" HDrain;
   ("DELETE", [Lit "admin"; Lit "bots"; Wild], HDelete);
   bot_action "push" HSetPush;
   bot_action "paid" HSetPaid;
   bot_action "typing" HBotTyping;
   ("GET", [Lit "admin"; Lit "settings"; Lit "typing"], HGetTyping);
   ("POST", [Lit "admin"; Lit "settings"; Lit "typing"], HSetTyping);
   ("POST", [Lit "admin"; Lit "safe_mode"; Lit "ack"], HSafeModeAck);
   ("GET", [Lit "admin"; Lit "audit"], HAudit);
   ("GET", [Lit "metrics"], HMetrics)].

Definition routes (pprof : bool) : list (route handler) := publicRoutes ++ adminRoutes pprof.

(** What a listener serves: with GW_ADMIN_PORT the operator surface has its own. *)
Definition listener_routes (c : BotAPI) (admin : bool) : list (route handler) :=
  if 0 <? AdminPort c then (if admin then adminRoutes (Pprof c) else publicRoutes) else routes (Pprof c).

Definition arg (n : nat) (vals : list string) : string := default "" (vals !! n).

(** A handler's answer, the requests it sent and the application. *)
Definition app_served : Type := outcome * list httpRequest * App.

Definition lift (a : App) (x : option served) : option app_served :=
  match x with Some (o, reqs, mg) => Some (o, reqs, set_mgr mg a) | None => None end.

Definition quiet (a : App) (x : outcome * Manager) : option app_served := Some (x.1, [], set_mgr x.2 a).

Definition run_handler `{Fernet} (e : app_env) (bx : Box) (hd : handler) (vals : list string) (r : request) (a : App)
    : option app_served :=
  let alias := arg 0 vals in
  let mg := Mgr a in
  match hd with
  | HPost => lift a (handleTGAPIPost e r mg)
  | HGet => lift a (handleTGAPIGetRoute e r mg)
  | HAlias => lift a (handleByAlias e r alias (arg 1 vals) mg)
  | HFile => lift a (handleFileRoute e r mg)
  | HHealthz => Some (handleHealthz e (beat_last a), [], a)
  | HReadyz => quiet a (handleReadyz e (SafeMode a) mg)
  | HRegister => quiet a (adminRegister e bx r mg)
  | HStatus => quiet a (adminStatus e r mg)
  | HPause => quiet a (adminPause e r alias mg)
  | HResume => quiet a (adminResume e r alias mg)
  | HDrain => quiet a (adminDrain e r alias mg)
  | HDelete => quiet a (adminDelete e r alias mg)
  | HSetPush => quiet a (adminSetPush e r alias mg)
  | HSetPaid => quiet a (adminSetPaid e r alias mg)
  | HBotTyping => quiet a (adminSetBotTyping e r alias mg)
  | HGetTyping => Some (adminGetTypingSettings r mg, [], a)
  | HSetTyping => quiet a (adminSetTypingSettings e r mg)
  | HSafeModeAck => let '(o, a) := adminSafeModeAck e bx r a in Some (o, [], a)
  | HAudit => Some (adminAudit e r mg, [], a)
  | HMetrics => Some (handleMetrics e (beat_last a) mg, [], a)
  | HPprof => Some (Reply (if adminAuthed r mg then {| code_ := 200; pay := BNone |} else fail 401), [], a)
  end.

(** One request on a listener. *)
Definition serve `{Fernet} (e : app_env) (bx : Box) (admin : bool) (r : request) (a : App) : option app_served :=
  let bare n := Some (Reply {| code_ := n; pay := BNone |}, [], a) in
  match lookup_route (r_method r) (r_path r) (listener_routes (cfg (Mgr a)) admin) with
  | Found hd vals => run_handler e bx hd vals r a
  | Redirect => bare 301
  | NoMethod => bare 405
  | NoPath => bare 404
  end.

(** ** Boot, maintenance, shutdown *)

(** [wr]: the boot history can be written.  The list is what is logged: the
    aliases whose token the key does not decrypt. *)
Definition buildLifecycle `{Fernet} (clk : nat → Z) (boot_at : Z) (wr : bool) (f fv : faults) (fs : nat → nat → faults)
    (bx : Box) (a : App) : list string * App :=
  let '(safe, _, hist) := BootTracker.RecordBoot (Boot a) boot_at wr (boots a) in
  let a := set_safe safe hist a in
  let a := if safe then a else set_mgr (RestoreAll clk f fs bx (Mgr a)).2 a in
  (GatewayStore.VerifyTokens bx fv (gstore (Mgr a)), a).

(** One tick of the maintenance loop; [None] is its panic. *)
Definition maintenance_tick (f fb : nat → faults) (now : Z) (ts : string) (pid : Z) (c : BotAPI) (h : Storage.t)
    (fs : Maintenance.dir) : option (Storage.t * Maintenance.dir) :=
  let st := BStorage c in
  if qle (MaintenanceInterval st) 0 then Some (h, fs) else
  Maintenance.MaintenancePass f fb now ts pid [DataDir c +:+ "/gateway.db"; DataDir c +:+ "/queue.db"] (BackupsDir c)
    (BackupKeep st) (BackupInterval st) (Some Maintenance.delete_old_audit) (AuditRetentionDays st) h fs.

Definition Close (a : App) : App :=
  if closed a then a else
  {| Mgr := Shutdown (Mgr a); Boot := Boot a; boots := boots a; SafeMode := SafeMode a; beat_last := beat_last a; closed := true |}.

(** ** Whose requests they are *)

(** The path has the segment "bot<t>". *)
Definition names_token (r : request) (t : string) : Prop :=
  ∃ pre post, url_path r = pre +:+ "bot" +:+ t +:+ "/" +:+ post.

Lemma split_names path prefix t m :
  splitBotTokenPath path prefix = Some (t, m) → ∃ pre, path = pre +:+ "bot" +:+ t +:+ "/" +:+ m.
Proof.
  unfold splitBotTokenPath. cbv zeta. destruct (trim_prefix_suffix prefix path) as [p1 E1].
  destruct (trim_prefix_suffix "/" (trim_prefix prefix path)) as [p2 E2]. set (p := trim_prefix "/" _) in *.
  destruct (has_prefix "bot" p) eqn:Eb; [|done]. intros Ec%cut_at_some. apply has_prefix_true in Eb.
  exists (p1 +:+ p2). rewrite E1, E2, Eb, append_assoc. simpl (String.length _). rewrite Ec. by rewrite ?append_assoc.
Qed.

Lemma find_token_some t mg i :
  FindByToken t mg = Some i → ∃ al s, sessions mg !! al = Some i ∧ objs mg !! i = Some s ∧ Token s = t.
Proof.
  unfold FindByToken. destruct (List.find _ _) as [[al j]|] eqn:E; [|done]. intros [= <-].
  apply find_some in E as [Hin Ht]. simpl in *. destruct (objs mg !! j) as [s|] eqn:Es; [|done].
  exists al, s. split; [|split; [done|by apply String.eqb_eq]].
  by apply elem_of_map_to_list, list_elem_of_In.
Qed.

(** The sessions a request may act for. *)
Definition entitled (r : request) (mg : Manager) (s : BotSession) : Prop :=
  ∃ al i, sessions mg !! al = Some i ∧ objs mg !! i = Some s ∧
    (names_token r (Token s) ∨
     (bearerOK (r_auth r) (AppSecret (cfg mg)) = true ∧ ∃ method, r_path r = ["bots"; al; method])).

(** The URL of every request the proxy makes for a session. *)
Definition for_token (t : string) (q : httpRequest) : Prop := ∃ rest, URL q = "/bot" +:+ t +:+ "/" +:+ rest.

Definition file_for (t : string) (q : httpRequest) : Prop :=
  Method q = "GET" ∧ ∃ rest, URL q = "/file/bot" +:+ t +:+ "/" +:+ rest.

Lemma route_alias c admin v ps : (v, ps, HAlias) ∈ listener_routes c admin → ps = [Lit "bots"; Wild; Wild].
Proof.
  assert (∀ b, Forall (λ x : route handler, x.2 = HAlias → x.1.2 = [Lit "bots"; Wild; Wild]) (routes b)) as Hr.
  { intros []; repeat (apply Forall_cons; split; [by vm_compute|]); by constructor. }
  pose proof (proj1 (Forall_forall _ _) (Hr (Pprof c))) as Hf. unfold listener_routes, routes in *. intros H.
  refine (Hf (v, ps, HAlias) _ eq_refl). apply elem_of_app. destruct (0 <? AdminPort c); [destruct admin; auto|by apply elem_of_app].
Qed.

Lemma match_alias path vals : match_path [Lit "bots"; Wild; Wild] path = Some vals → path = ["bots"; arg 0 vals; arg 1 vals].
Proof.
  destruct path as [|a [|b [|c [|d path]]]]; cbn [match_path]; try done.
  - by destruct (_ =? a)%string.
  - destruct (_ =? a)%string; [|done]. by destruct (b =? "")%string.
  - destruct (String.eqb_spec "bots" a) as [<-|]; [|done]. destruct (b =? "")%string; [done|]. destruct (c =? "")%string; [done|].
    by intros [= <-].
  - destruct (_ =? a)%string; [|done]. destruct (b =? "")%string; [done|]. by destruct (c =? "")%string.
Qed.

(** ** The proxy, seen from outside

    Whatever a proxied call does, it goes through the store, the typing table,
    the queues and fields of session objects other than their identity. *)

Section proxy_keeps.
Context (P : Manager → Prop).
Context (P_store : ∀ g m, P m → P (set_store m g)) (P_typing : ∀ t m, P m → P (set_typing m t))
  (P_world : ∀ w m, P m → P (set_world m w))
  (P_obj : ∀ i s s' m, P m → objs m !! i = Some s → Alias s' = Alias s → Token s' = Token s →
     pollCancel s' = pollCancel s → P (set_obj m i s')).

Definition keeps (f : Manager → Manager) : Prop := ∀ m, P m → P (f m).

(** What the rest of the program does while the request waits. *)
Definition steady (c : call_env) : Prop := (∀ n, keeps (during c n)) ∧ Forall (λ k, keeps (t_others k)) (ticks c).

Lemma keep_sess i f m :
  P m → (∀ s, Alias (f s) = Alias s ∧ Token (f s) = Token s ∧ pollCancel (f s) = pollCancel s) → P (upd_sess i f m).
Proof.
  intros Hm Hf. unfold upd_sess. destruct (objs m !! i) as [s|] eqn:E; [|done].
  destruct (Hf s) as (F1 & F2 & F3). by eapply P_obj.
Qed.

Lemma keep_learn e i s method chatID resp m : P m → P (learn e i s method chatID resp m).
Proof.
  intros Hm. unfold learn. destruct (StatusCode resp =? 429); [|done].
  apply keep_sess; [|done]. apply P_store. by apply keep_sess.
Qed.

Lemma keep_admission timeout i m chatID kind waited ks mg v w mg' :
  Forall (λ k, keeps (t_others k)) ks → P mg →
  admission_loop timeout i m chatID kind waited ks mg = Some (v, w, mg') → P mg'.
Proof.
  revert waited mg. induction ks as [|k ks IH]; intros waited mg Hk Hm; cbn [admission_loop]; [done|].
  apply Forall_cons in Hk as [Hk Hks]. destruct (objs mg !! i) as [s|] eqn:Es; [|done].
  destruct (TryAcquire _ _ _ _ _) as [[] g]; [intros [= <- <- <-]; by eapply P_obj|].
  destruct (WaitTime _ _ _ _ _) as [wt g']. destruct (_ || _); [intros [= <- <- <-]; by eapply P_obj|].
  destruct (qlt _ _); [intros [= <- <- <-]; by eapply P_obj|]. set (mg1 := set_obj _ _ _).
  assert (P (t_others k mg1)) by (apply Hk; by eapply P_obj).
  destruct (t_done k); [by intros [= <- <- <-]|]. by apply IH.
Qed.

Lemma keep_forward e i s method body chatID kind mg r reqs mg' :
  steady e → P mg → forward e i s method body chatID kind mg = (r, reqs, mg') →
  P mg' ∧ Forall (for_token (Token s)) reqs.
Proof.
  intros [Hd _] Hm. unfold forward. destruct (json_marshal body) as [t|]; [|by intros [= <- <- <-]].
  set (q := raw_post _ _ _). assert (Forall (for_token (Token s)) [q]) as Hq by (repeat constructor; by exists method).
  pose proof (Hd 1%nat mg Hm) as H1. destruct (client e 1%nat q) as [err|resp]; intros [= <- <- <-]; split; try done.
  apply keep_learn. destruct (kind =? "write")%string; [|done]. by apply keep_sess.
Qed.

Lemma keep_paid e timeout i s m method body chatID kind act key mg r reqs mg' :
  steady e → P mg → paid_stage e timeout i s m method body chatID kind act key mg = Some (r, reqs, mg') →
  P mg' ∧ Forall (for_token (Token s)) reqs.
Proof.
  intros He Hm. unfold paid_stage, leave_paid, fail_key, finish_key. set (mg1 := upd_sess i _ mg).
  assert (P mg1) as H1 by (by apply keep_sess). destruct (_ && _).
  { intros [= <- <- <-]. split; [|done]. apply keep_sess; [|done]. destruct act; [by apply P_store|done]. }
  unfold admitAndForward. destruct (admission_loop _ _ _ _ _ _ _ _) as [[[v w] mg2]|] eqn:E; [|done].
  apply keep_admission in E; [|apply He|done].
  assert (∀ (c : bool) mg3, P mg3 → P (upd_sess i (λ s, upd_guard (ExitPaidLane (guard s)) s)
    (if act then if c then upd_store (GatewayStore.IdempotencyFinish (settle_at e) (settle_faults e) (Alias s) key) mg3
      else upd_store (GatewayStore.IdempotencyFail (settle_faults e) (Alias s) key) mg3 else mg3))) as Hend.
  { intros c mg3 H3. apply keep_sess; [|done]. destruct act; [|done]. destruct c; by apply P_store. }
  destruct v as [|r0]; [|intros [= <- <- <-]; split; [by apply Hend|done]].
  destruct (forward e i s method body chatID kind mg2) as [[r1 rq1] mg3] eqn:Ef.
  apply keep_forward in Ef as [H3 Hq]; [|done|done]. intros [= <- <- <-]. split; [by apply Hend|done].
Qed.

Lemma keep_typing s m kind body chatID mg : P mg → P (typing_stage s m kind body chatID mg).2.
Proof. intros Hm. unfold typing_stage, upd_typing. repeat case_match; try done; by apply P_typing. Qed.

Lemma keep_open e timeout i s m method body key mg r reqs mg' :
  steady e → P mg → call_open e timeout i s m method body key mg = Some (r, reqs, mg') →
  P mg' ∧ Forall (for_token (Token s)) reqs.
Proof.
  intros He Hm. unfold call_open. cbv zeta. set (act := _ && _).
  match goal with |- context [let (_, _) := ?x in _] => destruct x as [verdict g] end.
  destruct (act && _); [intros [= <- <- <-]; split; [by apply P_store|done]|].
  pose proof (keep_typing s m (MethodKind m) body (extractChatID body) (set_store mg g) (P_store _ _ Hm)) as Ht.
  destruct (typing_stage _ _ _ _ _ _) as [[r0|] mg1]; [by intros [= <- <- <-]|]. by apply keep_paid.
Qed.

Lemma keep_resolve e i s body mg b reqs mg' :
  steady e → P mg → resolveUsernameChat e i s body mg = (b, reqs, mg') →
  P mg' ∧ Forall (for_token (Token s)) reqs.
Proof.
  intros [Hd _] Hm E. split.
  - revert E. unfold resolveUsernameChat. pose proof (Hd 0%nat mg Hm).
    repeat case_match; intros [= <- <- <-]; try done; by apply keep_sess.
  - apply resolve_requests in E as [Hr _]. eapply Forall_impl; [exact Hr|]. intros q Hq. exists "getChat". exact Hq.
Qed.

Lemma keep_once k i m chatID mg v mg' :
  P mg → admit_once k i m chatID mg = Some (v, mg') → P mg'.
Proof.
  intros Hm. unfold admit_once. destruct (objs mg !! i) as [s|] eqn:Es; [|done].
  destruct (TryAcquire _ _ _ _ _) as [[] g]; [intros [= <- <-]; by eapply P_obj|].
  destruct (WaitTime _ _ _ _ _) as [wt g']. intros [= <- <-]. by eapply P_obj.
Qed.

(** The request that carries a body as it came. *)
Definition carries (s : BotSession) (method raw ctype : string) (total : option Z) (q : httpRequest) : Prop :=
  Method q = "POST" ∧ URL q = "/bot" +:+ Token s +:+ "/" +:+ method ∧ ContentType q = ctype ∧
  match total with
  | Some n => Reader q = Some (raw, n)
  | None => Reader q = None ∧ RawBody q = Some (PBytes raw)
  end.

Lemma carries_token s method rb ctype total q : carries s method rb ctype total q → for_token (Token s) q.
Proof. intros (_ & Hu & _). by exists method. Qed.

Lemma keep_multipart e k i s method prefix body total ctype mg r reqs mg' :
  steady e → P mg → forwardMultipart e k i s method prefix body total ctype mg = Some (r, reqs, mg') →
  P mg' ∧ Forall (carries s method body ctype (Some total)) reqs ∧ (length reqs <= 1)%nat.
Proof.
  intros [Hd _] Hm. unfold forwardMultipart. cbv zeta. set (mg0 := upd_typing _ mg).
  assert (P mg0) as H0 by (by apply P_typing).
  destruct (admit_once _ _ _ _ _) as [[v mg1]|] eqn:E; [|done]. apply keep_once in E; [|done].
  destruct v as [|r0]; [|intros [= <- <- <-]; split; [done|split; [done|simpl; lia]]]. set (q := {| Method := "POST" |}).
  pose proof (Hd 1%nat mg1 E) as H1. destruct (client e 1%nat q) as [err|resp]; intros [= <- <- <-];
    (split; [|split; [by apply Forall_singleton|simpl; lia]]); [done|]. apply keep_learn. by apply keep_sess.
Qed.

Lemma keep_raw e k i s method rb ctype chatID key mg r reqs mg' :
  steady e → P mg → CallRawWithChat e k i s method rb ctype chatID key mg = Some (r, reqs, mg') →
  P mg' ∧ Forall (carries s method rb ctype None) reqs ∧ (length reqs <= 1)%nat.
Proof.
  intros [Hd _] Hm. unfold CallRawWithChat. cbv zeta. set (act := _ && _).
  match goal with |- context [let (_, _) := ?x in _] => destruct x as [verdict g] end.
  destruct (act && _); [intros [= <- <- <-]; split; [by apply P_store|split; [done|simpl; lia]]|].
  match goal with |- context [admit_once _ _ _ _ ?x] => set (mg0 := x) end.
  assert (P mg0) as H0 by (unfold mg0; case_match; [apply P_typing|]; by apply P_store).
  destruct (admit_once _ _ _ _ _) as [[v mg1]|] eqn:E; [|done]. apply keep_once in E; [|done].
  destruct v as [|r0]; [|intros [= <- <- <-]; split; [done|split; [done|simpl; lia]]]. set (q := raw_post _ _ _).
  assert (∀ h mg2, P mg2 → P (if act then upd_store h mg2 else mg2)) as Hs by (intros; destruct act; [by apply P_store|done]).
  pose proof (Hd 1%nat mg1 E) as H1. destruct (client e 1%nat q) as [err|resp]; intros [= <- <- <-];
    (split; [|split; [by apply Forall_singleton|simpl; lia]]); [by apply Hs|]. apply keep_learn, keep_sess; [by apply Hs|done].
Qed.

Lemma keep_call e k timeout i s method body ctype rawBody key mg r reqs mg' :
  steady e → P mg → Call e k timeout i s method body ctype rawBody key mg = Some (r, reqs, mg') →
  P mg' ∧ Forall (for_token (Token s)) reqs.
Proof.
  intros He Hm. unfold Call. destruct rawBody as [rb|].
  { intros E. apply keep_multipart in E as (H1 & H2 & _); [|done|done]. split; [done|].
    eapply Forall_impl; [exact H2|]. intros q. apply carries_token. }
  destruct (resolveUsernameChat e i s body mg) as [[b rq] mg1] eqn:Er.
  apply keep_resolve in Er as [H1 Hq]; [|done|done].
  destruct (gatewayOwned (to_lower method)).
  - destruct (_ =? "getupdates")%string.
    + unfold internalGetUpdates. destruct (objs mg1 !! i) as [s1|] eqn:Es; [|done].
      destruct (Queue.Pull _ _ _ _ _ _ _ _) as [[[out|] q] w]; [|done]. intros [= <- <- <-].
      rewrite app_nil_r. split; [|done]. apply (proj1 He). eapply P_obj; [by apply P_world|exact Es|done..].
    + destruct (_ =? "deletewebhook")%string; intros [= <- <- <-]; rewrite app_nil_r; done.
  - destruct (call_open _ _ _ _ _ _ _ _ _) as [[[r0 rq0] mg2]|] eqn:E; [|done].
    apply keep_open in E as [H2 Hq2]; [|done|done]. intros [= <- <- <-]. split; [done|]. by apply Forall_app.
Qed.

Lemma reply_gw_some x o reqs mg :
  reply_gw x = Some (o, reqs, mg) → ∃ r, x = Some (r, reqs, mg) ∧ o = Reply (writeGwResponse r).
Proof. destruct x as [[[r rq] mg']|]; [|done]. intros [= <- <- <-]. by exists r. Qed.

Lemma keep_route e r i s method mg o reqs mg' :
  steady (calls e) → P mg → callRoute e r i s method mg = Some (o, reqs, mg') →
  P mg' ∧ Forall (for_token (Token s)) reqs.
Proof.
  intros He Hm. unfold callRoute, refuse. cbv zeta.
  assert (∀ rb ct total l, Forall (carries s method rb ct total) l → Forall (for_token (Token s)) l) as Hc
    by (intros rb ct total l Hl; eapply Forall_impl; [exact Hl|]; intros q; apply carries_token).
  destruct (has_prefix "multipart/" _); [destruct (_ && _); [|destruct (isTooLarge _ _); [by intros [= <- <- <-]|]]|
    destruct (has_prefix _ _); (destruct (isTooLarge _ _); [by intros [= <- <- <-]|]); [destruct (gatewayOwned _)|]];
    intros (r0 & E & _)%reply_gw_some.
  - apply keep_multipart in E as (H1 & H2 & _); eauto.
  - by apply keep_call in E.
  - by apply keep_call in E.
  - apply keep_raw in E as (H1 & H2 & _); eauto.
  - by apply keep_call in E.
Qed.

(** The requests go out under the token of a session the path names. *)
Definition issued (r : request) (mg : Manager) (reqs : list httpRequest) : Prop :=
  reqs = [] ∨ ∃ al i s, sessions mg !! al = Some i ∧ objs mg !! i = Some s ∧ names_token r (Token s) ∧
    Forall (λ q, for_token (Token s) q ∨ file_for (Token s) q) reqs.

Lemma issued_for r mg al i s reqs :
  sessions mg !! al = Some i → objs mg !! i = Some s → names_token r (Token s) →
  Forall (for_token (Token s)) reqs → issued r mg reqs.
Proof.
  intros H1 H2 H3 H4. right. exists al, i, s. split_ands; [done..|]. eapply Forall_impl; [exact H4|]. by left.
Qed.

Lemma keep_post e r mg o reqs mg' :
  steady (calls e) → P mg → handleTGAPIPost e r mg = Some (o, reqs, mg') → P mg' ∧ issued r mg reqs.
Proof.
  intros He Hm. unfold handleTGAPIPost, refuse. destruct (splitBotTokenPath _ _) as [[t m]|] eqn:Et; [|intros [= <- <- <-]; by split; [|left]].
  destruct (FindByToken t mg) as [i|] eqn:Ef; [|intros [= <- <- <-]; by split; [|left]].
  apply find_token_some in Ef as (al & s & Hal & Hi & <-). rewrite Hi. intros E. apply keep_route in E as [H1 H2]; [|done|done].
  split; [done|]. apply split_names in Et as [pre Et]. apply (issued_for r mg al i s); [done|done| |done]. by exists pre, m.
Qed.

Lemma keep_file e r mg o reqs mg' :
  steady (calls e) → P mg → handleFileRoute e r mg = Some (o, reqs, mg') → P mg' ∧ issued r mg reqs.
Proof.
  intros He Hm. unfold handleFileRoute, refuse. set (x := match splitBotTokenPath _ "/file" with Some _ => _ | None => _ end).
  destruct x as [[t m]|] eqn:Et; [|intros [= <- <- <-]; by split; [|left]].
  assert (∃ pre, url_path r = pre +:+ "bot" +:+ t +:+ "/" +:+ m) as [pre Hn].
  { subst x. destruct (splitBotTokenPath (url_path r) "/file") as [y|] eqn:Ey;
      [injection Et as ->; by eapply split_names|by eapply split_names]. }
  destruct (FindByToken t mg) as [i|] eqn:Ef; [|intros [= <- <- <-]; by split; [|left]].
  apply find_token_some in Ef as (al & s & Hal & Hi & <-). set (q := {| Method := "GET" |}).
  assert (issued r mg [q]) as Hq.
  { right. exists al, i, s. split_ands; [done|done|by exists pre, m|]. apply Forall_singleton. right. split; [done|]. by exists m. }
  pose proof (proj1 He 3%nat mg Hm) as Hd. destruct (client (calls e) 3%nat q); intros [= <- <- <-]; done.
Qed.

Lemma keep_get e r mg o reqs mg' :
  steady (calls e) → P mg → handleTGAPIGetRoute e r mg = Some (o, reqs, mg') → P mg' ∧ issued r mg reqs.
Proof.
  intros He Hm. unfold handleTGAPIGetRoute, refuse. destruct (has_prefix _ _); [by apply keep_file|].
  destruct (splitBotTokenPath _ _) as [[t m]|] eqn:Et; [|intros [= <- <- <-]; by split; [|left]].
  destruct (FindByToken t mg) as [i|] eqn:Ef; [|intros [= <- <- <-]; by split; [|left]].
  apply find_token_some in Ef as (al & s & Hal & Hi & <-). rewrite Hi. intros (r0 & E & _)%reply_gw_some.
  apply keep_call in E as [H1 H2]; [|done|done].
  split; [done|]. apply split_names in Et as [pre Et]. apply (issued_for r mg al i s); [done|done| |done]. by exists pre, m.
Qed.

Lemma keep_alias e r alias method mg o reqs mg' :
  steady (calls e) → P mg → handleByAlias e r alias method mg = Some (o, reqs, mg') →
  P mg' ∧ (reqs = [] ∨ bearerOK (r_auth r) (AppSecret (cfg mg)) = true ∧
    ∃ i s, sessions mg !! alias = Some i ∧ objs mg !! i = Some s ∧ Forall (for_token (Token s)) reqs).
Proof.
  intros He Hm. unfold handleByAlias, refuse. destruct (bearerOK _ _); [|intros [= <- <- <-]; by split; [|left]]. simpl.
  destruct (Get alias mg) as [[i s]|] eqn:Eg; [|intros [= <- <- <-]; by split; [|left]]. apply Get_Some in Eg as [G1 G2].
  intros E. apply keep_route in E as [H1 H2]; [|done|done]. split; [done|]. right. split; [done|]. by exists i, s.
Qed.
End proxy_keeps.

(** C5. Tenants are separate: the requests one HTTP request makes the gateway
    send upstream all go out under the token of one registered session, and it
    is a session whose token is in the request's path, or the one named by the
    alias in the path, in which case the request carried the app secret. *)
Theorem requests_stay_in_session `{Fernet} e bx admin r a o reqs a' :
  serve e bx admin r a = Some (o, reqs, a') → reqs ≠ [] →
  ∃ s, entitled r (Mgr a) s ∧ Forall (λ q, for_token (Token s) q ∨ file_for (Token s) q) reqs.
Proof.
  unfold serve. destruct (lookup_route _ _ _) as [hd vals| | |] eqn:Er; try by intros [= <- <- <-].
  assert (steady (λ _, True) (calls e)) as He by (split; [done|by apply Forall_true]).
  assert (∀ x, lift a x = Some (o, reqs, a') → ∃ mg', x = Some (o, reqs, mg')) as Hl.
  { intros [[[o1 rq1] mg1]|]; [|done]. intros [= <- <- <-]. by exists mg1. }
  assert (issued r (Mgr a) reqs → reqs ≠ [] → ∃ s, entitled r (Mgr a) s ∧
    Forall (λ q, for_token (Token s) q ∨ file_for (Token s) q) reqs) as Hi.
  { intros [->|(al & i & s & H1 & H2 & H3 & H4)] Hne; [done|]. exists s. split; [|done]. exists al, i. auto. }
  destruct hd; cbn [run_handler]; try (intros [= <- <- <-]; done); try (by destruct (adminSafeModeAck _ _ _ _); intros [= <- <- <-]);
    intros [mg' E]%Hl Hne.
  - by apply (keep_post (λ _, True)) in E as [_ E]; [apply Hi|..].
  - by apply (keep_get (λ _, True)) in E as [_ E]; [apply Hi|..].
  - apply (keep_alias (λ _, True)) in E as [_ [->|(Hb & i & s & H1 & H2 & H3)]]; [done| |done..].
    apply lookup_route_found in Er as (v & ps & Hin & _ & Hm). rewrite (route_alias _ _ _ _ Hin) in Hm. apply match_alias in Hm.
    exists s. split; [|eapply Forall_impl; [exact H3|]; by left]. exists (arg 0 vals), i. split_ands; [done|done|]. right. eauto.
  - by apply (keep_file (λ _, True)) in E as [_ E]; [apply Hi|..].
Qed.

(** ** One poller per bot, through the HTTP surface *)

(** What other goroutines do during a request keeps the manager well formed. *)
Record env_steady (e : app_env) : Prop := {
  es_calls : steady mgr_ok (calls e);
  es_meanwhile : keeps mgr_ok (meanwhile e);
  es_probe : keeps mgr_ok (probe_others e)
}.

Lemma ok_store g m : mgr_ok m → mgr_ok (set_store m g).
Proof. intros. by eapply mgr_ok_shape. Qed.

Lemma ok_typing t m : mgr_ok m → mgr_ok (set_typing m t).
Proof. intros. by eapply mgr_ok_shape. Qed.

Lemma ok_world w m : mgr_ok m → mgr_ok (set_world m w).
Proof. intros. by eapply mgr_ok_shape. Qed.

Lemma ok_obj i s s' m :
  mgr_ok m → objs m !! i = Some s → Alias s' = Alias s → Token s' = Token s → pollCancel s' = pollCancel s →
  mgr_ok (set_obj m i s').
Proof. intros. by eapply mgr_ok_obj. Qed.

Create HintDb botapp.
#[local] Hint Resolve ok_store ok_typing ok_world ok_obj Pause_ok Resume_ok Drain_ok : botapp.

Lemma ok_audit e action alias detail m : mgr_ok m → mgr_ok (audit e action alias detail m).
Proof. apply ok_store. Qed.

Lemma ok_status now al m : mgr_ok m → mgr_ok (status_loop now al m).2.
Proof.
  revert m. induction al as [|a al IH]; intros m Hm; [done|]. cbn [status_loop].
  destruct (Get a m) as [[i s]|] eqn:E; [|by apply IH]. apply Get_Some in E as [_ E].
  destruct (PublicStatus now s) as [st s'] eqn:Es.
  assert (mgr_ok (set_obj m i s')) as Hm'.
  { unfold PublicStatus, sendsPerSLocked in Es. destruct (Snapshot _ _) as [b g]. injection Es as _ <-. by eapply ok_obj. }
  specialize (IH _ Hm'). by destruct (status_loop now al (set_obj m i s')).
Qed.

Lemma ok_call e action call r alias m :
  mgr_ok m → mgr_ok (call m).2 → mgr_ok (admin_call e action call r alias m).2.
Proof.
  intros Hm Hc. unfold admin_call. destruct (adminAuthed r m); [|done]. simpl.
  destruct (call m) as [[] m1]; [by apply ok_audit|done].
Qed.

Section calls.
Context `{Fernet}.

Lemma ok_register e bx r m : mgr_ok m → mgr_ok (adminRegister e bx r m).2.
Proof.
  intros Hm. unfold adminRegister. destruct (adminAuthed r m); [|done]. simpl.
  destruct (decode_register _) as [b|]; [|done]. destruct (_ =? "")%string; [done|]. destruct (ok_limit _); [|done]. simpl.
  match goal with |- context [Attach ?a ?b ?c ?d ?e ?f ?g ?h ?i ?j ?k] =>
    pose proof (Attach_ok a b c d e f g h i j k Hm) as HA; destruct (Attach a b c d e f g h i j k) as [[i0|] m1] end; [|done].
  destruct (objs m1 !! i0); [by apply ok_audit|done].
Qed.

Lemma ok_restore clk f fs b m : mgr_ok m → mgr_ok (RestoreAll clk f fs b m).2.
Proof. intros Hm. unfold RestoreAll. destruct (GatewayStore.ListBots _ _); [by apply restore_rows_ok|done]. Qed.

Lemma ok_set_push e r alias m : env_steady e → mgr_ok m → mgr_ok (adminSetPush e r alias m).2.
Proof.
  intros He Hm. unfold adminSetPush. destruct (adminAuthed r m); [|done]. simpl. set (url := default "" _).
  pose proof (SetPush_ok alias url m Hm) as Hp. destruct (SetPush alias url m) as [[] m1]; [|done].
  assert (mgr_ok (meanwhile e (audit e "set_push" alias ("url=" +:+ url) m1))) as Hw by (by apply (es_meanwhile e He), ok_audit).
  by destruct (Get alias _) as [[]|].
Qed.

Lemma ok_set_paid e r alias m : mgr_ok m → mgr_ok (adminSetPaid e r alias m).2.
Proof.
  intros Hm. unfold adminSetPaid. destruct (adminAuthed r m); [|done]. simpl.
  destruct (Get alias m) as [[i s]|] eqn:E; [|done]. apply Get_Some in E as [_ E]. apply ok_audit. by eapply ok_obj.
Qed.

Lemma ok_bot_typing e r alias m : mgr_ok m → mgr_ok (adminSetBotTyping e r alias m).2.
Proof.
  intros Hm. unfold adminSetBotTyping. destruct (adminAuthed r m); [|done]. simpl. destruct (decode_patch _) as [p|]; [|done].
  destruct (Get alias m) as [[i s]|] eqn:E; [|done]. apply Get_Some in E as [_ E]. apply ok_audit. by eapply ok_obj.
Qed.

Lemma ok_set_typing e r m : mgr_ok m → mgr_ok (adminSetTypingSettings e r m).2.
Proof.
  intros Hm. unfold adminSetTypingSettings. destruct (adminAuthed r m); [|done]. simpl. destruct (decode_patch _) as [p|]; [|done].
  by apply ok_audit, ok_typing.
Qed.

Lemma ok_readyz e safe m : env_steady e → mgr_ok m → mgr_ok (handleReadyz e safe m).2.
Proof.
  intros He Hm. unfold handleReadyz. pose proof (es_probe e He m Hm). destruct (probe e 0%nat); [done|].
  destruct (probe e 1%nat); [done|]. by apply ok_store.
Qed.

Lemma serve_ok e bx admin r a o reqs a' :
  env_steady e → mgr_ok (Mgr a) → serve e bx admin r a = Some (o, reqs, a') → mgr_ok (Mgr a').
Proof.
  intros He Hm. unfold serve. destruct (lookup_route _ _ _) as [hd vals| | |]; try by intros [= <- <- <-].
  assert (∀ x, lift a x = Some (o, reqs, a') → ∃ mg', x = Some (o, reqs, mg') ∧ Mgr a' = mg') as Hl.
  { intros [[[o1 rq1] mg1]|]; [|done]. intros [= <- <- <-]. by exists mg1. }
  assert (∀ x, quiet a x = Some (o, reqs, a') → mgr_ok x.2 → mgr_ok (Mgr a')) as Hq by (intros x [= <- <- <-]; done).
  destruct hd; cbn [run_handler]; try (by intros [= <- <- <-]);
    try (intros Hx; apply Hq in Hx; [done|]; first [by apply ok_register | by apply ok_set_paid | by apply ok_bot_typing
      | by apply ok_set_typing | by apply ok_set_push | by apply ok_readyz | apply ok_call; [done|]; solve [eauto with botapp]
      | apply ok_call; [done|]; by apply Delete_ok ]).
  - intros (mg' & E & ->)%Hl. eapply (keep_post mgr_ok); eauto with botapp. apply He.
  - intros (mg' & E & ->)%Hl. eapply (keep_get mgr_ok); eauto with botapp. apply He.
  - intros (mg' & E & ->)%Hl. eapply (keep_alias mgr_ok); eauto with botapp. apply He.
  - intros (mg' & E & ->)%Hl. eapply (keep_file mgr_ok); eauto with botapp. apply He.
  - intros Hx. apply Hq in Hx; [done|]. unfold adminStatus. destruct (adminAuthed _ _); [|done]. simpl.
    pose proof (ok_status (clock e 0%nat) (sortedAliases (Mgr a)) (Mgr a) Hm) as Hs. by destruct (status_loop _ _ _).
  - unfold adminSafeModeAck. destruct (adminAuthed _ _); [|by intros [= <- <- <-]]. simpl.
    pose proof (ok_restore (clock e) (admin_faults e 0%nat) (restore_faults e) bx (Mgr a) Hm) as Hr.
    destruct (RestoreAll _ _ _ _ _) as [n mg1]. intros [= <- <- <-]. by apply ok_audit.
Qed.

(** A running gateway: boot, requests on either listener, background steps of
    the manager's goroutines, shutdown. *)
Inductive app_step (a : App) : App → Prop :=
| step_boot clk at_ wr f fv fs bx : app_step a (buildLifecycle clk at_ wr f fv fs bx a).2
| step_serve e bx admin r o reqs a' :
    env_steady e → serve e bx admin r a = Some (o, reqs, a') → app_step a a'
| step_background m : mgr_step (Mgr a) m → app_step a (set_mgr m a)
| step_close : app_step a (Close a).

Lemma app_step_ok a a' : mgr_ok (Mgr a) → app_step a a' → mgr_ok (Mgr a').
Proof.
  intros Hm. inversion 1; subst.
  - unfold buildLifecycle. destruct (BootTracker.RecordBoot _ _ _ _) as [[safe n] hist]. destruct safe; [done|]. by apply ok_restore.
  - by eapply serve_ok.
  - by eapply mgr_step_ok.
  - unfold Close. destruct (closed a); [done|]. by apply Shutdown_ok.
Qed.
End calls.


(** ** Bodies *)

Definition is_multipart (r : request) : bool := has_prefix "multipart/" (r_ctype r).

Definition is_form (r : request) : bool := negb (is_multipart r) && has_prefix "application/x-www-form-urlencoded" (r_ctype r).

(** What the client puts on the wire for a request that carries a body. *)
Lemma carries_wire s method rb ctype total q base :
  carries s method rb ctype total q → ctype ≠ "" →
  ∃ w, wire_of base q = Some w ∧ w_method w = "POST" ∧ w_url w = base +:+ "/bot" +:+ Token s +:+ "/" +:+ method ∧
    w_body w = PBytes rb ∧ w_ctype w = ctype ∧ w_length w = total.
Proof.
  intros (Hm & Hu & Hc & Ht) Hne. unfold wire_of. rewrite Hu, Hc, (proj2 (String.eqb_neq ctype "") Hne). simpl.
  destruct total as [n|]; [rewrite Ht|destruct Ht as [-> ->]]; eexists; (split; [reflexivity|]); simpl; done.
Qed.

(** C20. Uploads and forms reach Telegram byte for byte: a multipart body, or a
    form body of a method the gateway does not own, causes at most one upstream
    request, and what the client puts on the wire for it is a POST of that
    method under the session's token with exactly the bytes and the content
    type that came in, and for a sized upload with exactly its length. *)
Theorem bodies_are_verbatim e r i s method mg o reqs mg' base :
  is_multipart r = true ∨ is_form r = true ∧ gatewayOwned (to_lower method) = false →
  callRoute e r i s method mg = Some (o, reqs, mg') →
  (length reqs <= 1)%nat ∧
  ∀ q, q ∈ reqs → ∃ w, wire_of base q = Some w ∧ w_method w = "POST" ∧
    w_url w = base +:+ "/bot" +:+ Token s +:+ "/" +:+ method ∧
    w_body w = PBytes (r_raw r) ∧ w_ctype w = r_ctype r ∧
    (is_multipart r = true → 0 < r_length r <= maxMultipartBody → w_length w = Some (r_length r)).
Proof.
  intros Hk. assert (steady (λ _, True) (calls e)) as He by (split; [done|by apply Forall_true]).
  assert (r_ctype r ≠ "") as Hne by (intros E; unfold is_form, is_multipart in Hk; rewrite E in Hk; naive_solver).
  assert (∀ total, Forall (carries s method (r_raw r) (r_ctype r) total) reqs → (length reqs <= 1)%nat →
    (is_multipart r = true → 0 < r_length r <= maxMultipartBody → total = Some (r_length r)) →
    (length reqs <= 1)%nat ∧ ∀ q, q ∈ reqs → ∃ w, wire_of base q = Some w ∧ w_method w = "POST" ∧
      w_url w = base +:+ "/bot" +:+ Token s +:+ "/" +:+ method ∧ w_body w = PBytes (r_raw r) ∧ w_ctype w = r_ctype r ∧
      (is_multipart r = true → 0 < r_length r <= maxMultipartBody → w_length w = Some (r_length r))) as Hend.
  { intros total Hc Hl Ht. split; [done|]. intros q Hq. rewrite Forall_forall in Hc.
    destruct (carries_wire _ _ _ _ _ _ base (Hc q Hq) Hne) as (w & W1 & W2 & W3 & W4 & W5 & W6).
    exists w. split_ands; [done..|]. intros. rewrite W6. by apply Ht. }
  unfold callRoute, refuse. cbv zeta. fold (is_multipart r). destruct (is_multipart r) eqn:Em.
  - destruct (_ && _) eqn:El.
    + intros (r0 & E & _)%reply_gw_some. unfold ForwardStream in E. rewrite stake_sdrop in E.
      apply (keep_multipart (λ _, True)) in E as (_ & H1 & H2); [|done..]. by apply (Hend (Some (r_length r))).
    + destruct (isTooLarge _ _); [intros [= <- <- <-]; by apply (Hend None); [done|simpl; lia|lia]|].
      intros (r0 & E & _)%reply_gw_some. apply (keep_multipart (λ _, True)) in E as (_ & H1 & H2); [|done..].
      eapply Hend; [exact H1|done|lia].
  - destruct Hk as [?|[Hf Ho]]; [done|]. unfold is_form in Hf. rewrite Em in Hf. simpl in Hf. rewrite Hf, Ho.
    destruct (isTooLarge _ _); [intros [= <- <- <-]; by apply (Hend None); [done|simpl; lia|]|].
    intros (r0 & E & _)%reply_gw_some. apply (keep_raw (λ _, True)) in E as (_ & H1 & H2); [|done..].
    by apply (Hend None).
Qed.

(** The size limit of a request's format. *)
Definition body_limit (r : request) : Z :=
  if is_multipart r then maxMultipartBody else if is_form r then maxFormBody else maxJSONBody.

(** Oversized bodies are refused whole: when the body is larger than the
    limit of its format (the server delivers at most ContentLength bytes of a
    sized one), the answer is 413, nothing is sent upstream and nothing
    changes, so that no truncated upload or form is forwarded. *)
Theorem oversize_is_refused e r i s method mg :
  (Z.of_nat (String.length (r_raw r)) <= r_length r ∨ r_length r = -1) →
  body_limit r < Z.of_nat (String.length (r_raw r)) →
  callRoute e r i s method mg = Some (Reply tooLarge, [], mg) ∧ code_ tooLarge = 413.
Proof.
  intros Hlen Hbig. split; [|done]. unfold callRoute, refuse. cbv zeta. fold (is_multipart r).
  unfold body_limit, is_form in Hbig. destruct (is_multipart r); simpl in Hbig.
  - replace ((0 <? r_length r) && (r_length r <=? maxMultipartBody)) with false by lia.
    unfold isTooLarge. by rewrite (proj2 (Z.ltb_lt _ _) Hbig).
  - destruct (has_prefix _ _); unfold isTooLarge; by rewrite (proj2 (Z.ltb_lt _ _) Hbig).
Qed.

(** ** Boot and safe mode *)

(** A bot is served: its session is in the table, with a running uncancelled
    poller on it. *)
Definition runs (alias token : string) (m : Manager) : Prop :=
  ∃ i s c p, sessions m !! alias = Some i ∧ objs m !! i = Some s ∧ Token s = token ∧ pollCancel s = Some c ∧
    pollers m !! c = Some p ∧ p_sess p = i ∧ c ∉ cancelled m.

Lemma runs_state alias token m i st s : objs m !! i = Some s → runs alias token m → runs alias token (set_obj m i (setState st s)).
Proof.
  intros Hi (j & s0 & c & p & H1 & H2 & H3 & H4 & H5 & H6 & H7).
  exists j, (if decide (j = i) then setState st s else s0), c, p. simpl.
  destruct (decide (j = i)) as [->|Hne]; [rewrite lookup_insert_eq|by rewrite lookup_insert_ne].
  assert (s0 = s) as -> by congruence. split_ands; done.
Qed.

Section restore.
Context `{Fernet}.

Lemma attach_new_runs t1 t2 t3 fs b e alias token ol pb m :
  mgr_ok m → cancelled m = ∅ → fs 0%nat = no_faults →
  ∃ m', attach_new t1 t2 t3 fs b e alias token ol pb m = Some (next m, m') ∧ runs alias token m' ∧ cancelled m' = ∅ ∧
    sessions m' = <[alias := next m]> (sessions m) ∧ (∀ al t, al ≠ alias → runs al t m → runs al t m') ∧
    (∀ al, al ≠ alias → row_of GatewayStore.b_alias al (GatewayStore.bots (gstore m')) =
       row_of GatewayStore.b_alias al (GatewayStore.bots (gstore m))).
Proof.
  intros [_ _ [H3 H4]] Hc Hf. unfold attach_new. rewrite Hf. unfold Queue.OpenQueue. simpl (negb true). cbn [no_faults orb].
  destruct (Queue.loadFromDB _ _ _ _) as [q w]. set (s0 := {| Alias := alias |}).
  destruct (restoreBackoffs t1 t2 t3 (fs 1%nat) s0 (gstore m)) as [s g] eqn:Er.
  assert (Token s = token ∧ GatewayStore.bots g = GatewayStore.bots (gstore m)) as [Ht Hg].
  { unfold restoreBackoffs, GatewayStore.LoadBackoffs in Er. by injection Er as <- <-. }
  eexists. split; [reflexivity|]. simpl. split_ands; [|done|done| |].
  - exists (next m). eexists _, (S (next m)), _. simpl. rewrite !lookup_insert_eq. split_ands; try done. rewrite Hc. set_solver.
  - intros al t Hne (i & s1 & c & p & G1 & G2 & G3 & G4 & G5 & G6 & G7). exists i, s1, c, p. simpl.
    apply H4 in G2 as Hi. apply H3 in G5 as Hci. rewrite !lookup_insert_ne by (done || lia). done.
  - intros al Hne. unfold GatewayStore.RegisterBot. destruct (Encrypt _ _ _); simpl; [|by rewrite Hg].
    destruct (fs 2%nat 0%nat); simpl; rewrite Hg; [done|]. rewrite row_of_upsert by done. unfold has_key. simpl.
    by rewrite bool_decide_false by congruence.
Qed.

Lemma restore_rows_run clk k b rows m :
  mgr_ok m → cancelled m = ∅ → NoDup (GatewayStore.Alias <$> rows) →
  (∀ r, r ∈ rows → sessions m !! GatewayStore.Alias r = None) →
  let m' := (restore_rows clk (λ _ _, no_faults) k b rows m).2 in
  (∀ r t, r ∈ rows → GatewayStore.GetToken b no_faults (GatewayStore.Alias r) (gstore m) = Some t →
     runs (GatewayStore.Alias r) t m') ∧
  (∀ al t, al ∉ GatewayStore.Alias <$> rows → runs al t m → runs al t m').
Proof.
  revert k m. induction rows as [|r rows IH]; intros k m Hm Hc Hnd Hno; cbn [restore_rows].
  { split; [intros r t Hr; by apply elem_of_nil in Hr|done]. }
  rewrite fmap_cons in *. apply NoDup_cons in Hnd as [Hr Hnd].
  assert (sessions m !! GatewayStore.Alias r = None) as Hn by (apply Hno; by left).
  destruct (GatewayStore.GetToken b no_faults (GatewayStore.Alias r) (gstore m)) as [tok|] eqn:Et.
  2:{ destruct (IH (S k) m Hm Hc Hnd) as [I1 I2]; [intros; apply Hno; by right|]. split.
      - intros r' t [->|Hr']%elem_of_cons Ht; [congruence|by apply I1].
      - intros al t Hal. apply I2. set_solver. }
  pose proof (Attach_ok (clk k) (clk k) (clk k) (λ _, no_faults) b (Z.of_nat k) (GatewayStore.Alias r) tok None false m Hm) as HA.
  unfold Attach in *. unfold Get in *. rewrite Hn in *.
  destruct (attach_new_runs (clk k) (clk k) (clk k) (λ _, no_faults) b (Z.of_nat k) (GatewayStore.Alias r) tok None false m Hm Hc
    eq_refl) as (m1 & A1 & R1 & C1 & S1 & F1 & G1). rewrite A1 in *. simpl in HA.
  set (m2 := if GatewayStore.Paused r then _ else _).
  assert (mgr_ok m2 ∧ cancelled m2 = ∅ ∧ sessions m2 = sessions m1 ∧ gstore m2 = gstore m1 ∧
    ∀ al t, runs al t m1 → runs al t m2) as (M2 & C2 & S2 & G2 & R2).
  { unfold m2. destruct (GatewayStore.Paused r); [|by auto]. destruct (objs m1 !! next m) as [s|] eqn:Es; [|by auto].
    split_ands; [by eapply ok_obj|done..|]. intros. by apply runs_state. }
  destruct (IH (S k) m2 M2 C2 Hnd) as [I1 I2].
  { intros r' Hr'. rewrite S2, S1, lookup_insert_ne; [apply Hno; by right|]. intros E. apply Hr. rewrite E. by apply list_elem_of_fmap_2. }
  destruct (restore_rows clk _ (S k) b rows m2) as [n m3] eqn:E3. simpl in *. split.
  - intros r' t [->|Hr']%elem_of_cons Ht; [rewrite Et in Ht; injection Ht as <-; apply I2; [done|by apply R2]|].
    apply I1; [done|]. revert Ht. unfold GatewayStore.GetToken. simpl. rewrite G2, G1; [done|].
    intros E. apply Hr. rewrite <-E. by apply list_elem_of_fmap_2.
  - intros al t Hal Hrun. apply not_elem_of_cons in Hal as [Ha1 Ha2]. apply I2; [done|]. by apply R2, F1.
Qed.

Lemma restore_all_runs clk b m alias token :
  mgr_ok m → cancelled m = ∅ → sessions m = ∅ → GatewayStore.store_ok (gstore m) →
  GatewayStore.GetToken b no_faults alias (gstore m) = Some token →
  runs alias token (RestoreAll clk no_faults (λ _ _, no_faults) b m).2.
Proof.
  intros Hm Hc Hs Hok Ht. unfold RestoreAll, GatewayStore.ListBots. cbn [no_faults]. set (rows := map _ _).
  assert (GatewayStore.Alias <$> rows = GatewayStore.b_alias <$> GatewayStore.bots (gstore m)) as Ea.
  { unfold rows. change (map ?f ?l) with (f <$> l). by rewrite <-list_fmap_compose. }
  destruct (restore_rows_run clk 0 b rows m Hm Hc) as [I1 _].
  { rewrite Ea. apply Hok. }
  { intros r _. by rewrite Hs. }
  assert (alias ∈ GatewayStore.Alias <$> rows) as Hin.
  { rewrite Ea. unfold GatewayStore.GetToken in Ht. simpl in Ht. destruct (row_of _ alias _) as [x|] eqn:Ex; [|done].
    unfold row_of, select_one in Ex. apply find_some in Ex as [Hx Hk]. apply list_elem_of_In in Hx.
    apply list_elem_of_fmap. exists x. split; [|done]. unfold has_key in Hk. by apply bool_decide_eq_true in Hk. }
  apply list_elem_of_fmap in Hin as (r & -> & Hr). by apply I1.
Qed.
End restore.

(** C21. A crash loop keeps the gateway quiet until it is acknowledged: a boot
    in safe mode leaves the manager as it was (no session, no poller) and
    /readyz unready, while any other boot, and the authorised acknowledgement of
    safe mode, start a poller for every stored bot whose token decrypts. *)
Theorem safe_mode_until_ack `{Fernet} clk at_ wr fv bx a a1 e r c g w :
  Mgr a = NewManager c g w → GatewayStore.store_ok g →
  a1 = (buildLifecycle clk at_ wr no_faults fv (λ _ _, no_faults) bx a).2 →
  SafeMode a1 = (BootTracker.RecordBoot (Boot a) at_ wr (boots a)).1.1 ∧
  (SafeMode a1 = true → Mgr a1 = Mgr a ∧ ∀ e' resp mg', handleReadyz e' true (Mgr a1) = (Reply resp, mg') → code_ resp = 503) ∧
  (SafeMode a1 = false → ∀ alias token, GatewayStore.GetToken bx no_faults alias g = Some token → runs alias token (Mgr a1)) ∧
  (SafeMode a1 = true → adminAuthed r (Mgr a1) = true → admin_faults e 0%nat = no_faults → restore_faults e = (λ _ _, no_faults) →
   let a2 := (adminSafeModeAck e bx r a1).2 in
   SafeMode a2 = false ∧ boots a2 = None ∧
   ∀ alias token, GatewayStore.GetToken bx no_faults alias g = Some token → runs alias token (Mgr a2)).
Proof.
  intros Em Hok ->. unfold buildLifecycle. destruct (BootTracker.RecordBoot _ _ _ _) as [[safe n] hist]. simpl.
  assert (∀ k alias token, GatewayStore.GetToken bx no_faults alias g = Some token →
    runs alias token (RestoreAll k no_faults (λ _ _, no_faults) bx (NewManager c g w)).2) as Hrun.
  { intros k alias token Ht. apply restore_all_runs; [apply NewManager_ok|done..]. }
  rewrite Em. destruct safe; simpl; rewrite ?Em; (split; [done|]); (split; [|split]); try done.
  - intros _. split; [done|]. intros e' resp mg'. unfold handleReadyz, readiness.
    destruct (probe e' 0%nat); [by intros [= <- _]|]. destruct (probe e' 1%nat); [by intros [= <- _]|].
    destruct (negb _); by intros [= <- _].
  - intros _ Ha Hf Hrf. unfold adminSafeModeAck. simpl. rewrite Em, Ha. simpl. rewrite Hf, Hrf.
    specialize (Hrun (clock e)). destruct (RestoreAll (clock e) _ _ _ _) as [cnt mg]. simpl in *. split_ands; [done..|].
    intros alias token Ht. exact (Hrun alias token Ht).
  - intros _ alias token Ht. apply Hrun, Ht.
Qed.

(** ** Who may do what *)

Definition is_admin (hd : handler) : bool :=
  match hd with
  | HPost | HGet | HAlias | HFile | HHealthz | HReadyz | HMetrics => false
  | _ => true
  end.

Definition by_token (hd : handler) : bool := match hd with HPost | HGet | HFile => true | _ => false end.

Lemma set_mgr_same a : set_mgr (Mgr a) a = a.
Proof. by destruct a. Qed.

(** Without a registered token in the path every token route answers 404. *)
Definition strangers (r : request) (mg : Manager) : Prop :=
  ∀ al i s, sessions mg !! al = Some i → objs mg !! i = Some s → ~ names_token r (Token s).

Lemma stranger_token r mg prefix t m :
  strangers r mg → splitBotTokenPath (url_path r) prefix = Some (t, m) → FindByToken t mg = None.
Proof.
  intros Hs E. destruct (FindByToken t mg) as [i|] eqn:Ef; [|done].
  apply find_token_some in Ef as (al & s & H1 & H2 & <-). destruct (Hs al i s H1 H2).
  apply split_names in E as [pre E]. by exists pre, m.
Qed.

Lemma stranger_file e r mg : strangers r mg → handleFileRoute e r mg = refuse (fail 404) mg.
Proof.
  intros Hs. unfold handleFileRoute. destruct (splitBotTokenPath _ "/file") as [[t m]|] eqn:E1.
  { by rewrite (stranger_token r mg "/file" t m). }
  destruct (splitBotTokenPath _ "/tgapi/file") as [[t m]|] eqn:E2; [|done]. by rewrite (stranger_token r mg "/tgapi/file" t m).
Qed.

Lemma stranger_routes `{Fernet} e bx hd vals r a :
  by_token hd = true → strangers r (Mgr a) →
  ∃ resp, run_handler e bx hd vals r a = Some (Reply resp, [], a) ∧ code_ resp = 404.
Proof.
  intros Hb Hs. destruct hd; try done; cbn [run_handler];
    unfold lift, handleTGAPIPost, handleTGAPIGetRoute; rewrite ?(stranger_file e r _ Hs); unfold refuse;
    try (destruct (has_prefix _ _); [by eexists; rewrite set_mgr_same|]);
    try (destruct (splitBotTokenPath _ "/tgapi") as [[t m]|] eqn:Et; [rewrite (stranger_token r _ "/tgapi" t m Hs Et)|]);
    eexists; simpl; rewrite set_mgr_same; done.
Qed.

Lemma bot_public_not_admin v ps hd : (v, ps, hd) ∈ publicRoutes → is_admin hd = false ∧ hd ≠ HMetrics.
Proof. unfold publicRoutes. rewrite !elem_of_cons, elem_of_nil. naive_solver. Qed.

(** C6. Nothing happens without a credential: on either listener an operator
    request without the admin secret, and a request by alias without the app
    secret, are answered 401; a request whose path has no registered token is
    answered 404 by every token route; in each case nothing is sent to Telegram
    and the whole application state is unchanged.  With a separate admin port
    the public listener has no operator handler and no metrics. *)
Theorem bot_secrets_gate `{Fernet} e bx admin r a hd vals :
  lookup_route (r_method r) (r_path r) (listener_routes (cfg (Mgr a)) admin) = Found hd vals →
  (is_admin hd = true → bearerOK (r_auth r) (AdminSecret (cfg (Mgr a))) = false →
   serve e bx admin r a = Some (Reply (fail 401), [], a)) ∧
  (hd = HAlias → bearerOK (r_auth r) (AppSecret (cfg (Mgr a))) = false →
   serve e bx admin r a = Some (Reply (fail 401), [], a)) ∧
  (by_token hd = true → strangers r (Mgr a) →
   ∃ resp, serve e bx admin r a = Some (Reply resp, [], a) ∧ code_ resp = 404) ∧
  (0 < AdminPort (cfg (Mgr a)) → admin = false → is_admin hd = false ∧ hd ≠ HMetrics).
Proof.
  intros Hr. unfold serve. rewrite Hr. split_ands.
  - intros Hi Hb. destruct hd; try done; cbn [run_handler];
      unfold adminPause, adminResume, adminDrain, adminDelete, admin_call, adminRegister, adminStatus, adminSetPush, adminSetPaid,
        adminSetBotTyping, adminGetTypingSettings, adminSetTypingSettings, adminSafeModeAck, adminAudit, adminAuthed, quiet;
      rewrite Hb; simpl; by rewrite ?set_mgr_same.
  - intros -> Hb. cbn [run_handler]. unfold handleByAlias. rewrite Hb. simpl. by rewrite set_mgr_same.
  - intros Hb Hs. by apply stranger_routes.
  - intros Hp ->. unfold listener_routes in Hr. rewrite (proj2 (Z.ltb_lt _ _) Hp) in Hr.
    apply lookup_route_found in Hr as (v & ps & Hin & _). by eapply bot_public_not_admin.
Qed.

(** ** Readiness *)

(** C40. What /readyz says and does: it answers 200 exactly when both
    statements of the write probe succeed, no storage trouble is recorded and
    safe mode is off; and when the probe succeeds, the Bot API store is back at
    what it was when the probe began, whatever other requests wrote to it
    between the two statements. *)
Theorem readyz_probe e safe mg o mg' :
  handleReadyz e safe mg = (o, mg') →
  ∃ resp, o = Reply resp ∧
  (code_ resp = 200 ↔ probe e 0%nat = None ∧ probe e 1%nat = None ∧ Storage.Degraded (health mg') = "" ∧ safe = false) ∧
  (probe e 0%nat = None → probe e 1%nat = None → gstore mg' = gstore mg).
Proof.
  unfold handleReadyz, readiness. destruct (probe e 0%nat); [intros [= <- <-]; eexists; split; [done|]; split; [naive_solver|done]|].
  destruct (probe e 1%nat); [intros [= <- <-]; eexists; split; [done|]; split; [naive_solver|done]|].
  intros [= <- <-]. change (health (set_store (probe_others e mg) (gstore mg))) with (health (probe_others e mg)).
  destruct (String.eqb_spec (Storage.Degraded (health (probe_others e mg))) "") as [E|E]; simpl; [destruct safe|];
    (eexists; split; [done|]); (split; [naive_solver|done]).
Qed.

(** ** Witnesses and concrete runs *)

Definition demo_environ (n : string) : option string :=
  if (n =? "GW_ADMIN_SECRET")%string then Some "adm" else if (n =? "GW_APP_SECRET")%string then Some "app" else None.

Definition fresh_mgr (g : GatewayStore.gateway) : Manager := NewManager (BotAPIFromEnv demo_environ) g Queue.w_empty.

Definition fresh_app (g : GatewayStore.gateway) (hist : BootTracker.history) : App :=
  {| Mgr := fresh_mgr g; Boot := {| BootTracker.Path := ""; BootTracker.WindowS := 0; BootTracker.MaxBoots := 0 |};
     boots := hist; SafeMode := false; beat_last := 0; closed := false |}.

Definition demo_app : App := set_mgr (attach_demo "b1" "1:t" (fresh_mgr GatewayStore.gateway_empty)) (fresh_app GatewayStore.gateway_empty None).

Definition demo_env : app_env :=
  {| calls := env_demo ok_answer [idle_tick 1] 1000000000; once := idle_tick 1; clock := λ _, 0;
     admin_faults := λ _, no_faults; restore_faults := λ _ _, no_faults; entropy := 0; attach_error := "";
     meanwhile := λ mg, mg; probe := λ _, None; probe_others := λ mg, mg; beat_now := 0; unresolved := 0;
     quote := λ s, s; show := λ _, "" |}.

Definition demo_req (verb : string) (path : list string) (auth ctype rb : string) (doc : obj) : request :=
  {| r_method := verb; r_path := path; r_query := ""; r_auth := auth; r_ctype := ctype; r_idem := "";
     r_length := Z.of_nat (String.length rb); r_raw := rb; r_cut := false; r_doc := JText (AMap doc); r_first := JText (AMap doc) |}.

Definition send_path : list string := ["tgapi"; "bot1:t"; "sendMessage"].

Definition form_type : string := "application/x-www-form-urlencoded".

Definition sent_requests (x : option app_served) : list httpRequest := match x with Some (_, reqs, _) => reqs | None => [] end.

Definition answered (x : option app_served) : Z := match x with Some (Reply resp, _, _) => code_ resp | _ => 0 end.

Definition after (x : option app_served) : App := match x with Some (_, _, a) => a | None => demo_app end.

Lemma after_some x : answered x ≠ 0 → ∃ o, x = Some (o, sent_requests x, after x).
Proof. destruct x as [[[o reqs] a]|]; [|done]. intros _. by exists o. Qed.

Definition json_send : option app_served :=
  serve demo_env toy_box false (demo_req "POST" send_path "" "application/json" "{}" text_body) demo_app.

Lemma requests_stay_in_session_witness :
  ∃ s, entitled (demo_req "POST" send_path "" "application/json" "{}" text_body) (Mgr demo_app) s ∧
    Forall (λ q, for_token (Token s) q ∨ file_for (Token s) q) (sent_requests json_send).
Proof.
  destruct (after_some json_send) as [o E]; [vm_compute; discriminate|].
  refine (requests_stay_in_session _ _ _ _ _ _ _ _ E _). vm_compute. discriminate.
Defined.

Definition register_req (alias token : string) : request :=
  demo_req "POST" ["admin"; "bots"] "Bearer adm" "application/json" "{}" [("alias", AStr alias); ("token", AStr token)].

Definition registered : option app_served :=
  serve demo_env toy_box false (register_req "b1" "1:t") (fresh_app GatewayStore.gateway_empty None).

Lemma demo_steady : env_steady demo_env.
Proof. constructor; [split; [by intros n m|]|by intros m|by intros m]. apply Forall_singleton. by intros m. Qed.


Definition form_req : request := demo_req "POST" send_path "" form_type "chat_id=7&text=007+true&allow_paid_broadcast=true" [].

Definition form_send : option served :=
  match objs (Mgr demo_app) !! 0%nat with Some s => callRoute demo_env form_req 0 s "sendMessage" (Mgr demo_app) | None => None end.

Lemma bodies_are_verbatim_witness :
  match form_send with
  | Some (_, [q], _) => ∃ w, wire_of "https://api.telegram.org" q = Some w ∧ w_body w = PBytes (r_raw form_req)
  | _ => False
  end.
Proof.
  unfold form_send. destruct (objs (Mgr demo_app) !! 0%nat) as [s|] eqn:Es; [|vm_compute in Es; discriminate].
  assert (match objs (Mgr demo_app) !! 0%nat with
    | Some s => match callRoute demo_env form_req 0 s "sendMessage" (Mgr demo_app) with Some (_, [_], _) => true | _ => false end
    | None => false end = true) as H1 by (vm_compute; reflexivity). rewrite Es in H1.
  destruct (callRoute demo_env form_req 0 s "sendMessage" (Mgr demo_app)) as [[[o [|q [|q' l]]] mg']|] eqn:E; try discriminate H1.
  destruct (bodies_are_verbatim demo_env form_req 0 s "sendMessage" (Mgr demo_app) o [q] mg' "https://api.telegram.org") as [_ Hq];
    [right; split; vm_compute; reflexivity|exact E|].
  destruct (Hq q ltac:(by left)) as (w & W1 & _ & _ & W4 & _).
  exists w. split; [exact W1|exact W4].
Defined.

(** A body of the given length. *)
Fixpoint pad (n : nat) : string := match n with O => "" | S n' => String "x" (pad n') end.

Lemma length_pad n : String.length (pad n) = n.
Proof. induction n as [|n IH]; [done|]. cbn [pad String.length]. by rewrite IH. Qed.

Definition big_form : request :=
  {| r_method := "POST"; r_path := send_path; r_query := ""; r_auth := ""; r_ctype := form_type; r_idem := "";
     r_length := -1; r_raw := pad (Z.to_nat (maxFormBody + 1)); r_cut := false; r_doc := JBad ""; r_first := JBad "" |}.

Lemma oversize_is_refused_witness :
  callRoute demo_env big_form 0 demo_session "sendMessage" (Mgr demo_app) = Some (Reply tooLarge, [], Mgr demo_app).
Proof.
  apply (oversize_is_refused demo_env big_form 0 demo_session "sendMessage" (Mgr demo_app)); [right; reflexivity|].
  change (r_raw big_form) with (pad (Z.to_nat (maxFormBody + 1))). rewrite length_pad, Z2Nat.id by (unfold maxFormBody; lia).
  change (body_limit big_form) with maxFormBody. lia.
Defined.

(** A store with one bot, and a history of six boots within the window. *)
Definition one_bot_store : GatewayStore.gateway :=
  default GatewayStore.gateway_empty (GatewayStore.RegisterBot toy_box 0 0 no_faults "b1" "1:t" GatewayStore.gateway_empty).

Definition crashed : BootTracker.history := Some (repeat 1%Q 6).

Definition safe_boot : App :=
  (buildLifecycle (λ _, 0) 2000000000 true no_faults no_faults (λ _ _, no_faults) toy_box (fresh_app one_bot_store crashed)).2.

Definition ack_req : request := demo_req "POST" ["admin"; "safe_mode"; "ack"] "Bearer adm" "" "" [].

Lemma one_bot_store_ok : GatewayStore.store_ok one_bot_store.
Proof. constructor; vm_compute; repeat constructor; set_solver. Qed.

Lemma safe_mode_until_ack_witness :
  SafeMode safe_boot = true ∧ Mgr safe_boot = fresh_mgr one_bot_store ∧
  runs "b1" "1:t" (Mgr (adminSafeModeAck demo_env toy_box ack_req safe_boot).2).
Proof.
  assert (SafeMode safe_boot = true) as Hs by (vm_compute; reflexivity).
  destruct (safe_mode_until_ack (λ _, 0) 2000000000 true no_faults toy_box (fresh_app one_bot_store crashed) safe_boot
    demo_env ack_req (BotAPIFromEnv demo_environ) one_bot_store Queue.w_empty eq_refl one_bot_store_ok eq_refl)
    as (_ & H1 & _ & H2).
  split; [exact Hs|]. split; [apply H1, Hs|]. apply H2; [exact Hs|vm_compute; reflexivity|reflexivity|reflexivity|vm_compute; reflexivity].
Defined.

Definition pause_req (auth : string) : request := demo_req "POST" ["admin"; "bots"; "b1"; "pause"] auth "" "" [].

Lemma bot_secrets_gate_witness :
  serve demo_env toy_box false (pause_req "Bearer app") demo_app = Some (Reply (fail 401), [], demo_app) ∧
  answered (serve demo_env toy_box false (pause_req "Bearer adm") demo_app) = 200.
Proof.
  split; [|vm_compute; reflexivity].
  refine (proj1 (bot_secrets_gate demo_env toy_box false (pause_req "Bearer app") demo_app HPause ["b1"] _) _ _); vm_compute; reflexivity.
Defined.

(** A readiness probe during which an operator registers a bot. *)
Definition racing_env : app_env :=
  {| calls := calls demo_env; once := once demo_env; clock := clock demo_env; admin_faults := admin_faults demo_env;
     restore_faults := restore_faults demo_env; entropy := 0; attach_error := ""; meanwhile := λ mg, mg; probe := λ _, None;
     probe_others := λ mg, (adminRegister demo_env toy_box (register_req "b1" "1:t") mg).2; beat_now := 0; unresolved := 0;
     quote := λ s, s; show := λ _, "" |}.

Definition raced : Manager := (handleReadyz racing_env false (fresh_mgr GatewayStore.gateway_empty)).2.

(** The registration was acknowledged and the bot is being polled, yet its row
    is gone: after a restart it is not there. *)
Lemma readyz_probe_witness :
  (adminRegister demo_env toy_box (register_req "b1" "1:t") (fresh_mgr GatewayStore.gateway_empty)).1 =
    Reply (writeJSON 200 [("ok", ABool true); ("alias", AStr "b1"); ("state", AStr "connecting"); ("on_limit", AStr "queue")]) ∧
  polling "1:t" raced = [1%nat] ∧ GatewayStore.bots (gstore raced) = [].
Proof.
  split; [vm_compute; reflexivity|]. split; [vm_compute; reflexivity|].
  destruct (readyz_probe racing_env false (fresh_mgr GatewayStore.gateway_empty) _ raced (surjective_pairing _)) as (resp & _ & _ & Hg).
  rewrite Hg by reflexivity. reflexivity.
Defined.

(** The paid opt-in is checked on JSON bodies only: a bot that has not opted in
    is refused a paid broadcast asked for in JSON, but the same parameters as a
    form (or in the query of a GET) reach Telegram as they are. *)
Lemma form_skips_paid_optin :
  let json := demo_req "POST" send_path "" "application/json" "{}" [("chat_id", AFloat 7); ("allow_paid_broadcast", ABool true)] in
  answered (serve demo_env toy_box false json demo_app) = 403 ∧
  sent_requests (serve demo_env toy_box false json demo_app) = [] ∧
  RawBody <$> sent_requests (serve demo_env toy_box false form_req demo_app) = [Some (PBytes (r_raw form_req))].
Proof. by vm_compute. Qed.

(** Two registrations without an alias whose clock readings agree in a few low
    bits get the same made-up alias: the second, acknowledged like the first,
    deletes the first bot's session and overwrites its row. *)
Lemma unnamed_register_evicts :
  let first := after (serve demo_env toy_box false (register_req "" "1:t") (fresh_app GatewayStore.gateway_empty None)) in
  let second := serve demo_env toy_box false (register_req "" "2:u") first in
  FindByToken "1:t" (Mgr first) = Some 0%nat ∧ answered second = 200 ∧ FindByToken "1:t" (Mgr (after second)) = None ∧
  GatewayStore.GetToken toy_box no_faults "bot-0000" (gstore (Mgr (after second))) = Some "2:u".
Proof. by vm_compute. Qed.

(** A chunked upload whose connection breaks is forwarded as far as it came:
    only the size error of the body reader is looked at. *)
Lemma broken_upload_is_sent :
  let broken := {| r_method := "POST"; r_path := ["tgapi"; "bot1:t"; "sendDocument"]; r_query := ""; r_auth := ""; r_ctype := "multipart/form-data";
    r_idem := ""; r_length := -1; r_raw := "half of a fi"; r_cut := true; r_doc := JBad ""; r_first := JBad "" |} in
  Reader <$> sent_requests (serve demo_env toy_box false broken demo_app) = [Some ("half of a fi", 12)].
Proof. by vm_compute. Qed.

(** Calls on an alias that is not registered answer 200. *)
Lemma unknown_alias_is_ok :
  answered (serve demo_env toy_box false (demo_req "DELETE" ["admin"; "bots"; "zz"] "Bearer adm" "" "" []) demo_app) = 200.
Proof. by vm_compute. Qed.
