(* ===== verification/MTSession.v ===== *)
(** * MTProto sessions and their supervisors (internal/mtproto/sessions.go)

    One session object per alias, owned for life by a supervisor goroutine that
    takes the session lock, connects the Telegram client, pings it and
    reconnects.  Session objects live in a heap; the supervisor is a state
    machine whose positions are the points where the goroutine waits (a ping, a
    connect, the warm-up calls); everything else may happen in between.  A
    client is only whether it is connected ([Disconnect] leaves it
    disconnected); what its calls answer is an argument of the step. *)
From Stdlib Require Import QArith Lqa Ascii String.
From stdpp Require Import base list strings gmap.
From S2P Require Import Prelude GoValue Sql Idempotency Crypto Config RateGuard MTGuard.
From S2P Require Health Lock MTStore Queue.
Open Scope Z_scope.

(** ** Start errors *)

Definition terminalMarkers : list string :=
  ["AUTH_KEY_DUPLICATED"; "AUTH_KEY_INVALID"; "AuthKeyUnregistered"; "AuthKeyInvalid"; "SessionDuplicated";
   "SESSION_REVOKED"; "SessionRevoked"; "ACCESS_TOKEN_EXPIRED"; "ACCESS_TOKEN_INVALID"; "UNAUTHORIZED"].

(** [strings.Contains]. *)
Fixpoint contains (sub s : string) : bool :=
  has_prefix sub s || match s with EmptyString => false | String _ s' => contains sub s' end.

Definition ClassifyStartError (err : string) : string :=
  if bool_decide (is_Some (ParseFloodWait err)) then "flood"
  else if existsb (λ m, contains m err) terminalMarkers then "terminal" else "retry".

(** ** Sessions *)

Inductive SessionState := StateConnecting | StateLive | StatePaused | StateDraining | StateError.

#[export] Instance SessionState_eq_dec : EqDecision SessionState.
Proof. solve_decision. Defined.

Definition state_text (s : SessionState) : string :=
  match s with
  | StateConnecting => "connecting" | StateLive => "live" | StatePaused => "paused"
  | StateDraining => "draining" | StateError => "error"
  end.

(** A connected WebSocket consumer: [c_open] says whether it has a [Send]. *)
Record Consumer := { c_id : string; c_open : bool; c_connected_at : Z; c_last_seen : Z }.

(** The session's counters and marks, kept together. *)
Record counters := {
  ConnectedSince : Q; LastError : string; RealFloodWait : Z; Synthetic429 : Z; LastFloodWait : option obj;
  reconnects : Z; startAttempts : Z; LastPingOKAt : Q; LastUpdateAt : Q; IdempotencyClaims : Z;
  PersistFailures : Z; firstSendAt : Q
}.

Definition no_counters : counters :=
  {| ConnectedSince := 0; LastError := ""; RealFloodWait := 0; Synthetic429 := 0; LastFloodWait := None;
     reconnects := 0; startAttempts := 0; LastPingOKAt := 0; LastUpdateAt := 0; IdempotencyClaims := 0;
     PersistFailures := 0; firstSendAt := 0 |}.

(** [client] is the client, as whether it is connected; [stopSupervisor] says
    whether the channel is closed; [updateCh] is the channel's buffer and [chCap] its capacity. *)
Record Session := {
  Alias : string; Token : string; state : SessionState; guard : MTGuard; client : option bool; stats : counters;
  terminalError : bool; nextRetryAt : Q; stopSupervisor : bool; pingAt : Q; SendPaused : bool;
  sessionLock : option Lock.Lock; updateCh : list obj; chCap : Z; consumers : list Consumer; nextSeq : Z;
  activeConsumer : string; seenIdemKeys : gmap string Q
}.

(** ** Field updates *)

Definition put_since (v : Q) (s : counters) : counters :=
  {| ConnectedSince := v; LastError := LastError s; RealFloodWait := RealFloodWait s;
     Synthetic429 := Synthetic429 s; LastFloodWait := LastFloodWait s; reconnects := reconnects s;
     startAttempts := startAttempts s; LastPingOKAt := LastPingOKAt s;
     LastUpdateAt := LastUpdateAt s; IdempotencyClaims := IdempotencyClaims s;
     PersistFailures := PersistFailures s; firstSendAt := firstSendAt s |}.

Definition put_error (v : string) (s : counters) : counters :=
  {| ConnectedSince := ConnectedSince s; LastError := v; RealFloodWait := RealFloodWait s;
     Synthetic429 := Synthetic429 s; LastFloodWait := LastFloodWait s; reconnects := reconnects s;
     startAttempts := startAttempts s; LastPingOKAt := LastPingOKAt s;
     LastUpdateAt := LastUpdateAt s; IdempotencyClaims := IdempotencyClaims s;
     PersistFailures := PersistFailures s; firstSendAt := firstSendAt s |}.

Definition put_real (v : Z) (s : counters) : counters :=
  {| ConnectedSince := ConnectedSince s; LastError := LastError s; RealFloodWait := v;
     Synthetic429 := Synthetic429 s; LastFloodWait := LastFloodWait s; reconnects := reconnects s;
     startAttempts := startAttempts s; LastPingOKAt := LastPingOKAt s;
     LastUpdateAt := LastUpdateAt s; IdempotencyClaims := IdempotencyClaims s;
     PersistFailures := PersistFailures s; firstSendAt := firstSendAt s |}.

Definition put_synth (v : Z) (s : counters) : counters :=
  {| ConnectedSince := ConnectedSince s; LastError := LastError s;
     RealFloodWait := RealFloodWait s; Synthetic429 := v; LastFloodWait := LastFloodWait s;
     reconnects := reconnects s; startAttempts := startAttempts s; LastPingOKAt := LastPingOKAt s;
     LastUpdateAt := LastUpdateAt s; IdempotencyClaims := IdempotencyClaims s;
     PersistFailures := PersistFailures s; firstSendAt := firstSendAt s |}.

Definition put_flood (v : option obj) (s : counters) : counters :=
  {| ConnectedSince := ConnectedSince s; LastError := LastError s;
     RealFloodWait := RealFloodWait s; Synthetic429 := Synthetic429 s; LastFloodWait := v;
     reconnects := reconnects s; startAttempts := startAttempts s; LastPingOKAt := LastPingOKAt s;
     LastUpdateAt := LastUpdateAt s; IdempotencyClaims := IdempotencyClaims s;
     PersistFailures := PersistFailures s; firstSendAt := firstSendAt s |}.

Definition put_reconnects (v : Z) (s : counters) : counters :=
  {| ConnectedSince := ConnectedSince s; LastError := LastError s;
     RealFloodWait := RealFloodWait s; Synthetic429 := Synthetic429 s;
     LastFloodWait := LastFloodWait s; reconnects := v; startAttempts := startAttempts s;
     LastPingOKAt := LastPingOKAt s; LastUpdateAt := LastUpdateAt s;
     IdempotencyClaims := IdempotencyClaims s; PersistFailures := PersistFailures s;
     firstSendAt := firstSendAt s |}.

Definition put_attempts (v : Z) (s : counters) : counters :=
  {| ConnectedSince := ConnectedSince s; LastError := LastError s;
     RealFloodWait := RealFloodWait s; Synthetic429 := Synthetic429 s;
     LastFloodWait := LastFloodWait s; reconnects := reconnects s; startAttempts := v;
     LastPingOKAt := LastPingOKAt s; LastUpdateAt := LastUpdateAt s;
     IdempotencyClaims := IdempotencyClaims s; PersistFailures := PersistFailures s;
     firstSendAt := firstSendAt s |}.

Definition put_ping_ok (v : Q) (s : counters) : counters :=
  {| ConnectedSince := ConnectedSince s; LastError := LastError s;
     RealFloodWait := RealFloodWait s; Synthetic429 := Synthetic429 s;
     LastFloodWait := LastFloodWait s; reconnects := reconnects s;
     startAttempts := startAttempts s; LastPingOKAt := v; LastUpdateAt := LastUpdateAt s;
     IdempotencyClaims := IdempotencyClaims s; PersistFailures := PersistFailures s;
     firstSendAt := firstSendAt s |}.

Definition put_update_at (v : Q) (s : counters) : counters :=
  {| ConnectedSince := ConnectedSince s; LastError := LastError s;
     RealFloodWait := RealFloodWait s; Synthetic429 := Synthetic429 s;
     LastFloodWait := LastFloodWait s; reconnects := reconnects s;
     startAttempts := startAttempts s; LastPingOKAt := LastPingOKAt s; LastUpdateAt := v;
     IdempotencyClaims := IdempotencyClaims s; PersistFailures := PersistFailures s;
     firstSendAt := firstSendAt s |}.

Definition put_claims (v : Z) (s : counters) : counters :=
  {| ConnectedSince := ConnectedSince s; LastError := LastError s;
     RealFloodWait := RealFloodWait s; Synthetic429 := Synthetic429 s;
     LastFloodWait := LastFloodWait s; reconnects := reconnects s;
     startAttempts := startAttempts s; LastPingOKAt := LastPingOKAt s;
     LastUpdateAt := LastUpdateAt s; IdempotencyClaims := v; PersistFailures := PersistFailures s;
     firstSendAt := firstSendAt s |}.

Definition put_failures (v : Z) (s : counters) : counters :=
  {| ConnectedSince := ConnectedSince s; LastError := LastError s;
     RealFloodWait := RealFloodWait s; Synthetic429 := Synthetic429 s;
     LastFloodWait := LastFloodWait s; reconnects := reconnects s;
     startAttempts := startAttempts s; LastPingOKAt := LastPingOKAt s;
     LastUpdateAt := LastUpdateAt s; IdempotencyClaims := IdempotencyClaims s;
     PersistFailures := v; firstSendAt := firstSendAt s |}.

Definition put_first (v : Q) (s : counters) : counters :=
  {| ConnectedSince := ConnectedSince s; LastError := LastError s;
     RealFloodWait := RealFloodWait s; Synthetic429 := Synthetic429 s;
     LastFloodWait := LastFloodWait s; reconnects := reconnects s;
     startAttempts := startAttempts s; LastPingOKAt := LastPingOKAt s;
     LastUpdateAt := LastUpdateAt s; IdempotencyClaims := IdempotencyClaims s;
     PersistFailures := PersistFailures s; firstSendAt := v |}.

Definition setState (v : SessionState) (s : Session) : Session :=
  {| Alias := Alias s; Token := Token s; state := v; guard := guard s; client := client s;
     stats := stats s; terminalError := terminalError s; nextRetryAt := nextRetryAt s;
     stopSupervisor := stopSupervisor s; pingAt := pingAt s; SendPaused := SendPaused s;
     sessionLock := sessionLock s; updateCh := updateCh s; chCap := chCap s;
     consumers := consumers s; nextSeq := nextSeq s; activeConsumer := activeConsumer s;
     seenIdemKeys := seenIdemKeys s |}.

Definition put_guard (v : MTGuard) (s : Session) : Session :=
  {| Alias := Alias s; Token := Token s; state := state s; guard := v; client := client s;
     stats := stats s; terminalError := terminalError s; nextRetryAt := nextRetryAt s;
     stopSupervisor := stopSupervisor s; pingAt := pingAt s; SendPaused := SendPaused s;
     sessionLock := sessionLock s; updateCh := updateCh s; chCap := chCap s;
     consumers := consumers s; nextSeq := nextSeq s; activeConsumer := activeConsumer s;
     seenIdemKeys := seenIdemKeys s |}.

Definition put_client (v : option bool) (s : Session) : Session :=
  {| Alias := Alias s; Token := Token s; state := state s; guard := guard s; client := v;
     stats := stats s; terminalError := terminalError s; nextRetryAt := nextRetryAt s;
     stopSupervisor := stopSupervisor s; pingAt := pingAt s; SendPaused := SendPaused s;
     sessionLock := sessionLock s; updateCh := updateCh s; chCap := chCap s;
     consumers := consumers s; nextSeq := nextSeq s; activeConsumer := activeConsumer s;
     seenIdemKeys := seenIdemKeys s |}.

Definition put_stats (v : counters) (s : Session) : Session :=
  {| Alias := Alias s; Token := Token s; state := state s; guard := guard s; client := client s;
     stats := v; terminalError := terminalError s; nextRetryAt := nextRetryAt s;
     stopSupervisor := stopSupervisor s; pingAt := pingAt s; SendPaused := SendPaused s;
     sessionLock := sessionLock s; updateCh := updateCh s; chCap := chCap s;
     consumers := consumers s; nextSeq := nextSeq s; activeConsumer := activeConsumer s;
     seenIdemKeys := seenIdemKeys s |}.

Definition put_terminal (v : bool) (s : Session) : Session :=
  {| Alias := Alias s; Token := Token s; state := state s; guard := guard s; client := client s;
     stats := stats s; terminalError := v; nextRetryAt := nextRetryAt s;
     stopSupervisor := stopSupervisor s; pingAt := pingAt s; SendPaused := SendPaused s;
     sessionLock := sessionLock s; updateCh := updateCh s; chCap := chCap s;
     consumers := consumers s; nextSeq := nextSeq s; activeConsumer := activeConsumer s;
     seenIdemKeys := seenIdemKeys s |}.

Definition setRetryAt (v : Q) (s : Session) : Session :=
  {| Alias := Alias s; Token := Token s; state := state s; guard := guard s; client := client s;
     stats := stats s; terminalError := terminalError s; nextRetryAt := v;
     stopSupervisor := stopSupervisor s; pingAt := pingAt s; SendPaused := SendPaused s;
     sessionLock := sessionLock s; updateCh := updateCh s; chCap := chCap s;
     consumers := consumers s; nextSeq := nextSeq s; activeConsumer := activeConsumer s;
     seenIdemKeys := seenIdemKeys s |}.

Definition put_stop (v : bool) (s : Session) : Session :=
  {| Alias := Alias s; Token := Token s; state := state s; guard := guard s; client := client s;
     stats := stats s; terminalError := terminalError s; nextRetryAt := nextRetryAt s;
     stopSupervisor := v; pingAt := pingAt s; SendPaused := SendPaused s;
     sessionLock := sessionLock s; updateCh := updateCh s; chCap := chCap s;
     consumers := consumers s; nextSeq := nextSeq s; activeConsumer := activeConsumer s;
     seenIdemKeys := seenIdemKeys s |}.

Definition put_ping (v : Q) (s : Session) : Session :=
  {| Alias := Alias s; Token := Token s; state := state s; guard := guard s; client := client s;
     stats := stats s; terminalError := terminalError s; nextRetryAt := nextRetryAt s;
     stopSupervisor := stopSupervisor s; pingAt := v; SendPaused := SendPaused s;
     sessionLock := sessionLock s; updateCh := updateCh s; chCap := chCap s;
     consumers := consumers s; nextSeq := nextSeq s; activeConsumer := activeConsumer s;
     seenIdemKeys := seenIdemKeys s |}.

Definition put_send_paused (v : bool) (s : Session) : Session :=
  {| Alias := Alias s; Token := Token s; state := state s; guard := guard s; client := client s;
     stats := stats s; terminalError := terminalError s; nextRetryAt := nextRetryAt s;
     stopSupervisor := stopSupervisor s; pingAt := pingAt s; SendPaused := v;
     sessionLock := sessionLock s; updateCh := updateCh s; chCap := chCap s;
     consumers := consumers s; nextSeq := nextSeq s; activeConsumer := activeConsumer s;
     seenIdemKeys := seenIdemKeys s |}.

Definition put_lock (v : option Lock.Lock) (s : Session) : Session :=
  {| Alias := Alias s; Token := Token s; state := state s; guard := guard s; client := client s;
     stats := stats s; terminalError := terminalError s; nextRetryAt := nextRetryAt s;
     stopSupervisor := stopSupervisor s; pingAt := pingAt s; SendPaused := SendPaused s;
     sessionLock := v; updateCh := updateCh s; chCap := chCap s; consumers := consumers s;
     nextSeq := nextSeq s; activeConsumer := activeConsumer s; seenIdemKeys := seenIdemKeys s |}.

Definition put_ch (v : list obj) (s : Session) : Session :=
  {| Alias := Alias s; Token := Token s; state := state s; guard := guard s; client := client s;
     stats := stats s; terminalError := terminalError s; nextRetryAt := nextRetryAt s;
     stopSupervisor := stopSupervisor s; pingAt := pingAt s; SendPaused := SendPaused s;
     sessionLock := sessionLock s; updateCh := v; chCap := chCap s; consumers := consumers s;
     nextSeq := nextSeq s; activeConsumer := activeConsumer s; seenIdemKeys := seenIdemKeys s |}.

Definition put_seq (v : Z) (s : Session) : Session :=
  {| Alias := Alias s; Token := Token s; state := state s; guard := guard s; client := client s;
     stats := stats s; terminalError := terminalError s; nextRetryAt := nextRetryAt s;
     stopSupervisor := stopSupervisor s; pingAt := pingAt s; SendPaused := SendPaused s;
     sessionLock := sessionLock s; updateCh := updateCh s; chCap := chCap s;
     consumers := consumers s; nextSeq := v; activeConsumer := activeConsumer s;
     seenIdemKeys := seenIdemKeys s |}.

Definition put_seen (v : gmap string Q) (s : Session) : Session :=
  {| Alias := Alias s; Token := Token s; state := state s; guard := guard s; client := client s;
     stats := stats s; terminalError := terminalError s; nextRetryAt := nextRetryAt s;
     stopSupervisor := stopSupervisor s; pingAt := pingAt s; SendPaused := SendPaused s;
     sessionLock := sessionLock s; updateCh := updateCh s; chCap := chCap s;
     consumers := consumers s; nextSeq := nextSeq s; activeConsumer := activeConsumer s;
     seenIdemKeys := v |}.

Definition put_consumers (l : list Consumer) (a : string) (s : Session) : Session :=
  {| Alias := Alias s; Token := Token s; state := state s; guard := guard s; client := client s; stats := stats s;
     terminalError := terminalError s; nextRetryAt := nextRetryAt s; stopSupervisor := stopSupervisor s;
     pingAt := pingAt s; SendPaused := SendPaused s; sessionLock := sessionLock s; updateCh := updateCh s;
     chCap := chCap s; consumers := l; nextSeq := nextSeq s; activeConsumer := a; seenIdemKeys := seenIdemKeys s |}.

Definition on_stats (f : counters → counters) (s : Session) : Session := put_stats (f (stats s)) s.

Definition setError (msg : string) : Session → Session := on_stats (put_error msg).

Definition lockHeld (s : Session) : bool :=
  match sessionLock s with Some l => Lock.Held l | None => false end.

Definition IsTerminal (s : Session) : bool := terminalError s.

Definition SendPausedNow (s : Session) : bool := SendPaused s.

Definition LiveClient (s : Session) : option bool :=
  if bool_decide (state s = StateLive) then client s else None.

Definition noteSynthetic429 : Session → Session := on_stats (λ c, put_synth (Synthetic429 c + 1) c).

Definition noteRealFloodWait : Session → Session := on_stats (λ c, put_real (RealFloodWait c + 1) c).

Definition AddConsumer (c : Consumer) (s : Session) : Session := put_consumers (consumers s ++ [c]) (c_id c) s.

Definition RemoveConsumer (id : string) (s : Session) : Session :=
  let kept := bfilter (λ c, negb (c_id c =? id)%string) (consumers s) in
  put_consumers kept
    (if (activeConsumer s =? id)%string then default "" (c_id <$> last kept) else activeConsumer s) s.

Definition NoteFirstSend (now : Z) (s : Session) : Session :=
  if Qeq_bool (firstSendAt (stats s)) 0 && (0 <? length (consumers s))%nat
  then on_stats (put_first (secs now)) s else s.

Definition deployToFirstMessageSLocked (s : Session) : Q :=
  match last (consumers s) with
  | Some c => if Qeq_bool (firstSendAt (stats s)) 0 then 0 else (firstSendAt (stats s) - secs (c_connected_at c))%Q
  | None => 0
  end.

Definition age (now t : Q) : any := if qlt 0 t then AFloat (Queue.round1 (now - t)) else ANil.

Definition Stats (wall mono : Q) (s : Session) : obj :=
  let c := stats s in
  [("alias", AStr (Alias s)); ("state", AStr (state_text (state s)));
   ("connection_age_s", age wall (ConnectedSince c));
   ("queue_depth", AInt (Z.of_nat (length (updateCh s)))); ("consumers", AInt (Z.of_nat (length (consumers s))));
   ("active_consumer", Health.Storage.nilIfEmpty (activeConsumer s));
   ("real_flood_wait", AInt (RealFloodWait c)); ("synthetic_429", AInt (Synthetic429 c));
   ("last_flood_wait", match LastFloodWait c with Some m => AMap m | None => ANil end);
   ("last_error", AStr (stake 200 (LastError c))); ("send_paused", ABool (SendPaused s));
   ("terminal_error", ABool (terminalError s)); ("reconnects", AInt (reconnects c));
   ("start_attempts", AInt (startAttempts c)); ("persist_failures", AInt (PersistFailures c));
   ("idempotency_claims", AInt (IdempotencyClaims c));
   ("seconds_since_last_update", age wall (LastUpdateAt c)); ("seconds_since_ping_ok", age mono (LastPingOKAt c));
   ("deploy_to_first_message_s",
    let v := deployToFirstMessageSLocked s in if qlt 0 v then AFloat (Queue.round1 v) else ANil)].

(** A non-blocking send on the update channel. *)
Definition ch_send (u : obj) (s : Session) : Session :=
  if Z.of_nat (length (updateCh s)) <? chCap s then put_ch (updateCh s ++ [u]) s else s.

Definition PruneExpiredUpdates (now : Z) (ttlS : Q) (s : Session) : Z * Session :=
  if qle ttlS 0 then (0, s) else
  let old u := match anyToFloat (mget1 u "_gw_enqueued_at") with Some a => qlt a (secs now - ttlS)%Q | None => false end in
  let kept := bfilter (λ u, negb (old u)) (updateCh s) in
  (Z.of_nat (length (updateCh s) - length kept), fold_left (λ s u, ch_send u s) kept (put_ch [] s)).

(** ** The manager *)

(** Where the supervisor goroutine waits. *)
Inductive position := AtTop | InPing | InConnect (wasLive : bool) | Warming (wasLive : bool) | Gone.

Record supervisor := { pos : position; backoff : Q }.

Record Manager := {
  cfg : MTProto; st : MTStore.mt; h : Health.Storage.t; kern : Lock.kernel;
  objs : gmap nat Session; sessions : gmap string nat; sups : gmap nat supervisor; next : nat
}.

Definition NewManager (c : MTProto) (d : MTStore.mt) (hs : Health.Storage.t) (k : Lock.kernel) : Manager :=
  {| cfg := c; st := d; h := hs; kern := k; objs := ∅; sessions := ∅; sups := ∅; next := 0 |}.

Definition set_st (m : Manager) (d : MTStore.mt) : Manager :=
  {| cfg := cfg m; st := d; h := h m; kern := kern m; objs := objs m; sessions := sessions m; sups := sups m;
     next := next m |}.

Definition set_h (m : Manager) (hs : Health.Storage.t) : Manager :=
  {| cfg := cfg m; st := st m; h := hs; kern := kern m; objs := objs m; sessions := sessions m; sups := sups m;
     next := next m |}.

Definition set_kern (m : Manager) (k : Lock.kernel) : Manager :=
  {| cfg := cfg m; st := st m; h := h m; kern := k; objs := objs m; sessions := sessions m; sups := sups m;
     next := next m |}.

Definition set_table (m : Manager) (t : gmap string nat) : Manager :=
  {| cfg := cfg m; st := st m; h := h m; kern := kern m; objs := objs m; sessions := t; sups := sups m;
     next := next m |}.

Definition set_obj (i : nat) (s : Session) (m : Manager) : Manager :=
  {| cfg := cfg m; st := st m; h := h m; kern := kern m; objs := <[i := s]> (objs m); sessions := sessions m;
     sups := sups m; next := next m |}.

Definition set_sup (i : nat) (p : position) (b : Q) (m : Manager) : Manager :=
  {| cfg := cfg m; st := st m; h := h m; kern := kern m; objs := objs m; sessions := sessions m;
     sups := <[i := {| pos := p; backoff := b |}]> (sups m); next := next m |}.

(** Through the session pointer. *)
Definition upd_obj (i : nat) (f : Session → Session) (m : Manager) : Manager :=
  match objs m !! i with Some s => set_obj i (f s) m | None => m end.

Definition Get (alias : string) (m : Manager) : option (nat * Session) :=
  match sessions m !! alias with
  | Some i => match objs m !! i with Some s => Some (i, s) | None => None end
  | None => None
  end.

Definition FindByToken (token : string) (m : Manager) : option nat :=
  snd <$> List.find (λ kv, match objs m !! kv.2 with Some s => (Token s =? token)%string | None => false end)
    (map_to_list (sessions m)).

(** ** The lock *)

Definition acquireLock (hst : Lock.host) (open_err : bool) (i : nat) (s : Session) (m : Manager) : bool * Manager :=
  let l := {| Lock.Alias := Alias s; Lock.LockDir := SessionDir (cfg m); Lock.fd := None; Lock.Token := 0 |} in
  let '(ok, l, k) := Lock.Acquire hst open_err l (kern m) in
  let m := set_kern m k in
  if ok then (true, upd_obj i (put_lock (Some l)) m) else (false, m).

Definition releaseLock (i : nat) (m : Manager) : Manager :=
  match objs m !! i with
  | None => m
  | Some s =>
      let m := set_obj i (put_lock None s) m in
      match sessionLock s with
      | None => m
      | Some l => set_kern m (Lock.Release l (kern m)).2
      end
  end.

Definition disconnect (i : nat) (m : Manager) : Manager :=
  upd_obj i (λ s, match client s with Some _ => put_client (Some false) s | None => s end) m.

(** ** The supervisor *)

Definition connected (s : Session) : bool :=
  bool_decide (client s = Some true) && bool_decide (state s = StateLive).

Definition refused_text (alias : string) : string :=
  "session lock refused: another process holds '" +:+ alias +:+
  "'. A second connection would trigger AUTH_KEY_DUPLICATED.".

(** The start attempt up to [client.Connect]. *)
Definition begin_start (i : nat) (s : Session) (b : Q) (m : Manager) : Manager :=
  let wasLive := qlt 0 (ConnectedSince (stats s)) in
  let m := upd_obj i (λ s, on_stats (λ c, put_attempts (startAttempts c + 1) c) (setState StateConnecting s)) m in
  set_sup i (InConnect wasLive) b (disconnect i m).

(** One pass from the top of the loop to its first wait.  Clock readings: 0 and
    1 for the ping, 2 for the retry gate, 3 for the next retry. *)
Definition sup_top (clk : nat → Q) (hst : Lock.host) (open_err : bool) (i : nat) (m : Manager) : Manager :=
  match sups m !! i, objs m !! i with
  | Some {| pos := AtTop; backoff := b |}, Some s =>
      if stopSupervisor s || IsTerminal s then set_sup i Gone b m
      else if bool_decide (state s = StatePaused) || bool_decide (state s = StateDraining) then m
      else if connected s then
        if qlt 60 (clk 0%nat - pingAt s)%Q
        then set_sup i InPing b (upd_obj i (put_ping (clk 1%nat)) m)
        else m
      else if qlt (clk 2%nat) (nextRetryAt s) then m
      else
        let '(ok, m) := if lockHeld s then (true, m) else acquireLock hst open_err i s m in
        if ok then begin_start i s b m
        else upd_obj i (λ s, setRetryAt (clk 3%nat + 60)%Q (setError (refused_text (Alias s)) (setState StateError s))) m
  | _, _ => m
  end.

(** The ping answered, or failed. *)
Definition sup_pinged (now : Q) (failed : bool) (i : nat) (m : Manager) : Manager :=
  match sups m !! i with
  | Some {| pos := InPing; backoff := b |} =>
      set_sup i AtTop b (if failed then disconnect i m else upd_obj i (on_stats (put_ping_ok now)) m)
  | _ => m
  end.

(** What a failed start does to the session, and the next backoff. *)
Definition start_failed (now rnd : Q) (err : string) (b : Q) (s : Session) : Session * Q :=
  let kind := ClassifyStartError err in
  if (kind =? "terminal")%string then
    (put_terminal true (setError ("terminal (quarantined): " +:+ err) (setState StateError s)), b)
  else
    match ParseFloodWait err with
    | Some info =>
        let wait := Jittered rnd (inject_Z (Wait info) + 60) 60 in
        (setRetryAt (now + wait)%Q
           (setError ("auth flood: retrying in " +:+ itoa (qtrunc wait) +:+ "s") (setState StateConnecting s)), b)
    | None =>
        (setRetryAt (now + b)%Q
           (setError ("start failed (retry in " +:+ itoa (qtrunc b) +:+ "s): " +:+ err) (setState StateError s)),
         fmin (b * 2) 300)
    end.

(** [client.Connect] returned. *)
Definition sup_connected (wall : Z) (now rnd : Q) (err : option string) (i : nat) (m : Manager) : Manager :=
  match sups m !! i with
  | Some {| pos := InConnect wasLive; backoff := b |} =>
      match err with
      | Some e =>
          let m := releaseLock i m in
          match objs m !! i with
          | None => m
          | Some s => let '(s, b) := start_failed now rnd e b s in set_sup i AtTop b (set_obj i s m)
          end
      | None =>
          set_sup i (Warming wasLive) b
            (upd_obj i (λ s, on_stats (put_since (secs wall)) (setState StateLive (put_client (Some true) s))) m)
      end
  | _ => m
  end.

(** The backlog replay. *)
Definition replay (backlog : list obj) (s : Session) : Session :=
  let seq := fold_left (λ n u, match anyToInt64 (mget1 u "_gw_seq") with
                               | Some q => if n <? q then q else n | None => n end) backlog (nextSeq s) in
  fold_left (λ s u, ch_send u s) backlog (put_seq seq s).

(** The warm-up calls are over (whatever they answered): replay what is
    persisted and go round. *)
Definition sup_warmed (f : faults) (i : nat) (m : Manager) : Manager :=
  match sups m !! i with
  | Some {| pos := Warming wasLive |} =>
      set_sup i AtTop 1 (upd_obj i (λ s,
        let s := replay (MTStore.QueuePull f (Alias s) 0 5000 (st m)) s in
        if wasLive then on_stats (λ c, put_reconnects (reconnects c + 1) c) s else s) m)
  | _ => m
  end.

(** ** Updates *)

(** Drop-oldest send. *)
Definition ch_push (u : obj) (s : Session) : Session :=
  if Z.of_nat (length (updateCh s)) <? chCap s then ch_send u s
  else ch_send u (put_ch (drop 1 (updateCh s)) s).

(** The update as it is stamped for delivery. *)
Definition stamped (at_ : Q) (seq : Z) (u : obj) : obj :=
  mset (mset u "_gw_seq" (AInt64 seq)) "_gw_enqueued_at" (AFloat at_).

(** [show] is fmt's rendering of a map and [jerr] the encoder's error text;
    [now] is the clock in the first critical section, [at_] the store's.
    Statements: 0 the queue insert, 1 the dead letter.  The list holds what is
    sent to the WebSocket consumers. *)
Definition pushUpdate (show jerr : obj → string) (now at_ : Z) (f : nat → faults) (i : nat) (update : obj) (m : Manager)
    : list (string * json_text) * Manager :=
  match objs m !! i with
  | None => ([], m)
  | Some s =>
      let seq := wrap64 (nextSeq s + 1) in
      let u := stamped (secs now) seq update in
      let s := on_stats (put_update_at (secs now)) (put_seq seq s) in
      let m := set_obj i s m in
      match json_marshal u with
      | None =>
          ([], set_st m (MTStore.DeadLetter at_ (f 1%nat) (Alias s) (stake 10000 (show u)) ("unserializable: " +:+ jerr u) (st m)))
      | Some payload =>
          let m := match MTStore.QueuePush at_ (f 0%nat) (Alias s) seq (Some payload) (st m) with
                   | Some d => set_st m d
                   | None =>
                       let m := upd_obj i (on_stats (λ c, put_failures (PersistFailures c + 1) c)) m in
                       set_h m (Health.Storage.NotePersistFailure ("queue.push:" +:+ Alias s) "sqlite" (h m))
                   end in
          (omap (λ c, if c_open c then Some (c_id c, payload) else None) (consumers s),
           upd_obj i (ch_push u) m)
      end
  end.

(** ** Idempotency *)

(** [now] is read first, [at_] by the store. *)
Definition CheckIdempotency (now at_ : Z) (f : faults) (key : string) (i : nat) (m : Manager) : string * Manager :=
  match objs m !! i with
  | None => ("", m)
  | Some s =>
      if match seenIdemKeys s !! key with Some ts => qlt (secs now - ts)%Q 300 | None => false end
      then ("replay", m)
      else
        let '(verdict, d) := MTStore.IdempotencyClaim at_ f (Alias s) key (st m) in
        let s := if (verdict =? "replay")%string then put_seen (<[key := secs now]> (seenIdemKeys s)) s
                 else on_stats (λ c, put_claims (IdempotencyClaims c + 1) c) s in
        let s := put_seen (filter (λ kv, qlt kv.2 (secs now - 300)%Q = false) (seenIdemKeys s)) s in
        (verdict, set_obj i s (set_st m d))
  end.

Definition NoteIdempotencyDone (now : Z) (key : string) (s : Session) : Session :=
  put_seen (<[key := secs now]> (seenIdemKeys s)) s.

(** ** Lifecycle calls *)

Definition Pause (f : faults) (alias : string) (m : Manager) : bool * Manager :=
  match Get alias m with
  | None => (false, m)
  | Some (i, s) =>
      (true, set_st (set_obj i (setState StatePaused s) m) (default (st m) (MTStore.SetPaused f alias true (st m))))
  end.

Definition Resume (f : faults) (alias : string) (m : Manager) : bool * Manager :=
  match Get alias m with
  | None => (false, m)
  | Some (i, s) =>
      (true, set_obj i (setState StateLive s) (set_st m (default (st m) (MTStore.SetPaused f alias false (st m)))))
  end.

Definition Drain (alias : string) (m : Manager) : bool * Manager :=
  match Get alias m with
  | None => (false, m)
  | Some (i, s) => (true, set_obj i (setState StateDraining s) m)
  end.

Definition Restart (alias : string) (m : Manager) : bool * Manager :=
  match Get alias m with
  | None => (false, m)
  | Some (i, s) => if terminalError s then (false, m) else (true, set_obj i (setRetryAt 0 s) m)
  end.

Definition PauseSending (alias : string) (m : Manager) : bool * Manager :=
  match Get alias m with
  | None => (false, m)
  | Some (i, s) => (true, set_obj i (put_send_paused true s) m)
  end.

Definition ResumeSending (alias : string) (m : Manager) : bool * Manager :=
  match Get alias m with
  | None => (false, m)
  | Some (i, s) => (true, set_obj i (put_send_paused false s) m)
  end.

(** What [Unregister] and [Shutdown] do to a session. *)
Definition teardown (i : nat) (s : Session) (m : Manager) : Manager :=
  releaseLock i (disconnect i (set_obj i (put_stop true (setState StateDraining s)) m)).

(** [None] is the panic of closing a closed channel. *)
Definition Unregister (f : faults) (alias : string) (m : Manager) : option (bool * Manager) :=
  match Get alias m with
  | None => Some (false, set_table m (delete alias (sessions m)))
  | Some (i, s) =>
      if stopSupervisor s then None else
      let m := teardown i s (set_table m (delete alias (sessions m))) in
      Some (true, match MTStore.Delete f alias (st m) with Some (_, d) => set_st m d | None => m end)
  end.

Definition Shutdown (m : Manager) : Manager :=
  fold_left (λ m kv, match objs m !! kv.2 with Some s => teardown kv.2 s m | None => m end)
    (map_to_list (sessions m)) m.

Section with_fernet.
Context `{Fernet}.

(** The second half of [Register], after the table was consulted.  Outer
    [None]: the panic of a negative channel capacity; inner [None]: the error
    return. *)
Definition register_new (born : Q) (b : Box) (entropy now : Z) (f : faults) (alias token : string) (m : Manager)
    : option (option nat * Manager) :=
  match MTStore.Register b entropy now f alias token (st m) with
  | None => Some (None, m)
  | Some d =>
      if UpdateQueueMax (MPolicy (cfg m)) <? 0 then None else
      let i := next m in
      let s := {| Alias := alias; Token := token; state := StateConnecting;
                  guard := NewMTGuard (MRate (cfg m)) (MTRate (cfg m)) born; client := None; stats := no_counters;
                  terminalError := false; nextRetryAt := 0; stopSupervisor := false; pingAt := 0;
                  SendPaused := false; sessionLock := None; updateCh := [];
                  chCap := UpdateQueueMax (MPolicy (cfg m)); consumers := []; nextSeq := 0;
                  activeConsumer := ""; seenIdemKeys := ∅ |} in
      Some (Some i,
        {| cfg := cfg m; st := d; h := h m; kern := kern m; objs := <[i := s]> (objs m);
           sessions := <[alias := i]> (sessions m);
           sups := <[i := {| pos := AtTop; backoff := 1 |}]> (sups m); next := S i |})
  end.

Definition Register (born : Q) (b : Box) (entropy now : Z) (f f' : faults) (alias token : string) (m : Manager)
    : option (option nat * Manager) :=
  match Get alias m with
  | Some (i, s) =>
      if (Token s =? token)%string then Some (Some i, m)
      else match Unregister f' alias m with
           | Some (_, m) => register_new born b entropy now f alias token m
           | None => None
           end
  | None => register_new born b entropy now f alias token m
  end.

Fixpoint restore_rows (clk : nat → Z) (fs : nat → nat → faults) (k : nat) (b : Box) (rows : list MTStore.SessionRow)
    (m : Manager) : option (Z * Manager) :=
  match rows with
  | [] => Some (0, m)
  | r :: rest =>
      match MTStore.GetToken b (fs k 0%nat) (MTStore.Alias r) (st m) with
      | None => restore_rows clk fs (S k) b rest m
      | Some token =>
          match Register (secs (clk k)) b (Z.of_nat k) (clk k) (fs k 1%nat) (fs k 2%nat) (MTStore.Alias r) token m with
          | None => None
          | Some (None, m) => restore_rows clk fs (S k) b rest m
          | Some (Some _, m) =>
              let m := if MTStore.Paused r
                       then match Get (MTStore.Alias r) m with
                            | Some (i, s) => set_obj i (setState StatePaused s) m | None => m end
                       else m in
              match restore_rows clk fs (S k) b rest m with Some (n, m) => Some (n + 1, m) | None => None end
          end
      end
  end.

Definition RestoreAll (clk : nat → Z) (f : faults) (fs : nat → nat → faults) (b : Box) (m : Manager)
    : option (Z * Manager) :=
  match MTStore.ListSessions f (st m) with
  | None => Some (0, m)
  | Some rows => restore_rows clk fs 0 b rows m
  end.
End with_fernet.

(** [state_of] is what each session's client reports. *)
Definition PersistStates (f : nat → faults) (state_of : nat → MTStore.MTState) (m : Manager) : Manager :=
  fold_left (λ m kv,
    match objs m !! kv.2 with
    | Some s =>
        let p := state_of kv.2 in
        if bool_decide (state s = StateLive) && bool_decide (is_Some (client s))
           && (negb (MTStore.PTS p =? 0) || negb (MTStore.QTS p =? 0))
        then set_st m (default (st m) (MTStore.SaveState (f kv.2) (Alias s) p (st m))) else m
    | None => m
    end) (map_to_list (sessions m)) m.

(** ** Steps of a running sidecar *)

Definition locks (m : Manager) : gmap nat Lock.Lock := omap sessionLock (objs m).

(** What other processes may do to the lock files: flock never takes a file
    from its holder. *)
Definition others_respect (m : Manager) (k' : Lock.kernel) : Prop :=
  (∀ i l d, locks m !! i = Some l → Lock.fd l = Some d → Lock.holder_of (Lock.Path l) k' = Some d) ∧
  (∀ p d, Lock.holder_of p k' = Some d → (d < Lock.next_fd k')%nat).

(** [step_drop]: a connection is lost. *)
Inductive mstep `{Fernet} (m : Manager) : Manager → Prop :=
  | step_register born b r now f f' alias token o m' :
      Register born b r now f f' alias token m = Some (o, m') → mstep m m'
  | step_restore clk f fs b n m' : RestoreAll clk f fs b m = Some (n, m') → mstep m m'
  | step_unregister f alias b m' : Unregister f alias m = Some (b, m') → mstep m m'
  | step_pause f alias : mstep m (Pause f alias m).2
  | step_resume f alias : mstep m (Resume f alias m).2
  | step_drain alias : mstep m (Drain alias m).2
  | step_restart alias : mstep m (Restart alias m).2
  | step_pause_sending alias : mstep m (PauseSending alias m).2
  | step_resume_sending alias : mstep m (ResumeSending alias m).2
  | step_shutdown : mstep m (Shutdown m)
  | step_top clk hst e i : mstep m (sup_top clk hst e i m)
  | step_pinged now failed i : mstep m (sup_pinged now failed i m)
  | step_connected wall now rnd err i : mstep m (sup_connected wall now rnd err i m)
  | step_warmed f i : mstep m (sup_warmed f i m)
  | step_push show jerr now at_ f i u : mstep m (pushUpdate show jerr now at_ f i u m).2
  | step_check now at_ f key i : mstep m (CheckIdempotency now at_ f key i m).2
  | step_drop i : mstep m (disconnect i m)
  | step_others k' : others_respect m k' → mstep m (set_kern m k').

(** ** A session connects only under its lock *)

Definition active (m : Manager) (i : nat) (s : Session) : Prop :=
  client s = Some true ∨
  ∃ w b, sups m !! i = Some {| pos := InConnect w; backoff := b |} ∨ sups m !! i = Some {| pos := Warming w; backoff := b |}.

Record minv (m : Manager) : Prop := {
  iv_lock : Lock.lock_ok {| Lock.insts := locks m; Lock.kern := kern m |};
  iv_own : ∀ i s l, objs m !! i = Some s → sessionLock s = Some l →
    Lock.Alias l = Alias s ∧ Lock.LockDir l = SessionDir (cfg m) ∧ is_Some (Lock.fd l);
  iv_active : ∀ i s, objs m !! i = Some s → stopSupervisor s = false → active m i s → is_Some (sessionLock s);
  iv_conn : ∀ i s w b, objs m !! i = Some s → sups m !! i = Some {| pos := InConnect w; backoff := b |} →
    client s ≠ Some true;
  iv_objs : ∀ i s, objs m !! i = Some s → (i < next m)%nat;
  iv_sups : ∀ i p, sups m !! i = Some p → (i < next m)%nat;
  iv_table : ∀ a i, sessions m !! a = Some i → ∃ s, objs m !! i = Some s ∧ Alias s = a
}.

(** What the invariant reads of a session. *)
Definition same_hold (s s' : Session) : Prop :=
  Alias s' = Alias s ∧ sessionLock s' = sessionLock s ∧ (stopSupervisor s' = false → stopSupervisor s = false) ∧
  (client s' = Some true → client s = Some true).

Lemma same_hold_trans s1 s2 s3 : same_hold s1 s2 → same_hold s2 s3 → same_hold s1 s3.
Proof. unfold same_hold. intros (? & ? & ? & ?) (? & ? & ? & ?). split_ands; auto; congruence. Qed.

Lemma locks_insert m i s s' :
  objs m !! i = Some s → sessionLock s' = sessionLock s → omap sessionLock (<[i := s']> (objs m)) = locks m.
Proof.
  intros Ho Hl. unfold locks. apply map_eq. intros j. rewrite !lookup_omap.
  destruct (decide (i = j)) as [<-|Hne]; [|by rewrite lookup_insert_ne].
  rewrite lookup_insert_eq, Ho. simpl. by rewrite Hl.
Qed.

(** The table still names objects of its aliases. *)
Lemma table_insert m i s s' :
  (∀ a i, sessions m !! a = Some i → ∃ s, objs m !! i = Some s ∧ Alias s = a) → objs m !! i = Some s → Alias s' = Alias s →
  ∀ a j, sessions m !! a = Some j → ∃ t, <[i := s']> (objs m) !! j = Some t ∧ Alias t = a.
Proof.
  intros Ht Ho Ha a j Hj. destruct (Ht a j Hj) as (t & E & Et). destruct (decide (i = j)) as [<-|Hne].
  - exists s'. rewrite lookup_insert_eq. split; [done|]. congruence.
  - exists t. by rewrite lookup_insert_ne.
Qed.

Lemma minv_obj m i s s' : minv m → objs m !! i = Some s → same_hold s s' → minv (set_obj i s' m).
Proof.
  intros [H1 H2 H3 H4 H5 H6 H7] Ho (Ea & El & Es & Ec). constructor; simpl.
  - unfold locks. simpl. by rewrite (locks_insert m i s s').
  - intros j t l. rewrite lookup_insert_Some. intros [[<- <-]|[Hne Hj]] Hl; [|by eapply H2].
    rewrite El in Hl. rewrite Ea. by eapply H2.
  - intros j t. rewrite lookup_insert_Some. intros [[<- <-]|[Hne Hj]] Hs Ha; [|by apply (H3 j t)].
    rewrite El. apply (H3 i s Ho); [auto|]. destruct Ha as [Ha|Ha]; [left; auto|by right].
  - intros j t w b. rewrite lookup_insert_Some. intros [[<- <-]|[Hne Hj]] Hp; [|by eapply H4].
    intros Hc. eapply (H4 i s); eauto.
  - intros j t. rewrite lookup_insert_Some. intros [[<- _]|[_ Hj]]; eauto.
  - done.
  - by eapply table_insert.
Qed.

Lemma minv_upd m i f : minv m → (∀ s, same_hold s (f s)) → minv (upd_obj i f m).
Proof. intros Hm Hf. unfold upd_obj. destruct (objs m !! i) as [s|] eqn:E; [|done]. by eapply minv_obj. Qed.

(** The stores and the health are not read, and the table may lose entries. *)
Lemma minv_shape m m' :
  minv m → objs m' = objs m → sups m' = sups m → kern m' = kern m → cfg m' = cfg m → next m' = next m →
  sessions m' ⊆ sessions m → minv m'.
Proof.
  intros [H1 H2 H3 H4 H5 H6 H7] Eo Es Ek Ec En Et.
  assert (∀ a i, sessions m' !! a = Some i → sessions m !! a = Some i) as Et' by (intros a i ?; by eapply lookup_weaken).
  constructor; unfold locks, active; rewrite ?Eo, ?Es, ?Ek, ?Ec, ?En; eauto.
Qed.

(** Moving the supervisor to a position where no client can connect. *)
Lemma minv_sup m i q b p b' :
  minv m → sups m !! i = Some {| pos := q; backoff := b |} →
  match p with InConnect _ => False | Warming _ => ∃ w, q = Warming w | _ => True end →
  minv (set_sup i p b' m).
Proof.
  intros [H1 H2 H3 H4 H5 H6 H7] Hi Hp. constructor; simpl; [done|done| | |done| |done].
  - intros j s Hj Hs Ha. apply (H3 j s Hj Hs). destruct Ha as [Ha|(w & c & Ha)]; [by left|]. simpl in Ha.
    destruct (decide (i = j)) as [<-|Hne].
    + rewrite lookup_insert_eq in Ha. right. destruct Ha as [[= -> ->]|[= -> ->]]; [done|].
      destruct Hp as [w' ->]. eauto.
    + rewrite !lookup_insert_ne in Ha by done. right. eauto.
  - intros j s w c Hj. rewrite lookup_insert_Some. intros [[<- [= -> _]]|[Hne Hj']]; [done|by eapply H4].
  - intros j t. rewrite lookup_insert_Some. intros [[<- _]|[_ Hj]]; eauto.
Qed.

(** Lock instances come and go unheld. *)
Lemma lock_ok_sub I I' k :
  I' ⊆ I → Lock.lock_ok {| Lock.insts := I; Lock.kern := k |} → Lock.lock_ok {| Lock.insts := I'; Lock.kern := k |}.
Proof.
  intros Hs [H1 H2 H3]. constructor; simpl in *; [|done|].
  - intros i l d Hi. eapply H1, lookup_weaken; [exact Hi|done].
  - intros i j l l' d Hi Hj. eapply H3; eapply lookup_weaken; done.
Qed.

Lemma lock_ok_add I k i l :
  Lock.fd l = None → Lock.lock_ok {| Lock.insts := I; Lock.kern := k |} →
  Lock.lock_ok {| Lock.insts := <[i := l]> I; Lock.kern := k |}.
Proof.
  intros Hl [H1 H2 H3]. constructor; simpl in *; [|done|].
  - intros j t d. rewrite lookup_insert_Some. intros [[<- <-]|[_ Hj]] Hd; [congruence|by eapply H1].
  - intros j j' t t' d. rewrite !lookup_insert_Some. intros [[<- <-]|[_ Hj]] [[<- <-]|[_ Hj']]; try congruence. by eapply H3.
Qed.

Lemma lock_free_none m i s : minv m → objs m !! i = Some s → lockHeld s = false → sessionLock s = None.
Proof.
  intros Hm Ho. unfold lockHeld. destruct (sessionLock s) as [l|] eqn:E; [|done].
  destruct (iv_own _ Hm i s l Ho E) as (_ & _ & [d Hd]). unfold Lock.Held. rewrite Hd. done.
Qed.

Lemma acquireLock_inv hst e i s m :
  minv m → objs m !! i = Some s → sessionLock s = None →
  let '(ok, m') := acquireLock hst e i s m in
  minv m' ∧ sups m' = sups m ∧
  ∃ s', objs m' !! i = Some s' ∧ same_hold (put_lock (sessionLock s') s) s' ∧ (ok = true → is_Some (sessionLock s')).
Proof.
  intros Hm Ho Hl. unfold acquireLock.
  set (l0 := {| Lock.Alias := Alias s; Lock.LockDir := SessionDir (cfg m); Lock.fd := None; Lock.Token := 0 |}).
  pose proof (lock_ok_add (locks m) (kern m) i l0 eq_refl (iv_lock _ Hm)) as Hadd.
  pose proof (Lock.Acquire_spec hst e l0 (kern m) eq_refl (Lock.ok_fresh _ Hadd)) as Hspec.
  assert (∀ ok l k, Lock.Acquire hst e l0 (kern m) = (ok, l, k) →
    Lock.lock_ok {| Lock.insts := <[i := l]> (locks m); Lock.kern := k |} ∧
    Lock.Alias l = Alias s ∧ Lock.LockDir l = SessionDir (cfg m)) as Hstep.
  { intros ok l k E. split.
    - replace (<[i := l]> (locks m)) with (<[i := l]> (<[i := l0]> (locks m))) by apply insert_insert_eq.
      eapply (Lock.lstep_ok {| Lock.insts := <[i := l0]> (locks m); Lock.kern := kern m |}); [|done].
      eapply (Lock.lstep_acquire i l0 hst e ok); [apply lookup_insert_eq|done|done].
    - unfold Lock.Acquire in E. destruct e; [by injection E as <- <- <-|].
      destruct (Lock.open_file _ _) as [d k1]. destruct (Lock.lockExclusive _ _ _) as [ok1 k2].
      destruct ok1; simpl in E; [|by injection E as <- <- <-].
      destruct (Lock.pythonHolderFresh _ _); by injection E as <- <- <-. }
  destruct (Lock.Acquire hst e l0 (kern m)) as [[ok l] k] eqn:E.
  destruct (Hstep ok l k eq_refl) as (Hok & Ea & Ed). destruct Hspec as (_ & _ & Hspec).
  assert (locks m !! i = None) as Hfree by (unfold locks; rewrite lookup_omap, Ho; simpl; by rewrite Hl).
  pose proof Hm as [H1 H2 H3 H4 H5 H6 H7]. destruct ok.
  - destruct Hspec as (Hfd & _). unfold upd_obj. simpl. rewrite Ho. split; [|split; [done|]].
    + constructor; simpl.
      * unfold locks. simpl. rewrite omap_insert_Some with (y := l) by done. done.
      * intros j t l'. rewrite lookup_insert_Some. intros [[<- <-]|[Hne Hj]] Hl'; [|by eapply H2].
        simpl in Hl'. injection Hl' as <-. rewrite Hfd. split_ands; [done|done|by eexists].
      * intros j t. rewrite lookup_insert_Some. intros [[<- <-]|[Hne Hj]] Hs Ha; [by eexists|by apply (H3 j t)].
      * intros j t w b. rewrite lookup_insert_Some. intros [[<- <-]|[Hne Hj]]; [simpl; by apply H4|by eapply H4].
      * intros j t. rewrite lookup_insert_Some. intros [[<- _]|[_ Hj]]; eauto.
      * done.
      * by eapply table_insert.
    + eexists. split; [apply lookup_insert_eq|]. split; [done|]. intros _. by eexists.
  - split; [|split; [done|]].
    + constructor; simpl; [|done..]. eapply lock_ok_sub; [|exact Hok]. by apply insert_subseteq.
    + exists s. split; [done|]. split; [done|done].
Qed.

Lemma releaseLock_inv i s m :
  minv m → objs m !! i = Some s → (stopSupervisor s = false → ¬ active m i s) → minv (releaseLock i m).
Proof.
  intros Hm Ho Hact. pose proof Hm as [H1 H2 H3 H4 H5 H6 H7]. unfold releaseLock. rewrite Ho.
  assert (∀ k, Lock.lock_ok {| Lock.insts := delete i (locks m); Lock.kern := k |} →
    minv (set_kern (set_obj i (put_lock None s) m) k)) as Hgo.
  { intros k Hk. constructor; simpl.
    - unfold locks. simpl. rewrite omap_insert_None by done. done.
    - intros j t l. rewrite lookup_insert_Some. intros [[<- <-]|[Hne Hj]]; [done|intros Hl; by eapply H2].
    - intros j t. rewrite lookup_insert_Some. intros [[<- <-]|[Hne Hj]] Hs Ha; [by destruct (Hact Hs)|by apply (H3 j t)].
    - intros j t w b. rewrite lookup_insert_Some. intros [[<- <-]|[Hne Hj]]; [simpl; by apply H4|by eapply H4].
    - intros j t. rewrite lookup_insert_Some. intros [[<- _]|[_ Hj]]; eauto.
    - done.
    - by eapply table_insert. }
  destruct (sessionLock s) as [l|] eqn:El.
  - apply Hgo. simpl. destruct (Lock.Release l (kern m)) as [l' k'] eqn:ER.
    assert (locks m !! i = Some l) as Hi by (unfold locks; rewrite lookup_omap, Ho; done).
    assert (Lock.lock_ok {| Lock.insts := <[i := l']> (locks m); Lock.kern := k' |}) as Hk.
    { apply (Lock.lstep_ok {| Lock.insts := locks m; Lock.kern := kern m |}); [|done].
      by apply (Lock.lstep_release i l l' k'). }
    eapply lock_ok_sub; [|exact Hk].
    apply map_subseteq_spec. intros j t [Hne Hj]%lookup_delete_Some. by rewrite lookup_insert_ne.
  - assert (set_obj i (put_lock None s) m = set_kern (set_obj i (put_lock None s) m) (kern m)) as -> by done.
    apply Hgo. eapply lock_ok_sub; [apply delete_subseteq|done].
Qed.

Lemma disconnect_same s : same_hold s (match client s with Some _ => put_client (Some false) s | None => s end).
Proof. destruct (client s) as [c|] eqn:E; by split_ands. Qed.

Lemma disconnect_inv i m : minv m → minv (disconnect i m).
Proof. intros Hm. apply minv_upd; [done|apply disconnect_same]. Qed.

Lemma disconnect_obj i m s :
  objs m !! i = Some s → ∃ s', objs (disconnect i m) !! i = Some s' ∧ same_hold s s' ∧ client s' ≠ Some true ∧
    sups (disconnect i m) = sups m ∧ stopSupervisor s' = stopSupervisor s.
Proof.
  intros Ho. unfold disconnect, upd_obj. rewrite Ho. eexists. split; [simpl; apply lookup_insert_eq|].
  split; [apply disconnect_same|]. by destruct (client s) as [[]|] eqn:E; simpl; rewrite ?E.
Qed.

Lemma begin_start_inv i s0 s b b' m :
  minv m → objs m !! i = Some s → is_Some (sessionLock s) → sups m !! i = Some {| pos := AtTop; backoff := b' |} →
  minv (begin_start i s0 b m).
Proof.
  intros Hm Ho Hl Hs. unfold begin_start. set (f := λ t : Session, on_stats _ _).
  assert (objs (upd_obj i f m) !! i = Some (f s) ∧ sups (upd_obj i f m) = sups m) as [Ho1 Hs1]
    by (unfold upd_obj; rewrite Ho; simpl; by rewrite lookup_insert_eq).
  assert (minv (upd_obj i f m)) as Hm1 by (apply minv_upd; [done|intros t; by split_ands]).
  destruct (disconnect_obj i _ _ Ho1) as (s2 & Ho2 & Hsame & Hc & Hs2 & _).
  pose proof (disconnect_inv i _ Hm1) as [H1 H2 H3 H4 H5 H6 H7]. rewrite Hs1 in Hs2. clear Hm1.
  set (m2 := disconnect i (upd_obj i f m)) in *.
  constructor; simpl; [done|done| | |done| |done].
  - intros j t Hj Hst Ha. destruct (decide (j = i)) as [->|Hne].
    + assert (t = s2) as -> by congruence. destruct Hsame as (_ & -> & _). done.
    + apply (H3 j t Hj Hst). destruct Ha as [Ha|(w & c & Ha)]; [by left|]. simpl in Ha.
      rewrite !lookup_insert_ne in Ha by done. right. eauto.
  - intros j t w c Hj. rewrite lookup_insert_Some. intros [[<- _]|[Hne Hp]]; [congruence|by eapply H4].
  - intros j p. rewrite lookup_insert_Some. intros [[<- _]|[_ Hp]]; eauto.
Qed.

Lemma sup_top_inv clk hst e i m : minv m → minv (sup_top clk hst e i m).
Proof.
  intros Hm. unfold sup_top. destruct (sups m !! i) as [[[] b]|] eqn:Hs; try done.
  destruct (objs m !! i) as [s|] eqn:Ho; [|done].
  destruct (_ || _); [by eapply minv_sup|]. destruct (_ || _); [done|].
  destruct (connected s).
  { destruct (qlt _ _); [|done]. eapply (minv_sup _ i AtTop b); [|by unfold upd_obj; rewrite Ho|done].
    apply minv_upd; [done|]. intros t. by split_ands. }
  destruct (qlt _ _); [done|].
  destruct (lockHeld s) eqn:Eh.
  { apply (begin_start_inv i s s b b); [done|done| |done]. unfold lockHeld in Eh. by destruct (sessionLock s). }
  pose proof (acquireLock_inv hst e i s m Hm Ho (lock_free_none m i s Hm Ho Eh)) as Ha.
  destruct (acquireLock hst e i s m) as [ok m1]. destruct Ha as (Hm1 & Hs1 & s1 & Ho1 & _ & Hok). destruct ok.
  - apply (begin_start_inv i s s1 b b); [done|done|by apply Hok|by rewrite Hs1].
  - apply minv_upd; [done|]. intros t. by split_ands.
Qed.

Lemma start_failed_same now rnd e b s : same_hold s (start_failed now rnd e b s).1.
Proof. unfold start_failed. destruct (_ =? "terminal")%string; [by split_ands|]. destruct (ParseFloodWait e); by split_ands. Qed.

Lemma releaseLock_sup i p b m : set_sup i p b (releaseLock i m) = releaseLock i (set_sup i p b m).
Proof. unfold releaseLock. simpl. destruct (objs m !! i) as [s|]; [|done]. by destruct (sessionLock s). Qed.

Lemma sup_connected_inv wall now rnd err i m : minv m → minv (sup_connected wall now rnd err i m).
Proof.
  intros Hm. unfold sup_connected. destruct (sups m !! i) as [[[] b]|] eqn:Hs; try done.
  destruct (objs m !! i) as [s|] eqn:Ho.
  2: { unfold releaseLock, upd_obj. rewrite Ho. destruct err; [by rewrite Ho|].
       pose proof Hm as [H1 H2 H3 H4 H5 H6 H7]. constructor; simpl; try done.
       - intros j t Hj Hst Ha. apply (H3 j t Hj Hst). destruct Ha as [Ha|(w & c & Ha)]; [by left|]. simpl in Ha.
         rewrite !lookup_insert_ne in Ha by congruence. right. eauto.
       - intros j t w c Hj. rewrite lookup_insert_ne by congruence. by eapply H4.
       - intros j p. rewrite lookup_insert_Some. intros [[<- _]|[_ Hp]]; eauto. }
  destruct err as [er|].
  - assert (∀ b', minv (set_sup i AtTop b' (releaseLock i m))) as Hrel.
    { intros b'. rewrite releaseLock_sup. apply (releaseLock_inv i s); [by eapply minv_sup|done|].
      intros _ [Hc|(w & c & Ha)]; [by eapply (iv_conn _ Hm)|]. simpl in Ha. rewrite lookup_insert_eq in Ha. naive_solver. }
    destruct (objs (releaseLock i m) !! i) as [s1|] eqn:Ho1.
    + pose proof (start_failed_same now rnd er b s1) as Hsame. destruct (start_failed now rnd er b s1) as [s2 b2].
      change (set_sup i AtTop b2 (set_obj i s2 (releaseLock i m))) with (set_obj i s2 (set_sup i AtTop b2 (releaseLock i m))).
      by eapply minv_obj.
    + unfold releaseLock in Ho1. rewrite Ho in Ho1. destruct (sessionLock s); simpl in Ho1; by rewrite lookup_insert_eq in Ho1.
  - unfold upd_obj. rewrite Ho. pose proof Hm as [H1 H2 H3 H4 H5 H6 H7]. constructor; simpl.
    + unfold locks. simpl. by rewrite (locks_insert m i s).
    + intros j t l. rewrite lookup_insert_Some. intros [[<- <-]|[Hne Hj]] Hl; [exact (H2 i s l Ho Hl)|by eapply H2].
    + intros j t. rewrite lookup_insert_Some. intros [[<- <-]|[Hne Hj]] Hst Ha.
      * apply (H3 i s Ho Hst). right. eauto.
      * apply (H3 j t Hj Hst). destruct Ha as [Ha|(w & c & Ha)]; [by left|]. simpl in Ha.
        rewrite !lookup_insert_ne in Ha by done. right. eauto.
    + intros j t w c Hj. rewrite lookup_insert_Some. intros [[<- [=]]|[Hne Hp]].
      rewrite lookup_insert_ne in Hj by done. by eapply H4.
    + intros j t. rewrite lookup_insert_Some. intros [[<- _]|[_ Hj]]; eauto.
    + intros j p. rewrite lookup_insert_Some. intros [[<- _]|[_ Hp]]; eauto.
    + by eapply table_insert.
Qed.

Lemma ch_send_same u s : same_hold s (ch_send u s).
Proof. unfold ch_send. destruct (_ <? _); by split_ands. Qed.

Lemma ch_sends_same us s : same_hold s (fold_left (λ s u, ch_send u s) us s).
Proof.
  revert s. induction us as [|u us IH]; intros s; simpl; [by split_ands|].
  eapply same_hold_trans; [apply ch_send_same|apply IH].
Qed.

Lemma ch_push_same u s : same_hold s (ch_push u s).
Proof.
  unfold ch_push. destruct (_ <? _); [apply ch_send_same|].
  eapply same_hold_trans; [|apply ch_send_same]. by split_ands.
Qed.

Lemma sup_warmed_inv f i m : minv m → minv (sup_warmed f i m).
Proof.
  intros Hm. unfold sup_warmed. destruct (sups m !! i) as [[[] b]|] eqn:Hs; try done.
  eapply (minv_sup _ i (Warming wasLive) b); [|by unfold upd_obj; destruct (objs m !! i)|done].
  apply minv_upd; [done|]. intros s. unfold replay.
  eapply same_hold_trans; [|destruct wasLive; by split_ands].
  eapply same_hold_trans; [|apply ch_sends_same]. by split_ands.
Qed.

Lemma sup_pinged_inv now failed i m : minv m → minv (sup_pinged now failed i m).
Proof.
  intros Hm. unfold sup_pinged. destruct (sups m !! i) as [[[] b]|] eqn:Hs; try done.
  eapply (minv_sup _ i InPing b); [|destruct failed; unfold disconnect, upd_obj; by destruct (objs m !! i)|done].
  destruct failed; [by apply disconnect_inv|]. apply minv_upd; [done|]. intros s. by split_ands.
Qed.

Lemma Get_obj alias m i s : Get alias m = Some (i, s) → sessions m !! alias = Some i ∧ objs m !! i = Some s.
Proof.
  unfold Get. destruct (sessions m !! alias) as [j|]; [|done].
  destruct (objs m !! j) as [t|] eqn:E; [|done]. by intros [= -> ->].
Qed.

Lemma teardown_inv i s m : minv m → objs m !! i = Some s → minv (teardown i s m).
Proof.
  intros Hm Ho. unfold teardown. set (m1 := set_obj i _ m).
  assert (minv m1) as Hm1 by (apply (minv_obj m i s); [done|done|by split_ands]).
  destruct (disconnect_obj i m1 (put_stop true (setState StateDraining s))) as (s2 & Ho2 & _ & _ & _ & Hst);
    [simpl; apply lookup_insert_eq|].
  eapply releaseLock_inv; [by apply disconnect_inv|exact Ho2|]. rewrite Hst. done.
Qed.

Lemma Unregister_inv f alias m b m' : minv m → Unregister f alias m = Some (b, m') → minv m'.
Proof.
  intros Hm. unfold Unregister. destruct (Get alias m) as [[i s]|] eqn:E.
  - apply Get_obj in E as [_ Ho]. destruct (stopSupervisor s); [done|]. intros [= <- <-].
    set (m1 := teardown i s _).
    assert (minv m1) as Hm1 by (apply teardown_inv; [eapply minv_shape; [done..|apply delete_subseteq]|done]).
    destruct (MTStore.Delete _ _ _) as [[? d]|]; [by eapply minv_shape|done].
  - intros [= <- <-]. eapply minv_shape; [done..|apply delete_subseteq].
Qed.

Lemma Shutdown_inv m : minv m → minv (Shutdown m).
Proof.
  intros Hm. unfold Shutdown. generalize (map_to_list (sessions m)). intros l. revert m Hm.
  induction l as [|[a i] l IH]; intros m Hm; simpl; [done|]. apply IH.
  destruct (objs m !! i) as [s|] eqn:E; [|done]. by apply teardown_inv.
Qed.

Lemma Register_inv `{Fernet} born b r now f f' alias token m o m' :
  minv m → Register born b r now f f' alias token m = Some (o, m') → minv m'.
Proof.
  intros Hm. unfold Register.
  assert (∀ m0 o0 m1, minv m0 → register_new born b r now f alias token m0 = Some (o0, m1) → minv m1) as Hc.
  { intros m0 o0 m1 H0. unfold register_new. destruct (MTStore.Register _ _ _ _ _ _ _) as [d|]; [|by intros [= <- <-]].
    destruct (_ <? 0); [done|]. intros [= <- <-]. destruct H0 as [H1 H2 H3 H4 H5 H6 H7]. constructor; simpl.
    - unfold locks. simpl. rewrite omap_insert_None by done. eapply lock_ok_sub; [apply delete_subseteq|done].
    - intros j t l. rewrite lookup_insert_Some. intros [[<- <-]|[Hne Hj]] Hl; [done|by eapply H2].
    - intros j t. rewrite lookup_insert_Some. intros [[<- <-]|[Hne Hj]] Hst Ha.
      + exfalso. destruct Ha as [Ha|(w & c & Ha)]; [done|]. simpl in Ha. rewrite lookup_insert_eq in Ha. naive_solver.
      + apply (H3 j t Hj Hst). destruct Ha as [Ha|(w & c & Ha)]; [by left|]. simpl in Ha.
        rewrite !lookup_insert_ne in Ha by done. right. eauto.
    - intros j t w c. rewrite lookup_insert_Some. intros [[<- <-]|[Hne Hj]]; [done|].
      rewrite lookup_insert_ne by done. by eapply H4.
    - intros j t. rewrite lookup_insert_Some. intros [[<- _]|[_ Hj]]; [lia|]. apply H5 in Hj. lia.
    - intros j t. rewrite lookup_insert_Some. intros [[<- _]|[_ Hj]]; [lia|]. apply H6 in Hj. lia.
    - intros a j. rewrite lookup_insert_Some. intros [[<- <-]|[Hne Hj]]; [rewrite lookup_insert_eq; by eexists|].
      destruct (H7 a j Hj) as (t & Ht & Ha). exists t. apply H5 in Ht as Hlt. by rewrite lookup_insert_ne by lia. }
  destruct (Get alias m) as [[i s]|] eqn:E; [|by apply Hc].
  destruct (Token s =? token)%string; [by intros [= <- <-]|].
  destruct (Unregister f' alias m) as [[u m1]|] eqn:EU; [|done]. apply Hc. by eapply Unregister_inv.
Qed.

Lemma restore_rows_inv `{Fernet} clk fs k b rows m n m' :
  minv m → restore_rows clk fs k b rows m = Some (n, m') → minv m'.
Proof.
  revert k m n. induction rows as [|r rows IH]; intros k m n Hm; cbn [restore_rows]; [by intros [= <- <-]|].
  destruct (MTStore.GetToken _ _ _ _) as [token|]; [|by apply IH].
  destruct (Register _ _ _ _ _ _ _ _ _) as [[o m1]|] eqn:E; [|done].
  apply Register_inv in E; [|done]. destruct o as [i|]; [|by apply IH].
  set (m2 := if MTStore.Paused r then _ else _).
  assert (minv m2) as Hm2.
  { unfold m2. destruct (MTStore.Paused r); [|done]. destruct (Get _ m1) as [[j s]|] eqn:EG; [|done].
    apply Get_obj in EG as [_ Ho]. apply (minv_obj m1 j s); [done|done|by split_ands]. }
  destruct (restore_rows clk fs (S k) b rows m2) as [[n' m3]|] eqn:E3; [|done]. intros [= <- <-]. by eapply IH.
Qed.

Lemma RestoreAll_inv `{Fernet} clk f fs b m n m' : minv m → RestoreAll clk f fs b m = Some (n, m') → minv m'.
Proof.
  intros Hm. unfold RestoreAll. destruct (MTStore.ListSessions f (st m)); [|by intros [= <- <-]]. by apply restore_rows_inv.
Qed.

Lemma push_inv show jerr now at_ f i u m : minv m → minv (pushUpdate show jerr now at_ f i u m).2.
Proof.
  intros Hm. unfold pushUpdate. destruct (objs m !! i) as [s|] eqn:Ho; [|done]. cbn zeta.
  set (s1 := on_stats _ _). assert (minv (set_obj i s1 m)) as Hm1 by (apply (minv_obj m i s); [done|done|by split_ands]).
  destruct (json_marshal _); [|by eapply minv_shape]. simpl. apply minv_upd; [|apply ch_push_same].
  destruct (MTStore.QueuePush _ _ _ _ _ _); [by eapply minv_shape|].
  eapply minv_shape; [apply (minv_upd _ i (on_stats (λ c, put_failures (PersistFailures c + 1) c)) Hm1)|..];
    [intros t; by split_ands|done..].
Qed.

Lemma check_inv now at_ f key i m : minv m → minv (CheckIdempotency now at_ f key i m).2.
Proof.
  intros Hm. unfold CheckIdempotency. destruct (objs m !! i) as [s|] eqn:Ho; [|done].
  destruct (match seenIdemKeys s !! key with Some _ => _ | None => _ end); [done|].
  destruct (MTStore.IdempotencyClaim _ _ _ _ _) as [v d]. simpl.
  apply (minv_obj (set_st m d) i s); [by eapply minv_shape|done|]. destruct (_ =? "replay")%string; by split_ands.
Qed.

Lemma mstep_inv `{Fernet} m m' : mstep m m' → minv m → minv m'.
Proof.
  intros Hs Hm. destruct Hs;
    [by eapply Register_inv|by eapply RestoreAll_inv|by eapply Unregister_inv| | | | | | |by apply Shutdown_inv|
     by apply sup_top_inv|by apply sup_pinged_inv|by apply sup_connected_inv|by apply sup_warmed_inv|by apply push_inv|
     by apply check_inv|by apply disconnect_inv|].
  1-6: match goal with |- minv (?op _).2 => idtac | |- minv (?op _ _).2 => idtac | |- minv (?op _ _ _).2 => idtac end;
    unfold Pause, Resume, Drain, Restart, PauseSending, ResumeSending;
    destruct (Get alias m) as [[i s]|] eqn:E; [apply Get_obj in E as [_ Ho]|done].
  - eapply minv_shape; [apply (minv_obj m i s (setState StatePaused s)); [done|done|by split_ands]|done..].
  - apply (minv_obj (set_st m _) i s); [by eapply minv_shape|done|by split_ands].
  - apply (minv_obj m i s); [done|done|by split_ands].
  - destruct (terminalError s); [done|]. apply (minv_obj m i s); [done|done|by split_ands].
  - apply (minv_obj m i s); [done|done|by split_ands].
  - apply (minv_obj m i s); [done|done|by split_ands].
  - destruct Hm as [H1 H2 H3 H4 H5 H6 H7], H0 as [G1 G2]. constructor; try done. constructor; simpl; [done|done|].
    exact (Lock.ok_distinct _ H1).
Qed.

Lemma NewManager_inv c d hs k :
  (∀ p e, Lock.holder_of p k = Some e → (e < Lock.next_fd k)%nat) → minv (NewManager c d hs k).
Proof.
  intros Hk. constructor; done.
Qed.

Lemma reachable_inv `{Fernet} c d hs k m :
  (∀ p e, Lock.holder_of p k = Some e → (e < Lock.next_fd k)%nat) → rtc mstep (NewManager c d hs k) m → minv m.
Proof. intros Hk. apply (rtc_ind_r minv); [by apply NewManager_inv|]. intros; by eapply mstep_inv. Qed.

(** C24. No connection without the lock: whenever a session that was not stopped
    is connecting, warming up or connected, the kernel's holder of its alias's
    lock file is this session's own descriptor, over any sequence of calls,
    supervisor steps, lost connections and activity of other processes. *)
Theorem connect_under_lock `{Fernet} c d hs k m i s :
  (∀ p e, Lock.holder_of p k = Some e → (e < Lock.next_fd k)%nat) →
  rtc mstep (NewManager c d hs k) m →
  objs m !! i = Some s → stopSupervisor s = false → active m i s →
  ∃ l e, sessionLock s = Some l ∧ Lock.fd l = Some e ∧
    Lock.holder_of (SessionDir (cfg m) +:+ "/" +:+ Alias s +:+ ".lock") (kern m) = Some e.
Proof.
  intros Hk Hr Ho Hs Ha. pose proof (reachable_inv c d hs k m Hk Hr) as Hm.
  destruct (iv_active _ Hm i s Ho Hs Ha) as [l Hl]. destruct (iv_own _ Hm i s l Ho Hl) as (E1 & E2 & [e He]).
  exists l, e. split_ands; [done|done|]. rewrite <-E1, <-E2.
  apply (Lock.ok_held _ (iv_lock _ Hm) i l e); [|done]. simpl. unfold locks. rewrite lookup_omap, Ho. done.
Qed.

(** ** Quarantine *)

(** The session is quarantined, was started [n] times, and its supervisor is
    not in a start. *)
Definition frozen (n : Z) (i : nat) (m : Manager) : Prop :=
  ∃ s p b, objs m !! i = Some s ∧ terminalError s = true ∧ startAttempts (stats s) = n ∧
    sups m !! i = Some {| pos := p; backoff := b |} ∧ (p = AtTop ∨ p = Gone) ∧ (i < next m)%nat.

Definition same_quarantine (s s' : Session) : Prop :=
  terminalError s' = terminalError s ∧ startAttempts (stats s') = startAttempts (stats s).

Lemma frozen_obj n i j s s' m :
  frozen n i m → objs m !! j = Some s → same_quarantine s s' → frozen n i (set_obj j s' m).
Proof.
  intros (t & p & b & Ho & Ht & Hn & Hs & Hp & Hi) Hj [E1 E2]. destruct (decide (j = i)) as [->|Hne].
  - assert (t = s) as -> by congruence. exists s', p, b. simpl. rewrite lookup_insert_eq. split_ands; congruence.
  - exists t, p, b. simpl. rewrite lookup_insert_ne by done. done.
Qed.

Lemma frozen_upd n i j f m : frozen n i m → (∀ s, same_quarantine s (f s)) → frozen n i (upd_obj j f m).
Proof. intros Hf Hq. unfold upd_obj. destruct (objs m !! j) eqn:E; [|done]. by eapply frozen_obj. Qed.

Lemma frozen_shape n i m m' :
  frozen n i m → objs m' = objs m → sups m' = sups m → next m' = next m → frozen n i m'.
Proof. intros (s & p & b & H) Eo Es En. exists s, p, b. by rewrite Eo, Es, En. Qed.

Lemma frozen_sup n i j p b m : frozen n i m → (j = i → p = AtTop ∨ p = Gone) → frozen n i (set_sup j p b m).
Proof.
  intros (s & q & c & Ho & Ht & Hn & Hs & Hq & Hi) Hp. destruct (decide (j = i)) as [->|Hne].
  - exists s, p, b. simpl. rewrite lookup_insert_eq. split_ands; auto.
  - exists s, q, c. simpl. rewrite lookup_insert_ne by done. done.
Qed.

Lemma frozen_release n i j m : frozen n i m → frozen n i (releaseLock j m).
Proof.
  intros Hf. unfold releaseLock. destruct (objs m !! j) as [s|] eqn:E; [|done].
  assert (frozen n i (set_obj j (put_lock None s) m)) by (by eapply frozen_obj).
  destruct (sessionLock s); [by eapply frozen_shape|done].
Qed.

Lemma frozen_disconnect n i j m : frozen n i m → frozen n i (disconnect j m).
Proof. intros Hf. apply frozen_upd; [done|]. intros s. by destruct (client s). Qed.

Lemma frozen_teardown n i j s m : frozen n i m → objs m !! j = Some s → frozen n i (teardown j s m).
Proof. intros Hf Ho. apply frozen_release, frozen_disconnect. by eapply frozen_obj. Qed.

Lemma frozen_unregister n i f alias m b m' : frozen n i m → Unregister f alias m = Some (b, m') → frozen n i m'.
Proof.
  intros Hf. unfold Unregister. destruct (Get alias m) as [[j s]|] eqn:E.
  - apply Get_obj in E as [_ Ho]. destruct (stopSupervisor s); [done|]. intros [= <- <-].
    assert (frozen n i (teardown j s (set_table m (delete alias (sessions m))))) as Hf1
      by (apply frozen_teardown; [by eapply frozen_shape|done]).
    destruct (MTStore.Delete _ _ _) as [[? d]|]; [by eapply frozen_shape|done].
  - intros [= <- <-]. by eapply frozen_shape.
Qed.

Lemma frozen_register `{Fernet} n i born b r now f f' alias token m o m' :
  frozen n i m → Register born b r now f f' alias token m = Some (o, m') → frozen n i m'.
Proof.
  assert (∀ m0, frozen n i m0 → register_new born b r now f alias token m0 = Some (o, m') → frozen n i m') as Hc.
  { intros m0 (s & p & c & Ho & Ht & Hn & Hs & Hp & Hi). unfold register_new.
    destruct (MTStore.Register _ _ _ _ _ _ _); [|intros [= <- <-]; by exists s, p, c].
    destruct (_ <? 0); [done|]. intros [= <- <-]. exists s, p, c. simpl. rewrite !lookup_insert_ne by lia.
    split_ands; auto. }
  intros Hf. unfold Register. destruct (Get alias m) as [[j s]|]; [|by apply Hc].
  destruct (_ =? _)%string; [by intros [= <- <-]|].
  destruct (Unregister f' alias m) as [[u m1]|] eqn:E; [|done]. apply Hc. by eapply frozen_unregister.
Qed.

Lemma same_quarantine_trans s1 s2 s3 : same_quarantine s1 s2 → same_quarantine s2 s3 → same_quarantine s1 s3.
Proof. intros [H1 H2] [H3 H4]. split; congruence. Qed.

Lemma quarantine_send u s : same_quarantine s (ch_send u s).
Proof. unfold ch_send. by destruct (_ <? _). Qed.

Lemma quarantine_sends us s : same_quarantine s (fold_left (λ s u, ch_send u s) us s).
Proof.
  revert s. induction us as [|u us IH]; intros s; simpl; [done|].
  eapply same_quarantine_trans; [apply quarantine_send|apply IH].
Qed.

Lemma quarantine_push u s : same_quarantine s (ch_push u s).
Proof.
  unfold ch_push. destruct (_ <? _); [apply quarantine_send|].
  eapply same_quarantine_trans; [|apply quarantine_send]. done.
Qed.

Lemma frozen_top n i clk hst e j m : frozen n i m → frozen n i (sup_top clk hst e j m).
Proof.
  intros Hf. unfold sup_top. destruct (sups m !! j) as [[[] b]|] eqn:Hs; try done.
  destruct (objs m !! j) as [s|] eqn:Ho; [|done]. destruct (decide (j = i)) as [->|Hne].
  { destruct Hf as (t & p & c & Ho' & Ht & Hn & Hs' & Hp & Hi). assert (t = s) as -> by congruence.
    unfold IsTerminal. rewrite Ht, orb_true_r. apply frozen_sup; [by exists s, p, c|by right]. }
  destruct (_ || _); [by apply frozen_sup|]. destruct (_ || _); [done|]. destruct (connected s).
  { destruct (qlt _ _); [|done]. apply frozen_sup; [by apply frozen_upd|done]. }
  destruct (qlt _ _); [done|].
  set (acq := if lockHeld s then _ else _). assert (frozen n i acq.2) as Ha.
  { unfold acq. destruct (lockHeld s); [done|]. unfold acquireLock.
    destruct (Lock.Acquire _ _ _ _) as [[ok l] k]. destruct ok; simpl; [apply frozen_upd; [|done]|]; by eapply frozen_shape. }
  destruct acq as [ok m1]. simpl in Ha. destruct ok; [|by apply frozen_upd].
  unfold begin_start. apply frozen_sup; [|done]. apply frozen_disconnect.
  unfold upd_obj. destruct (objs m1 !! j) as [s1|] eqn:Ho1; [|done].
  destruct Ha as (t & p & c & Ho' & H'). exists t, p, c. simpl. by rewrite lookup_insert_ne.
Qed.

Lemma frozen_connected n i wall now rnd err j m : frozen n i m → frozen n i (sup_connected wall now rnd err j m).
Proof.
  intros Hf. unfold sup_connected. destruct (sups m !! j) as [[[] b]|] eqn:Hs; try done.
  assert (j ≠ i) as Hne.
  { intros ->. destruct Hf as (t & p & c & _ & _ & _ & Hs' & Hp & _). rewrite Hs in Hs'. injection Hs' as <- _.
    by destruct Hp. }
  assert (∀ s' m0, frozen n i m0 → frozen n i (set_obj j s' m0)) as Ho.
  { intros s' m0 (t & p & c & Ho' & H'). exists t, p, c. simpl. by rewrite lookup_insert_ne. }
  destruct err as [er|].
  - pose proof (frozen_release n i j m Hf) as Hr. destruct (objs (releaseLock j m) !! j) as [s|]; [|done].
    destruct (start_failed _ _ _ _ s). apply frozen_sup; [by apply Ho|done].
  - apply frozen_sup; [|done]. unfold upd_obj. destruct (objs m !! j); [by apply Ho|done].
Qed.

Lemma frozen_restore `{Fernet} n i clk fs k b rows m c m' :
  frozen n i m → restore_rows clk fs k b rows m = Some (c, m') → frozen n i m'.
Proof.
  revert k m c. induction rows as [|r rows IH]; intros k m c Hm; cbn [restore_rows]; [by intros [= <- <-]|].
  destruct (MTStore.GetToken _ _ _ _) as [token|]; [|by apply IH].
  destruct (Register _ _ _ _ _ _ _ _ _) as [[o m1]|] eqn:E; [|done].
  eapply frozen_register in E; [|done]. destruct o as [j|]; [|by apply IH].
  set (m2 := if MTStore.Paused r then _ else _).
  assert (frozen n i m2) as Hm2.
  { unfold m2. destruct (MTStore.Paused r); [|done]. destruct (Get _ m1) as [[q s]|] eqn:EG; [|done].
    apply Get_obj in EG as [_ Ho]. by eapply frozen_obj. }
  destruct (restore_rows clk fs (S k) b rows m2) as [[n' m3]|] eqn:E3; [|done]. intros [= <- <-]. by eapply IH.
Qed.

Lemma frozen_step `{Fernet} n i m m' : frozen n i m → mstep m m' → frozen n i m'.
Proof.
  intros Hf Hs. destruct Hs; eauto using frozen_register, frozen_unregister, frozen_top, frozen_connected, frozen_disconnect.
  - unfold RestoreAll in H0. destruct (MTStore.ListSessions f (st m)); [by eapply frozen_restore|by injection H0 as <- <-].
  - unfold Pause. destruct (Get alias m) as [[j s]|] eqn:E; [|done]. apply Get_obj in E as [_ Ho].
    eapply frozen_shape; [apply (frozen_obj n i j s (setState StatePaused s) m)|..]; done.
  - unfold Resume. destruct (Get alias m) as [[j s]|] eqn:E; [|done]. apply Get_obj in E as [_ Ho].
    eapply frozen_obj; [by eapply frozen_shape|done|done].
  - unfold Drain. destruct (Get alias m) as [[j s]|] eqn:E; [|done]. apply Get_obj in E as [_ Ho]. by eapply frozen_obj.
  - unfold Restart. destruct (Get alias m) as [[j s]|] eqn:E; [|done]. apply Get_obj in E as [_ Ho].
    destruct (terminalError s) eqn:Et; [done|]. by eapply frozen_obj.
  - unfold PauseSending. destruct (Get alias m) as [[j s]|] eqn:E; [|done]. apply Get_obj in E as [_ Ho]. by eapply frozen_obj.
  - unfold ResumeSending. destruct (Get alias m) as [[j s]|] eqn:E; [|done]. apply Get_obj in E as [_ Ho]. by eapply frozen_obj.
  - unfold Shutdown. generalize (map_to_list (sessions m)). intros l. revert m Hf.
    induction l as [|[a j] l IH]; intros m Hf; simpl; [done|]. apply IH.
    destruct (objs m !! j) as [s|] eqn:E; [|done]. by apply frozen_teardown.
  - unfold sup_pinged. destruct (sups m !! i0) as [[[] b]|]; try done. apply frozen_sup; [|by left].
    destruct failed; [by apply frozen_disconnect|by apply frozen_upd].
  - unfold sup_warmed. destruct (sups m !! i0) as [[[] b]|]; try done. apply frozen_sup; [|by left].
    apply frozen_upd; [done|]. intros s. unfold replay.
    eapply same_quarantine_trans; [|by destruct wasLive]. eapply same_quarantine_trans; [|apply quarantine_sends]. done.
  - unfold pushUpdate. destruct (objs m !! i0) as [s|] eqn:Ho; [|done]. cbn zeta. set (s1 := on_stats _ _).
    assert (frozen n i (set_obj i0 s1 m)) as Hf1 by (by eapply frozen_obj).
    destruct (json_marshal _); [|by eapply frozen_shape]. simpl. apply frozen_upd; [|apply quarantine_push].
    destruct (MTStore.QueuePush _ _ _ _ _ _); [by eapply frozen_shape|].
    eapply frozen_shape; [apply (frozen_upd n i i0 (on_stats (λ c, put_failures (PersistFailures c + 1) c)) _ Hf1)|..]; done.
  - unfold CheckIdempotency. destruct (objs m !! i0) as [s|] eqn:Ho; [|done].
    destruct (match seenIdemKeys s !! key with Some _ => _ | None => _ end); [done|].
    destruct (MTStore.IdempotencyClaim _ _ _ _ _) as [v d]. simpl.
    apply (frozen_obj n i i0 s); [by eapply frozen_shape|done|]. by destruct (_ =? "replay")%string.
Qed.

(** C30. Quarantine is final: once a start failed terminally (key revoked,
    duplicated or unauthorized), no sequence of calls and steps ever starts
    that session's client again or lifts the quarantine; restarting it is
    refused. *)
Theorem quarantine_is_final `{Fernet} m m' i s b :
  objs m !! i = Some s → terminalError s = true → sups m !! i = Some {| pos := AtTop; backoff := b |} →
  (i < next m)%nat → rtc mstep m m' →
  ∃ s', objs m' !! i = Some s' ∧ terminalError s' = true ∧
    startAttempts (stats s') = startAttempts (stats s) ∧
    (∀ w c, sups m' !! i ≠ Some {| pos := InConnect w; backoff := c |}) ∧
    (∀ alias, sessions m' !! alias = Some i → (Restart alias m').1 = false).
Proof.
  intros Ho Ht Hs Hi Hr.
  assert (frozen (startAttempts (stats s)) i m') as (s' & p & c & Ho' & Ht' & Hn & Hs' & Hp & _).
  { revert Hr. apply (rtc_ind_r (frozen _ i)); [exists s, AtTop, b; split_ands; auto|].
    intros x y _ Hxy Hx. by eapply frozen_step. }
  exists s'. split_ands; [done|done|done| |].
  - intros w c'. rewrite Hs'. intros [= -> _]. by destruct Hp.
  - intros alias Ha. unfold Restart, Get. rewrite Ha, Ho', Ht'. done.
Qed.

(** ** Updates are persisted before they are delivered *)

Lemma marshal_stamped at_ seq u :
  json_ok (AMap u) = true → json_marshal (stamped at_ seq u) = Some (JText (jnorm (AMap (stamped at_ seq u)))).
Proof. 
  intros Hu. unfold json_marshal, stamped.
  assert (json_ok (AMap (mset (mset u "_gw_seq" (AInt64 seq)) "_gw_enqueued_at" (AFloat at_))) = true) as ->; [|done].
  by apply json_ok_mset; [apply json_ok_mset|].
Qed.

Lemma ch_push_ch u s :
  0 < chCap s → Z.of_nat (length (updateCh s)) <= chCap s →
  updateCh (ch_push u s) =
    (if Z.of_nat (length (updateCh s)) <? chCap s then updateCh s else drop 1 (updateCh s)) ++ [u].
Proof.
  intros H1 H2. unfold ch_push, ch_send. destruct (Z.ltb_spec (Z.of_nat (length (updateCh s))) (chCap s)) as [Hl|Hl]; [done|].
  cbn [updateCh put_ch chCap]. rewrite length_drop. by rewrite (proj2 (Z.ltb_lt _ _)) by lia.
Qed.

(** The store row [pushUpdate] writes. *)
Definition pushed_row (s : Session) (now at_ : Z) (u : obj) : MTStore.queue_row :=
  {| MTStore.q_alias := Alias s; MTStore.q_uid := nextSeq s + 1;
     MTStore.q_json := Some (JText (jnorm (AMap (stamped (secs now) (nextSeq s + 1) u)))); MTStore.q_at := secs at_ |}.

(** The session is known to the store and its counter has not run out. *)
Record can_push (m : Manager) (s : Session) : Prop := {
  cp_row : existsb (has_key MTStore.s_alias (Alias s)) (MTStore.sessions (st m)) = true;
  cp_seq : 0 <= nextSeq s < int64_max;
  cp_cap : 0 < chCap s;
  cp_len : Z.of_nat (length (updateCh s)) <= chCap s
}.

Lemma push_shape show jerr now at_ f i s u m :
  objs m !! i = Some s → can_push m s → json_ok (AMap u) = true → f 0%nat 0%nat = false →
  ∃ s', objs (pushUpdate show jerr now at_ f i u m).2 !! i = Some s' ∧ nextSeq s' = nextSeq s + 1 ∧
    updateCh s' = (if Z.of_nat (length (updateCh s)) <? chCap s then updateCh s else drop 1 (updateCh s))
                  ++ [stamped (secs now) (nextSeq s + 1) u] ∧
    st (pushUpdate show jerr now at_ f i u m).2
      = MTStore.set_queue (st m) (MTStore.update_queue (st m) ++ [pushed_row s now at_ u]) ∧
    (pushUpdate show jerr now at_ f i u m).1
      = omap (λ c, if c_open c then Some (c_id c, JText (jnorm (AMap (stamped (secs now) (nextSeq s + 1) u)))) else None)
          (consumers s).
Proof.
  intros Ho [H1 H2 H3 H4] Hj Hf. unfold pushUpdate. rewrite Ho. cbn zeta.
  rewrite (wrap64_id (nextSeq s + 1)) by (unfold in_int64, int64_min, int64_max in *; lia).
  rewrite marshal_stamped by done. unfold MTStore.QueuePush.
  cbn [Alias put_seq on_stats put_stats consumers st set_obj]. rewrite Hf, H1. simpl.
  unfold upd_obj. simpl. rewrite lookup_insert_eq. simpl. rewrite lookup_insert_eq. eexists. split; [done|].
  split_ands; [| |done|done].
  - unfold ch_push, ch_send. simpl. by repeat destruct (_ <? _).
  - by rewrite ch_push_ch.
Qed.

Lemma pull_pushed s now at_ u m o :
  o = nextSeq s →
  (∀ r, r ∈ MTStore.update_queue (st m) → MTStore.q_alias r = Alias s → MTStore.q_uid r <= o) →
  MTStore.QueuePullRaw no_faults (Alias s) o 0
    (MTStore.set_queue (st m) (MTStore.update_queue (st m) ++ [pushed_row s now at_ u]))
  = [(nextSeq s + 1, JText (jnorm (AMap (stamped (secs now) (nextSeq s + 1) u))))].
Proof.
  intros -> Hr. unfold MTStore.QueuePullRaw. cbn [MTStore.update_queue MTStore.set_queue no_faults].
  rewrite bfilter_app, bfilter_none.
  - simpl. rewrite String.eqb_refl. rewrite (proj2 (Z.ltb_lt _ _)) by lia. done.
  - intros r Hin. destruct (String.eqb_spec (MTStore.q_alias r) (Alias s)) as [E|]; [|done]. simpl.
    apply Z.ltb_ge. by apply Hr.
Qed.


(** No update vanishes silently: when the store refuses the row the update
    is still in the channel and the failure is counted and reported; when it
    cannot be encoded it is captured as a dead letter (unless that statement
    fails too) and the queue, the channel and the sockets see nothing. *)
Theorem push_failures_are_recorded show jerr now at_ f i s u m :
  objs m !! i = Some s → can_push m s →
  let out := pushUpdate show jerr now at_ f i u m in
  (json_ok (AMap u) = true → f 0%nat 0%nat = true →
   ∃ s', objs out.2 !! i = Some s' ∧ st out.2 = st m ∧
     PersistFailures (stats s') = PersistFailures (stats s) + 1 ∧
     last (updateCh s') = Some (stamped (secs now) (nextSeq s + 1) u) ∧
     ("persist:queue.push:" +:+ Alias s) ∈ Health.Storage.reasons (h out.2)) ∧
  (json_marshal (stamped (secs now) (nextSeq s + 1) u) = None →
   out.1 = [] ∧ MTStore.update_queue (st out.2) = MTStore.update_queue (st m) ∧
   (updateCh <$> objs out.2 !! i) = Some (updateCh s) ∧
   (f 1%nat 0%nat = false → ∃ d, d ∈ MTStore.dead_letters (st out.2) ∧ MTStore.d_alias d = Alias s ∧
      MTStore.d_payload d = stake 10000 (show (stamped (secs now) (nextSeq s + 1) u)))).
Proof.
  intros Ho [H1 H2 H3 H4]. unfold pushUpdate. rewrite Ho. cbn zeta.
  rewrite (wrap64_id (nextSeq s + 1)) by (unfold in_int64, int64_min, int64_max in *; lia).
  split.
  - intros Hj Hf. rewrite marshal_stamped by done. unfold MTStore.QueuePush. rewrite Hf. simpl.
    unfold upd_obj. simpl. rewrite lookup_insert_eq. simpl. rewrite lookup_insert_eq. simpl. rewrite lookup_insert_eq. eexists. split; [done|].
    split; [done|]. split_ands.
    + unfold ch_push, ch_send. simpl. by repeat destruct (_ <? _).
    + rewrite ch_push_ch by done. by rewrite last_snoc.
    + apply elem_of_union_l. by apply elem_of_singleton.
  - intros ->. simpl. rewrite lookup_insert_eq. simpl. unfold MTStore.DeadLetter.
    destruct (f 1%nat 0%nat); simpl; split_ands; try done.
    intros _. eexists. split; [apply elem_of_app; right; by apply list_elem_of_singleton|done].
Qed.

(** ** Where the promises end *)

(** Sequence numbers start again after a restart: when everything was
    acknowledged before the process stopped, the new session's backlog is empty
    and its first update gets number 1.  A consumer that goes on with the offset
    it had reached acknowledges that update without ever being given it. *)
Theorem restart_reuses_sequences show jerr now at_ f f0 i w b s u m n :
  objs m !! i = Some s → nextSeq s = 0 → can_push m s → json_ok (AMap u) = true → f 0%nat 0%nat = false →
  sups m !! i = Some {| pos := Warming w; backoff := b |} →
  (∀ r, r ∈ MTStore.update_queue (st m) → MTStore.q_alias r ≠ Alias s) → 1 <= n →
  let m1 := (pushUpdate show jerr now at_ f i u (sup_warmed f0 i m)).2 in
  MTStore.QueuePullRaw no_faults (Alias s) 0 0 (st m1) = [(1, JText (jnorm (AMap (stamped (secs now) 1 u))))] ∧
  MTStore.QueuePullRaw no_faults (Alias s) n 0 (st m1) = [] ∧
  ∃ d, MTStore.QueueAck no_faults (Alias s) n (st m1) = Some d ∧
    ∀ o lim, MTStore.QueuePullRaw no_faults (Alias s) o lim d = [].
Proof.
  intros Ho Hz Hc Hj Hf Hs Hr Hn. cbn zeta.
  assert (∃ s1, objs (sup_warmed f0 i m) !! i = Some s1 ∧ Alias s1 = Alias s ∧ nextSeq s1 = 0 ∧
    st (sup_warmed f0 i m) = st m ∧ can_push (sup_warmed f0 i m) s1) as (s1 & Ho1 & Ha & Hz1 & Hst & Hc1).
  { unfold sup_warmed. rewrite Hs. unfold upd_obj. rewrite Ho.
    assert (MTStore.QueuePull f0 (Alias s) 0 5000 (st m) = []) as ->.
    { unfold MTStore.QueuePull, MTStore.QueuePullRaw. destruct (f0 0%nat); [done|].
      rewrite bfilter_none; [done|]. intros r Hin. apply Hr in Hin. by apply String.eqb_neq in Hin as ->. }
    simpl. rewrite lookup_insert_eq. eexists. split; [done|]. destruct Hc as [H1 H2 H3 H4].
    destruct w; split_ands; try done; by constructor. }
  destruct (push_shape show jerr now at_ f i s1 u _ Ho1 Hc1 Hj Hf) as (s2 & _ & _ & _ & Hst2 & _).
  rewrite Hst2. assert (∀ r, r ∈ MTStore.update_queue (st (sup_warmed f0 i m)) → MTStore.q_alias r ≠ Alias s1) as Hr1
    by (rewrite Hst, Ha; done).
  assert (∀ o, 1 <= o → bfilter (λ r, (MTStore.q_alias r =? Alias s)%string && (o <? MTStore.q_uid r))
      (MTStore.update_queue (st (sup_warmed f0 i m)) ++ [pushed_row s1 now at_ u]) = []) as Hnone.
  { intros o Hoo. apply bfilter_none. intros r [Hin|Hin%list_elem_of_singleton]%elem_of_app.
    - apply Hr1 in Hin. rewrite Ha in Hin. by apply String.eqb_neq in Hin as ->.
    - subst r. apply andb_false_iff. right. simpl. rewrite Hz1. lia. }
  split; [|split].
  - rewrite <-Ha. rewrite (pull_pushed s1 now at_ u _ 0); [by rewrite Hz1|done|]. intros r Hin E. by apply Hr1 in Hin.
  - unfold MTStore.QueuePullRaw. simpl. by rewrite Hnone.
  - eexists. split; [done|]. intros o lim. rewrite (proj1 (MTStore.ack_offset no_faults _ n _ _ o lim eq_refl)).
    unfold MTStore.QueuePullRaw, limit. simpl. rewrite Hnone by lia. simpl. by rewrite take_nil; repeat destruct (_ <? _).
Qed.

(** What the backlog replay leaves alone. *)
Lemma replay_keeps us s :
  let s' := replay us s in
  client s' = client s ∧ state s' = state s ∧ sessionLock s' = sessionLock s ∧ stopSupervisor s' = stopSupervisor s.
Proof.
  cbn zeta. unfold replay. set (s0 := put_seq _ s).
  assert (client s0 = client s ∧ state s0 = state s ∧ sessionLock s0 = sessionLock s ∧
    stopSupervisor s0 = stopSupervisor s) as H0 by done. clearbody s0. revert s0 H0.
  induction us as [|u us IH]; intros s0 H0; simpl; [done|]. apply IH. unfold ch_send. by destruct (_ <? _).
Qed.

(** Unregistering a session while its client is connecting leaks the
    connection: the lock is released and the session removed, then the connect
    returns and installs a live client that nothing will ever disconnect: the
    supervisor is gone, the alias is unknown and the lock file is free for the
    next registration. *)
Theorem unregister_leaks_connection `{Fernet} c d hs k m f alias i s w b ok m1 wall now rnd f0 clk hst e :
  (∀ p e, Lock.holder_of p k = Some e → (e < Lock.next_fd k)%nat) →
  rtc mstep (NewManager c d hs k) m →
  Get alias m = Some (i, s) → stopSupervisor s = false → sups m !! i = Some {| pos := InConnect w; backoff := b |} →
  Unregister f alias m = Some (ok, m1) →
  let m3 := sup_top clk hst e i (sup_warmed f0 i (sup_connected wall now rnd None i m1)) in
  sessions m3 !! alias = None ∧ (pos <$> sups m3 !! i) = Some Gone ∧
  Lock.holder_of (SessionDir (cfg m) +:+ "/" +:+ Alias s +:+ ".lock") (kern m3) = None ∧
  ∃ s3, objs m3 !! i = Some s3 ∧ client s3 = Some true ∧ state s3 = StateLive ∧ sessionLock s3 = None.
Proof.
  intros Hk Hr HG Hst Hs HU. pose proof (reachable_inv c d hs k m Hk Hr) as Hm.
  pose proof (Get_obj _ _ _ _ HG) as [_ Ho].
  destruct (iv_active _ Hm i s Ho Hst) as [l Hl]; [right; eauto|].
  destruct (iv_own _ Hm i s l Ho Hl) as (E1 & E2 & [e' He]).
  assert (Lock.holder_of (Lock.Path l) (kern m) = Some e') as Hh.
  { apply (Lock.ok_held _ (iv_lock _ Hm) i l e'); [|done]. simpl. unfold locks. rewrite lookup_omap, Ho. done. }
  assert (∃ s1, objs m1 !! i = Some s1 ∧ stopSupervisor s1 = true ∧ sessionLock s1 = None ∧
    sups m1 = sups m ∧ sessions m1 = delete alias (sessions m) ∧ kern m1 = Lock.unlock (Lock.Path l) e' (kern m))
    as (s1 & Ho1 & Hst1 & Hl1 & Hs1 & Ht1 & Hk1).
  { revert HU. unfold Unregister. rewrite HG, Hst. unfold teardown.
    set (m0 := set_obj i _ _). intros [= _ <-]. destruct (MTStore.Delete _ _ _) as [[? ?]|]. all: simpl.
    all: unfold releaseLock, disconnect, upd_obj; subst m0; simpl.
    all: rewrite lookup_insert_eq; simpl; rewrite lookup_insert_eq.
    all: destruct (client s); simpl; rewrite Hl; simpl; rewrite lookup_insert_eq; unfold Lock.Release; rewrite He.
    all: eexists; split_ands; done. }
  assert (sessions m1 !! alias = None) as Hdel by (rewrite Ht1; apply lookup_delete_eq).
  assert (Lock.holder_of (SessionDir (cfg m) +:+ "/" +:+ Alias s +:+ ".lock") (kern m1) = None) as Hfree.
  { rewrite <-E1, <-E2, Hk1. change (Lock.holder_of (Lock.Path l) (Lock.unlock (Lock.Path l) e' (kern m)) = None).
    rewrite Lock.unlock_holder. by rewrite decide_True. }
  cbn zeta. unfold sup_connected. rewrite Hs1, Hs. unfold upd_obj. rewrite Ho1.
  unfold sup_warmed. simpl. rewrite lookup_insert_eq. unfold upd_obj. simpl. rewrite lookup_insert_eq.
  unfold sup_top. simpl. rewrite !lookup_insert_eq.
  set (s0 := on_stats _ (setState _ _)). set (bl := MTStore.QueuePull _ _ _ _ _).
  destruct (replay_keeps bl s0) as (Q1 & Q2 & Q3 & Q4). set (s2 := if w then _ else _).
  assert (client s2 = Some true ∧ state s2 = StateLive ∧ sessionLock s2 = None ∧ stopSupervisor s2 = true)
    as (R1 & R2 & R3 & R4) by (subst s2 s0; destruct w; simpl in *; split_ands; congruence).
  rewrite R4. simpl. rewrite !lookup_insert_eq. split_ands; [done|done|done|]. by exists s2.
Qed.

(** Every row of the key is a claim in flight. *)
Definition in_flight (k : string * string) (t : list idem_row) : Prop :=
  ∀ r, r ∈ t → idem_pk r = k → is_pending r = true.

Lemma claim_in_flight now f k t : in_flight k t → in_flight k (sql_claim now f k t).2.
Proof.
  intros Ht. unfold sql_claim.
  set (t1 := if f 0%nat then t else _). assert (in_flight k t1) as H1.
  { unfold t1. destruct (f 0%nat); [done|]. intros r [Hr _]%elem_of_delete. by apply Ht. }
  set (t2 := if f 1%nat then t1 else _). assert (in_flight k t2) as H2.
  { unfold t2, insert_or_ignore. destruct (f 1%nat); [done|]. destruct (existsb _ t1); [done|].
    intros r [Hr|Hr%list_elem_of_singleton]%elem_of_app; [by apply H1|by subst r]. }
  destruct (_ && _); [done|]. assert (in_flight k (if f 2%nat then t2 else update_where (reclaimable now k) (touch now) t2)) as H3.
  { destruct (f 2%nat); [done|]. intros r (x & -> & Hx)%list_elem_of_fmap.
    destruct (reclaimable now k x); [|by apply H2]. intros E. apply (H2 x Hx). done. }
  by destruct (_ && _).
Qed.

Lemma claim_of_absent now k t :
  (∀ r, r ∈ t → idem_pk r ≠ k) → (sql_claim now no_faults k t).1 = "claimed".
Proof.
  intros Ht. unfold sql_claim. simpl. destruct (existsb _ (expire_key now k t)) eqn:E; [|done].
  apply existsb_exists in E as (r & Hr%list_elem_of_In & Hk). apply elem_of_delete in Hr as [Hr _].
  apply bool_decide_eq_true in Hk. by apply Ht in Hr.
Qed.

(** A cached verdict outlives the claim it came from: a retry that arrives
    while the first send is in flight is answered "replay", and that answer is
    cached; when the first send then fails and releases its claim, retries are
    still told "replay" for 300 seconds, although the store would grant them. *)
Theorem cached_replay_outlives_release now at_ now' at' f key i s m :
  objs m !! i = Some s → seenIdemKeys s !! key = None →
  in_flight (Alias s, key) (MTStore.idempotency_keys (st m)) →
  (CheckIdempotency now at_ f key i m).1 = "replay" → (secs now' - secs now < 300)%Q →
  let m1 := (CheckIdempotency now at_ f key i m).2 in
  let m2 := set_st m1 (MTStore.IdempotencyFail no_faults (Alias s) key (st m1)) in
  (CheckIdempotency now' at' no_faults key i m2).1 = "replay" ∧
  (MTStore.IdempotencyClaim at' no_faults (Alias s) key (st m2)).1 = "claimed".
Proof.
  intros Ho Hn Hp. destruct (CheckIdempotency now at_ f key i m) as [v m1] eqn:E. cbn [fst snd]. intros -> Ht.
  revert E. unfold CheckIdempotency at 1. rewrite Ho, Hn. unfold MTStore.IdempotencyClaim at 1.
  pose proof (claim_in_flight (secs at_) f (Alias s, key) _ Hp) as Hp1.
  destruct (sql_claim (secs at_) f (Alias s, key) (MTStore.idempotency_keys (st m))) as [v t]. simpl in Hp1.
  intros [= -> <-]. cbn zeta. split.
  - unfold CheckIdempotency. simpl. rewrite lookup_insert_eq. simpl.
    rewrite (map_lookup_filter_Some_2 _ _ key (secs now)).
    + by rewrite qlt_true.
    + apply lookup_insert_eq.
    + apply qlt_false. simpl. lra.
  - assert ((sql_claim (secs at') no_faults (Alias s, key) (sql_fail no_faults (Alias s, key) t)).1 = "claimed") as Hc.
    { apply claim_of_absent. intros r [Hr Hd]%elem_of_delete E. pose proof (Hp1 r Hr E) as Hpend.
      apply andb_false_iff in Hd as [Hd|Hd]; [|congruence]. by apply bool_decide_eq_false in Hd. }
    revert Hc. unfold MTStore.IdempotencyClaim, MTStore.IdempotencyFail.
    cbn [st set_st set_obj MTStore.set_idem MTStore.idempotency_keys].
    by destruct (sql_claim _ _ _ (sql_fail _ _ _)).
Qed.

(** ** A run *)

Definition kern0 : Lock.kernel := {| Lock.files := ∅; Lock.next_fd := 0; Lock.tokenCounter := 0 |}.

Definition run0 (d : MTStore.mt) : Manager := NewManager (MTProtoFromEnv (λ _, None)) d Health.Storage.NewStorage kern0.

(** Registered, connecting, connected, warmed up. *)
Definition registered : Manager :=
  match Register 0 toy_box 0 0 no_faults no_faults "s1" "1:t" (run0 MTStore.mt_empty) with
  | Some (_, m) => m | None => run0 MTStore.mt_empty end.

Definition connecting : Manager := sup_top (λ _, 0%Q) Lock.host0 false 0 registered.

Definition warming : Manager := sup_connected 0 0 0 None 0 connecting.

Definition live : Manager := sup_warmed no_faults 0 warming.

Definition quarantined : Manager := sup_connected 0 0 0 (Some "rpc error code 406: AUTH_KEY_DUPLICATED") 0 connecting.

Lemma kern0_ok p e : Lock.holder_of p kern0 = Some e → (e < Lock.next_fd kern0)%nat.
Proof. done. Qed.

Lemma connecting_reached : rtc mstep (run0 MTStore.mt_empty) connecting.
Proof.
  eapply rtc_l; [apply (step_register _ 0 toy_box 0 0 no_faults no_faults "s1" "1:t" (Some 0%nat) registered);
    vm_compute; reflexivity|].
  apply rtc_once, step_top.
Qed.

Lemma connect_under_lock_witness :
  ∃ s l e, objs live !! 0%nat = Some s ∧ client s = Some true ∧ sessionLock s = Some l ∧ Lock.fd l = Some e ∧
    Lock.holder_of "/data/sessions/s1.lock" (kern live) = Some e.
Proof.
  assert ((λ s, (stopSupervisor s, client s, Alias s)) <$> objs live !! 0%nat = Some (false, Some true, "s1")) as Hs
    by (vm_compute; reflexivity).
  destruct (objs live !! 0%nat) as [s|] eqn:E; [|done]. injection Hs as H1 H2 H3.
  destruct (connect_under_lock (H := toy_fernet) (cfg live) MTStore.mt_empty Health.Storage.NewStorage kern0 live 0 s)
    as (l & e & Hl & He & Hh); [exact kern0_ok| |done|done|by left|].
  - transitivity connecting; [apply connecting_reached|].
    eapply rtc_l; [apply (step_connected _ 0 0 0 None 0)|]. apply rtc_once, (step_warmed _ no_faults 0).
  - exists s, l, e. rewrite H3 in Hh. split_ands; done.
Defined.

Lemma quarantine_is_final_witness :
  let m' := sup_top (λ _, 99%Q) Lock.host0 false 0 (Restart "s1" quarantined).2 in
  ∃ s', objs m' !! 0%nat = Some s' ∧ terminalError s' = true ∧ startAttempts (stats s') = 1 ∧
    (Restart "s1" m').1 = false.
Proof.
  cbn zeta. set (m' := sup_top _ _ _ _ _).
  assert ((λ s, (terminalError s, startAttempts (stats s))) <$> objs quarantined !! 0%nat = Some (true, 1)) as Hs
    by (vm_compute; reflexivity).
  destruct (objs quarantined !! 0%nat) as [s|] eqn:E; [|done]. injection Hs as H1 H2.
  destruct (quarantine_is_final (H := toy_fernet) quarantined m' 0 s 1) as (s' & G1 & G2 & G3 & _ & G5);
    [done|done|vm_compute; reflexivity|apply Nat.ltb_lt; vm_compute; reflexivity| |].
  - eapply rtc_l; [apply (step_restart _ "s1")|]. apply rtc_once, step_top.
  - exists s'. rewrite G3, H2. split_ands; [done|done|done|]. apply G5. vm_compute. reflexivity.
Defined.

Definition upd_demo : obj := [("message", AStr "hi")].

Lemma live_can_push : match objs live !! 0%nat with Some s => can_push live s ∧ nextSeq s = 0 ∧ Alias s = "s1" | None => False end.
Proof.
  assert ((λ s, (existsb (has_key MTStore.s_alias (Alias s)) (MTStore.sessions (st live)), nextSeq s, 0 <? chCap s,
      length (updateCh s), Alias s)) <$> objs live !! 0%nat = Some (true, 0, true, 0%nat, "s1")) as Hs
    by (vm_compute; reflexivity).
  destruct (objs live !! 0%nat) as [s|]; [|done]. injection Hs as H1 H2 H3 H4 H5. apply Z.ltb_lt in H3.
  split_ands; [|done|done]. constructor; [done|rewrite H2; unfold int64_max; lia|done|rewrite H4; lia].
Qed.


Lemma push_failures_are_recorded_witness :
  let out := pushUpdate (λ _, "") (λ _, "") 5 6 (λ _ _, true) 0 upd_demo live in
  ∃ s', objs out.2 !! 0%nat = Some s' ∧ PersistFailures (stats s') = 1 ∧
    last (updateCh s') = Some (stamped (secs 5) 1 upd_demo).
Proof.
  pose proof live_can_push as Hc.
  assert ((λ s, PersistFailures (stats s)) <$> objs live !! 0%nat = Some 0) as Hp by (vm_compute; reflexivity).
  destruct (objs live !! 0%nat) as [s|] eqn:E; [|done]. injection Hp as Hp. destruct Hc as (Hc & Hz & Ha).
  destruct (proj1 (push_failures_are_recorded (λ _, "") (λ _, "") 5 6 (λ _ _, true) 0 s upd_demo live E Hc) eq_refl eq_refl)
    as (s' & H1 & _ & H3 & H4 & _).
  rewrite Hp in H3. rewrite Hz in H4. exists s'. split; [exact H1|]. split; [exact H3|exact H4].
Defined.

(** Three updates in one process, all acknowledged; a second process restores
    the session from the same store. *)
Definition acked_store : MTStore.mt :=
  let push := λ m u, (pushUpdate (λ _, "") (λ _, "") 5 6 (λ _, no_faults) 0 u m).2 in
  default MTStore.mt_empty
    (MTStore.QueueAck no_faults "s1" 3 (st (fold_left push [upd_demo; upd_demo; upd_demo] live))).

Definition rewarming : Manager :=
  match RestoreAll (λ _, 9) no_faults (λ _ _, no_faults) toy_box (run0 acked_store) with
  | Some (_, m) => sup_connected 9 9 0 None 0 (sup_top (λ _, 9%Q) Lock.host0 false 0 m)
  | None => run0 acked_store
  end.

Lemma restart_reuses_sequences_witness :
  let m1 := (pushUpdate (λ _, "") (λ _, "") 10 11 (λ _, no_faults) 0 upd_demo (sup_warmed no_faults 0 rewarming)).2 in
  length (MTStore.QueuePullRaw no_faults "s1" 0 0 (st m1)) = 1%nat ∧
  MTStore.QueuePullRaw no_faults "s1" 3 0 (st m1) = [].
Proof.
  cbn zeta.
  assert (match objs rewarming !! 0%nat with
    | Some s => existsb (has_key MTStore.s_alias (Alias s)) (MTStore.sessions (st rewarming)) = true ∧ nextSeq s = 0 ∧
        (0 <? chCap s) = true ∧ length (updateCh s) = 0%nat ∧ Alias s = "s1"
    | None => False end) as Hs by (vm_compute; split_ands; reflexivity).
  destruct (objs rewarming !! 0%nat) as [s|] eqn:E; [|contradiction]. destruct Hs as (H1 & H2 & H3 & H4 & H5).
  apply Z.ltb_lt in H3.
  destruct (restart_reuses_sequences (λ _, "") (λ _, "") 10 11 (λ _, no_faults) no_faults 0 false 1 s upd_demo rewarming 3)
    as (G1 & G2 & _); [exact E|exact H2| |exact eq_refl|exact eq_refl|vm_compute; reflexivity| |lia|].
  - constructor; [exact H1|rewrite H2; unfold int64_max; lia|exact H3|rewrite H4; lia].
  - assert (MTStore.update_queue (st rewarming) = []) as -> by (vm_compute; reflexivity). 
    intros r Hr. exfalso. exact (not_elem_of_nil r Hr).
  - rewrite H5 in G1, G2. rewrite G1. split; [exact eq_refl|exact G2].
Defined.

Definition unregistered : Manager :=
  match Unregister no_faults "s1" connecting with Some (_, m) => m | None => connecting end.

Lemma unregister_leaks_connection_witness :
  let m3 := sup_top (λ _, 2%Q) Lock.host0 false 0 (sup_warmed no_faults 0 (sup_connected 1 1 0 None 0 unregistered)) in
  sessions m3 !! "s1" = None ∧ Lock.holder_of "/data/sessions/s1.lock" (kern m3) = None ∧
  ∃ s3, objs m3 !! 0%nat = Some s3 ∧ client s3 = Some true.
Proof.
  cbn zeta.
  assert ((λ x, (x.1, stopSupervisor x.2, Alias x.2)) <$> Get "s1" connecting = Some (0%nat, false, "s1")) as Hs
    by (vm_compute; reflexivity).
  destruct (Get "s1" connecting) as [[i s]|] eqn:E; [|done]. injection Hs as -> H1 H2.
  destruct (unregister_leaks_connection (H := toy_fernet) (cfg connecting) MTStore.mt_empty Health.Storage.NewStorage kern0
      connecting no_faults "s1" 0 s false 1 true unregistered 1 1 0 no_faults (λ _, 2%Q) Lock.host0 false)
    as (G1 & _ & G3 & s3 & G4 & G5 & _);
    [exact kern0_ok|exact connecting_reached|exact E|exact H1|vm_compute; reflexivity|vm_compute; reflexivity|].
  rewrite H2 in G3. split_ands; [exact G1|exact G3|]. exists s3. split; [exact G4|exact G5].
Defined.

(** A send of key "k" is in flight. *)
Definition sending : Manager := set_st live (MTStore.IdempotencyClaim 5 no_faults "s1" "k" (st live)).2.

Lemma cached_replay_outlives_release_witness :
  let m1 := (CheckIdempotency 6 6 no_faults "k" 0 sending).2 in
  let m2 := set_st m1 (MTStore.IdempotencyFail no_faults "s1" "k" (st m1)) in
  (CheckIdempotency 7 7 no_faults "k" 0 m2).1 = "replay" ∧
  (MTStore.IdempotencyClaim 7 no_faults "s1" "k" (st m2)).1 = "claimed".
Proof.
  assert ((λ s, (seenIdemKeys s !! "k", Alias s)) <$> objs sending !! 0%nat = Some (None, "s1")) as Hs
    by (vm_compute; reflexivity).
  destruct (objs sending !! 0%nat) as [s|] eqn:E; [|done]. injection Hs as H1 H2.
  pose proof (cached_replay_outlives_release 6 6 7 7 no_faults "k" 0 s sending E H1) as Hc. rewrite H2 in Hc.
  apply Hc; [|vm_compute; reflexivity|vm_compute; reflexivity].
  intros r Hr _. revert Hr. assert (MTStore.idempotency_keys (st sending) = [fresh_claim (secs 5) ("s1", "k")]) as ->
    by (vm_compute; reflexivity). intros Hr%list_elem_of_singleton. by subst r.
Defined.
