(* ===== verification/MTWire.v ===== *)
(** * The MTProto wire shapes (internal/mtproto/serialize.go, coerce.go)

    gotd's update, message, peer, entity, media and markup classes, with the
    fields the sidecar reads, their rendering as Pyrogram-shaped dictionaries,
    and the way back for reply markups.  An interface value that may be nil is
    an [option]; a class member the code does not name is the constructor
    [Other...].  [UpdateOther] carries the [%T] text of its type. *)
From Stdlib Require Import QArith Ascii String.
From stdpp Require Import base list strings gmap.
From S2P Require Import Prelude GoValue.
Open Scope Z_scope.

(** ** gotd's classes *)

Inductive Peer := PeerUser (UserID : Z) | PeerChat (ChatID : Z) | PeerChannel (ChannelID : Z).

Inductive InlineButtonType :=
| TypeURL (URL : string)
| TypeCallback (Data : string)
| TypeWebView (URL : string)
| TypeSwitchInline (Query : string) (SamePeer : bool)
| TypeBuy
| TypeOther.

Record KeyboardInlineButton := { Text : string; Type_ : option InlineButtonType }.

Inductive ReplyMarkup :=
| ReplyInlineMarkup (Rows : list (list KeyboardInlineButton))
| ReplyKeyboardMarkup (Resize Persistent : bool) (Rows : list (list string))
| ReplyKeyboardHide
| ReplyKeyboardForceReply.

(** Entities with only a range, and those with a field of their own. *)
Inductive entity_kind :=
| EntBold | EntItalic | EntCode | EntPre (Language : string) | EntTextURL (URL : string) | EntURL | EntMention
| EntMentionName (UserID : Z) | EntHashtag | EntBotCommand | EntEmail | EntPhone | EntCashtag | EntUnderline
| EntStrike | EntBlockquote (Collapsed : bool) | EntSpoiler | EntCustomEmoji (DocumentID : Z) | EntOther.

Record MessageEntity := { kind : entity_kind; Offset : Z; Length : Z }.

Record PhotoSize := { sz_type : string; W : Z; H : Z; Size : Z }.

(** [None] is a size of another class. *)
Record Photo := { p_id : Z; p_access_hash : Z; p_file_reference : string; Sizes : list (option PhotoSize) }.

Record Document := { d_id : Z; d_access_hash : Z; d_file_reference : string; MimeType : string; d_size : Z }.

(** [None]: the empty photo or document. *)
Inductive MessageMedia := MediaPhoto (p : option Photo) | MediaDocument (d : option Document) | MediaWebPage | MediaOther.

Inductive ReplyTo := ReplyHeader (ReplyToMsgID : Z) | ReplyStory.

Record Message := {
  ID : Z; Date : Z; Body : string; PeerID : option Peer; FromID : option Peer; Reply : option ReplyTo;
  Markup : option ReplyMarkup; Entities : list MessageEntity; Media : option MessageMedia
}.

(** [None] is a message of another class (empty, service). *)
Inductive Update :=
| UpdateNewMessage (m : option Message) (Pts PtsCount : Z)
| UpdateNewChannelMessage (m : option Message) (Pts PtsCount : Z)
| UpdateEditMessage (m : option Message) (Pts PtsCount : Z)
| UpdateEditChannelMessage (m : option Message) (Pts PtsCount : Z)
| UpdateBotCallbackQuery (QueryID UserID : Z) (p : option Peer) (MsgID ChatInstance : Z) (Data : string)
| UpdateInlineBotCallbackQuery (QueryID UserID ChatInstance : Z) (Data : string)
| UpdateBotCommands (p : option Peer) (Commands : list (string * string))
| UpdateOther (typename : string).

(** ** Serialization *)

Fixpoint map_of (kv : list any) (out : obj) : obj :=
  match kv with
  | AStr k :: v :: rest => map_of rest (mset out k v)
  | _ :: _ :: rest => map_of rest out
  | _ => out
  end.

Definition mapOf (kv : list any) : obj := map_of kv [].

Definition formatFileRef (kind_ : string) (id : Z) : string := kind_ +:+ ":" +:+ FormatInt id.

Definition SerializePeer (p : option Peer) : obj :=
  match p with
  | Some (PeerUser u) => mapOf [AStr "_"; AStr "PeerUser"; AStr "user_id"; AInt64 u]
  | Some (PeerChat c) => mapOf [AStr "_"; AStr "PeerChat"; AStr "chat_id"; AInt64 c]
  | Some (PeerChannel c) => mapOf [AStr "_"; AStr "PeerChannel"; AStr "channel_id"; AInt64 c]
  | None => mapOf [AStr "_"; AStr "PeerEmpty"]
  end.

Definition SerializeChat (p : option Peer) : obj :=
  match p with
  | Some (PeerUser u) => mapOf [AStr "_"; AStr "Chat"; AStr "id"; AInt64 u; AStr "type"; AStr "private"]
  | Some (PeerChat c) => mapOf [AStr "_"; AStr "Chat"; AStr "id"; AInt64 (wrap64 (- c)); AStr "type"; AStr "chat"]
  | Some (PeerChannel c) => mapOf [AStr "_"; AStr "Chat"; AStr "id"; AInt64 c; AStr "type"; AStr "channel"]
  | None => mapOf [AStr "_"; AStr "Chat"; AStr "id"; AInt64 0; AStr "type"; AStr "empty"]
  end.

(** The name and the extra field of each entity class. *)
Definition entity_fields (k : entity_kind) : option (string * list any) :=
  match k with
  | EntBold => Some ("MessageEntityBold", [])
  | EntItalic => Some ("MessageEntityItalic", [])
  | EntCode => Some ("MessageEntityCode", [])
  | EntPre l => Some ("MessageEntityPre", [AStr "language"; AStr l])
  | EntTextURL u => Some ("MessageEntityTextUrl", [AStr "url"; AStr u])
  | EntURL => Some ("MessageEntityUrl", [])
  | EntMention => Some ("MessageEntityMention", [])
  | EntMentionName u => Some ("MessageEntityMentionName", [AStr "user_id"; AInt64 u])
  | EntHashtag => Some ("MessageEntityHashtag", [])
  | EntBotCommand => Some ("MessageEntityBotCommand", [])
  | EntEmail => Some ("MessageEntityEmail", [])
  | EntPhone => Some ("MessageEntityPhone", [])
  | EntCashtag => Some ("MessageEntityCashtag", [])
  | EntUnderline => Some ("MessageEntityUnderline", [])
  | EntStrike => Some ("MessageEntityStrike", [])
  | EntBlockquote c => Some ("MessageEntityBlockquote", [AStr "collapsed"; ABool c])
  | EntSpoiler => Some ("MessageEntitySpoiler", [])
  | EntCustomEmoji d => Some ("MessageEntityCustomEmoji", [AStr "document_id"; AInt64 d])
  | EntOther => None
  end.

Definition SerializeEntity (e : MessageEntity) : option obj :=
  match entity_fields (kind e) with
  | Some (name, extra) =>
      Some (map_of ([AStr "offset"; AInt64 (Offset e); AStr "length"; AInt64 (Length e)] ++ extra)
              (mapOf [AStr "_"; AStr name]))
  | None => None
  end.

Definition SerializeMedia (m : MessageMedia) : option obj :=
  match m with
  | MediaPhoto None => None
  | MediaPhoto (Some p) =>
      let sizes := omap (λ s, match s with
        | Some z => Some (AMap (mapOf [AStr "_"; AStr "PhotoSize"; AStr "w"; AInt64 (W z); AStr "h"; AInt64 (H z);
                                       AStr "size"; AInt64 (Size z)]))
        | None => None end) (Sizes p) in
      Some (mapOf [AStr "_"; AStr "MessageMediaPhoto"; AStr "photo";
        AMap (mapOf [AStr "_"; AStr "Photo"; AStr "id"; AInt64 (p_id p); AStr "sizes"; AList sizes;
                     AStr "file_id"; AStr (formatFileRef "photo" (p_id p))])])
  | MediaDocument None => None
  | MediaDocument (Some d) =>
      Some (mapOf [AStr "_"; AStr "MessageMediaDocument"; AStr "document";
        AMap (mapOf [AStr "_"; AStr "Document"; AStr "id"; AInt64 (d_id d); AStr "mime_type"; AStr (MimeType d);
                     AStr "size"; AInt64 (d_size d); AStr "file_id"; AStr (formatFileRef "document" (d_id d))])])
  | MediaWebPage => Some (mapOf [AStr "_"; AStr "MessageMediaWebPage"])
  | MediaOther => None
  end.

Definition serializeInlineButton (b : KeyboardInlineButton) : obj :=
  let out := mapOf [AStr "_"; AStr "InlineKeyboardButton"; AStr "text"; AStr (Text b)] in
  match Type_ b with
  | Some (TypeURL u) => mset out "url" (AStr u)
  | Some (TypeCallback d) => mset out "callback_data" (AStr d)
  | Some (TypeWebView u) => mset out "web_app" (AMap (mapOf [AStr "url"; AStr u]))
  | Some (TypeSwitchInline q s) => mset (mset out "switch_inline_query" (AStr q)) "same_peer" (ABool s)
  | Some TypeBuy => mset out "buy" (ABool true)
  | Some TypeOther | None => out
  end.

Definition SerializeReplyMarkup (m : ReplyMarkup) : obj :=
  match m with
  | ReplyInlineMarkup rows =>
      mapOf [AStr "_"; AStr "InlineKeyboardMarkup"; AStr "inline_keyboard";
             AList (map (λ r, AList (map (λ b, AMap (serializeInlineButton b)) r)) rows)]
  | ReplyKeyboardMarkup resize persistent rows =>
      mapOf [AStr "_"; AStr "ReplyKeyboardMarkup"; AStr "keyboard";
             AList (map (λ r, AList (map (λ t, AMap (mapOf [AStr "_"; AStr "KeyboardButton"; AStr "text"; AStr t])) r)) rows);
             AStr "resize_keyboard"; ABool resize; AStr "is_persistent"; ABool persistent]
  | ReplyKeyboardHide => mapOf [AStr "_"; AStr "ReplyKeyboardRemove"; AStr "remove_keyboard"; ABool true]
  | ReplyKeyboardForceReply => mapOf [AStr "_"; AStr "ForceReply"; AStr "force_reply"; ABool true]
  end.

(** [m[k] = v] when there is a value. *)
Definition put_opt (out : obj) (k : string) (v : option any) : obj :=
  match v with Some v => mset out k v | None => out end.

Definition SerializeMessage (m : option Message) : option obj :=
  match m with
  | None => None
  | Some msg =>
      let out := mapOf [AStr "_"; AStr "Message"; AStr "id"; AInt64 (ID msg); AStr "date"; AInt64 (Date msg);
                        AStr "message"; AStr (Body msg)] in
      let out := put_opt out "chat" ((λ p, AMap (SerializeChat (Some p))) <$> PeerID msg) in
      let out := put_opt out "from_user_id" (match FromID msg with Some (PeerUser u) => Some (AInt64 u) | _ => None end) in
      let out := put_opt out "reply_to_message_id"
                   (match Reply msg with Some (ReplyHeader i) => Some (AInt64 i) | _ => None end) in
      let out := put_opt out "reply_markup" ((λ k, AMap (SerializeReplyMarkup k)) <$> Markup msg) in
      let out := put_opt out "entities"
                   (match Entities msg with
                    | [] => None | es => Some (AList (omap (λ e, AMap <$> SerializeEntity e) es)) end) in
      Some (put_opt out "media" (AMap <$> (Media msg ≫= SerializeMedia)))
  end.

(** [strings.LastIndexByte(s, '.')] and what follows it; [None] without a dot. *)
Fixpoint after_last_dot (s : string) : option string :=
  match s with
  | EmptyString => None
  | String c s' =>
      match after_last_dot s' with
      | Some r => Some r
      | None => if (c =? ".")%char then Some s' else None
      end
  end.

Definition constructorName (typename : string) : string := default typename (after_last_dot typename).

Definition message_update (name : string) (m : option Message) (pts count : Z) : option obj :=
  match SerializeMessage m with
  | None => None
  | Some msg => Some (mapOf [AStr "_"; AStr name; AStr "message"; AMap msg; AStr "pts"; AInt pts; AStr "pts_count"; AInt count])
  end.

Definition SerializeUpdate (u : Update) : option obj :=
  match u with
  | UpdateNewMessage m p c => message_update "UpdateNewMessage" m p c
  | UpdateNewChannelMessage m p c => message_update "UpdateNewChannelMessage" m p c
  | UpdateEditMessage m p c => message_update "UpdateEditMessage" m p c
  | UpdateEditChannelMessage m p c => message_update "UpdateEditChannelMessage" m p c
  | UpdateBotCallbackQuery q u p msg inst data =>
      Some (mapOf [AStr "_"; AStr "UpdateBotCallbackQuery"; AStr "query_id"; AInt64 q; AStr "user_id"; AInt64 u;
                   AStr "peer"; AMap (SerializePeer p); AStr "msg_id"; AInt msg; AStr "chat_instance"; AInt64 inst;
                   AStr "data"; AStr data])
  | UpdateInlineBotCallbackQuery q u inst data =>
      Some (mapOf [AStr "_"; AStr "UpdateInlineBotCallbackQuery"; AStr "query_id"; AInt64 q; AStr "user_id"; AInt64 u;
                   AStr "msg_data"; AStr "inline"; AStr "chat_instance"; AInt64 inst; AStr "data"; AStr data])
  | UpdateBotCommands p cmds =>
      Some (mapOf [AStr "_"; AStr "UpdateBotCommands"; AStr "peer"; AMap (SerializePeer p); AStr "commands";
                   AList (map (λ c, AMap (mapOf [AStr "_"; AStr "BotCommand"; AStr "command"; AStr c.1;
                                                 AStr "description"; AStr c.2])) cmds)])
  | UpdateOther t => Some (mapOf [AStr "_"; AStr (constructorName t)])
  end.

(** ** Coercion *)

Definition strOr (m : obj) (k : string) : string := match mget m k with Some (AStr s) => s | _ => "" end.

Definition boolOr (m : obj) (k : string) (def : bool) : bool := match mget m k with Some (ABool b) => b | _ => def end.

Definition intOr (m : obj) (k : string) (def : Z) : Z :=
  match mget1 m k with AFloat f => f2i f | AInt n => n | AInt64 n => n | _ => def end.

Definition hasKey (m : obj) (k : string) : bool := bool_decide (is_Some (mget m k)).

Definition coerceInlineButton (b : obj) : KeyboardInlineButton :=
  let btn t := {| Text := strOr b "text"; Type_ := t |} in
  if negb (strOr b "url" =? "")%string then btn (Some (TypeURL (strOr b "url")))
  else if negb (strOr b "callback_data" =? "")%string then btn (Some (TypeCallback (strOr b "callback_data")))
  else match mget1 b "web_app" with
  | AMap wa => btn (Some (TypeWebView (strOr wa "url")))
  | _ =>
      if hasKey b "switch_inline_query" then btn (Some (TypeSwitchInline (strOr b "switch_inline_query") false))
      else if hasKey b "switch_inline_query_current_chat"
      then btn (Some (TypeSwitchInline (strOr b "switch_inline_query_current_chat") true))
      else if boolOr b "buy" false then btn (Some TypeBuy)
      else btn None
  end.

(** Rows that are not arrays and buttons that are not objects are skipped. *)
Definition coerce_rows {B} (f : obj → B) (rows : list any) : list (list B) :=
  omap (λ r, match r with
    | AList bs => Some (omap (λ b, match b with AMap o => Some (f o) | _ => None end) bs)
    | _ => None end) rows.

Definition coerceInlineKeyboard (rows : list any) : ReplyMarkup := ReplyInlineMarkup (coerce_rows coerceInlineButton rows).

Definition CoerceReplyMarkup (v : any) : option ReplyMarkup :=
  match v with
  | AMap m =>
      match mget1 m "inline_keyboard" with
      | AList rows => Some (coerceInlineKeyboard rows)
      | _ =>
          match mget1 m "keyboard" with
          | AList rows =>
              Some (ReplyKeyboardMarkup (boolOr m "resize_keyboard" true) (boolOr m "is_persistent" false)
                      (coerce_rows (λ b, strOr b "text") rows))
          | _ =>
              if boolOr m "force_reply" false then Some ReplyKeyboardForceReply
              else if boolOr m "remove_keyboard" false then Some ReplyKeyboardHide
              else None
          end
      end
  | _ => None
  end.

(** ** Reading integers with fmt *)

Definition is_blank (c : ascii) : bool := (c =? " ")%char || ((9 <=? code c) && (code c <=? 13) && negb (code c =? 10)).

(** White space before a verb; a newline there is an error. *)
Fixpoint skip_space (s : string) : option string :=
  match s with
  | String c s' => if code c =? 10 then None else if is_blank c then skip_space s' else Some s
  | EmptyString => Some s
  end.

Fixpoint take_digits (s : string) : string * string :=
  match s with
  | String c s' => if is_digit c then let '(d, r) := take_digits s' in (String c d, r) else ("", s)
  | EmptyString => ("", "")
  end.

(** The [%d] verb of [Sscanf] into an [int64], on ASCII text: the value and
    the rest of the input.  What follows the digits is left unread. *)
Definition scan_d (s : string) : option (Z * string) :=
  match skip_space s with
  | None => None
  | Some s =>
      let '(neg, s) := match s with
        | String "-" s' => (true, s') | String "+" s' => (false, s') | _ => (false, s) end in
      let '(d, rest) := take_digits s in
      match parse_nat d with
      | None => None
      | Some n => let z := if neg then - n else n in if in_int64 z then Some (z, rest) else None
      end
  end.

(** [Sscanf(s, "%d", &i)]. *)
Definition sscanf_d (s : string) : option Z := fst <$> scan_d s.

Fixpoint drop_blanks (s : string) : string :=
  match s with String c s' => if is_blank c then drop_blanks s' else s | EmptyString => s end.

(** The space of a format: at least one blank in the input unless it ended. *)
Definition scan_space (s : string) : option string :=
  match s with
  | EmptyString => Some ""
  | String c s' => if is_blank c then Some (drop_blanks s') else None
  end.

(** ** Input media *)

(** [InputFileBig]. *)
Record InputFile := { f_id : Z; f_parts : Z; f_name : string }.

Inductive DocumentAttribute :=
| AttrVideo (SupportsStreaming : bool) (Duration : Q) (W H : Z)
| AttrAudio (Voice : bool)
| AttrFilename (FileName : string).

Inductive InputMedia :=
| InputMediaPhoto (TTLSeconds : Z)
| InputMediaUploadedPhoto (File : InputFile)
| InputMediaUploadedDocument (File : option InputFile) (MimeType : string) (Attributes : list DocumentAttribute)
| InputMediaPhotoExternal (URL : string)
| InputMediaDocumentExternal (URL : string).

Definition decodeUploadHandle (id : string) : option InputFile :=
  match cut_at ":" id with
  | None => None
  | Some (a, rest) =>
      match cut_at ":" rest with
      | None => None
      | Some (b, name) =>
          match scan_d (a +:+ " " +:+ b) with
          | None => None
          | Some (fileID, r) =>
              match scan_space r ≫= scan_d with
              | None => None
              | Some (partsN, _) => Some {| f_id := fileID; f_parts := partsN; f_name := name |}
              end
          end
      end
  end.

Definition applyUploadedCommon (m : obj) : option InputFile :=
  let id := strOr m "_gw_upload_id" in if (id =? "")%string then None else decodeUploadHandle id.

Definition CoerceInputMedia (v : any) : option InputMedia :=
  match v with
  | AMap m =>
      let kind_ := strOr m "type" in
      if (kind_ =? "photo")%string then Some (InputMediaPhoto (intOr m "ttl_seconds" 0))
      else if (kind_ =? "video")%string then
        Some (InputMediaUploadedDocument (applyUploadedCommon m) "video/mp4"
                [AttrVideo true (inject_Z (intOr m "duration" 0)) (intOr m "width" 0) (intOr m "height" 0)])
      else if (kind_ =? "document")%string then
        Some (InputMediaUploadedDocument (applyUploadedCommon m) "application/octet-stream" [])
      else None
  | _ => None
  end.

(** ** Keyboards survive the round trip *)

(** The buttons whose dictionary determines them. *)
Definition button_ok (b : KeyboardInlineButton) : bool :=
  match Type_ b with
  | Some (TypeURL u) => negb (u =? "")%string
  | Some (TypeCallback d) => negb (d =? "")%string
  | Some (TypeSwitchInline _ same) => negb same
  | Some TypeOther => false
  | _ => true
  end.

Definition markup_ok (m : ReplyMarkup) : bool :=
  match m with ReplyInlineMarkup rows => forallb (forallb button_ok) rows | _ => true end.

Lemma button_roundtrip b : coerceInlineButton (serializeInlineButton b) = b ↔ button_ok b = true.
Proof.
  destruct b as [t [[u|d|u|q []| |]|]]; unfold coerceInlineButton, button_ok; simpl; try done.
  - by destruct u.
  - by destruct d.
Qed.

Lemma coerce_rows_map {A B} (g : A → obj) (f : obj → B) (rows : list (list A)) :
  coerce_rows f (map (λ r, AList (map (λ b, AMap (g b)) r)) rows) = map (map (λ b, f (g b))) rows.
Proof.
  unfold coerce_rows. induction rows as [|r rows IH]; csimpl; [done|]. rewrite IH. f_equal. f_equal. clear.
  induction r as [|b r IH]; csimpl; [done|]. by rewrite IH.
Qed.

Lemma map_fix {A} (f : A → A) (p : A → bool) l :
  (∀ x, f x = x ↔ p x = true) → map f l = l ↔ forallb p l = true.
Proof.
  intros Hf. induction l as [|x l IH]; simpl; [done|]. rewrite andb_true_iff, <-IH, <-Hf. split; [by intros [= -> ->]|].
  by intros [-> ->].
Qed.

(** Reply markups round trip exactly when their dictionary determines them:
    the markup rendered into an update, sent through JSON and handed back as
    reply_markup is the same markup if and only if no button has an empty URL
    or callback payload, an unknown type, or the same-peer flag. *)
Theorem markup_roundtrip k :
  ∃ v, json_marshal (SerializeReplyMarkup k) = Some (JText v) ∧
  (CoerceReplyMarkup v = Some k ↔ markup_ok k = true).
Proof.
  assert (decoded (AMap (SerializeReplyMarkup k)) = true) as Hd.
  { destruct k as [rows|rs ps rows| |]; simpl; [| |done..].
    - rewrite andb_true_r. apply forallb_forall. intros v (r & <- & _)%in_map_iff. simpl.
      apply forallb_forall. intros w (b & <- & _)%in_map_iff. by destruct b as [t [[]|]].
    - rewrite andb_true_r. apply forallb_forall. intros v (r & <- & _)%in_map_iff. simpl.
      apply forallb_forall. by intros w (b & <- & _)%in_map_iff. }
  eexists. split; [by apply json_roundtrip|].
  destruct k as [rows|rs ps rows| |]; simpl; [| |done..].
  - unfold coerceInlineKeyboard. rewrite (coerce_rows_map serializeInlineButton).
    rewrite <-(map_fix (map (λ b, coerceInlineButton (serializeInlineButton b))) (forallb button_ok)).
    + split; [by intros [= ->]|by intros ->].
    + intros r. apply map_fix, button_roundtrip.
  - rewrite (coerce_rows_map (λ t, mapOf [AStr "_"; AStr "KeyboardButton"; AStr "text"; AStr t])). split; [done|]. intros _.
    assert (∀ r : list string, map (λ b, strOr (mapOf [AStr "_"; AStr "KeyboardButton"; AStr "text"; AStr b]) "text") r = r)
      as Hr by apply map_id.
    rewrite (map_ext _ (λ r, r)) by done. by rewrite map_id.
Qed.

(** A same-peer switch button comes back without the flag. *)
Lemma same_peer_is_lost t q :
  CoerceReplyMarkup (AMap (SerializeReplyMarkup (ReplyInlineMarkup [[{| Text := t; Type_ := Some (TypeSwitchInline q true) |}]])))
  = Some (ReplyInlineMarkup [[{| Text := t; Type_ := Some (TypeSwitchInline q false) |}]]).
Proof. done. Qed.

(** ** Every update the serializer keeps can be encoded *)

Lemma json_ok_put out k v :
  json_ok (AMap out) = true → (∀ x, v = Some x → json_ok x = true) → json_ok (AMap (put_opt out k v)) = true.
Proof. intros Ho Hv. destruct v as [x|]; [|done]. apply json_ok_mset; auto. Qed.

Lemma put_get out k v k' : k ≠ k' → mget (put_opt out k v) k' = mget out k'.
Proof. intros Hne. destruct v; [by apply mget_mset_ne|done]. Qed.

Lemma all_ok {A} (f : A → any) l : (∀ x, json_ok (f x) = true) → forallb json_ok (map f l) = true.
Proof. intros Hf. apply forallb_forall. by intros v (x & <- & _)%in_map_iff. Qed.

Lemma some_ok {A} (f : A → option any) (l : list A) :
  (∀ x v, f x = Some v → json_ok v = true) → forallb json_ok (omap f l) = true.
Proof.
  intros Hf. induction l as [|x l IH]; csimpl; [done|]. destruct (f x) as [v|] eqn:E; [|done]. simpl.
  by rewrite (Hf x v E), IH.
Qed.

Lemma markup_encodable k : json_ok (AMap (SerializeReplyMarkup k)) = true.
Proof.
  destruct k as [rows|rs ps rows| |]; simpl; rewrite ?andb_true_r; try done; apply all_ok; intros r; simpl; apply all_ok.
  - intros b. by destruct b as [t [[]|]].
  - done.
Qed.

Lemma entity_encodable e d : SerializeEntity e = Some d → json_ok (AMap d) = true.
Proof. unfold SerializeEntity. destruct (kind e); simpl; by intros [= <-]. Qed.

Lemma media_encodable m d : SerializeMedia m = Some d → json_ok (AMap d) = true.
Proof.
  destruct m as [[p|]|[p|]| |]; simpl; try done; intros [= <-]; simpl; [|done..].
  rewrite !andb_true_r. apply some_ok. intros [z|] v; [|done]. by intros [= <-].
Qed.

Lemma chat_encodable p : json_ok (AMap (SerializeChat p)) = true ∧ json_ok (AMap (SerializePeer p)) = true.
Proof. by destruct p as [[]|]. Qed.

Lemma message_encodable m d : SerializeMessage m = Some d → json_ok (AMap d) = true.
Proof.
  destruct m as [msg|]; [|done]. intros [= <-].
  repeat apply json_ok_put; [done| | | | | |]; intros v.
  - destruct (PeerID msg) as [q|]; [|done]. intros [= <-]. exact (proj1 (chat_encodable (Some q))).
  - destruct (FromID msg) as [[]|]; try done. by intros [= <-].
  - destruct (Reply msg) as [[]|]; try done. by intros [= <-].
  - destruct (Markup msg); [|done]. intros [= <-]. apply markup_encodable.
  - destruct (Entities msg) as [|e es]; [done|]. intros [= <-]. apply (some_ok (λ e, AMap <$> SerializeEntity e) (e :: es)).
    intros e' v. destruct (SerializeEntity e') as [d|] eqn:E; [|done]. intros [= <-]. by eapply entity_encodable.
  - destruct (Media msg ≫= SerializeMedia) as [d|] eqn:E; [|done]. intros [= <-].
    destruct (Media msg); [|done]. by eapply media_encodable.
Qed.

(** The class name of an update, and the message it carries, if it is one of
    the message updates. *)
Definition update_name (u : Update) : string :=
  match u with
  | UpdateNewMessage _ _ _ => "UpdateNewMessage"
  | UpdateNewChannelMessage _ _ _ => "UpdateNewChannelMessage"
  | UpdateEditMessage _ _ _ => "UpdateEditMessage"
  | UpdateEditChannelMessage _ _ _ => "UpdateEditChannelMessage"
  | UpdateBotCallbackQuery _ _ _ _ _ _ => "UpdateBotCallbackQuery"
  | UpdateInlineBotCallbackQuery _ _ _ _ => "UpdateInlineBotCallbackQuery"
  | UpdateBotCommands _ _ => "UpdateBotCommands"
  | UpdateOther t => constructorName t
  end.

Definition carried (u : Update) : option (option Message) :=
  match u with
  | UpdateNewMessage m _ _ | UpdateNewChannelMessage m _ _ | UpdateEditMessage m _ _ | UpdateEditChannelMessage m _ _ => Some m
  | _ => None
  end.

(** C39. The serializer drops only updates whose message is not a message; all
    others become a dictionary that names their class and that JSON can
    encode, so no serialized update ends up among the dead letters. *)
Theorem updates_are_encodable u :
  (SerializeUpdate u = None ↔ carried u = Some None) ∧
  (∀ d, SerializeUpdate u = Some d → json_ok (AMap d) = true ∧ mget d "_" = Some (AStr (update_name u)) ∧
     ∀ m, carried u = Some (Some m) →
       ∃ msg, mget d "message" = Some (AMap msg) ∧ mget msg "id" = Some (AInt64 (ID m)) ∧
         mget msg "message" = Some (AStr (Body m))).
Proof.
  assert (∀ name m p c, message_update name m p c = None ↔ m = None) as Hn
    by (intros name m p c; unfold message_update; by destruct m).
  assert (∀ name m p c d, message_update name (Some m) p c = Some d →
    json_ok (AMap d) = true ∧ mget d "_" = Some (AStr name) ∧
    ∃ msg, mget d "message" = Some (AMap msg) ∧ mget msg "id" = Some (AInt64 (ID m)) ∧
      mget msg "message" = Some (AStr (Body m))) as Hm.
  { intros name m p c d. unfold message_update. destruct (SerializeMessage (Some m)) as [msg|] eqn:E; [|done].
    intros [= <-]. pose proof (message_encodable _ _ E) as Hok. split; [|split; [done|]].
    - simpl in Hok |- *. by rewrite Hok.
    - exists msg. split; [done|]. injection E as <-. by rewrite !put_get by done. }
  split; [destruct u; simpl; rewrite ?Hn; naive_solver|].
  intros d. destruct u as [[m|] p c|[m|] p c|[m|] p c|[m|] p c|q us p msg inst data|q us inst data|p cmds|t];
    simpl; try done; try (intros (H1 & H2 & H3)%Hm; split_ands; [done|done|naive_solver]);
    intros [= <-]; (split; [|split; done]); simpl; try done; rewrite ?andb_true_r.
  - apply chat_encodable.
  - apply andb_true_iff. split; [apply chat_encodable|]. by apply all_ok.
Qed.
