(* ===== verification/MTClient.v ===== *)
(** * The MTProto method adapters (internal/mtproto/client.go)

    [Client] is the Go interface as a class: each method maps the client's
    state to a result or an error text and the new state.  The adapters are
    written against the class; the gotd client is one instance, and
    [recorder] another, whose state is the list of calls it received. *)
From Stdlib Require Import QArith Ascii String.
From stdpp Require Import base list strings gmap.
From S2P Require Import Prelude GoValue MTWire.
From S2P Require Health.
Open Scope Z_scope.

(** ** Parameters and results *)

Record SentMessage := { sm_id : Z; sm_chat : Z }.

Record MediaAttach := { Kind : string; Handle : string; MediaURL : string; MediaMime : string; FileName : string }.

(** A nil [ReplyMarkup] map is [None]. *)
Record SendParams := {
  sp_chat : Z; sp_text : string; sp_mode : string; sp_markup : option obj; sp_reply : Z; sp_silent : bool;
  sp_media : option MediaAttach
}.

Record EditTextParams := {
  et_chat : Z; et_message : Z; et_text : string; et_mode : string; et_markup : option obj; et_noweb : bool
}.

Record EditMarkupParams := { em_chat : Z; em_message : Z; em_markup : option obj }.

Record ForwardParams := { fw_from : Z; fw_to : Z; fw_ids : list Z; fw_noquote : bool }.

Record BotInfo := { Username : string; bot_id : Z }.

(** A result or the text of an error. *)
Inductive result (A : Type) := Ok (a : A) | Err (msg : string).
Arguments Ok {A} a.
Arguments Err {A} msg.

(** The methods the adapters use.  A nil slice is [None]. *)
Class Client (C : Type) := {
  Me : C → result BotInfo * C;
  SendMessage : SendParams → C → result SentMessage * C;
  EditMessageText : EditTextParams → C → result bool * C;
  EditMessageReplyMarkup : EditMarkupParams → C → result bool * C;
  SendChatAction : Z → string → C → result bool * C;
  DeleteMessages : Z → list Z → bool → C → result bool * C;
  ForwardMessages : ForwardParams → C → result (option (list SentMessage)) * C;
  SendMediaGroup : Z → list MediaAttach → bool → C → result (option (list SentMessage)) * C;
  GetChat : Z → C → result obj * C;
  ResolveUsername : string → C → result Z * C;
  AnswerCallbackQuery : string → string → bool → string → Z → C → result bool * C;
  DownloadMedia : string → C → result (option string) * C;
  UploadMedia : string → string → string → C → result string * C
}.

(** ** Results as JSON values *)

Definition sent_json (m : SentMessage) : any := AMap [("id", AInt64 (sm_id m)); ("chat_id", AInt64 (sm_chat m))].

Definition edit_json (ok : bool) : any := AMap [("ok", ABool ok)].

Definition sent_list_json (l : option (list SentMessage)) : any :=
  match l with None => ANil | Some l => AList (map sent_json l) end.

Definition rmap {A C} (f : A → any) (r : result A * C) : result any * C :=
  (match r.1 with Ok a => Ok (f a) | Err e => Err e end, r.2).

(** ** Arguments *)

Fixpoint argInt (args : obj) (keys : list string) : option Z :=
  match keys with
  | [] => None
  | k :: rest =>
      match mget args k with
      | Some (AFloat f) => Some (f2i f)
      | Some (AInt64 n) => Some n
      | Some (AInt n) => Some n
      | Some (AStr s) => match sscanf_d s with Some i => Some i | None => argInt args rest end
      | _ => argInt args rest
      end
  end.

Definition argStr (args : obj) (key : string) : string := strOr args key.

Definition argBool (args : obj) (key : string) : bool := boolOr args key false.

Definition argMarkup (args : obj) : option obj := match mget args "reply_markup" with Some (AMap m) => Some m | _ => None end.

Definition argIntSlice (v : any) : option (list Z) :=
  match v with AList l => mapM (λ x, anyToInt64 x) l | _ => None end.

Definition chatKeys : list string := ["chat_id"; "chat_username"; "chat"].

(** ** base64.StdEncoding.DecodeString *)

Definition digit64 (c : ascii) : option Z :=
  let n := code c in
  if (65 <=? n) && (n <=? 90) then Some (n - 65)
  else if (97 <=? n) && (n <=? 122) then Some (n - 71)
  else if (48 <=? n) && (n <=? 57) then Some (n + 4)
  else if n =? 43 then Some 62 else if n =? 47 then Some 63 else None.

Fixpoint decode_quanta (s : string) : option string :=
  match s with
  | EmptyString => Some ""
  | String a (String b (String c (String d rest))) =>
      match digit64 a, digit64 b with
      | Some x, Some y =>
          let c1 := chr (x * 4 + y / 16) in
          match digit64 c, digit64 d with
          | Some z, Some w =>
              match decode_quanta rest with
              | Some r => Some (String c1 (String (chr ((y mod 16) * 16 + z / 4)) (String (chr ((z mod 4) * 64 + w)) r)))
              | None => None
              end
          | Some z, None =>
              if (d =? "=")%char && (rest =? "")%string
              then Some (String c1 (String (chr ((y mod 16) * 16 + z / 4)) "")) else None
          | None, _ =>
              if (c =? "=")%char && (d =? "=")%char && (rest =? "")%string then Some (String c1 "") else None
          end
      | _, _ => None
      end
  | _ => None
  end.

Fixpoint drop_newlines (s : string) : string :=
  match s with
  | EmptyString => ""
  | String c s' => if (code c =? 10) || (code c =? 13) then drop_newlines s' else String c (drop_newlines s')
  end.

Definition DecodeString (s : string) : option string := decode_quanta (drop_newlines s).

Section adapters.
Context {C : Type} {client : Client C}.

(** The decoder's error text. *)
Variable corrupt : string → string.

Definition adaptSendMessage (args : obj) (c : C) : result any * C :=
  match argInt args chatKeys with
  | None => (Err "chat_id required", c)
  | Some chat =>
      rmap sent_json (SendMessage
        {| sp_chat := chat; sp_text := argStr args "text"; sp_mode := argStr args "parse_mode";
           sp_markup := argMarkup args; sp_reply := default 0 (argInt args ["reply_to_message_id"]);
           sp_silent := argBool args "disable_notification"; sp_media := None |} c)
  end.

Definition adaptEditText (args : obj) (c : C) : result any * C :=
  match argInt args ["message_id"] with
  | None => (Err "message_id required", c)
  | Some msg =>
      rmap edit_json (EditMessageText
        {| et_chat := default 0 (argInt args chatKeys); et_message := msg; et_text := argStr args "text";
           et_mode := argStr args "parse_mode"; et_markup := argMarkup args;
           et_noweb := argBool args "disable_web_page_preview" |} c)
  end.

Definition adaptEditMarkup (args : obj) (c : C) : result any * C :=
  match argInt args ["message_id"] with
  | None => (Err "message_id required", c)
  | Some msg =>
      rmap edit_json (EditMessageReplyMarkup
        {| em_chat := default 0 (argInt args chatKeys); em_message := msg; em_markup := argMarkup args |} c)
  end.

Definition adaptChatAction (args : obj) (c : C) : result any * C :=
  match argInt args chatKeys with
  | None => (Err "chat_id required", c)
  | Some chat => rmap edit_json (SendChatAction chat (argStr args "action") c)
  end.

Definition adaptDeleteMessages (args : obj) (c : C) : result any * C :=
  match (match argIntSlice (mget1 args "message_ids") with Some l => Some l | None => argIntSlice (mget1 args "ids") end) with
  | None => (Err "message_ids required", c)
  | Some ids => rmap edit_json (DeleteMessages (default 0 (argInt args ["chat_id"])) ids (argBool args "revoke") c)
  end.

Definition adaptForwardMessages (args : obj) (c : C) : result any * C :=
  match argInt args ["from_chat_id"] with
  | None => (Err "from_chat_id required", c)
  | Some from =>
      match argInt args chatKeys with
      | None => (Err "chat_id required", c)
      | Some to =>
          match argIntSlice (mget1 args "message_ids") with
          | None => (Err "message_ids required", c)
          | Some ids =>
              rmap sent_list_json (ForwardMessages
                {| fw_from := from; fw_to := to; fw_ids := ids;
                   fw_noquote := argBool args "no_quote" || argBool args "copy" |} c)
          end
      end
  end.

Definition adaptGetChat (args : obj) (c : C) : result any * C :=
  match argInt args chatKeys with
  | None => (Err "chat_id required", c)
  | Some chat => rmap AMap (GetChat chat c)
  end.

Definition adaptResolveUsername (args : obj) (c : C) : result any * C :=
  let username := trim_prefix "@" (argStr args "username") in
  if (username =? "")%string then (Err "username required", c)
  else rmap (λ id, AMap [("peer_id", AInt64 id); ("username", AStr username)]) (ResolveUsername username c).

Definition adaptAnswerCallback (args : obj) (c : C) : result any * C :=
  let id := argStr args "callback_query_id" in
  let id := if (id =? "")%string then argStr args "id" else id in
  if (id =? "")%string then (Err "callback_query_id required", c)
  else rmap edit_json (AnswerCallbackQuery id (argStr args "text") (argBool args "show_alert") (argStr args "url")
                         (default 0 (argInt args ["cache_time"])) c).

(** The media of one entry: an upload handle, a URL, or bytes uploaded here.
    [pre] is the prefix of its error texts and [missing] the text when the
    entry has none. *)
Definition attach_media (kind_ pre missing : string) (args : obj) (c : C) : result MediaAttach * C :=
  let name := argStr args "file_name" in
  let item handle url := {| Kind := kind_; Handle := handle; MediaURL := url; MediaMime := ""; FileName := name |} in
  if has_prefix "upload:" (argStr args "file_id") then (Ok (item (argStr args "file_id") ""), c)
  else if negb (argStr args "url" =? "")%string then (Ok (item "" (argStr args "url")), c)
  else if negb (argStr args "data" =? "")%string then
    match DecodeString (argStr args "data") with
    | None => (Err (pre +:+ "data must be base64: " +:+ corrupt (argStr args "data")), c)
    | Some raw =>
        match UploadMedia kind_ (if (name =? "")%string then "upload." +:+ kind_ else name) raw c with
        | (Err e, c) => (Err e, c)
        | (Ok handle, c) => (Ok (item handle ""), c)
        end
    end
  else (Err missing, c).

Definition adaptUploadSend (kind_ : string) (args : obj) (c : C) : result any * C :=
  match argInt args chatKeys with
  | None => (Err "chat_id required", c)
  | Some chat =>
      match attach_media kind_ "" "media required: file_id (upload handle from /upload), base64 data, or url" args c with
      | (Err e, c) => (Err e, c)
      | (Ok attach, c) =>
          rmap sent_json (SendMessage
            {| sp_chat := chat; sp_text := argStr args "caption"; sp_mode := argStr args "parse_mode";
               sp_markup := argMarkup args; sp_reply := default 0 (argInt args ["reply_to_message_id"]);
               sp_silent := argBool args "disable_notification"; sp_media := Some attach |} c)
      end
  end.

Definition entry_label (i : nat) : string := "media[" +:+ itoa (Z.of_nat i) +:+ "]".

(** The entries of an album, in order; the first bad one ends it. *)
Fixpoint album_items (i : nat) (rawList : list any) (c : C) : result (list MediaAttach) * C :=
  match rawList with
  | [] => (Ok [], c)
  | AMap entry :: rest =>
      let kind_ := if (argStr entry "type" =? "")%string then "photo" else argStr entry "type" in
      match attach_media kind_ (entry_label i +:+ ".")
              (entry_label i +:+ ": file_id (upload handle), base64 data, or url required") entry c with
      | (Err e, c) => (Err e, c)
      | (Ok item, c) =>
          match album_items (S i) rest c with
          | (Err e, c) => (Err e, c)
          | (Ok items, c) => (Ok (item :: items), c)
          end
      end
  | _ :: _ => (Err (entry_label i +:+ " must be an object"), c)
  end.

Definition sent_entry (m : SentMessage) : any := AMap [("message_id", AInt64 (sm_id m)); ("chat_id", AInt64 (sm_chat m))].

Definition adaptSendMediaGroup (args : obj) (c : C) : result any * C :=
  match argInt args chatKeys with
  | None => (Err "chat_id required", c)
  | Some chat =>
      match mget1 args "media" with
      | AList (x :: rawList) =>
          match album_items 0 (x :: rawList) c with
          | (Err e, c) => (Err e, c)
          | (Ok items, c) =>
              rmap (λ l, AList (map sent_entry (default [] l)))
                (SendMediaGroup chat items (argBool args "disable_notification") c)
          end
      | _ => (Err "media array required", c)
      end
  end.

Definition adaptCopyMessage (args : obj) (c : C) : result any * C :=
  match argInt args ["from_chat_id"; "chat_id"] with
  | None => (Err "from_chat_id required", c)
  | Some from =>
      match argInt args ["chat_id"; "to_chat_id"] with
      | None => (Err "chat_id required", c)
      | Some to =>
          match argInt args ["message_id"] with
          | None => (Err "message_id required", c)
          | Some msg =>
              match ForwardMessages {| fw_from := from; fw_to := to; fw_ids := [msg]; fw_noquote := true |} c with
              | (Err e, c) => (Err e, c)
              | (Ok (Some (m :: _)), c) => (Ok (sent_entry m), c)
              | (Ok _, c) => (Err "copy produced no message", c)
              end
          end
      end
  end.

Definition adaptEditCaption (args : obj) (c : C) : result any * C := adaptEditText args c.

Definition adaptGetMe (_ : obj) (c : C) : result any * C :=
  rmap (λ me, AMap [("id", AInt64 (bot_id me)); ("username", AStr (Username me)); ("is_bot", ABool true)]) (Me c).

(** ** Dispatch *)

Definition adapters : list (string * (obj → C → result any * C)) :=
  [("send_message", adaptSendMessage); ("edit_message_text", adaptEditText);
   ("edit_message_reply_markup", adaptEditMarkup); ("send_chat_action", adaptChatAction);
   ("delete_messages", adaptDeleteMessages); ("forward_messages", adaptForwardMessages); ("get_chat", adaptGetChat);
   ("resolve_username", adaptResolveUsername); ("answer_callback_query", adaptAnswerCallback);
   ("send_photo", adaptUploadSend "photo"); ("send_video", adaptUploadSend "video");
   ("send_document", adaptUploadSend "document"); ("send_audio", adaptUploadSend "audio");
   ("send_voice", adaptUploadSend "voice"); ("send_animation", adaptUploadSend "animation");
   ("send_media_group", adaptSendMediaGroup); ("copy_message", adaptCopyMessage);
   ("edit_message_caption", adaptEditCaption); ("get_me", adaptGetMe)].

Definition SupportedMethods : list string := Health.Storage.sortStrings (map fst adapters).

(** [None] is [ErrUnsupported]. *)
Definition Dispatch (method : string) (args : obj) (c : C) : option (result any * C) :=
  match mget adapters (to_lower method) with
  | None => None
  | Some a => Some (a args c)
  end.
End adapters.

(** ** A recording client *)

Inductive call :=
| CallMe
| CallSend (p : SendParams)
| CallEditText (p : EditTextParams)
| CallEditMarkup (p : EditMarkupParams)
| CallAction (chat : Z) (action : string)
| CallDelete (chat : Z) (ids : list Z) (revoke : bool)
| CallForward (p : ForwardParams)
| CallAlbum (chat : Z) (items : list MediaAttach) (silent : bool)
| CallGetChat (chat : Z)
| CallResolve (username : string)
| CallAnswer (id text : string) (alert : bool) (url : string) (cache : Z)
| CallDownload (file : string)
| CallUpload (kind_ name data : string).

(** What Telegram answers to the n-th call. *)
Record answers := {
  a_me : nat → result BotInfo; a_sent : nat → result SentMessage; a_ok : nat → result bool;
  a_list : nat → result (option (list SentMessage)); a_chat : nat → result obj; a_id : nat → result Z;
  a_bytes : nat → result string
}.

Definition recorder (a : answers) : Client (list call) := {|
  Me c := (a_me a (length c), c ++ [CallMe]);
  SendMessage p c := (a_sent a (length c), c ++ [CallSend p]);
  EditMessageText p c := (a_ok a (length c), c ++ [CallEditText p]);
  EditMessageReplyMarkup p c := (a_ok a (length c), c ++ [CallEditMarkup p]);
  SendChatAction chat s c := (a_ok a (length c), c ++ [CallAction chat s]);
  DeleteMessages chat ids r c := (a_ok a (length c), c ++ [CallDelete chat ids r]);
  ForwardMessages p c := (a_list a (length c), c ++ [CallForward p]);
  SendMediaGroup chat l b c := (a_list a (length c), c ++ [CallAlbum chat l b]);
  GetChat chat c := (a_chat a (length c), c ++ [CallGetChat chat]);
  ResolveUsername u c := (a_id a (length c), c ++ [CallResolve u]);
  AnswerCallbackQuery i t s u n c := (a_ok a (length c), c ++ [CallAnswer i t s u n]);
  DownloadMedia f c := (match a_bytes a (length c) with Ok d => Ok (Some d) | Err e => Err e end, c ++ [CallDownload f]);
  UploadMedia k n d c := (a_bytes a (length c), c ++ [CallUpload k n d])
|}.

Definition is_upload (x : call) : bool := match x with CallUpload _ _ _ => true | _ => false end.

(** What a call does to a client's state, and a sequence of calls. *)
Definition perform {C} `{!Client C} (x : call) (c : C) : C :=
  match x with
  | CallMe => (Me c).2
  | CallSend p => (SendMessage p c).2
  | CallEditText p => (EditMessageText p c).2
  | CallEditMarkup p => (EditMessageReplyMarkup p c).2
  | CallAction chat s => (SendChatAction chat s c).2
  | CallDelete chat ids r => (DeleteMessages chat ids r c).2
  | CallForward p => (ForwardMessages p c).2
  | CallAlbum chat l b => (SendMediaGroup chat l b c).2
  | CallGetChat chat => (GetChat chat c).2
  | CallResolve u => (ResolveUsername u c).2
  | CallAnswer i t s u n => (AnswerCallbackQuery i t s u n c).2
  | CallDownload f => (DownloadMedia f c).2
  | CallUpload k n d => (UploadMedia k n d c).2
  end.

Definition performs {C} `{!Client C} (l : list call) (c : C) : C := fold_left (λ c x, perform x c) l c.

Lemma recorder_performs a l c : performs (Client0 := recorder a) l c = c ++ l.
Proof.
  revert c. induction l as [|x l IH]; intros c; [by rewrite app_nil_r|]. simpl.
  assert (perform (Client0 := recorder a) x c = c ++ [x]) as -> by (by destruct x). by rewrite IH, <- app_assoc.
Qed.

Section effects.
Context {C : Type} `{client : !Client C} (corrupt : string → string) (P : call → Prop).

(** What one proxied method may do: upload media, then make at most one other
    call; only a method that made that call succeeds.  [P] constrains the
    call. *)
Definition one_effect {A} (c : C) (r : result A * C) : Prop :=
  ∃ ups fin, r.2 = performs (ups ++ fin) c ∧ Forall (λ x, is_upload x = true) ups ∧
    ((fin = [] ∧ ∃ e, r.1 = Err e) ∨ ∃ x, fin = [x] ∧ is_upload x = false ∧ P x).

Lemma effect_none {A} e (c : C) : one_effect c (@Err A e, c).
Proof. exists [], []. split_ands; [done|constructor|]. left. eauto. Qed.

Lemma effect_call {A} x (r : result A * C) (c : C) : r.2 = perform x c → is_upload x = false → P x → one_effect c r.
Proof. intros Hr Hx HP. exists [], [x]. split_ands; [done|constructor|]. right. eauto. Qed.

Lemma effect_rmap {A} f (r : result A * C) c : one_effect c r → one_effect c (rmap f r).
Proof.
  intros (ups & fin & H1 & H2 & H3). exists ups, fin. split_ands; [done|done|].
  destruct H3 as [[-> [e He]]|H3]; [left|by right]. split; [done|]. unfold rmap. rewrite He. eauto.
Qed.

(** Uploads before the call. *)
Lemma effect_after {A} (c c' : C) ups (r : result A * C) :
  c' = performs ups c → Forall (λ x, is_upload x = true) ups → one_effect c' r → one_effect c r.
Proof.
  intros -> Hu (ups' & fin & H1 & H2 & H3). exists (ups ++ ups'), fin. rewrite H1. unfold performs. rewrite <- app_assoc, !fold_left_app.
  split_ands; [done|by apply Forall_app|done].
Qed.

Lemma attach_uploads k pre miss args (c : C) :
  ∃ ups, (attach_media corrupt k pre miss args c).2 = performs ups c ∧ Forall (λ x, is_upload x = true) ups.
Proof.
  unfold attach_media. destruct (has_prefix _ _); [by exists []|].
  destruct (negb _); [by exists []|]. destruct (negb _); [|by exists []]. destruct (DecodeString _) as [d|]; [|by exists []].
  match goal with |- context [UploadMedia ?k ?n ?d c] => exists [CallUpload k n d]; cbn [performs fold_left perform];
    destruct (UploadMedia k n d c) as [[] c'] end; by split; [|repeat constructor].
Qed.

Lemma album_uploads i l (c : C) :
  ∃ ups, (album_items corrupt i l c).2 = performs ups c ∧ Forall (λ x, is_upload x = true) ups.
Proof.
  revert i c. induction l as [|x l IH]; intros i c; [by exists []|].
  destruct x as [| | | | | | | |entry|]; try (by exists []). cbn [album_items].
  set (r := attach_media _ _ _ _ _ _). destruct (attach_uploads
    (if (argStr entry "type" =? "")%string then "photo" else argStr entry "type") (entry_label i +:+ ".")
    (entry_label i +:+ ": file_id (upload handle), base64 data, or url required") entry c) as (u1 & E1 & H1).
  fold r in E1. destruct r as [[item|e] c1]; simpl in E1; subst c1; [|by exists u1].
  destruct (IH (S i) (performs u1 c)) as (u2 & E2 & H2).
  destruct (album_items corrupt (S i) l (performs u1 c)) as [[items|e] c2]; simpl in *; subst c2;
    exists (u1 ++ u2); unfold performs; rewrite fold_left_app; (split; [done|by apply Forall_app]).
Qed.
End effects.

(** The chat a call addresses. *)
Definition call_target (x : call) : option Z :=
  match x with
  | CallSend p => Some (sp_chat p)
  | CallEditText p => Some (et_chat p)
  | CallEditMarkup p => Some (em_chat p)
  | CallAction chat _ | CallDelete chat _ _ | CallAlbum chat _ _ | CallGetChat chat => Some chat
  | CallForward p => Some (fw_to p)
  | _ => None
  end.

(** The keys a method takes its chat from. *)
Definition target_keys (method : string) : list string :=
  if (method =? "delete_messages")%string then ["chat_id"]
  else if (method =? "copy_message")%string then ["chat_id"; "to_chat_id"] else chatKeys.

Definition addresses (method : string) (args : obj) (x : call) : Prop :=
  ∀ z, call_target x = Some z → z = default 0 (argInt args (target_keys method)).

(** One call whose target is read from the chat keys. *)
Ltac the_call :=
  lazymatch goal with
  | |- one_effect _ _ (SendMessage ?p _) => apply (effect_call _ (CallSend p))
  | |- one_effect _ _ (EditMessageText ?p _) => apply (effect_call _ (CallEditText p))
  | |- one_effect _ _ (EditMessageReplyMarkup ?p _) => apply (effect_call _ (CallEditMarkup p))
  | |- one_effect _ _ (SendChatAction ?x ?s _) => apply (effect_call _ (CallAction x s))
  | |- one_effect _ _ (DeleteMessages ?x ?l ?b _) => apply (effect_call _ (CallDelete x l b))
  | |- one_effect _ _ (ForwardMessages ?p _) => apply (effect_call _ (CallForward p))
  | |- one_effect _ _ (SendMediaGroup ?x ?l ?b _) => apply (effect_call _ (CallAlbum x l b))
  | |- one_effect _ _ (GetChat ?x _) => apply (effect_call _ (CallGetChat x))
  | |- one_effect _ _ (ResolveUsername ?u _) => apply (effect_call _ (CallResolve u))
  | |- one_effect _ _ (AnswerCallbackQuery ?i ?t ?s ?u ?n _) => apply (effect_call _ (CallAnswer i t s u n))
  | |- one_effect _ _ (Me _) => apply (effect_call _ CallMe)
  end; [done|done|].

Ltac one_call :=
  apply effect_rmap; the_call; let z := fresh in intros z; cbn [call_target sp_chat et_chat em_chat fw_to]; intros [= <-].

Section dispatch.
Context {C : Type} `{client : !Client C} (corrupt : string → string).

Lemma upload_send_effect k m args (c : C) :
  target_keys m = chatKeys →
  one_effect (addresses m args) c (adaptUploadSend corrupt k args c).
Proof.
  intros Hm. unfold adaptUploadSend. destruct (argInt args chatKeys) as [chat|] eqn:Ec; [|apply effect_none].
  pose proof (attach_uploads corrupt k "" "media required: file_id (upload handle from /upload), base64 data, or url" args c)
    as (ups & E & Hu).
  destruct (attach_media _ _ _ _ _ _) as [[item|e] c1]; simpl in E; subst c1.
  - eapply effect_after; [done|done|]. one_call. by rewrite Hm, Ec.
  - eapply effect_after; [done|done|apply effect_none].
Qed.

Lemma media_group_effect m args (c : C) :
  target_keys m = chatKeys →
  one_effect (addresses m args) c (adaptSendMediaGroup corrupt args c).
Proof.
  intros Hm. unfold adaptSendMediaGroup. destruct (argInt args chatKeys) as [chat|] eqn:Ec; [|apply effect_none].
  destruct (mget1 args "media") as [| | | | | | |[|x l]| |]; try apply effect_none.
  pose proof (album_uploads corrupt 0 (x :: l) c) as (ups & E & Hu).
  destruct (album_items _ _ _ _) as [[items|e] c1]; simpl in E; subst c1.
  - eapply effect_after; [done|done|]. one_call. by rewrite Hm, Ec.
  - eapply effect_after; [done|done|apply effect_none].
Qed.

Lemma forward_effect m args (c : C) :
  target_keys m = chatKeys →
  one_effect (addresses m args) c (adaptForwardMessages args c).
Proof.
  intros Hm. unfold adaptForwardMessages. destruct (argInt args ["from_chat_id"]); [|apply effect_none].
  destruct (argInt args chatKeys) as [to|] eqn:Et; [|apply effect_none].
  destruct (argIntSlice _); [|apply effect_none]. one_call. by rewrite Hm, Et.
Qed.

Lemma copy_effect m args (c : C) :
  target_keys m = ["chat_id"; "to_chat_id"] →
  one_effect (addresses m args) c (adaptCopyMessage args c).
Proof.
  intros Hm. unfold adaptCopyMessage. destruct (argInt args ["from_chat_id"; "chat_id"]); [|apply effect_none].
  destruct (argInt args ["chat_id"; "to_chat_id"]) as [to|] eqn:Et; [|apply effect_none].
  destruct (argInt args ["message_id"]) as [id|]; [|apply effect_none].
  match goal with |- context [ForwardMessages ?p c] =>
    assert (∀ (r : result any), one_effect (addresses m args) c (r, (ForwardMessages p c).2)) as Hc end.
  { intros r. eapply (effect_call _ (CallForward _)); [done|done|]. intros z'. simpl. intros [= <-]. by rewrite Hm, Et. }
  destruct (ForwardMessages _ c) as [[[[|x l]|]|e] c']; apply Hc.
Qed.

Lemma edit_text_effect m args (c : C) :
  target_keys m = chatKeys → one_effect (addresses m args) c (adaptEditText args c).
Proof.
  intros Hm. unfold adaptEditText. destruct (argInt args ["message_id"]); [|apply effect_none]. one_call. by rewrite Hm.
Qed.

Lemma dispatch_effect method args (c : C) out :
  Dispatch corrupt method args c = Some out → one_effect (addresses (to_lower method) args) c out.
Proof.
  unfold Dispatch. destruct (mget (adapters corrupt) (to_lower method)) as [ad|] eqn:E; [|done]. intros [= <-].
  revert E. generalize (to_lower method). intros m. cbn [mget adapters].
    repeat (match goal with |- context [(?k =? m)%string] => destruct (String.eqb_spec k m) as [<-|_] end; [intros [= <-]|]);
      try done;
      try (by apply upload_send_effect); try (by apply media_group_effect); try (by apply forward_effect);
      try (by apply copy_effect); try (by apply edit_text_effect).
  - unfold adaptSendMessage. destruct (argInt args chatKeys) eqn:Ec; [|apply effect_none]. one_call.
    change (target_keys _) with chatKeys. by rewrite Ec.
  - unfold adaptEditMarkup. destruct (argInt args ["message_id"]); [|apply effect_none]. by one_call.
  - unfold adaptChatAction. destruct (argInt args chatKeys) eqn:Ec; [|apply effect_none]. one_call.
    change (target_keys _) with chatKeys. by rewrite Ec.
  - unfold adaptDeleteMessages. destruct (match argIntSlice _ with Some _ => _ | None => _ end); [|apply effect_none].
    by one_call.
  - unfold adaptGetChat. destruct (argInt args chatKeys) eqn:Ec; [|apply effect_none]. one_call.
    change (target_keys _) with chatKeys. by rewrite Ec.
  - unfold adaptResolveUsername. destruct (_ =? "")%string; [apply effect_none|]. apply effect_rmap; by the_call.
  - unfold adaptAnswerCallback. destruct (_ =? "")%string; [apply effect_none|]. apply effect_rmap; by the_call.
  - unfold adaptGetMe. apply effect_rmap; by the_call.
Qed.

End dispatch.
