(* ===== verification/MTApp.v ===== *)
(** * The MTProto sidecar's HTTP application (internal/mtproto/app.go)

    The proxy dispatch with its idempotency, pause and rate-guard stages, the
    two getUpdates modes, the WebSocket push, the admin and probe handlers, the
    router, and the housekeeping pass.  A handler maps the application state to
    an outcome and a new state; what it cannot know (clock readings, statement
    faults, Telegram's answers, what other goroutines do while it waits) is the
    [app_env] argument.  Every session's Telegram client acts on one world [C]
    through [Client]. *)
From Stdlib Require Import QArith Lqa Ascii String.
From stdpp Require Import base list strings gmap.
From S2P Require Import Prelude GoValue Sql Idempotency Crypto Config RateGuard Mux MTGuard MTWire MTClient MTSession.
From S2P Require Health Lock MTStore GatewayStore.
Open Scope Z_scope.

(** ** Requests and responses *)

(** A body as read: [None] is the empty body, [too_large] the size limit. *)
Record reqbody := { braw : option json_text; too_large : bool }.

Record request := {
  r_method : string; r_path : list string; r_url : string; r_auth : string; r_body : reqbody
}.

(** A metric sample: name, labels and value. *)
Record sample := { m_name : string; m_labels : string; m_value : Q }.

Inductive payload := PJson (v : obj) | PSplice (l : list json_text) | PBytes (s : string) | PMetrics (l : list sample) | PNone.

Record response := { code_ : Z; pay : payload }.

(** [Dropped]: the client went away and nothing was written; [Panicked]: the
    handler panicked (the server aborts the connection). *)
Inductive outcome := Reply (r : response) | Dropped | Panicked.

Definition writeJSON (code : Z) (body : obj) : response := {| code_ := code; pay := PJson body |}.

Definition fail (code : Z) : response := writeJSON code [("ok", ABool false); ("error_code", AInt code)].

Definition failed (code : Z) (description : string) : response :=
  writeJSON code [("ok", ABool false); ("error_code", AInt code); ("description", AStr description)].

(** ** Authentication *)

(** Equal lengths and a constant-time comparison of the bytes: equality. *)
Definition bearerOK (header secret : string) : bool := (trim_prefix "Bearer " header =? secret)%string.

(** ** Method calls *)

Definition splitBotTokenPath (path prefix : string) : option (string * string) :=
  let p := trim_prefix "/" (trim_prefix prefix path) in
  if negb (has_prefix "bot" p) then None
  else cut_at "/" (sdrop 3 p).

(** The first of the chat keys that is set. *)
Fixpoint first_ref (keys : list string) (body : obj) : any :=
  match keys with
  | [] => ANil
  | k :: keys' =>
      match mget body k with
      | None | Some ANil => first_ref keys' body
      | Some (AStr s) => if (s =? "")%string then first_ref keys' body else AStr s
      | Some v => v
      end
  end.

(** [strings.TrimLeft(s, "-")]. *)
Fixpoint trim_dashes (s : string) : string :=
  match s with String c s' => if (c =? "-")%char then trim_dashes s' else s | EmptyString => s end.

Definition isAllDigits (s : string) : bool := all_digits s.

Definition extractChatRef (body : obj) : option Z :=
  match first_ref chatKeys body with
  | AFloat f => Some (f2i f)
  | AInt64 n => Some n
  | AInt n => Some n
  | AStr s =>
      let numeric := trim_dashes s in
      if negb (numeric =? "")%string && isAllDigits numeric then parse_int64 s else None
  | _ => None
  end.

Definition isReadMethod (method : string) : bool :=
  smem (to_lower method)
    ["answer_callback_query"; "answer_inline_query"; "get_updates"; "getupdates"; "get_me"; "get_chat"; "resolve_username"].

Definition noteLastFloodWait (now : Z) (info : FloodInfo) (chatRef : option Z) (s : Session) : Session :=
  let m := [("type", AStr (MTGuard.Type_ info)); ("wait", AInt (Wait info)); ("at", AFloat (secs now))] in
  on_stats (put_flood (Some (match chatRef with Some c => mset m "chat_id" (AInt64 c) | None => m end))) s.

(** The body as an object; [inl] is the refusal. *)
Definition parse_body (b : reqbody) : response + obj :=
  if too_large b then inl (failed 413 "request body exceeds the gateway limit") else
  match braw b with
  | None => inr []
  | Some t => match json_unmarshal t with Some m => inr m | None => inl (failed 400 "invalid JSON body") end
  end.

(** One turn of the admission loop: the clock readings of its guard calls, what
    other goroutines do during the sleep, and whether the request ends. *)
Record tick := {
  t_try : Q; t_try_born : Q; t_wait : Q; t_wait_born : Q; t_others : Manager → Manager; t_done : bool
}.

(** One turn of a long poll: the reading of the remaining time, what others do
    during the wait, whether the request ends, the statement faults of the next
    pull. *)
Record wake := { w_mono : Q; w_others : Manager → Manager; w_done : bool; w_faults : faults }.

Record app_env := {
  check_at : Z; check_store_at : Z; check_faults : faults;
  ticks : list tick;
  dispatch_others : Manager → Manager;
  flood_mono : Q; flood_born : Q; flood_at : Z;
  settle_at : Z; settle_faults : faults; done_at : Z; sent_at : Z;
  poll_mono : Q; wakes : list wake; ack_faults : faults; pull_faults : faults;
  corrupt : string → string;
  stats_wall : Q; stats_mono : Q;
  born : Q; entropy : Z; admin_at : Z; admin_faults : nat → faults; restore_faults : nat → nat → faults;
  reg_error : string; clear_faults : faults;
  probe : nat → option string; probe_others : Manager → Manager; beat_now : Z; quote : string → string; consumer_id : string; ws_at : Z
}.

Definition upd_guard (g : MTGuard) (s : Session) : Session := put_guard g s.

Definition too_many (retry : Q) : response :=
  writeJSON 429 [("ok", ABool false); ("error_code", AInt 429);
    ("description", AStr ("Too Many Requests: retry after " +:+ itoa (f2i retry)));
    ("parameters", AMap [("retry_after", AInt (f2i retry))])].

Definition replay_answer : response :=
  writeJSON 200 [("ok", ABool true); ("result", ANil); ("idempotent_replay", ABool true);
    ("description", AStr "duplicate send suppressed (idempotency key already seen)")].

Inductive admission := Granted | Refused (r : response) | Cancelled.

(** The rate-guard loop of [dispatchProxy]; [None]: the script ended while the
    request was still waiting. *)
Fixpoint admission_loop (onLimit : string) (timeout : Q) (i : nat) (method : string) (chatRef : option Z) (waited : Q)
    (ks : list tick) (mg : Manager) : option (admission * Q * Manager) :=
  match ks with
  | [] => None
  | k :: ks' =>
      match objs mg !! i with
      | None => None
      | Some s =>
          let '(ok, g) := TryAcquire (t_try k) (t_try_born k) method chatRef (guard s) in
          let s := upd_guard g s in
          if ok then Some (Granted, waited, set_obj i s mg) else
          let '(w, g) := WaitTime (t_wait k) (t_wait_born k) method chatRef (guard s) in
          let s := upd_guard g s in
          if (onLimit =? "reject")%string || qlt timeout waited then
            let retry := if qlt w 1 then 1%Q else if qlt 60 w then 60%Q else w in
            Some (Refused (too_many retry), waited, set_obj i (noteSynthetic429 s) mg)
          else
            let wait := if qlt 2 w then 2%Q else w in
            let mg := t_others k (set_obj i s mg) in
            if t_done k then Some (Cancelled, waited, mg)
            else admission_loop onLimit timeout i method chatRef (waited + wait)%Q ks' mg
      end
  end.

(** A nil [Client]: every call panics, which the flag records. *)
Definition nil_client : Client bool := {|
  Me c := (Err "", true);
  SendMessage p c := (Err "", true);
  EditMessageText p c := (Err "", true);
  EditMessageReplyMarkup p c := (Err "", true);
  SendChatAction chat s c := (Err "", true);
  DeleteMessages chat ids r c := (Err "", true);
  ForwardMessages p c := (Err "", true);
  SendMediaGroup chat l b c := (Err "", true);
  GetChat chat c := (Err "", true);
  ResolveUsername u c := (Err "", true);
  AnswerCallbackQuery i t s u n c := (Err "", true);
  DownloadMedia f c := (Err "", true);
  UploadMedia k n d c := (Err "", true)
|}.

Definition unsupported (method : string) (supported : list string) : response :=
  failed 501 ("unsupported method (not in the adapter allowlist): " +:+ method +:+ "; supported: " +:+
              String.concat ", " supported).

(** What the answer of the method does: the key is finished or released, the
    guard learns, the response is written. *)
Definition settle (e : app_env) (i : nat) (alias idemKey : string) (chatRef : option Z) (r : result any) (mg : Manager)
    : response * Manager :=
  match r with
  | Err msg =>
      let mg := if (idemKey =? "")%string then mg
                else set_st mg (MTStore.IdempotencyFail (settle_faults e) alias idemKey (st mg)) in
      match ParseFloodWait msg with
      | Some info =>
          match objs mg !! i with
          | None => (failed 500 "", mg)
          | Some s =>
              let s := noteRealFloodWait s in
              let '(ad, g) := ReportFloodWait (flood_mono e) (flood_born e) msg chatRef (guard s) in
              let '(aw, g) := match ad with Some _ => AdaptiveWait ad chatRef g | None => (0, g) end in
              let retry := if 0 <? aw then aw else Wait info in
              let s := noteLastFloodWait (flood_at e) info chatRef (upd_guard g s) in
              (writeJSON 429 [("ok", ABool false); ("error_code", AInt 429);
                 ("description", AStr ("FLOOD_WAIT: retry after " +:+ itoa retry));
                 ("parameters", AMap [("retry_after", AInt retry)])], set_obj i s mg)
          end
      | None => (failed 500 (stake 200 msg), mg)
      end
  | Ok v =>
      let mg := if (idemKey =? "")%string then mg
                else upd_obj i (NoteIdempotencyDone (done_at e) idemKey)
                       (set_st mg (MTStore.IdempotencyFinish (settle_at e) (settle_faults e) alias idemKey (st mg))) in
      let mg := match chatRef with
                | Some c => upd_obj i (λ s, upd_guard (ClearPeerBackoff c (guard s)) s) mg
                | None => mg end in
      (writeJSON 200 [("ok", ABool true); ("result", v)], upd_obj i (NoteFirstSend (sent_at e)) mg)
  end.

Record App (C : Type) := {
  Mgr : Manager; Boot : Health.BootTracker.t; boots : Health.BootTracker.history; SafeMode : bool; beat_last : Z;
  world : C
}.
Arguments Mgr {C}. Arguments Boot {C}. Arguments boots {C}. Arguments SafeMode {C}. Arguments beat_last {C}. Arguments world {C}.

Definition set_mgr {C} (mg : Manager) (a : App C) : App C :=
  {| Mgr := mg; Boot := Boot a; boots := boots a; SafeMode := SafeMode a; beat_last := beat_last a; world := world a |}.

Definition set_world {C} (c : C) (a : App C) : App C :=
  {| Mgr := Mgr a; Boot := Boot a; boots := boots a; SafeMode := SafeMode a; beat_last := beat_last a; world := c |}.

Definition set_safe {C} (b : bool) (h : Health.BootTracker.history) (a : App C) : App C :=
  {| Mgr := Mgr a; Boot := Boot a; boots := h; SafeMode := b; beat_last := beat_last a; world := world a |}.

Definition exit_lane (i : nat) (mg : Manager) : Manager := upd_obj i (λ s, upd_guard (ExitPaidLane (guard s)) s) mg.

Section with_client.
Context {C : Type} (client_of : nat → Client C).

(** The admitted call: dispatch to the session's client (a nil one when the
    session stopped being live meanwhile) and settle. *)
Definition run_method (e : app_env) (i : nat) (alias method idemKey : string) (body : obj) (chatRef : option Z)
    (mg : Manager) (c : C) : outcome * Manager * C :=
  match objs mg !! i ≫= LiveClient with
  | Some _ =>
      match Dispatch (client := client_of i) (corrupt e) method body c with
      | None => (Reply (unsupported method (SupportedMethods (client := client_of i) (corrupt e))), mg, c)
      | Some (r, c) =>
          let '(resp, mg) := settle e i alias idemKey chatRef r (dispatch_others e mg) in (Reply resp, mg, c)
      end
  | None =>
      match Dispatch (client := nil_client) (corrupt e) method body false with
      | None => (Reply (unsupported method (SupportedMethods (client := nil_client) (corrupt e))), mg, c)
      | Some (_, true) => (Panicked, mg, c)
      | Some (r, false) => let '(resp, mg) := settle e i alias idemKey chatRef r mg in (Reply resp, mg, c)
      end
  end.

(** From the paid lane on. *)
Definition paid_stage (e : app_env) (i : nat) (alias method idemKey : string) (body : obj) (chatRef : option Z)
    (mg : Manager) (c : C) : option (outcome * Manager * C) :=
  let paidRequested := match mget1 body "allow_paid_broadcast" with ABool b => b | _ => false end in
  let mg := upd_obj i (λ s, upd_guard (EnterPaidLane paidRequested (guard s)) s) mg in
  let paidEnabled := match objs mg !! i with Some s => PaidEnabled (faq (guard s)) | None => false end in
  if paidRequested && negb paidEnabled
  then Some (Reply (failed 403 "paid broadcast requires gateway opt-in"), exit_lane i mg, c)
  else
    match admission_loop (OnLimit (MPolicy (cfg mg))) (QueueWaitTimeout (MPolicy (cfg mg))) i method chatRef 0 (ticks e) mg with
    | None => None
    | Some (Refused r, _, mg) => Some (Reply r, exit_lane i mg, c)
    | Some (Cancelled, _, mg) => Some (Dropped, exit_lane i mg, c)
    | Some (Granted, _, mg) =>
        let '(o, mg, c) := run_method e i alias method idemKey body chatRef mg c in Some (o, exit_lane i mg, c)
    end.

Definition dispatchProxy (e : app_env) (r : request) (i : nat) (method : string) (mg : Manager) (c : C)
    : option (outcome * Manager * C) :=
  match objs mg !! i with
  | None => None
  | Some s =>
      match LiveClient s with
      | None =>
          Some (Reply (writeJSON 503 [("ok", ABool false); ("error_code", AInt 503);
            ("description", AStr ("session state: " +:+ state_text (state s))); ("retry_in", AInt 3)]), mg, c)
      | Some _ =>
          match parse_body (r_body r) with
          | inl resp => Some (Reply resp, mg, c)
          | inr body =>
              let chatRef := extractChatRef body in
              let idemKey := match mget1 body "_idempotency_key" with AStr k => k | _ => "" end in
              let body := match mget1 body "_idempotency_key" with AStr _ => mdel body "_idempotency_key" | _ => body end in
              let '(verdict, mg) :=
                if (idemKey =? "")%string then ("", mg)
                else CheckIdempotency (check_at e) (check_store_at e) (check_faults e) idemKey i mg in
              if (verdict =? "replay")%string then Some (Reply replay_answer, mg, c)
              else if SendPausedNow s && negb (isReadMethod method)
              then Some (Reply (failed 423 "sending is paused for this session (E4)"), mg, c)
              else paid_stage e i (Alias s) method idemKey body chatRef mg c
          end
      end
  end.
End with_client.

(** ** Pulling updates *)

Definition maxSeq (updates : list obj) : Z :=
  fold_left (λ n u, match anyToInt64 (mget1 u "_gw_seq") with Some v => if n <? v then v else n | None => n end) updates 0.

(** Up to [limit] buffered updates. *)
Definition drainUpdateCh (limit_ : Z) (s : Session) : list obj * Session :=
  let n := Z.to_nat limit_ in (take n (updateCh s), put_ch (drop n (updateCh s)) s).

Definition updates_answer (l : list obj) : response := writeJSON 200 [("ok", ABool true); ("result", AList (map AMap l))].

(** The answer that joins the stored fragments. *)
Definition writeRawSplice (raws : list (Z * json_text)) : response := {| code_ := 200; pay := PSplice (map snd raws) |}.

(** Offset mode; [None]: the script ended while the request was still waiting. *)
Fixpoint poll_offset (alias : string) (after : Z) (limit_ : Z) (deadline : Q) (f : faults) (ws : list wake) (mg : Manager)
    : option (outcome * Manager) :=
  match MTStore.QueuePullRaw f alias after limit_ (st mg) with
  | x :: l => Some (Reply (writeRawSplice (x :: l)), mg)
  | [] =>
      match ws with
      | [] => None
      | w :: ws' =>
          if qle (deadline - w_mono w)%Q 0 then Some (Reply (updates_answer []), mg)
          else if w_done w then Some (Dropped, w_others w mg)
          else poll_offset alias after limit_ deadline (w_faults w) ws' (w_others w mg)
      end
  end.

Definition ack (f : faults) (alias : string) (n : Z) (mg : Manager) : Manager :=
  set_st mg (default (st mg) (MTStore.QueueAck f alias n (st mg))).

(** Legacy long poll. *)
Fixpoint poll_legacy (i : nat) (alias : string) (limit_ : Z) (deadline : Q) (f : faults) (ws : list wake) (mg : Manager)
    : option (outcome * Manager) :=
  match objs mg !! i with
  | None => None
  | Some s =>
      let '(updates, s) := drainUpdateCh limit_ s in
      match updates with
      | _ :: _ => Some (Reply (updates_answer updates), ack f alias (maxSeq updates) (set_obj i s mg))
      | [] =>
          match ws with
          | [] => None
          | w :: ws' =>
              if qle (deadline - w_mono w)%Q 0 then Some (Reply (updates_answer []), mg)
              else if w_done w then Some (Dropped, w_others w mg)
              else poll_legacy i alias limit_ deadline f ws' (w_others w mg)
          end
      end
  end.

Definition handleGetUpdates (e : app_env) (r : request) (alias : string) (mg : Manager) : option (outcome * Manager) :=
  if negb (bearerOK (r_auth r) (MAppSecret (cfg mg))) then Some (Reply (fail 401), mg) else
  match Get alias mg with
  | None => Some (Reply (fail 404), mg)
  | Some (i, s) =>
      let body := default [] (braw (r_body r) ≫= json_unmarshal) in
      let timeout := default 0%Q (anyToFloat (mget1 body "timeout")) in
      let timeout := if qlt 50 timeout then 50%Q else timeout in
      let limit_ := match anyToInt64 (mget1 body "limit") with Some v => if 0 <? v then v else 100 | None => 100 end in
      match anyToInt64 (mget1 body "offset") with
      | Some off =>
          let after := wrap64 (off - 1) in
          poll_offset (Alias s) after limit_ (poll_mono e + timeout)%Q (pull_faults e) (wakes e)
            (ack (ack_faults e) (Alias s) after mg)
      | None =>
          if Qeq_bool timeout 0 then
            let '(updates, s') := drainUpdateCh limit_ s in
            Some (Reply (updates_answer updates), ack (ack_faults e) (Alias s) (maxSeq updates) (set_obj i s' mg))
          else poll_legacy i (Alias s) limit_ (poll_mono e + timeout)%Q (ack_faults e) (wakes e) mg
      end
  end.

(** ** WebSocket consumers *)

(** The consumer's write channel. *)
Record chan := { buf : list any; closed : bool }.

Definition new_chan : chan := {| buf := []; closed := false |}.

(** A non-blocking send: whether it was taken; [None] is the panic of sending
    on a closed channel. *)
Definition trySend (data : any) (ch : chan) : option (bool * chan) :=
  if closed ch then None
  else if (length (buf ch) <? 64)%nat then Some (true, {| buf := buf ch ++ [data]; closed := false |})
  else Some (false, ch).

(** The frames the handler writes before it serves. *)
Definition handleWSUpdates (e : app_env) (r : request) (alias : string) (mg : Manager)
    : (list obj * option Z) * Manager :=
  match Get alias mg with
  | None => (([[("ok", ABool false); ("error", AStr "unknown session")]], Some 4404), mg)
  | Some (i, s) =>
      if negb (bearerOK (r_auth r) (MAppSecret (cfg mg)))
      then (([[("ok", ABool false); ("error", AStr "unauthorized")]], Some 4401), mg)
      else
        let c := {| c_id := consumer_id e; c_open := true; c_connected_at := ws_at e; c_last_seen := ws_at e |} in
        (([[("ok", ABool true); ("consumer_id", AStr (consumer_id e)); ("session", AStr alias);
            ("state", AStr (state_text (state s)))]], None),
         set_obj i (AddConsumer c s) mg)
  end.

(** A frame from the consumer: pings are answered if the buffer has room. *)
Definition ws_frame (t : json_text) (ch : chan) : chan :=
  match json_unmarshal t with
  | Some m =>
      match mget1 m "type" with
      | AStr "ping" => match trySend (AMap [("type", AStr "pong")]) ch with Some (_, ch) => ch | None => ch end
      | _ => ch
      end
  | None => ch
  end.

(** The reader's end: deregister, then close the channel. *)
Definition ws_close (id : string) (i : nat) (ch : chan) (mg : Manager) : chan * Manager :=
  ({| buf := buf ch; closed := true |}, upd_obj i (RemoveConsumer id) mg).

(** ** Session health, files *)

Definition handleSessionHealth (e : app_env) (r : request) (alias : string) (mg : Manager) : outcome * Manager :=
  if negb (bearerOK (r_auth r) (MAppSecret (cfg mg))) then (Reply (fail 401), mg) else
  match Get alias mg with
  | None => (Reply (fail 404), mg)
  | Some (i, s) =>
      let '(rate, g) := Snapshot (stats_mono e) (guard s) in
      (Reply (writeJSON 200 (mset (fold_left (λ m kv, mset m kv.1 kv.2) (Stats (stats_wall e) (stats_mono e) s)
                                     [("ok", ABool true)]) "rate" (AMap rate))),
       set_obj i (upd_guard g s) mg)
  end.

Definition handleDownloadFile {C} (client_of : nat → Client C) (r : request) (alias file : string) (mg : Manager) (c : C)
    : outcome * C :=
  if negb (bearerOK (r_auth r) (MAppSecret (cfg mg))) then (Reply (fail 401), c) else
  match Get alias mg with
  | None => (Reply (fail 404), c)
  | Some (i, s) =>
      match LiveClient s with
      | None => (Reply (fail 404), c)
      | Some _ =>
          match DownloadMedia (Client := client_of i) file c with
          | (Err msg, c) => (Reply (failed 500 (stake 200 msg)), c)
          | (Ok None, c) => (Reply (failed 404 "media not found"), c)
          | (Ok (Some data), c) => (Reply {| code_ := 200; pay := PBytes data |}, c)
          end
      end
  end.

(** ** Admin handlers *)

(** An em dash. *)
Definition dash : string := String (chr 226) (String (chr 128) (String (chr 148) "")).

Definition last4 (s : string) : string := if (String.length s <=? 4)%nat then s else sdrop (String.length s - 4) s.

Definition audit (e : app_env) (action alias detail : string) (mg : Manager) : Manager :=
  set_st mg (MTStore.Audit (admin_at e) (admin_faults e 9%nat) action alias detail (st mg)).

(** Decoding a struct field: keys match case-insensitively, the last one
    counts, null leaves the zero value; [None] is a type error. *)
Fixpoint str_field (name : string) (m : obj) (acc : string) : option string :=
  match m with
  | [] => Some acc
  | (k, v) :: m' =>
      if (to_lower k =? name)%string then
        match v with AStr s => str_field name m' s | ANil => str_field name m' acc | _ => None end
      else str_field name m' acc
  end.

Fixpoint bool_field (name : string) (m : obj) (acc : bool) : bool :=
  match m with
  | [] => acc
  | (k, v) :: m' =>
      bool_field name m' (if (to_lower k =? name)%string then match v with ABool b => b | _ => acc end else acc)
  end.

Definition register_body (b : reqbody) : option (string * string) :=
  match braw b ≫= json_unmarshal with
  | Some m =>
      match str_field "alias" m "", str_field "token" m "" with
      | Some a, Some t => if (a =? "")%string || (t =? "")%string then None else Some (a, t)
      | _, _ => None
      end
  | None => None
  end.

Definition admin_ok (r : request) (mg : Manager) : bool := bearerOK (r_auth r) (MAdminSecret (cfg mg)).

Definition adminRegister `{Fernet} (e : app_env) (b : Box) (r : request) (mg : Manager) : outcome * Manager :=
  if negb (admin_ok r mg) then (Reply (fail 401), mg) else
  match register_body (r_body r) with
  | None => (Reply (failed 400 "alias and token required"), mg)
  | Some (alias, token) =>
      match Register (born e) b (entropy e) (admin_at e) (admin_faults e 0%nat) (admin_faults e 1%nat) alias token mg with
      | None => (Panicked, mg)
      | Some (None, mg) => (Reply (failed 500 (reg_error e)), mg)
      | Some (Some i, mg) =>
          let mg := audit e "register" alias ("token=" +:+ GatewayStore.ellipsis +:+ last4 token) mg in
          (Reply (writeJSON 200 [("ok", ABool true); ("alias", AStr alias);
             ("state", AStr (match objs mg !! i with Some s => state_text (state s) | None => "" end))]), mg)
      end
  end.

Definition sorted_sessions (mg : Manager) : list (string * Session) :=
  omap (λ a, match Get a mg with Some (_, s) => Some (a, s) | None => None end)
    (Health.Storage.sortStrings (map fst (map_to_list (sessions mg)))).

Definition adminStatus (e : app_env) (r : request) (mg : Manager) : outcome :=
  if negb (admin_ok r mg) then Reply (fail 401) else
  Reply (writeJSON 200 [("ok", ABool true);
    ("sessions", AList (map (λ kv, AMap (Stats (stats_wall e) (stats_mono e) kv.2)) (sorted_sessions mg)))]).

Definition lifecycle (e : app_env) (action alias : string) (mg : Manager) : bool * Manager :=
  if (action =? "pause")%string then Pause (admin_faults e 0%nat) alias mg
  else if (action =? "resume")%string then Resume (admin_faults e 0%nat) alias mg
  else if (action =? "drain")%string then Drain alias mg
  else if (action =? "pause_sending")%string then PauseSending alias mg
  else if (action =? "resume_sending")%string then ResumeSending alias mg
  else (false, mg).

Definition adminLifecycle (e : app_env) (action : string) (r : request) (alias : string) (mg : Manager) : outcome * Manager :=
  if negb (admin_ok r mg) then (Reply (fail 401), mg) else
  let '(ok, mg) := lifecycle e action alias mg in
  (Reply (writeJSON 200 [("ok", ABool ok)]), if ok then audit e action alias "" mg else mg).

Definition adminRestart (e : app_env) (r : request) (alias : string) (mg : Manager) : outcome * Manager :=
  if negb (admin_ok r mg) then (Reply (fail 401), mg) else
  match Get alias mg with
  | None => (Reply (fail 404), mg)
  | Some (_, s) =>
      if IsTerminal s
      then (Reply (failed 409 ("session quarantined (terminal error) " +:+ dash +:+ " unregister and re-register instead")), mg)
      else
        let '(ok, mg) := Restart alias mg in
        (Reply (writeJSON 200 [("ok", ABool ok)]), if ok then audit e "restart" alias "" mg else mg)
  end.

Definition adminSafeModeAck `{Fernet} {C} (e : app_env) (b : Box) (r : request) (a : App C) : outcome * App C :=
  if negb (admin_ok r (Mgr a)) then (Reply (fail 401), a) else
  let a := set_safe false (Health.BootTracker.Clear (boots a)) a in
  match RestoreAll (λ k, admin_at e + Z.of_nat k) (admin_faults e 0%nat) (restore_faults e) b (Mgr a) with
  | None => (Panicked, a)
  | Some (n, mg) =>
      (Reply (writeJSON 200 [("ok", ABool true); ("safe_mode", ABool false); ("restored", AInt n)]),
       set_mgr (audit e "safe_mode_ack" "global" ("restored=" +:+ itoa n) mg) a)
  end.

Definition dead_json (d : MTStore.DeadLetterRow) : any :=
  AMap [("id", AInt64 (MTStore.ID d)); ("payload", AStr (MTStore.Payload d)); ("reason", AStr (MTStore.Reason d));
        ("at", AFloat (MTStore.At d))].

Definition adminListDeadLetters (e : app_env) (r : request) (alias : string) (mg : Manager) : outcome :=
  if negb (admin_ok r mg) then Reply (fail 401) else
  match Get alias mg with
  | None => Reply (fail 404)
  | Some _ =>
      Reply (writeJSON 200 [("ok", ABool true);
        ("dead_letters", AList (map dead_json (MTStore.ListDeadLetters (admin_faults e 0%nat) alias 200 (st mg))))])
  end.

Definition adminClearDeadLetters (e : app_env) (r : request) (alias : string) (mg : Manager) : outcome * Manager :=
  if negb (admin_ok r mg) then (Reply (fail 401), mg) else
  let '(n, d) := MTStore.ClearDeadLetters (clear_faults e) alias (st mg) in
  (Reply (writeJSON 200 [("ok", ABool true); ("cleared", AInt n)]),
   audit e "deadletters_clear" alias ("count=" +:+ itoa n) (set_st mg d)).

Definition adminDelete (e : app_env) (r : request) (alias : string) (mg : Manager) : outcome * Manager :=
  if negb (admin_ok r mg) then (Reply (fail 401), mg) else
  match Unregister (admin_faults e 0%nat) alias mg with
  | None => (Panicked, mg)
  | Some (true, mg) => (Reply (writeJSON 200 [("ok", ABool true)]), audit e "delete" alias "" mg)
  | Some (false, mg) => (Reply (writeJSON 200 [("ok", ABool false)]), mg)
  end.

Definition set_paid (b : bool) (g : MTGuard) : MTGuard := set_faq g (set_paid_enabled (faq g) b).

Definition adminSetPaid (e : app_env) (r : request) (alias : string) (mg : Manager) : outcome * Manager :=
  if negb (admin_ok r mg) then (Reply (fail 401), mg) else
  match Get alias mg with
  | None => (Reply (fail 404), mg)
  | Some (i, s) =>
      let enabled := bool_field "enabled" (default [] (braw (r_body r) ≫= json_unmarshal)) false in
      (Reply (writeJSON 200 [("ok", ABool true); ("paid_broadcasts", ABool enabled)]),
       audit e "set_paid" (Alias s) ("enabled=" +:+ (if enabled then "true" else "false"))
         (set_obj i (upd_guard (set_paid enabled (guard s)) s) mg))
  end.

Definition audit_json (a : GatewayStore.audit_row) : any :=
  AMap [("ts", AInt (GatewayStore.a_ts a)); ("action", AStr (GatewayStore.a_action a));
        ("alias", AStr (GatewayStore.a_alias a)); ("detail", AStr (GatewayStore.a_detail a))].

Definition adminAudit (e : app_env) (r : request) (mg : Manager) : outcome :=
  if negb (admin_ok r mg) then Reply (fail 401) else
  Reply (writeJSON 200 [("ok", ABool true);
    ("entries", AList (map audit_json (MTStore.GetAudit (admin_faults e 0%nat) 100 (st mg))))]).

(** ** Probes and metrics *)

Definition version : string := "0.1.0-dev".

Definition round2 (f : Q) : Q := (inject_Z (f2i (f * 100 + (1 # 2))) / 100)%Q.

Definition b2i (b : bool) : Z := if b then 1 else 0.

Definition handleHealthz (e : app_env) (last : Z) : outcome :=
  Reply (writeJSON 200 [("ok", ABool (Health.Beat.Alive last (beat_now e))); ("version", AStr version);
    ("loop_lag_s", AFloat (round2 (Health.Beat.Lag last (beat_now e))))]).

(** The answer once the write probe has passed. *)
Definition readiness (safe : bool) (mg : Manager) : outcome :=
  if negb (Health.Storage.Degraded (h mg) =? "")%string
  then Reply (writeJSON 503 [("ok", ABool false); ("storage", AMap (Health.Storage.Snapshot (h mg)))])
  else if safe
  then Reply (writeJSON 503 [("ok", ABool false); ("safe_mode", ABool true);
         ("description", AStr ("crash-loop safe mode " +:+ dash +:+ " ack via POST /v1/admin/safe-mode/ack"))])
  else
    let states := map (λ kv, (kv.1, AStr (state_text (state kv.2)))) (sorted_sessions mg) in
    let live := length (bfilter (λ kv, bool_decide (state kv.2 = StateLive)) (sorted_sessions mg)) in
    Reply (writeJSON 200 [("ok", ABool true); ("sessions", AMap states); ("live", AInt (Z.of_nat live))]).

(** [probe n] is the error of the n-th statement of the write probe.  The
    store has one connection, so what other goroutines write between BEGIN and
    ROLLBACK ([probe_others]) is part of the transaction that is rolled back. *)
Definition handleReadyz (e : app_env) (safe : bool) (mg : Manager) : outcome * Manager :=
  match probe e 0%nat with
  | Some err => (Reply (writeJSON 503 [("ok", ABool false); ("error", AStr err)]), mg)
  | None =>
      let mg' := probe_others e mg in
      match probe e 1%nat with
      | Some err => (Reply (writeJSON 503 [("ok", ABool false); ("error", AStr err)]), mg')
      | None => let mg := set_st mg' (st mg) in (readiness safe mg, mg)
      end
  end.

Definition session_samples (e : app_env) (kv : string * Session) : list sample :=
  let labels := "alias=" +:+ quote e kv.1 in
  let s := kv.2 in
  let c := stats s in
  let sam name v := {| m_name := name; m_labels := labels; m_value := v |} in
  let age_ := if qlt 0 (ConnectedSince c) then f2i (stats_wall e - ConnectedSince c)%Q else 0 in
  [sam "tg_gateway_session_state" (inject_Z (b2i (bool_decide (state s = StateLive))));
   sam "tg_gateway_session_connection_age_seconds" (inject_Z age_);
   sam "tg_gateway_update_queue_depth" (inject_Z (Z.of_nat (length (updateCh s))));
   sam "tg_gateway_real_flood_wait_total" (inject_Z (RealFloodWait c));
   sam "tg_gateway_synthetic_429_total" (inject_Z (Synthetic429 c));
   sam "tg_gateway_consumers" (inject_Z (Z.of_nat (length (consumers s))));
   sam "tg_gateway_send_paused" (inject_Z (b2i (SendPaused s)));
   sam "tg_gateway_session_reconnects_total" (inject_Z (reconnects c));
   sam "tg_gateway_session_start_attempts_total" (inject_Z (startAttempts c));
   sam "tg_gateway_session_terminal" (inject_Z (b2i (terminalError s)));
   sam "tg_gateway_idempotency_claims_total" (inject_Z (IdempotencyClaims c));
   sam "tg_gateway_persist_failures_total" (inject_Z (PersistFailures c))]
  ++ (let slo := deployToFirstMessageSLocked s in
      if qlt 0 slo then [sam "tg_gateway_deploy_to_first_message_seconds" slo] else [])
  ++ (if qlt 0 (LastUpdateAt c) then [sam "tg_gateway_seconds_since_last_update" (stats_wall e - LastUpdateAt c)%Q] else [])
  ++ (if qlt 0 (LastPingOKAt c) then [sam "tg_gateway_seconds_since_ping_ok" (stats_mono e - LastPingOKAt c)%Q] else []).

(** [reclaims] is the lock package's process-wide counter. *)
Definition handleMetrics (e : app_env) (reclaims : Z) (last : Z) (mg : Manager) : outcome :=
  if negb (MetricsEnabled (cfg mg)) then Reply {| code_ := 404; pay := PNone |} else
  let sam name v := {| m_name := name; m_labels := "plane=" +:+ quote e "mt"; m_value := v |} in
  Reply {| code_ := 200; pay := PMetrics (concat (map (session_samples e) (sorted_sessions mg)) ++
    [sam "tg_gateway_persist_failures_total" (inject_Z (Health.Storage.PersistFailures (h mg)));
     sam "tg_gateway_corrupt_rows_total" (inject_Z (Health.Storage.CorruptRows (h mg)));
     sam "tg_gateway_quarantined_files_total" (inject_Z (Health.Storage.QuarantinedFiles (h mg)));
     sam "tg_gateway_storage_degraded" (inject_Z (b2i (negb (Health.Storage.Degraded (h mg) =? "")%string)));
     sam "tg_gateway_lock_reclaims_total" (inject_Z reclaims);
     sam "tg_gateway_loop_lag_seconds" (round2 (Health.Beat.Lag last (beat_now e)))]) |}.

(** ** Routing *)

Inductive handler :=
| HGetUpdates | HProxyMethod | HProxyByToken | HWSUpdates | HSessionHealth | HDownloadFile | HHealthz | HReadyz
| HRegister | HStatus | HLifecycle (action : string) | HRestart | HSafeModeAck | HListDeadLetters | HClearDeadLetters
| HDelete | HSetPaid | HAudit | HMetrics | HPprof.

Definition publicRoutes : list (route handler) :=
  [("POST", [Lit "v1"; Lit "sessions"; Wild; Lit "getUpdates"], HGetUpdates);
   ("POST", [Lit "v1"; Lit "sessions"; Wild; Wild], HProxyMethod);
   ("POST", [Lit "v1"; Lit "token"; Rest], HProxyByToken);
   ("GET", [Lit "v1"; Lit "sessions"; Wild; Lit "updates"], HWSUpdates);
   ("GET", [Lit "v1"; Lit "sessions"; Wild; Lit "health"], HSessionHealth);
   ("GET", [Lit "v1"; Lit "sessions"; Wild; Lit "files"; Wild], HDownloadFile);
   ("GET", [Lit "healthz"], HHealthz);
   ("GET", [Lit "readyz"], HReadyz)].

Definition mountPprof (on : bool) : list (route handler) :=
  if on then [("GET", [Lit "debug"; Lit "pprof"; Rest], HPprof)] else [].

Definition session_action (verb action : string) (hd : handler) : route handler :=
  (verb, [Lit "v1"; Lit "admin"; Lit "sessions"; Wild; Lit action], hd).

Definition adminRoutes (pprof : bool) : list (route handler) :=
  mountPprof pprof ++
  [("POST", [Lit "v1"; Lit "admin"; Lit "sessions"], HRegister);
   ("GET", [Lit "v1"; Lit "admin"; Lit "status"], HStatus);
   session_action "POST" "pause" (HLifecycle "pause");
   session_action "POST" "resume" (HLifecycle "resume");
   session_action "POST" "drain" (HLifecycle "drain");
   session_action "POST" "restart" HRestart;
   ("POST", [Lit "v1"; Lit "admin"; Lit "safe-mode"; Lit "ack"], HSafeModeAck);
   session_action "GET" "deadletters" HListDeadLetters;
   session_action "DELETE" "deadletters" HClearDeadLetters;
   ("DELETE", [Lit "v1"; Lit "admin"; Lit "sessions"; Wild], HDelete);
   session_action "POST" "pause_sending" (HLifecycle "pause_sending");
   session_action "POST" "resume_sending" (HLifecycle "resume_sending");
   session_action "POST" "paid" HSetPaid;
   ("GET", [Lit "v1"; Lit "admin"; Lit "audit"], HAudit);
   ("GET", [Lit "metrics"], HMetrics)].

(** What a listener serves: with GW_ADMIN_PORT the operator surface has its own. *)
Definition listener_routes (c : MTProto) (admin : bool) : list (route handler) :=
  if 0 <? MAdminPort c then (if admin then adminRoutes (MPprof c) else publicRoutes)
  else publicRoutes ++ adminRoutes (MPprof c).

Definition arg (n : nat) (vals : list string) : string := default "" (vals !! n).

Section server.
Context {C : Type} (client_of : nat → Client C) `{Fernet}.

Definition handleProxyMethod (e : app_env) (r : request) (alias method : string) (a : App C) : option (outcome * App C) :=
  if negb (bearerOK (r_auth r) (MAppSecret (cfg (Mgr a)))) then Some (Reply (fail 401), a) else
  match Get alias (Mgr a) with
  | None => Some (Reply (failed 404 ("unknown session: " +:+ alias)), a)
  | Some (i, _) =>
      match dispatchProxy client_of e r i method (Mgr a) (world a) with
      | None => None
      | Some (o, mg, c) => Some (o, set_world c (set_mgr mg a))
      end
  end.

Definition handleProxyByToken (e : app_env) (r : request) (a : App C) : option (outcome * App C) :=
  if negb (bearerOK (r_auth r) (MAppSecret (cfg (Mgr a)))) then Some (Reply (fail 401), a) else
  match splitBotTokenPath (r_url r) "/v1/token" with
  | None => Some (Reply (fail 404), a)
  | Some (token, method) =>
      match FindByToken token (Mgr a) with
      | None => Some (Reply (failed 404 "unknown bot token"), a)
      | Some i =>
          match dispatchProxy client_of e r i method (Mgr a) (world a) with
          | None => None
          | Some (o, mg, c) => Some (o, set_world c (set_mgr mg a))
          end
      end
  end.

(** The frames of a WebSocket handler as a response: 101, or the close code. *)
Definition ws_outcome (x : (list obj * option Z)) : outcome :=
  Reply {| code_ := default 101 x.2; pay := PSplice (map (λ o, JText (AMap o)) x.1) |}.

Definition on_mgr (a : App C) (x : outcome * Manager) : option (outcome * App C) := Some (x.1, set_mgr x.2 a).

Definition run_handler (e : app_env) (b : Box) (reclaims : Z) (hd : handler) (vals : list string) (r : request) (a : App C)
    : option (outcome * App C) :=
  let alias := arg 0 vals in
  match hd with
  | HGetUpdates =>
      match handleGetUpdates e r alias (Mgr a) with Some x => on_mgr a x | None => None end
  | HProxyMethod => handleProxyMethod e r alias (arg 1 vals) a
  | HProxyByToken => handleProxyByToken e r a
  | HWSUpdates => let '(x, mg) := handleWSUpdates e r alias (Mgr a) in on_mgr a (ws_outcome x, mg)
  | HSessionHealth => on_mgr a (handleSessionHealth e r alias (Mgr a))
  | HDownloadFile =>
      let '(o, c) := handleDownloadFile client_of r alias (arg 1 vals) (Mgr a) (world a) in Some (o, set_world c a)
  | HHealthz => Some (handleHealthz e (beat_last a), a)
  | HReadyz => on_mgr a (handleReadyz e (SafeMode a) (Mgr a))
  | HRegister => on_mgr a (adminRegister e b r (Mgr a))
  | HStatus => Some (adminStatus e r (Mgr a), a)
  | HLifecycle action => on_mgr a (adminLifecycle e action r alias (Mgr a))
  | HRestart => on_mgr a (adminRestart e r alias (Mgr a))
  | HSafeModeAck => Some (adminSafeModeAck e b r a)
  | HListDeadLetters => Some (adminListDeadLetters e r alias (Mgr a), a)
  | HClearDeadLetters => on_mgr a (adminClearDeadLetters e r alias (Mgr a))
  | HDelete => on_mgr a (adminDelete e r alias (Mgr a))
  | HSetPaid => on_mgr a (adminSetPaid e r alias (Mgr a))
  | HAudit => Some (adminAudit e r (Mgr a), a)
  | HMetrics => Some (handleMetrics e reclaims (beat_last a) (Mgr a), a)
  | HPprof =>
      Some (Reply (if admin_ok r (Mgr a) then {| code_ := 200; pay := PNone |} else fail 401), a)
  end.

(** One request on a listener. *)
Definition serve (e : app_env) (b : Box) (reclaims : Z) (admin : bool) (r : request) (a : App C) : option (outcome * App C) :=
  match lookup_route (r_method r) (r_path r) (listener_routes (cfg (Mgr a)) admin) with
  | Found hd vals => run_handler e b reclaims hd vals r a
  | Redirect => Some (Reply {| code_ := 301; pay := PNone |}, a)
  | NoMethod => Some (Reply {| code_ := 405; pay := PNone |}, a)
  | NoPath => Some (Reply {| code_ := 404; pay := PNone |}, a)
  end.

(** ** Boot and housekeeping *)

(** [wr]: the boot history can be written. *)
Definition buildLifecycle (clk : nat → Z) (boot_at : Z) (wr : bool) (f : faults) (fs : nat → nat → faults) (b : Box)
    (skipRestore : bool) (a : App C) : option (App C) :=
  let '(safe, _, hist) := Health.BootTracker.RecordBoot (Boot a) boot_at wr (boots a) in
  let a := set_safe safe hist a in
  if safe || skipRestore then Some a
  else match RestoreAll clk f fs b (Mgr a) with Some (_, mg) => Some (set_mgr mg a) | None => None end.
End server.

(** A session's share of the pass: the channel, then the stored rows. *)
Definition prune_one (now : Z) (f : nat → faults) (ttl : Q) (mg : Manager) (kv : string * nat) : Manager :=
  match objs mg !! kv.2 with
  | Some s =>
      let '(_, s') := PruneExpiredUpdates now ttl s in
      let mg := set_obj kv.2 s' mg in
      set_st mg (MTStore.QueueTTLCleanup (f (S kv.2)) (Alias s) (secs now - ttl)%Q (st mg)).2
  | None => mg
  end.

(** One tick of the housekeeping loop. *)
Definition housekeeping (now : Z) (f : nat → faults) (state_of : nat → MTStore.MTState) (mg : Manager) : Manager :=
  let mg := PersistStates f state_of mg in
  let mg := set_st mg (MTStore.IdempotencyCleanup now (f 0%nat) (st mg)) in
  fold_left (prune_one now f (UpdateTTLS (MPolicy (cfg mg)))) (map_to_list (sessions mg)) mg.

(** Graceful shutdown, as far as the manager is concerned. *)
Definition Close (f : nat → faults) (state_of : nat → MTStore.MTState) (mg : Manager) : Manager :=
  Shutdown (PersistStates f state_of mg).

(** ** Who may do what *)

Definition is_admin (hd : handler) : bool :=
  match hd with
  | HRegister | HStatus | HLifecycle _ | HRestart | HSafeModeAck | HListDeadLetters | HClearDeadLetters | HDelete
  | HSetPaid | HAudit | HPprof => true
  | _ => false
  end.

(** The handlers without a secret. *)
Definition is_probe (hd : handler) : bool := match hd with HHealthz | HReadyz | HMetrics => true | _ => false end.

Definition authorised (hd : handler) (r : request) (c : MTProto) : bool :=
  is_probe hd || bearerOK (r_auth r) (if is_admin hd then MAdminSecret c else MAppSecret c).

Lemma set_mgr_id {C} (a : App C) : set_mgr (Mgr a) a = a.
Proof. by destruct a. Qed.

Lemma set_world_id {C} (a : App C) : set_world (world a) a = a.
Proof. by destruct a. Qed.

(** The answers to an unauthorised request: 401, or the two ways a socket is
    closed. *)
Definition turned_away (o : outcome) : Prop :=
  ∃ p, o = Reply {| code_ := 401; pay := p |} ∨ o = Reply {| code_ := 4401; pay := p |} ∨ o = Reply {| code_ := 4404; pay := p |}.

Lemma public_not_admin v ps hd : (v, ps, hd) ∈ publicRoutes → is_admin hd = false ∧ hd ≠ HMetrics.
Proof. unfold publicRoutes. rewrite !elem_of_cons, elem_of_nil. naive_solver. Qed.

(** C9. Nothing happens without the secret: on either listener a request whose
    bearer is not the secret of the handler it reaches is turned away and
    leaves sessions, store, boot history and Telegram untouched; only the three
    probes answer without one; and with a separate admin port the public
    listener reaches no operator handler and no metrics at all, whatever the
    bearer. *)
Theorem secrets_gate_every_handler {C} (client_of : nat → Client C) `{Fernet} e b reclaims admin r a hd vals :
  lookup_route (r_method r) (r_path r) (listener_routes (cfg (Mgr a)) admin) = Found hd vals →
  (authorised hd r (cfg (Mgr a)) = false →
   ∃ o, serve client_of e b reclaims admin r a = Some (o, a) ∧ turned_away o) ∧
  (0 < MAdminPort (cfg (Mgr a)) → admin = false → is_admin hd = false ∧ hd ≠ HMetrics).
Proof.
  intros Hr. split.
  - intros Ha. unfold serve. rewrite Hr. apply orb_false_iff in Ha as [Hp Ha].
    destruct hd; try done; simpl in *;
      unfold handleGetUpdates, handleProxyMethod, handleProxyByToken, handleWSUpdates, handleSessionHealth, handleDownloadFile,
        adminRegister, adminStatus, adminLifecycle, adminRestart, adminSafeModeAck, adminListDeadLetters,
        adminClearDeadLetters, adminDelete, adminSetPaid, adminAudit, admin_ok, on_mgr; rewrite ?Ha; simpl;
      rewrite ?set_mgr_id, ?set_world_id; try (eexists; split; [done|]; eexists; by left).
    destruct (Get _ _) as [[i s]|]; simpl; rewrite set_mgr_id; eexists; (split; [done|]); eexists; auto.
  - intros Hport ->. unfold listener_routes in Hr. rewrite (proj2 (Z.ltb_lt _ _) Hport) in Hr.
    apply lookup_route_found in Hr as (v & ps & Hin & _). by eapply public_not_admin.
Qed.

(** A passing write probe puts the store back to where it began, whatever other
    requests wrote to it between BEGIN and ROLLBACK. *)
Lemma mt_probe_rolls_back e safe mg :
  probe e 0%nat = None → probe e 1%nat = None → st (handleReadyz e safe mg).2 = st mg.
Proof. intros H0 H1. unfold handleReadyz. by rewrite H0, H1. Qed.

(** ** The rate guard's chat and the message's chat *)

Lemma take_digits_all s : all_digits s = true → take_digits s = (s, "").
Proof.
  induction s as [|c s IH]; simpl; [done|]. intros [Hc Hs]%andb_true_iff. by rewrite Hc, IH.
Qed.

Lemma digit_not_blank c : is_digit c = true → is_blank c = false ∧ (code c =? 10) = false ∧ c ≠ "-"%char ∧ c ≠ "+"%char.
Proof. destruct c as [[] [] [] [] [] [] [] []]; by vm_compute. Qed.

Lemma parse_nat_digits s n : parse_nat s = Some n → all_digits s = true.
Proof. destruct s as [|c s]; [done|]. apply parse_digits_all. Qed.

(** A number in the guard's sense is read alike by the adapters. *)
Lemma scan_number s z :
  negb (trim_dashes s =? "")%string && isAllDigits (trim_dashes s) = true → parse_int64 s = Some z → sscanf_d s = Some z.
Proof.
  unfold isAllDigits. intros Hd Hp. destruct s as [|c s]; [done|]. unfold sscanf_d, scan_d.
  destruct (decide (c = "-"%char)) as [->|Hm].
  - revert Hp. unfold parse_int64. destruct (parse_nat s) as [n|] eqn:En; [|done]. simpl.
    destruct (in_int64 (- n)) eqn:Ei; [|done]. intros [= <-].
    rewrite (take_digits_all s) by (by eapply parse_nat_digits). by rewrite En, Ei.
  - simpl in Hd. rewrite (proj2 (Ascii.eqb_neq c "-"%char) Hm) in Hd. simpl in Hd.
    apply andb_true_iff in Hd as [Hc Hs]. destruct (digit_not_blank c Hc) as (B1 & B2 & _ & B4).
    cbn [skip_space]. rewrite B2, B1.
    assert (parse_int64 (String c s) = match parse_nat (String c s) with
      | Some z => if in_int64 z then Some z else None | None => None end) as E
      by (unfold parse_int64; destruct c as [[] [] [] [] [] [] [] []]; done).
    assert (match String c s with String "-" s' => (true, s') | String "+" s' => (false, s') | _ => (false, String c s) end
      = (false, String c s)) as -> by (destruct c as [[] [] [] [] [] [] [] []]; done).
    rewrite E in Hp. rewrite take_digits_all by (simpl; by rewrite Hc, Hs).
    destruct (parse_nat (String c s)); [|done]. by destruct (in_int64 _).
Qed.

Lemma chat_ref_target body z : extractChatRef body = Some z → argInt body chatKeys = Some z.
Proof.
  unfold extractChatRef, chatKeys. generalize ["chat_id"; "chat_username"; "chat"]. intros keys.
  induction keys as [|k keys IH]; simpl; [done|].
  destruct (mget body k) as [[| | | | | |s| | |]|]; try done; try apply IH.
  destruct (String.eqb_spec s "") as [->|Hs]; [apply IH|].
  destruct (_ && _) eqn:E; [|done]. intros Hp. by rewrite (scan_number s z).
Qed.


(** A chat id the guard cannot read but the adapters can is sent unpaced: here
    a user name beside a numeric chat, and a number with a unit. *)
Lemma guard_scope_bypassed :
  extractChatRef [("chat_id", AStr "@news"); ("chat", AFloat 5)] = None ∧
  argInt [("chat_id", AStr "@news"); ("chat", AFloat 5)] chatKeys = Some 5 ∧
  extractChatRef [("chat_id", AStr "42x")] = None ∧ argInt [("chat_id", AStr "42x")] chatKeys = Some 42.
Proof. done. Qed.

(** ** getUpdates *)

(** Nothing else happens during the wait. *)
Definition calm (w : wake) : Prop := (∀ m, w_others w m = m) ∧ w_faults w = no_faults.

(** The pull a getUpdates request asks for. *)
Definition pull_limit (body : obj) : Z :=
  match anyToInt64 (mget1 body "limit") with Some v => if 0 <? v then v else 100 | None => 100 end.

Definition body_of (r : request) : obj := default [] (braw (r_body r) ≫= json_unmarshal).

Lemma poll_offset_calm alias after lim deadline ws mg o mg' :
  Forall calm ws → poll_offset alias after lim deadline no_faults ws mg = Some (o, mg') →
  mg' = mg ∧ (MTStore.QueuePullRaw no_faults alias after lim (st mg) ≠ [] →
    o = Reply (writeRawSplice (MTStore.QueuePullRaw no_faults alias after lim (st mg)))).
Proof.
  induction ws as [|w ws IH]; intros Hc; simpl.
  - destruct (MTStore.QueuePullRaw _ _ _ _ _); [done|]. by intros [= <- <-].
  - apply Forall_cons in Hc as [[Hw Hf] Hc]. destruct (MTStore.QueuePullRaw _ _ _ _ _) eqn:E; [|by intros [= <- <-]].
    rewrite Hw, Hf. destruct (qle _ _); [by intros [= <- <-]|]. destruct (w_done w); [by intros [= <- <-]|].
    intros H. destruct (IH Hc H) as [-> _]. done.
Qed.

Lemma ack_pull f alias n mg o lim :
  n <= o → MTStore.QueuePullRaw no_faults alias o lim (st (ack f alias n mg)) = MTStore.QueuePullRaw no_faults alias o lim (st mg).
Proof.
  intros Hn. unfold ack. simpl. destruct (MTStore.QueueAck f alias n (st mg)) as [d|] eqn:E; simpl; [|done].
  rewrite (proj1 (MTStore.ack_offset _ _ _ _ _ o lim E)). by rewrite Z.max_l by lia.
Qed.

Lemma ack_gone alias n mg row :
  row ∈ MTStore.update_queue (st (ack no_faults alias n mg)) → MTStore.q_alias row = alias → n < MTStore.q_uid row.
Proof.
  unfold ack. simpl. intros [_ Hr]%elem_of_delete <-. rewrite String.eqb_refl in Hr. simpl in Hr. lia.
Qed.

(** Updates are redelivered until acknowledged: a getUpdates call with an
    offset answers the stored updates from the offset on, in order, up to the
    limit, and leaves every one of them in the store; what lies below the
    offset is removed by the same call and nothing else is. *)
Theorem mt_redelivers_until_acked e r alias mg i s off o mg' :
  bearerOK (r_auth r) (MAppSecret (cfg mg)) = true → Get alias mg = Some (i, s) →
  anyToInt64 (mget1 (body_of r) "offset") = Some off → int64_min < off <= int64_max →
  Forall calm (wakes e) → pull_faults e = no_faults →
  handleGetUpdates e r alias mg = Some (o, mg') →
  let pending lim m := MTStore.QueuePullRaw no_faults (Alias s) (off - 1) lim (st m) in
  (pending (pull_limit (body_of r)) mg ≠ [] → o = Reply (writeRawSplice (pending (pull_limit (body_of r)) mg))) ∧
  (∀ lim, pending lim mg' = pending lim mg) ∧
  (∀ a x lim, a ≠ Alias s →
     MTStore.QueuePullRaw no_faults a x lim (st mg') = MTStore.QueuePullRaw no_faults a x lim (st mg)) ∧
  (ack_faults e = no_faults → ∀ row, row ∈ MTStore.update_queue (st mg') → MTStore.q_alias row = Alias s →
     off <= MTStore.q_uid row).
Proof.
  intros Ha HG Ho Hr Hc Hf. unfold handleGetUpdates. rewrite Ha, HG. fold (body_of r). rewrite Ho, Hf.
  rewrite (wrap64_id (off - 1)) by (unfold in_int64, int64_min, int64_max in *; lia). cbn zeta. fold (pull_limit (body_of r)).
  intros H. destruct (poll_offset_calm _ _ _ _ _ _ _ _ Hc H) as [-> Hp]. rewrite ack_pull in Hp by lia.
  split; [exact Hp|]. split; [intros lim; by apply ack_pull|]. split.
  - intros a x lim Hne. unfold ack. simpl. destruct (MTStore.QueueAck _ _ _ _) as [d|] eqn:E; simpl; [|done].
    by apply (proj2 (MTStore.ack_offset _ _ _ _ _ x lim E)).
  - intros -> row Hrow Hra. pose proof (ack_gone _ _ _ _ Hrow Hra). lia.
Qed.

(** The long polls end: at the deadline or when the client leaves. *)
Definition ends (deadline : Q) (w : wake) : Prop := (deadline <= w_mono w)%Q ∨ w_done w = true.

Lemma poll_offset_ends alias after lim deadline f ws mg :
  Exists (ends deadline) ws → is_Some (poll_offset alias after lim deadline f ws mg).
Proof.
  revert f mg. induction ws as [|w ws IH]; intros f mg Hx; [by apply Exists_nil in Hx|]. simpl.
  destruct (MTStore.QueuePullRaw _ _ _ _ _); [|by eexists]. destruct (qle _ _) eqn:E; [by eexists|].
  destruct (w_done w) eqn:Ed; [by eexists|]. apply IH. apply Exists_cons in Hx as [[Hx|Hx]|Hx]; [|congruence|done].
  rewrite qle_true in E by lra. done.
Qed.

Lemma poll_legacy_ends i alias lim deadline f ws mg :
  is_Some (objs mg !! i) → Forall (λ w, ∀ m, is_Some (objs m !! i) → is_Some (objs (w_others w m) !! i)) ws →
  Exists (ends deadline) ws → is_Some (poll_legacy i alias lim deadline f ws mg).
Proof.
  revert mg. induction ws as [|w ws IH]; intros mg [s Hs] Hk Hx; [by apply Exists_nil in Hx|]. simpl. rewrite Hs.
  destruct (take (Z.to_nat lim) (updateCh s)) as [|u us]; [|by eexists]. destruct (qle _ _) eqn:E; [by eexists|].
  destruct (w_done w) eqn:Ed; [by eexists|]. apply Forall_cons in Hk as [Hw Hk].
  apply IH; [by apply Hw|done|]. apply Exists_cons in Hx as [[Hx|Hx]|Hx]; [|congruence|done].
  rewrite qle_true in E by lra. done.
Qed.

Lemma get_updates_ends e r alias mg :
  (∀ i s, Get alias mg = Some (i, s) →
     Forall (λ w, ∀ m, is_Some (objs m !! i) → is_Some (objs (w_others w m) !! i)) (wakes e)) →
  Exists (ends (poll_mono e + 50)) (wakes e) → is_Some (handleGetUpdates e r alias mg).
Proof.
  intros Hk Hx. unfold handleGetUpdates. destruct (negb _); [by eexists|]. destruct (Get alias mg) as [[i s]|] eqn:HG; [|by eexists].
  cbn zeta. set (t := if qlt 50 _ then 50%Q else _).
  assert (t <= 50)%Q as Ht by (unfold t; match goal with |- context [qlt 50 ?x] => destruct (qltP 50 x) end; lra).
  assert (Exists (ends (poll_mono e + t)) (wakes e)) as Hx'.
  { eapply Exists_impl; [exact Hx|]. intros w [Hw|Hw]; [left; lra|by right]. }
  destruct (anyToInt64 _); [by apply poll_offset_ends|]. destruct (Qeq_bool _ _); [by eexists|].
  apply poll_legacy_ends; [|by eapply Hk|done]. apply Get_obj in HG as [_ Ho]. by exists s.
Qed.

(** C23. Every getUpdates call returns: in either mode, once the clock passes the
    deadline of at most 50 seconds or the client leaves, whatever other
    goroutines do meanwhile. *)
Theorem mt_get_updates_returns e r alias mg :
  (∀ i s, Get alias mg = Some (i, s) →
     Forall (λ w, ∀ m, is_Some (objs m !! i) → is_Some (objs (w_others w m) !! i)) (wakes e)) →
  Exists (ends (poll_mono e + 50)) (wakes e) → is_Some (handleGetUpdates e r alias mg).
Proof. apply get_updates_ends. Qed.

(** The legacy mode acknowledges what it never delivered: a call without an
    offset answers what the bounded channel holds and then deletes every stored
    update up to the highest sequence number it answered, including those the
    channel had dropped. *)
Theorem legacy_ack_deletes_undelivered e r alias mg i s row :
  bearerOK (r_auth r) (MAppSecret (cfg mg)) = true → Get alias mg = Some (i, s) →
  anyToInt64 (mget1 (body_of r) "offset") = None → anyToFloat (mget1 (body_of r) "timeout") = None →
  ack_faults e = no_faults →
  let updates := take (Z.to_nat (pull_limit (body_of r))) (updateCh s) in
  row ∈ MTStore.update_queue (st mg) → MTStore.q_alias row = Alias s → MTStore.q_uid row <= maxSeq updates →
  (∀ u, u ∈ updates → anyToInt64 (mget1 u "_gw_seq") ≠ Some (MTStore.q_uid row)) →
  ∃ mg', handleGetUpdates e r alias mg = Some (Reply (updates_answer updates), mg') ∧
    row ∉ MTStore.update_queue (st mg').
Proof.
  intros Ha HG Ho Ht Hf updates Hrow Hra Hle _. unfold handleGetUpdates. rewrite Ha, HG. fold (body_of r). rewrite Ho, Ht.
  cbn [default negb Qeq_bool qlt]. fold (pull_limit (body_of r)). simpl. fold updates. eexists. split; [done|].
  unfold ack. simpl. rewrite Hf. intros [_ Hd]%elem_of_delete. rewrite Hra, String.eqb_refl in Hd. simpl in Hd. lia.
Qed.

(** ** Housekeeping *)

(** What one session's share of the pass does to the rows of [alias]. *)
Lemma ttl_keeps f alias cutoff (d : MTStore.mt) row :
  row ∈ MTStore.update_queue (MTStore.QueueTTLCleanup f alias cutoff d).2 → row ∈ MTStore.update_queue d.
Proof. unfold MTStore.QueueTTLCleanup. destruct (f 0%nat); simpl; [done|]. by intros [? _]%elem_of_delete. Qed.

Lemma prune_one_obj now f ttl mg kv i s :
  (ttl <= 0)%Q → objs mg !! i = Some s → objs (prune_one now f ttl mg kv) !! i = Some s.
Proof.
  intros Ht Ho. unfold prune_one. destruct (objs mg !! kv.2) as [t|] eqn:E; [|done].
  unfold PruneExpiredUpdates. rewrite qle_true by done. simpl. rewrite lookup_insert_Some.
  destruct (decide (kv.2 = i)) as [<-|]; [left|right]; split; congruence.
Qed.

Lemma prune_one_rows now f ttl mg kv row :
  row ∈ MTStore.update_queue (st (prune_one now f ttl mg kv)) → row ∈ MTStore.update_queue (st mg).
Proof.
  unfold prune_one. destruct (objs mg !! kv.2) as [t|]; [|done]. destruct (PruneExpiredUpdates now ttl t). apply ttl_keeps.
Qed.

Lemma prune_all_rows now f ttl l mg row :
  row ∈ MTStore.update_queue (st (fold_left (prune_one now f ttl) l mg)) → row ∈ MTStore.update_queue (st mg).
Proof. revert mg. induction l as [|kv l IH]; intros mg; simpl; [done|]. intros H. by apply IH, prune_one_rows in H. Qed.

Lemma persist_objs f state_of mg : objs (PersistStates f state_of mg) = objs mg ∧ sessions (PersistStates f state_of mg) = sessions mg
  ∧ cfg (PersistStates f state_of mg) = cfg mg.
Proof.
  unfold PersistStates. generalize (map_to_list (sessions mg)). intros l. revert mg.
  induction l as [|kv l IH]; intros mg; simpl; [done|].
  match goal with |- context [fold_left _ l ?m1] => destruct (IH m1) as (-> & -> & ->) end. destruct (objs mg !! kv.2) as [s|]; [|done]. by destruct (_ && _).
Qed.

(** A zero TTL empties the durable queue: with GW_UPDATE_TTL_S at zero or
    below, which switches expiry off for the in-memory channel, every
    housekeeping pass deletes all of a session's stored updates older than the
    tick itself, acknowledged or not, and leaves the channel as it is. *)
Theorem zero_ttl_purges_store now f state_of mg alias i s row :
  (UpdateTTLS (MPolicy (cfg mg)) <= 0)%Q → sessions mg !! alias = Some i → objs mg !! i = Some s →
  f (S i) 0%nat = false →
  let mg' := housekeeping now f state_of mg in
  objs mg' !! i = Some s ∧
  (row ∈ MTStore.update_queue (st mg') → MTStore.q_alias row = Alias s → (secs now <= MTStore.q_at row)%Q).
Proof.
  intros Ht Hs Ho Hf. cbn zeta. unfold housekeeping. destruct (persist_objs f state_of mg) as (E1 & E2 & E3).
  set (m0 := set_st _ _). assert (objs m0 = objs mg ∧ sessions m0 = sessions mg ∧ cfg m0 = cfg mg) as (F1 & F2 & F3) by done.
  rewrite F3. set (ttl := UpdateTTLS (MPolicy (cfg mg))) in *. rewrite F2.
  assert ((alias, i) ∈ map_to_list (sessions mg)) as Hin by (by apply elem_of_map_to_list).
  assert (objs m0 !! i = Some s) as Ho0 by (by rewrite F1). clearbody m0. clear E1 E2 E3 F1 F2 F3 Ho Hs.
  revert m0 Ho0. induction (map_to_list (sessions mg)) as [|kv l IH]; intros m0 Ho0; [by apply elem_of_nil in Hin|].
  simpl. pose proof (prune_one_obj now f ttl m0 kv i s Ht Ho0) as Ho1.
  apply elem_of_cons in Hin as [<-|Hin]; [|by apply IH]. split.
  - clear IH Ho0. revert Ho1. generalize (prune_one now f ttl m0 (alias, i)). clear m0.
    induction l as [|kv l IHl]; intros m0 Ho1; simpl; [done|]. apply IHl. by apply prune_one_obj.
  - intros Hrow Hra. apply prune_all_rows in Hrow. unfold prune_one in Hrow. simpl in Hrow. rewrite Ho0 in Hrow.
    unfold PruneExpiredUpdates in Hrow. rewrite qle_true in Hrow by done. simpl in Hrow.
    unfold MTStore.QueueTTLCleanup in Hrow. rewrite Hf in Hrow. simpl in Hrow. apply elem_of_delete in Hrow as [_ Hd].
    rewrite Hra, String.eqb_refl in Hd. simpl in Hd.
    destruct (qltP (MTStore.q_at row) (secs now - ttl)); [done|]. lra.
Qed.

(** ** Races *)

(** A send to a consumer that [pushUpdate] listed before the socket closed: the
    deregistration comes too late and the send panics. *)
Lemma push_races_close show jerr now at_ f i s u mg c ch payload :
  objs mg !! i = Some s → c ∈ consumers s → c_open c = true →
  json_marshal (stamped (secs now) (wrap64 (nextSeq s + 1)) u) = Some payload →
  (c_id c, payload) ∈ (pushUpdate show jerr now at_ f i u mg).1 ∧
  trySend (AMap u) (ws_close (c_id c) i ch mg).1 = None.
Proof.
  intros Ho Hc Hopen Hj. split; [|done]. unfold pushUpdate. rewrite Ho, Hj. simpl. apply list_elem_of_omap.
  exists c. by rewrite Hopen.
Qed.

(** The session stopped being live while the request waited for the guard. *)
Lemma nil_client_panics {C} (client_of : nat → Client C) e i alias k chatRef mg c body chat :
  objs mg !! i ≫= LiveClient = None → argInt body chatKeys = Some chat →
  run_method client_of e i alias "send_message" k body chatRef mg c = (Panicked, mg, c).
Proof.
  intros Hl Hc. unfold run_method. rewrite Hl.
  assert (Dispatch (client := nil_client) (corrupt e) "send_message" body false
    = Some (adaptSendMessage (client := nil_client) body false)) as -> by reflexivity.
  unfold adaptSendMessage. by rewrite Hc.
Qed.

(** ** Idempotency of proxied sends *)

Definition ok_answer (v : any) : response := writeJSON 200 [("ok", ABool true); ("result", v)].

(** The session remembers the key as finished at [t]. *)
Definition cached (i : nat) (k : string) (t : Q) (mg : Manager) : Prop :=
  ∃ s, objs mg !! i = Some s ∧ seenIdemKeys s !! k = Some t.

Lemma cached_upd i k t f mg : cached i k t mg → (∀ s, seenIdemKeys (f s) = seenIdemKeys s) → cached i k t (upd_obj i f mg).
Proof.
  intros (s & Ho & Hk) Hf. unfold upd_obj. rewrite Ho. exists (f s). simpl. rewrite lookup_insert_eq, Hf. done.
Qed.

Lemma settle_ok_cached e i alias k chatRef v mg resp mg' :
  k ≠ "" → is_Some (objs mg !! i) → settle e i alias k chatRef (Ok v) mg = (resp, mg') →
  cached i k (secs (done_at e)) mg'.
Proof.
  intros Hk [s Hs]. unfold settle. rewrite (proj2 (String.eqb_neq k "") Hk). intros [= _ <-].
  apply cached_upd; [|intros t; unfold NoteFirstSend; by destruct (_ && _)].
  assert (cached i k (secs (done_at e)) (upd_obj i (NoteIdempotencyDone (done_at e) k)
    (set_st mg (MTStore.IdempotencyFinish (settle_at e) (settle_faults e) alias k (st mg))))) as Hc.
  { unfold upd_obj. simpl. rewrite Hs. eexists. simpl. rewrite lookup_insert_eq. split; [done|]. simpl. apply lookup_insert_eq. }
  destruct chatRef; [|done]. by apply cached_upd.
Qed.

Lemma settle_err_answer e i alias k chatRef msg mg resp mg' v :
  settle e i alias k chatRef (Err msg) mg = (resp, mg') → resp ≠ ok_answer v.
Proof.
  unfold settle. destruct (ParseFloodWait msg); [|by intros [= <- _]].
  destruct (objs _ !! i); [|by intros [= <- _]].
  destruct (ReportFloodWait _ _ _ _ _) as [ad g]. destruct (match ad with Some _ => _ | None => _ end). by intros [= <- _].
Qed.

Lemma granted_present onLimit timeout i m c w ks mg w' mg' :
  admission_loop onLimit timeout i m c w ks mg = Some (Granted, w', mg') → is_Some (objs mg' !! i).
Proof.
  revert w mg. induction ks as [|k ks IH]; intros w mg; simpl; [done|].
  destruct (objs mg !! i) as [s|]; [|done]. destruct (TryAcquire _ _ _ _ _) as [[] g].
  - intros [= _ <-]. simpl. rewrite lookup_insert_eq. by eexists.
  - destruct (WaitTime _ _ _ _ _) as [w0 g0]. destruct (_ || _); [done|]. destruct (t_done k); [done|]. apply IH.
Qed.

Lemma refused_answer onLimit timeout i m c w ks mg r w' mg' v :
  admission_loop onLimit timeout i m c w ks mg = Some (Refused r, w', mg') → r ≠ ok_answer v.
Proof.
  revert w mg. induction ks as [|k ks IH]; intros w mg; simpl; [done|].
  destruct (objs mg !! i) as [s|]; [|done]. destruct (TryAcquire _ _ _ _ _) as [[] g]; [done|].
  destruct (WaitTime _ _ _ _ _) as [w0 g0]. destruct (_ || _); [by intros [= <- _ _]|]. destruct (t_done k); [done|]. apply IH.
Qed.

Lemma paid_stage_cached {C} (client_of : nat → Client C) e i alias method k body chatRef mg c v mg' c' :
  k ≠ "" → (∀ m, is_Some (objs m !! i) → is_Some (objs (dispatch_others e m) !! i)) →
  paid_stage client_of e i alias method k body chatRef mg c = Some (Reply (ok_answer v), mg', c') →
  cached i k (secs (done_at e)) mg'.
Proof.
  intros Hk Hd. unfold paid_stage. cbn zeta. destruct (_ && _); [done|].
  destruct (admission_loop _ _ _ _ _ _ _ _) as [[[[|r|] w] mg1]|] eqn:EA; [| | |done].
  - pose proof (granted_present _ _ _ _ _ _ _ _ _ _ EA) as Hp. unfold run_method.
    destruct (objs mg1 !! i ≫= LiveClient).
    + destruct (Dispatch _ _ _ _) as [[[x|msg] c1]|]; [| |done].
      * destruct (settle _ _ _ _ _ _ _) as [resp mg2] eqn:ES. intros [= -> <- _]. apply cached_upd; [|done].
        eapply settle_ok_cached; [done| |exact ES]. by apply Hd.
      * destruct (settle _ _ _ _ _ _ _) as [resp mg2] eqn:ES. intros [= -> _ _]. by eapply settle_err_answer in ES.
    + destruct (Dispatch (client := nil_client) _ _ _ _) as [[[x|msg] []]|]; [done| |done| |done].
      * destruct (settle _ _ _ _ _ _ _) as [resp mg2] eqn:ES. intros [= -> <- _]. apply cached_upd; [|done].
        by eapply settle_ok_cached.
      * destruct (settle _ _ _ _ _ _ _) as [resp mg2] eqn:ES. intros [= -> _ _]. by eapply settle_err_answer in ES.
  - intros [= -> _ _]. by eapply refused_answer in EA.
  - done.
Qed.

(** The idempotency key of a request, if it has one. *)
Definition idem_key (r : request) : option string :=
  match parse_body (r_body r) with
  | inr body => match mget1 body "_idempotency_key" with AStr k => if (k =? "")%string then None else Some k | _ => None end
  | inl _ => None
  end.


(** The answers given before anything is sent: paused, paid lane not opened,
    method unknown, or the guard's own refusal. *)
Definition refusal (resp : response) : Prop :=
  code_ resp = 423 ∨ code_ resp = 403 ∨ code_ resp = 501 ∨ ∃ retry, resp = too_many retry.

(** The key's entry in the store. *)
Definition entry_at (a k : string) (mg : Manager) : option entry := entry_view (MTStore.idempotency_keys (st mg)) (a, k).

Lemma upd_obj_st i f mg : st (upd_obj i f mg) = st mg.
Proof. unfold upd_obj. by destruct (objs mg !! i). Qed.

Lemma check_claims now at_ f k i s mg verdict mg' :
  keyed idem_pk (MTStore.idempotency_keys (st mg)) → objs mg !! i = Some s →
  CheckIdempotency now at_ f k i mg = (verdict, mg') → verdict ≠ "replay" →
  entry_at (Alias s) k mg' = Some (Pending, secs at_).
Proof.
  intros Hwf Ho. unfold CheckIdempotency. rewrite Ho. destruct (match seenIdemKeys s !! k with Some _ => _ | None => _ end).
  { by intros [= <- _]. }
  pose proof (@idem_claim_law _ MTStore.mt_idem at_ f (Alias s) k (st mg) Hwf) as (_ & Hv & He). simpl in Hv, He.
  destruct (MTStore.IdempotencyClaim at_ f (Alias s) k (st mg)) as [v d]. simpl in Hv, He. intros [= <- <-] Hne.
  unfold entry_at. simpl. rewrite He, decide_True by done. rewrite Hv in Hne. revert Hne. unfold claim_entry.
  destruct (if f 0%nat then _ else _) as [[x t]|]; [|by destruct (f 1%nat)].
  destruct (negb (f 2%nat)); [|done]. simpl. destruct (bool_decide_reflect (x = Pending)) as [->|]; [|done]. simpl.
  by destruct (qlt _ _).
Qed.

Lemma check_replays now at_ t f k i s mg :
  keyed idem_pk (MTStore.idempotency_keys (st mg)) → objs mg !! i = Some s →
  entry_at (Alias s) k mg = Some (Pending, secs t) → (secs at_ <= secs t + StalePendingS)%Q →
  (CheckIdempotency now at_ f k i mg).1 = "replay".
Proof.
  intros Hwf Ho He Ht. unfold CheckIdempotency. rewrite Ho. destruct (match seenIdemKeys s !! k with Some _ => _ | None => _ end); [done|].
  pose proof (@idem_claim_law _ MTStore.mt_idem at_ f (Alias s) k (st mg) Hwf) as (_ & Hv & _). simpl in Hv.
  destruct (MTStore.IdempotencyClaim at_ f (Alias s) k (st mg)) as [v d]. simpl in *. rewrite Hv.
  unfold entry_at in He. rewrite He. unfold claim_entry, unexpired, StalePendingS, IdempotencyTTL in *.
  rewrite (qlt_false (secs t) (secs at_ - 300)) by lra. destruct (f 0%nat); rewrite qlt_false by lra; by rewrite !andb_false_r.
Qed.

Lemma admission_entry onLimit timeout i m c w ks mg out w' mg' a k :
  Forall (λ t, ∀ m, entry_at a k (t_others t m) = entry_at a k m) ks →
  admission_loop onLimit timeout i m c w ks mg = Some (out, w', mg') → entry_at a k mg' = entry_at a k mg.
Proof.
  revert w mg. induction ks as [|t ks IH]; intros w mg Hk; simpl; [done|]. apply Forall_cons in Hk as [Ht Hk].
  destruct (objs mg !! i) as [s|]; [|done]. destruct (TryAcquire _ _ _ _ _) as [[] g]; [by intros [= _ _ <-]|].
  destruct (WaitTime _ _ _ _ _) as [w0 g0]. destruct (_ || _); [by intros [= _ _ <-]|].
  destruct (t_done t); [intros [= _ _ <-]; by rewrite Ht|]. intros H. rewrite (IH _ _ Hk H), Ht. done.
Qed.

Lemma settle_not_refusal e i alias k chatRef r mg : ¬ refusal (settle e i alias k chatRef r mg).1.
Proof.
  unfold settle, refusal. destruct r as [v|msg]; [intros H; simpl in H; naive_solver|]. destruct (ParseFloodWait msg) as [info|].
  - destruct (objs _ !! i); [|intros H; simpl in H; naive_solver].
    destruct (ReportFloodWait _ _ _ _ _) as [ad g]. destruct (match ad with Some _ => _ | None => _ end).
    intros [H|[H|[H|[x H]]]]; simpl in H; try lia. unfold too_many, writeJSON in H. injection H as H _. discriminate.
  - intros [H|[H|[H|[x H]]]]; simpl in H; try lia. unfold too_many, failed, writeJSON in H. discriminate.
Qed.

Lemma run_not_refused {C} (client_of : nat → Client C) e i alias method k body chatRef mg c resp mg' c' :
  run_method client_of e i alias method k body chatRef mg c = (Reply resp, mg', c') → refusal resp → mg' = mg ∧ c' = c.
Proof.
  unfold run_method. intros H Hr. destruct (objs mg !! i ≫= LiveClient).
  - destruct (Dispatch _ _ _ _) as [[x c1]|]; [|by injection H as _ <- <-].
    pose proof (settle_not_refusal e i alias k chatRef x (dispatch_others e mg)) as Hn.
    destruct (settle _ _ _ _ _ _ _) as [resp' mg2]. injection H as -> _ _. contradiction.
  - destruct (Dispatch (client := nil_client) _ _ _ _) as [[x []]|]; [done| |by injection H as _ <- <-].
    pose proof (settle_not_refusal e i alias k chatRef x mg) as Hn.
    destruct (settle _ _ _ _ _ _ _) as [resp' mg2]. injection H as -> _ _. contradiction.
Qed.

Lemma paid_stage_entry {C} (client_of : nat → Client C) e i alias method k body chatRef mg c resp mg' c' a :
  Forall (λ t, ∀ m, entry_at a k (t_others t m) = entry_at a k m) (ticks e) →
  paid_stage client_of e i alias method k body chatRef mg c = Some (Reply resp, mg', c') → refusal resp →
  c' = c ∧ entry_at a k mg' = entry_at a k mg.
Proof.
  intros Hk. unfold paid_stage. cbn zeta. assert (∀ f m, entry_at a k (upd_obj i f m) = entry_at a k m) as Hu
    by (intros f m; unfold entry_at; by rewrite upd_obj_st).
  unfold exit_lane. destruct (_ && _); [intros [= _ <- <-]; by rewrite !Hu|].
  destruct (admission_loop _ _ _ _ _ _ _ _) as [[[[|r|] w] mg1]|] eqn:EA; [| |done|done];
    pose proof (admission_entry _ _ _ _ _ _ _ _ _ _ _ _ _ Hk EA) as E1; rewrite Hu in E1.
  - destruct (run_method _ _ _ _ _ _ _ _ _ _) as [[o mg2] c2] eqn:ER. intros [= -> <- <-] Hr.
    destruct (run_not_refused _ _ _ _ _ _ _ _ _ _ _ _ _ ER Hr) as [-> ->]. by rewrite Hu.
  - intros [= _ <- <-] _. by rewrite Hu.
Qed.

(** A refused send burns its idempotency key: when a keyed call is turned
    away before anything reaches Telegram (sending paused, paid lane not
    opened, unknown method, or the rate guard's 429 with its retry advice), the
    claim is left behind; any retry with that key in the next 60 seconds is
    answered as a completed replay although the message was never sent. *)
Theorem refused_send_burns_key {C} (client_of : nat → Client C) e r i s method mg c resp mg1 c1 k :
  idem_key r = Some k → objs mg !! i = Some s → is_Some (LiveClient s) →
  keyed idem_pk (MTStore.idempotency_keys (st mg)) →
  Forall (λ t, ∀ m, entry_at (Alias s) k (t_others t m) = entry_at (Alias s) k m) (ticks e) →
  dispatchProxy client_of e r i method mg c = Some (Reply resp, mg1, c1) → refusal resp →
  c1 = c ∧
  ∀ e2 r2 method2 mg2 s2 c2, idem_key r2 = Some k → objs mg2 !! i = Some s2 → is_Some (LiveClient s2) →
    Alias s2 = Alias s → keyed idem_pk (MTStore.idempotency_keys (st mg2)) →
    entry_at (Alias s) k mg2 = entry_at (Alias s) k mg1 →
    (secs (check_store_at e2) <= secs (check_store_at e) + StalePendingS)%Q →
    ∃ mg3, dispatchProxy client_of e2 r2 i method2 mg2 c2 = Some (Reply replay_answer, mg3, c2).
Proof.
  intros Hkey Ho [l Hl] Hwf Hk HD Hr.
  assert (c1 = c ∧ entry_at (Alias s) k mg1 = Some (Pending, secs (check_store_at e))) as [-> He].
  { revert Hkey HD. unfold dispatchProxy, idem_key. rewrite Ho, Hl.
    destruct (parse_body (r_body r)) as [resp'|body]; [done|]. cbn zeta.
    destruct (mget1 body "_idempotency_key") as [| | | | | |k'| | |]; try done.
    destruct (String.eqb_spec k' "") as [->|Hne]; [done|]. intros [= ->].
    destruct (CheckIdempotency _ _ _ _ _ _) as [verdict mg0] eqn:EC. destruct (String.eqb_spec verdict "replay") as [->|Hv].
    { intros [= <- _ _]. exfalso. unfold refusal in Hr. simpl in Hr. destruct Hr as [|[|[|[x Hx]]]]; try lia. discriminate. }
    rewrite <- (check_claims _ _ _ _ _ _ _ _ _ Hwf Ho EC Hv). destruct (_ && _); [by intros [= _ <- <-]|].
    intros HP. by eapply paid_stage_entry. }
  split; [done|]. intros e2 r2 method2 mg2 s2 c2 Hkey2 Ho2 [l2 Hl2] Ha Hwf2 He2 Ht.
  revert Hkey2. unfold dispatchProxy, idem_key. rewrite Ho2, Hl2.
  destruct (parse_body (r_body r2)) as [resp'|body]; [done|]. cbn zeta.
  destruct (mget1 body "_idempotency_key") as [| | | | | |k'| | |]; try done.
  destruct (String.eqb_spec k' "") as [->|Hne]; [done|]. intros [= ->].
  rewrite He in He2. rewrite <- Ha in He2.
  pose proof (check_replays (check_at e2) _ _ (check_faults e2) k i s2 mg2 Hwf2 Ho2 He2 Ht) as Hv.
  destruct (CheckIdempotency _ _ _ _ _ _) as [verdict mg0]. simpl in Hv. rewrite Hv. by eexists.
Qed.

(** ** A run *)

Definition demo_tick : tick := {| t_try := 0; t_try_born := 0; t_wait := 0; t_wait_born := 0; t_others m := m; t_done := false |}.

Definition demo_wake : wake := {| w_mono := 60; w_others m := m; w_done := false; w_faults := no_faults |}.

Definition demo_env (now : Z) : app_env := {|
  check_at := now; check_store_at := now; check_faults := no_faults; ticks := [demo_tick]; dispatch_others m := m;
  flood_mono := 0; flood_born := 0; flood_at := now; settle_at := now; settle_faults := no_faults; done_at := now;
  sent_at := now; poll_mono := 0; wakes := [demo_wake]; ack_faults := no_faults; pull_faults := no_faults;
  corrupt _ := ""; stats_wall := 0; stats_mono := 0; born := 0; entropy := 0; admin_at := now;
  admin_faults _ := no_faults; restore_faults _ _ := no_faults; reg_error := ""; clear_faults := no_faults;
  probe _ := None; probe_others m := m; beat_now := now; quote s := s; consumer_id := "c1"; ws_at := now |}.

Definition demo_req (auth : string) (path : list string) (body : obj) : request := {|
  r_method := "POST"; r_path := path; r_url := ""; r_auth := auth;
  r_body := {| braw := Some (JText (AMap body)); too_large := false |} |}.

Definition demo_answers : answers := {|
  a_me _ := Err ""; a_sent _ := Ok {| sm_id := 7; sm_chat := 5 |}; a_ok _ := Ok true; a_list _ := Ok None; a_chat _ := Err "";
  a_id _ := Err ""; a_bytes _ := Ok "" |}.

Definition demo_clients : nat → Client (list call) := λ _, recorder demo_answers.

Definition keyed_send : request :=
  demo_req "" [] [("chat_id", AFloat 5); ("text", AStr "hi"); ("_idempotency_key", AStr "k1")].

Definition closed_config : MTProto :=
  MTProtoFromEnv (λ v, if (v =? "GW_ADMIN_PORT")%string then Some "9090"
                       else if (v =? "GW_APP_SECRET")%string then Some "app" else None).

Definition closed_app : App (list call) := {|
  Mgr := NewManager closed_config MTStore.mt_empty Health.Storage.NewStorage kern0; Boot := {| Health.BootTracker.Path := "/data/boots.json"; Health.BootTracker.WindowS := 0; Health.BootTracker.MaxBoots := 0 |};
  boots := None; SafeMode := false; beat_last := 0; world := [] |}.

Lemma secrets_gate_every_handler_witness :
  let r := demo_req "Bearer guess" ["v1"; "sessions"; "s1"; "send_message"] [] in
  ∃ o hd, serve demo_clients (demo_env 0) toy_box 0 false r closed_app = Some (o, closed_app) ∧ turned_away o ∧
    is_admin hd = false ∧ hd ≠ HMetrics.
Proof.
  destruct (secrets_gate_every_handler demo_clients (demo_env 0) toy_box 0 false
    (demo_req "Bearer guess" ["v1"; "sessions"; "s1"; "send_message"] []) closed_app HProxyMethod ["s1"; "send_message"])
    as [H1 H2]; [vm_compute; reflexivity|].
  destruct H1 as (o & Ho & Ht); [vm_compute; reflexivity|]. exists o, HProxyMethod.
  split; [exact Ho|]. split; [exact Ht|]. apply H2; vm_compute; reflexivity.
Defined.


(** Two updates pushed to the live session, the first lost from its channel. *)
Definition pushed : Manager :=
  let push := λ m u, (pushUpdate (λ _, "") (λ _, "") 5 6 (λ _, no_faults) 0 u m).2 in
  upd_obj 0 (λ s, put_ch (drop 1 (updateCh s)) s) (fold_left push [upd_demo; upd_demo] live).

Lemma pushed_session :
  match Get "s1" pushed with
  | Some (i, s) => i = 0%nat ∧ Alias s = "s1" ∧ bearerOK "" (MAppSecret (cfg pushed)) = true
  | None => False
  end.
Proof. vm_compute. auto. Qed.

Lemma mt_redelivers_until_acked_witness :
  let r := demo_req "" [] [("offset", AFloat 2)] in
  ∃ o mg', handleGetUpdates (demo_env 9) r "s1" pushed = Some (o, mg') ∧
    length (MTStore.QueuePullRaw no_faults "s1" 1 10 (st mg')) = 1%nat ∧
    (∀ row, row ∈ MTStore.update_queue (st mg') → MTStore.q_alias row = "s1" → 2 <= MTStore.q_uid row).
Proof.
  cbn zeta. pose proof pushed_session as Hs. destruct (Get "s1" pushed) as [[i s]|] eqn:E; [|contradiction].
  destruct Hs as (-> & Ha & Hb).
  destruct (handleGetUpdates (demo_env 9) (demo_req "" [] [("offset", AFloat 2)]) "s1" pushed) as [[o mg']|] eqn:EG;
    [|vm_compute in EG; discriminate].
  destruct (mt_redelivers_until_acked (demo_env 9) (demo_req "" [] [("offset", AFloat 2)]) "s1" pushed 0 s 2 o mg')
    as (_ & H2 & _ & H4); [exact Hb|exact E|vm_compute; reflexivity|unfold int64_min, int64_max; lia| |reflexivity|exact EG|].
  { repeat constructor. }
  exists o, mg'. split; [reflexivity|]. rewrite Ha in *. split; [|exact (H4 eq_refl)].
  change 1 with (2 - 1). rewrite (H2 10). vm_compute. reflexivity.
Defined.

Lemma mt_get_updates_returns_witness :
  is_Some (handleGetUpdates (demo_env 9) (demo_req "" [] [("timeout", AFloat 1000)]) "s1" live).
Proof.
  apply mt_get_updates_returns.
  - intros i s _. apply Forall_singleton. intros m H. exact H.
  - apply Exists_cons. left. left. vm_compute. discriminate.
Defined.

Lemma legacy_ack_deletes_undelivered_witness :
  ∃ row mg', row ∈ MTStore.update_queue (st pushed) ∧
    handleGetUpdates (demo_env 9) (demo_req "" [] []) "s1" pushed = Some (Reply (updates_answer [stamped (secs 5) 2 upd_demo]), mg') ∧
    row ∉ MTStore.update_queue (st mg').
Proof.
  pose proof pushed_session as Hs. destruct (Get "s1" pushed) as [[i s]|] eqn:E; [|contradiction].
  destruct Hs as (-> & Ha & Hb).
  assert (updateCh <$> objs pushed !! 0%nat = Some [stamped (secs 5) 2 upd_demo]) as Hu by (vm_compute; reflexivity).
  pose proof (proj2 (Get_obj _ _ _ _ E)) as Ho. rewrite Ho in Hu. injection Hu as Hu.
  assert ((λ x, (MTStore.q_alias x, MTStore.q_uid x)) <$> head (MTStore.update_queue (st pushed)) = Some ("s1", 1)) as Hq
    by (vm_compute; reflexivity).
  destruct (MTStore.update_queue (st pushed)) as [|row rest] eqn:EQ; [discriminate|]. injection Hq as Hq1 Hq2.
  destruct (legacy_ack_deletes_undelivered (demo_env 9) (demo_req "" [] []) "s1" pushed 0 s row) as (mg' & H1 & H2);
    [exact Hb|exact E|reflexivity|reflexivity|reflexivity|rewrite EQ; left|congruence| | |].
  - rewrite Hu, Hq2. vm_compute. discriminate.
  - rewrite Hu, Hq2. intros u Hin. apply list_elem_of_singleton in Hin as ->. vm_compute. discriminate.
  - exists row, mg'. split; [left|]. rewrite Hu in H1. split; [exact H1|exact H2].
Defined.

Definition pushed_zero_ttl : Manager :=
  {| cfg := MTProtoFromEnv (λ v, if (v =? "GW_UPDATE_TTL_S")%string then Some "0" else None);
     st := st pushed; h := h pushed; kern := kern pushed; objs := objs pushed; sessions := sessions pushed; sups := sups pushed; next := next pushed |}.

Lemma zero_ttl_purges_store_witness :
  MTStore.update_queue (st pushed_zero_ttl) ≠ [] ∧
  ∀ row, row ∈ MTStore.update_queue (st (housekeeping 9 (λ _, no_faults) (λ _, MTStore.state_zero) pushed_zero_ttl)) →
    MTStore.q_alias row = "s1" → (secs 9 <= MTStore.q_at row)%Q.
Proof.
  split; [vm_compute; discriminate|]. intros row Hr Ha.
  assert (match objs pushed_zero_ttl !! 0%nat with Some s => Alias s = "s1" | None => False end) as Hs by (vm_compute; reflexivity).
  destruct (objs pushed_zero_ttl !! 0%nat) as [s|] eqn:E; [|contradiction].
  destruct (zero_ttl_purges_store 9 (λ _, no_faults) (λ _, MTStore.state_zero) pushed_zero_ttl "s1" 0 s row) as [_ H];
    [vm_compute; discriminate|vm_compute; reflexivity|exact E|reflexivity|].
  apply H; [exact Hr|]. rewrite Hs. exact Ha.
Defined.

Definition demo_run (now : Z) (mg : Manager) : option (outcome * Manager * list call) :=
  dispatchProxy demo_clients (demo_env now) keyed_send 0 "send_message" mg [].


Definition paused_live : Manager := (PauseSending "s1" live).2.

Lemma refused_send_burns_key_witness :
  match demo_run 9 paused_live with
  | Some (o, mg1, c1) => c1 = [] ∧ ∃ mg3, demo_run 59000000000 (ResumeSending "s1" mg1).2 = Some (Reply replay_answer, mg3, [])
  | None => False
  end.
Proof.
  assert (match objs paused_live !! 0%nat with Some s => is_Some (LiveClient s) ∧ Alias s = "s1" | None => False end) as Hs
    by (vm_compute; split; [eexists; reflexivity|reflexivity]).
  destruct (objs paused_live !! 0%nat) as [s|] eqn:Ho; [|contradiction]. destruct Hs as [Hl Ha].
  assert (match demo_run 9 paused_live with
    | Some (Reply resp, mg1, _) => code_ resp = 423 ∧
        match objs (ResumeSending "s1" mg1).2 !! 0%nat with Some s => is_Some (LiveClient s) ∧ Alias s = "s1" | None => False end ∧
        entry_at "s1" "k1" (ResumeSending "s1" mg1).2 = entry_at "s1" "k1" mg1 ∧
        length (MTStore.idempotency_keys (st (ResumeSending "s1" mg1).2)) = 1%nat
    | _ => False end) as Hs by (vm_compute; split_ands; [reflexivity|eexists; reflexivity|reflexivity|reflexivity|reflexivity]).
  destruct (demo_run 9 paused_live) as [[[[resp| |] mg1] c1]|] eqn:E; try contradiction.
  destruct Hs as (Hr & Hs2 & He & Hn). destruct (objs (ResumeSending "s1" mg1).2 !! 0%nat) as [s2|] eqn:Ho2; [|contradiction].
  destruct Hs2 as [Hl2 Ha2].
  destruct (refused_send_burns_key demo_clients (demo_env 9) keyed_send 0 s "send_message" paused_live [] resp mg1 c1 "k1")
    as [-> H2]; [reflexivity|exact Ho|exact Hl| |apply Forall_singleton; intros m; reflexivity|exact E|left; exact Hr|].
  { assert (MTStore.idempotency_keys (st paused_live) = []) as -> by (vm_compute; reflexivity). constructor. }
  split; [reflexivity|].
  apply (H2 (demo_env 59000000000) keyed_send "send_message" (ResumeSending "s1" mg1).2 s2);
    [reflexivity|exact Ho2|exact Hl2|congruence| |rewrite Ha; exact He|vm_compute; discriminate].
  destruct (MTStore.idempotency_keys _) as [|x [|]]; try discriminate. unfold keyed. simpl. apply NoDup_singleton.
Defined.
