(* ===== verification/MTRefine.v ===== *)
(** * The MTProto plane as a log of updates

    What a consumer of one MTProto session is promised, independent of session
    objects, the bounded channel, SQLite and supervisors: the number of the
    newest update and the numbered updates that wait.  An arriving update gets
    the next number, a getUpdates call with an offset drops what lies below the
    offset and answers the first of the rest, and a restart of the process
    keeps what waits but restarts the numbering at the newest update that still
    waits.  [mt_plane_refines_log]: the plane built of Manager.pushUpdate, the
    offset mode of handleGetUpdates, and the boot path (Manager.RestoreAll, the
    supervisor's lock, connect, warm-up and backlog replay) implements that log,
    whatever updates and getUpdates calls, in either mode, the other sessions of
    the process have in between.

    The two lemmas at the end are where the code leaves the log: a backlog
    beyond the replay's 5000 rows, and updates that arrive before the replay. *)
From Stdlib Require Import QArith Lqa Ascii String.
From stdpp Require Import base list strings gmap sorting.
From S2P Require Import Prelude GoValue Sql Crypto Config MTGuard MTSession MTApp.
From S2P Require Health Lock MTStore.
Open Scope Z_scope.

(** ** Specification *)

Record mlog := { newest : Z; waiting : list (Z * json_text) }.

(** The document of update [seq]. *)
Definition doc (now seq : Z) (u : obj) : json_text := JText (jnorm (AMap (stamped (secs now) seq u))).

(** What a new process finds: its machine. *)
Record machine := { bt_clk : nat → Z; bt_mono : nat → Q; bt_host : Lock.host; bt_kern : Lock.kernel; bt_wall : Z }.

Inductive event :=
| EPush (now at_ : Z) (u : obj)
| EPull (e : app_env) (r : request)
| ERestart (x : machine)
| EOtherPush (y : string) (now at_ : Z) (f : nat → faults) (u : obj)
| EOtherPull (y : string) (e : app_env) (r : request).

Definition offset_of (r : request) : Z := default 0 (anyToInt64 (mget1 (body_of r) "offset")).

Definition from (off : Z) (l : mlog) : list (Z * json_text) := bfilter (λ w, off <=? w.1) (waiting l).

(** The answer of the event and the log after it. *)
Definition log_event (ev : event) (l : mlog) : list json_text * mlog :=
  match ev with
  | EPush now _ u =>
      ([], {| newest := newest l + 1; waiting := waiting l ++ [(newest l + 1, doc now (newest l + 1) u)] |})
  | EPull _ r =>
      (map snd (take (Z.to_nat (pull_limit (body_of r))) (from (offset_of r) l)),
       {| newest := newest l; waiting := from (offset_of r) l |})
  | ERestart _ => ([], {| newest := default 0 (fst <$> last (waiting l)); waiting := waiting l |})
  | EOtherPush _ _ _ _ _ | EOtherPull _ _ _ => ([], l)
  end.

Fixpoint log_run (es : list event) (l : mlog) : list (list json_text) * mlog :=
  match es with
  | [] => ([], l)
  | ev :: es' => let '(o, l) := log_event ev l in let '(os, l) := log_run es' l in (o :: os, l)
  end.

(** ** The plane *)
Section plane.
Context `{FernetLaws} (b : Box) (c : MTProto) (a : string) (show jerr : obj → string).

Definition no_errors : nat → faults := λ _, no_faults.

(** A new process on the same store: restore, then the supervisor of [a] takes
    the lock, connects, warms up and replays. *)
Definition restored (x : machine) (d : MTStore.mt) : option Manager :=
  snd <$> RestoreAll (bt_clk x) no_faults (λ _, no_errors) b (NewManager c d Health.Storage.NewStorage (bt_kern x)).

Definition boot (x : machine) (d : MTStore.mt) : option Manager :=
  m ← restored x d;
  i ← sessions m !! a;
  Some (sup_warmed no_faults i (sup_connected (bt_wall x) 0 0 None i (sup_top (bt_mono x) (bt_host x) false i m))).

(** The updates in an answer. *)
Definition documents (o : outcome) : list json_text :=
  match o with Reply {| pay := PSplice l |} => l | _ => [] end.

Definition run_event (ev : event) (m : Manager) : option (list json_text * Manager) :=
  match ev with
  | EPush now at_ u => i ← sessions m !! a; Some ([], (pushUpdate show jerr now at_ no_errors i u m).2)
  | EPull e r => x ← handleGetUpdates e r a m; Some (documents x.1, x.2)
  | ERestart x => m' ← boot x (st m); Some ([], m')
  | EOtherPush y now at_ f u =>
      Some ([], match sessions m !! y with Some i => (pushUpdate show jerr now at_ f i u m).2 | None => m end)
  | EOtherPull y e r => x ← handleGetUpdates e r y m; Some ([], x.2)
  end.

Fixpoint run (es : list event) (m : Manager) : option (list (list json_text) * Manager) :=
  match es with
  | [] => Some ([], m)
  | ev :: es' => x ← run_event ev m; y ← run es' x.2; Some (x.1 :: y.1, y.2)
  end.

(** The environment's side: updates JSON can express, authorised requests that
    carry an offset and whose wait ends, machines whose lock is free, and
    numbers and backlogs within what a float64 and the replay hold.  Of the
    other sessions only that their calls end too. *)
Definition admissible (ev : event) (l : mlog) : Prop :=
  match ev with
  | EPush _ _ u => json_ok (AMap u) = true ∧ newest l < 2 ^ 53
  | EPull e r =>
      bearerOK (r_auth r) (MAppSecret c) = true ∧
      (∃ off, anyToInt64 (mget1 (body_of r) "offset") = Some off ∧ int64_min < off <= int64_max) ∧
      Forall calm (wakes e) ∧ pull_faults e = no_faults ∧ ack_faults e = no_faults ∧
      Exists (ends (poll_mono e + 50)) (wakes e)
  | ERestart x =>
      (0 <= bt_mono x 2%nat)%Q ∧ Z.of_nat (length (waiting l)) <= 5000 ∧
      (Lock.Acquire (bt_host x) false
         {| Lock.Alias := a; Lock.LockDir := SessionDir c; Lock.fd := None; Lock.Token := 0 |} (bt_kern x)).1.1 = true ∧
      (∀ p e, Lock.holder_of p (bt_kern x) = Some e → (e < Lock.next_fd (bt_kern x))%nat)
  | EOtherPush y _ _ _ _ => y ≠ a
  | EOtherPull y e _ => y ≠ a ∧ Forall calm (wakes e) ∧ Exists (ends (poll_mono e + 50)) (wakes e)
  end.

Fixpoint admissible_run (es : list event) (l : mlog) : Prop :=
  match es with
  | [] => True
  | ev :: es' => admissible ev l ∧ admissible_run es' (log_event ev l).2
  end.

(** ** The simulation relation *)

Definition rows_of (d : MTStore.mt) : list MTStore.queue_row :=
  bfilter (λ r, (MTStore.q_alias r =? a)%string) (MTStore.update_queue d).

Definition same_row (r : MTStore.queue_row) (w : Z * json_text) : Prop :=
  MTStore.q_uid r = w.1 ∧ MTStore.q_json r = Some w.2.

(** A document that carries its own number. *)
Definition numbered (w : Z * json_text) : Prop :=
  ∃ o, w.2 = JText (AMap o) ∧ anyToInt64 (mget1 o "_gw_seq") = Some w.1.

Record log_ok (l : mlog) : Prop := {
  lo_newest : 0 <= newest l;
  lo_sorted : StronglySorted (λ x y, x.1 < y.1) (waiting l);
  lo_waiting : Forall (λ w, 0 < w.1 <= newest l ∧ numbered w) (waiting l)
}.

(** What the store must know of the session for a restart to bring it back. *)
Record kept (d : MTStore.mt) : Prop := {
  kp_keyed : keyed MTStore.s_alias (MTStore.sessions d);
  kp_row : ∃ r, row_of MTStore.s_alias a (MTStore.sessions d) = Some r ∧ MTStore.s_paused r = 0 ∧
    is_Some (Decrypt b (MTStore.s_token_enc r))
}.

Record sim (m : Manager) (l : mlog) : Prop := {
  sim_cfg : cfg m = c;
  sim_obj : ∃ i s, sessions m !! a = Some i ∧ objs m !! i = Some s ∧ Alias s = a ∧ nextSeq s = newest l ∧
    chCap s = UpdateQueueMax (MPolicy c) ∧ Z.of_nat (length (updateCh s)) <= chCap s;
  sim_rows : Forall2 same_row (rows_of (st m)) (waiting l);
  sim_kept : kept (st m);
  sim_log : log_ok l;
  sim_inv : minv m
}.

(** ** The store seen as the log *)

Lemma Forall2_bfilter {A B} (R : A → B → Prop) p q l k :
  Forall2 R l k → (∀ x y, R x y → p x = q y) → Forall2 R (bfilter p l) (bfilter q k).
Proof. intros HR Hpq. induction HR as [|x y l k Hxy HR IH]; simpl; [done|]. rewrite (Hpq x y Hxy). destruct (q y); by try constructor. Qed.

Lemma rows_sorted rs ws :
  Forall2 same_row rs ws → StronglySorted (λ x y, x.1 < y.1) ws →
  StronglySorted (λ x y, MTStore.q_uid x <= MTStore.q_uid y) rs.
Proof.
  induction 1 as [|r w rs ws [Hr _] HR IH]; [constructor|]. intros [Hs Hw]%StronglySorted_inv. constructor; [by apply IH|].
  clear -HR Hr Hw. induction HR as [|r' w' rs ws [Hr' _] HR IH]; [constructor|]. apply Forall_cons in Hw as [Hw Hws].
  constructor; [lia|by apply IH].
Qed.

Lemma omap_rows rs ws :
  Forall2 same_row rs ws → omap (λ r, (λ j, (MTStore.q_uid r, j)) <$> MTStore.q_json r) rs = ws.
Proof. induction 1 as [|r [u j] rs ws [Hr Hj] HR IH]; csimpl; [done|]. rewrite Hj. simpl in *. by rewrite IH, Hr. Qed.

Lemma sorted_bfilter p (ws : list (Z * json_text)) :
  StronglySorted (λ x y, x.1 < y.1) ws → StronglySorted (λ x y, x.1 < y.1) (bfilter p ws).
Proof.
  induction 1 as [|w ws Hs IH Hw]; simpl; [constructor|]. destruct (p w); [|done]. constructor; [done|].
  apply Forall_forall. intros x [Hx _]%elem_of_bfilter. rewrite Forall_forall in Hw. by apply Hw.
Qed.

(** A pull at [o] reads the waiting updates above [o], in order. *)
Lemma pull_view d l o lim :
  Forall2 same_row (rows_of d) (waiting l) → log_ok l → 0 < lim →
  MTStore.QueuePullRaw no_faults a o lim d = take (Z.to_nat lim) (bfilter (λ w, o <? w.1) (waiting l)).
Proof.
  intros HR Hl Hlim. unfold MTStore.QueuePullRaw. rewrite (proj2 (Z.leb_gt lim 0)) by done. simpl.
  unfold limit. rewrite (proj2 (Z.ltb_ge lim 0)) by lia.
  assert (Forall2 same_row (bfilter (λ r, o <? MTStore.q_uid r) (rows_of d)) (bfilter (λ w, o <? w.1) (waiting l))) as HF
    by (apply Forall2_bfilter; [done|]; by intros x y [-> _]).
  unfold rows_of in HF. rewrite bfilter_bfilter in HF.
  rewrite sort_by_id; [|eapply rows_sorted; [done|]; by apply sorted_bfilter, lo_sorted].
  by apply omap_rows, Forall2_take.
Qed.

Lemma ack_view d l n d' :
  MTStore.QueueAck no_faults a n d = Some d' → Forall2 same_row (rows_of d) (waiting l) →
  Forall2 same_row (rows_of d') (bfilter (λ w, n <? w.1) (waiting l)) ∧ MTStore.sessions d' = MTStore.sessions d.
Proof.
  intros [= <-] HR. split; [|done]. unfold rows_of, delete_where. simpl.
  assert (bfilter (λ r, (MTStore.q_alias r =? a)%string)
    (bfilter (λ r, negb ((MTStore.q_alias r =? a)%string && (MTStore.q_uid r <=? n))) (MTStore.update_queue d))
    = bfilter (λ r, n <? MTStore.q_uid r) (rows_of d)) as ->.
  { unfold rows_of. rewrite !bfilter_bfilter. apply bfilter_ext. intros r _. destruct (_ =? _)%string; simpl; lia. }
  apply Forall2_bfilter; [done|]. by intros x y [-> _].
Qed.

(** ** Booting *)

(** A session as [Register] makes it. *)
Record newborn (s : Session) : Prop := {
  nb_alias : Alias s = a;
  nb_seq : nextSeq s = 0 ∧ updateCh s = [] ∧ chCap s = UpdateQueueMax (MPolicy c);
  nb_state : state s = StateConnecting ∧ client s = None ∧ stopSupervisor s = false ∧ terminalError s = false;
  nb_idle : nextRetryAt s = 0%Q ∧ sessionLock s = None ∧ stats s = no_counters
}.

Definition row (x : string) (m : Manager) : option MTStore.session_row :=
  row_of MTStore.s_alias x (MTStore.sessions (st m)).

(** The alias is in the table, newborn, its supervisor at the top of its loop,
    and its store row still opens. *)
Definition reborn (m : Manager) : Prop :=
  ∃ i s r, sessions m !! a = Some i ∧ (i < next m)%nat ∧ objs m !! i = Some s ∧
    sups m !! i = Some {| pos := AtTop; backoff := 1 |} ∧ newborn s ∧
    row a m = Some r ∧ MTStore.s_paused r = 0 ∧ is_Some (Decrypt b (MTStore.s_token_enc r)).

(** What restoring the aliases [X] leaves alone. *)
Record frame (X : list string) (m m' : Manager) : Prop := {
  fr_cfg : cfg m' = cfg m ∧ kern m' = kern m;
  fr_queue : MTStore.update_queue (st m') = MTStore.update_queue (st m);
  fr_keyed : keyed MTStore.s_alias (MTStore.sessions (st m)) → keyed MTStore.s_alias (MTStore.sessions (st m'));
  fr_out : ∀ x, x ∉ X → sessions m' !! x = sessions m !! x ∧ row x m' = row x m;
  fr_old : ∀ i, (i < next m)%nat → objs m' !! i = objs m !! i ∧ sups m' !! i = sups m !! i;
  fr_next : (next m <= next m')%nat
}.

Lemma frame_refl X m : frame X m m.
Proof. constructor; try done. Qed.

Lemma frame_trans X Y m1 m2 m3 : frame X m1 m2 → frame Y m2 m3 → frame (X ++ Y) m1 m3.
Proof.
  intros [[C1 K1] Q1 Y1 O1 D1 N1] [[C2 K2] Q2 Y2 O2 D2 N2]. constructor.
  - split; congruence.
  - congruence.
  - auto.
  - intros x [Hx1 Hx2]%not_elem_of_app. destruct (O1 x Hx1), (O2 x Hx2). split; congruence.
  - intros i Hi. destruct (D1 i Hi), (D2 i ltac:(lia)). split; congruence.
  - lia.
Qed.

Lemma reborn_frame X m m' : a ∉ X → frame X m m' → reborn m → reborn m'.
Proof.
  intros Ha [_ _ _ O D N] (i & s & r & H1 & H2 & H3 & H4 & H5 & H6 & H7). destruct (O a Ha) as [E0 E], (D i H2) as [E1 E2].
  exists i, s, r. rewrite E0, E, E1, E2. destruct H7. split_ands; first [done|lia].
Qed.

Context (max_ok : 0 < UpdateQueueMax (MPolicy c)) (enc_total : ∀ r p, is_Some (Encrypt b r p)).

(** One new registration. *)
Lemma register_one born r now alias tok m :
  cfg m = c → sessions m !! alias = None →
  ∃ s d,
    let m' := {| cfg := cfg m; st := d; h := h m; kern := kern m; objs := <[next m := s]> (objs m);
      sessions := <[alias := next m]> (sessions m);
      sups := <[next m := {| pos := AtTop; backoff := 1 |}]> (sups m); next := S (next m) |} in
    Register born b r now no_faults no_faults alias tok m = Some (Some (next m), m') ∧ frame [alias] m m' ∧
    (alias = a → newborn s) ∧
    (∀ r0, row alias m = Some r0 → ∃ r1, row alias m' = Some r1 ∧ MTStore.s_paused r1 = MTStore.s_paused r0 ∧
       Decrypt b (MTStore.s_token_enc r1) = Some tok).
Proof.
  intros Hc Hs. destruct (enc_total r tok) as [enc Henc].
  unfold Register, Get. rewrite Hs. unfold register_new, MTStore.Register. rewrite Henc. simpl.
  rewrite Hc. rewrite (proj2 (Z.ltb_ge _ _)) by lia. do 2 eexists. split; [reflexivity|]. split; [|split].
  - constructor; simpl; [by rewrite Hc|done| | |intros i Hi; split; by rewrite lookup_insert_ne by lia|lia].
    + intros Hk. by apply upsert_keyed.
    + intros x Hx%not_elem_of_cons. destruct Hx as [Hx _]. split; [by rewrite lookup_insert_ne|].
      unfold row. simpl. rewrite row_of_upsert by done. unfold has_key. simpl. by rewrite bool_decide_false.
  - intros ->. by constructor.
  - intros r0 Hr0. unfold row in *. simpl. rewrite row_of_upsert by done. unfold has_key at 1. simpl.
    rewrite bool_decide_true, Hr0 by done. eexists. split; [done|]. simpl. split; [done|]. by eapply decrypt_encrypt.
Qed.

Lemma restore_one clk k r rest m :
  cfg m = c → sessions m !! MTStore.Alias r = None →
  ∃ m1 n1, frame [MTStore.Alias r] m m1 ∧
    (MTStore.Alias r = a → MTStore.Paused r = false →
     (∃ r0, row a m = Some r0 ∧ MTStore.s_paused r0 = 0 ∧ is_Some (Decrypt b (MTStore.s_token_enc r0))) → reborn m1) ∧
    restore_rows clk (λ _, no_errors) k b (r :: rest) m =
      (λ y, (y.1 + n1, y.2)) <$> restore_rows clk (λ _, no_errors) (S k) b rest m1.
Proof.
  intros Hc Hs. simpl. change (no_errors 0%nat) with no_faults. change (no_errors 1%nat) with no_faults. change (no_errors 2%nat) with no_faults.
  destruct (MTStore.GetToken b no_faults (MTStore.Alias r) (st m)) as [tok|] eqn:Et.
  - destruct (register_one (secs (clk k)) (Z.of_nat k) (clk k) (MTStore.Alias r) tok m Hc Hs) as (s & d & Hr & Hf & Hnb & Hrow).
    cbn zeta in *. rewrite Hr. set (m' := {| cfg := cfg m |}) in *.
    assert (Get (MTStore.Alias r) m' = Some (next m, s)) as Hg.
    { unfold Get, m'. simpl. by rewrite !lookup_insert_eq. }
    rewrite Hg. exists (if MTStore.Paused r then set_obj (next m) (setState StatePaused s) m' else m'), 1. split; [|split].
    + destruct (MTStore.Paused r); [|done]. destruct Hf as [F1 F2 F3 F4 F5 F6].
      constructor; [exact F1|exact F2|exact F3|exact F4| |exact F6]. intros i Hi. destruct (F5 i Hi) as [E1 E2].
      split; [|exact E2]. unfold set_obj. cbn [objs]. by rewrite lookup_insert_ne by lia.
    + intros Ea Ep (r0 & H1 & H2 & H3). rewrite Ep. rewrite <-Ea in H1. destruct (Hrow r0 H1) as (r1 & E1 & E2 & E3).
      exists (next m), s, r1. rewrite <-Ea. unfold m' at 1 2 3 4. cbn [sessions objs sups next].
      rewrite !lookup_insert_eq. split_ands; first [done|lia|by apply Hnb|congruence|by exists tok].
    + by destruct (restore_rows _ _ _ _ _ _) as [[]|].
  - exists m, 0. split; [apply frame_refl|]. split.
    + intros Ea _ (r0 & H1 & H2 & [p H3]). unfold MTStore.GetToken in Et. simpl in Et. rewrite Ea in Et.
      unfold row in H1. rewrite H1 in Et. congruence.
    + destruct (restore_rows _ _ _ _ _ _) as [[]|]; simpl; [|done]. by rewrite Z.add_0_r.
Qed.

Lemma restore_rows_spec clk k rows m :
  cfg m = c → NoDup (MTStore.Alias <$> rows) → (∀ r, r ∈ rows → sessions m !! MTStore.Alias r = None) →
  ∃ n m', restore_rows clk (λ _, no_errors) k b rows m = Some (n, m') ∧ frame (MTStore.Alias <$> rows) m m' ∧
    ((∃ r, r ∈ rows ∧ MTStore.Alias r = a ∧ MTStore.Paused r = false) →
     (∃ r0, row a m = Some r0 ∧ MTStore.s_paused r0 = 0 ∧ is_Some (Decrypt b (MTStore.s_token_enc r0))) → reborn m').
Proof.
  revert k m. induction rows as [|r rows IH]; intros k m Hc Hnd Hs.
  { exists 0, m. split; [done|]. split; [apply frame_refl|]. intros (r & Hr & _). by apply elem_of_nil in Hr. }
  csimpl in Hnd. apply NoDup_cons in Hnd as [Hr Hnd].
  destruct (restore_one clk k r rows m Hc (Hs r ltac:(set_solver))) as (m1 & n1 & Hf & Hb & ->).
  destruct (IH (S k) m1) as (n & m' & -> & Hf' & Hb').
  { by rewrite (proj1 (fr_cfg _ _ _ Hf)). }
  { done. }
  { intros r' Hr'. rewrite (proj1 (fr_out _ _ _ Hf (MTStore.Alias r') ltac:(intros ?%list_elem_of_singleton; apply Hr; apply list_elem_of_fmap; by exists r'))).
    apply Hs. set_solver. }
  exists (n + n1), m'. split; [done|]. split; [apply (frame_trans _ _ _ _ _ Hf Hf')|].
  intros (r' & Hin & Ha & Hp) Hx. apply elem_of_cons in Hin as [->|Hin].
  - eapply reborn_frame; [|exact Hf'|by apply Hb]. by rewrite <-Ha.
  - apply Hb'; [by exists r'|]. destruct (decide (MTStore.Alias r = a)) as [E|E].
    + destruct Hr. rewrite E, <-Ha. by apply list_elem_of_fmap_2.
    + by rewrite (proj2 (fr_out _ _ _ Hf a ltac:(set_solver))).
Qed.

Lemma restored_inv x d m :
  (∀ p e, Lock.holder_of p (bt_kern x) = Some e → (e < Lock.next_fd (bt_kern x))%nat) → restored x d = Some m → minv m.
Proof.
  intros Hk. unfold restored. destruct (RestoreAll _ _ _ _ _) as [[n m0]|] eqn:E; [|done]. intros [= <-].
  eapply RestoreAll_inv; [|exact E]. by apply NewManager_inv.
Qed.

Lemma restored_spec x d :
  kept d → ∃ m, restored x d = Some m ∧ reborn m ∧ cfg m = c ∧ kern m = bt_kern x ∧
    MTStore.update_queue (st m) = MTStore.update_queue d ∧ keyed MTStore.s_alias (MTStore.sessions (st m)).
Proof.
  intros [Hk (r & Hr & Hp & Ht)]. unfold restored, RestoreAll, MTStore.ListSessions. simpl.
  set (rows := map _ (MTStore.sessions d)). set (m0 := NewManager _ _ _ _).
  assert (MTStore.Alias <$> rows = MTStore.s_alias <$> MTStore.sessions d) as Ea.
  { unfold rows. clear. induction (MTStore.sessions d) as [|x l IH]; csimpl; [done|]. by f_equal. }
  destruct (restore_rows_spec (bt_clk x) 0 rows m0) as (n & m & -> & Hf & Hb); [done|by rewrite Ea|done|].
  exists m. split; [done|]. destruct Hf as [[F1 F2] F3 F4 _ _ _]. split_ands; try done; [|by apply F4].
  apply Hb; [|by exists r]. apply row_of_Some in Hr as [Hin Ha].
  exists {| MTStore.Alias := MTStore.s_alias r; MTStore.PhoneOrToken := MTStore.s_phone r; MTStore.State := MTStore.s_state r;
            MTStore.Paused := negb (MTStore.s_paused r =? 0); MTStore.CreatedAt := MTStore.s_created_at r |}.
  split; [|split; [done|]].
  - unfold rows. apply list_elem_of_In, in_map_iff. exists r. split; [done|]. by apply list_elem_of_In.
  - simpl. by rewrite Hp.
Qed.

(** The supervisor of a newborn session takes the free lock and connects. *)
Lemma newborn_starts x m i s :
  cfg m = c → kern m = bt_kern x → objs m !! i = Some s → sups m !! i = Some {| pos := AtTop; backoff := 1 |} →
  newborn s → admissible (ERestart x) {| newest := 0; waiting := [] |} →
  let m2 := sup_connected (bt_wall x) 0 0 None i (sup_top (bt_mono x) (bt_host x) false i m) in
  st m2 = st m ∧ cfg m2 = c ∧ sessions m2 = sessions m ∧
  sups m2 !! i = Some {| pos := Warming false; backoff := 1 |} ∧
  ∃ s', objs m2 !! i = Some s' ∧ Alias s' = a ∧ nextSeq s' = 0 ∧ updateCh s' = [] ∧
    chCap s' = UpdateQueueMax (MPolicy c).
Proof.
  intros Hc Hk Ho Hs [Ha (Hq & Hch & Hcap) (Hst & Hcl & Hstop & Hterm) (Hret & Hl & Hstats)] (Hm & _ & Hacq & _). cbn zeta.
  unfold sup_top. rewrite Hs, Ho, Hstop. unfold IsTerminal. rewrite Hterm, Hst. unfold connected. rewrite Hcl, Hret. simpl.
  rewrite (qlt_false (bt_mono x 2%nat) 0) by done. unfold lockHeld. rewrite Hl. unfold acquireLock. rewrite Ha, Hc, Hk.
  destruct (Lock.Acquire _ _ _ _) as [[ok l'] k'] eqn:E. simpl in Hacq. subst ok.
  unfold begin_start, disconnect, upd_obj. simpl. rewrite Ho. simpl. rewrite !lookup_insert_eq. simpl. rewrite !lookup_insert_eq.
  unfold sup_connected. simpl. rewrite !lookup_insert_eq. rewrite Hstats. simpl. rewrite lookup_insert_eq. unfold upd_obj. simpl.
  rewrite !lookup_insert_eq. simpl. rewrite !lookup_insert_eq.
  split_ands; try done. eexists. split; [done|]. by rewrite Hcl.
Qed.

Lemma newest_of ws n :
  StronglySorted (λ x y, x.1 < y.1) ws → Forall (λ w, n < w.1 ∧ numbered w) ws →
  fold_left (λ n u, match anyToInt64 (mget1 u "_gw_seq") with
                    | Some q => if n <? q then q else n | None => n end) (omap MTStore.decode_update ws) n
  = default n (fst <$> last ws).
Proof.
  revert n. induction ws as [|[q t] ws IH]; intros n Hs Hw; [done|].
  apply StronglySorted_inv in Hs as [Hs Hlt]. apply Forall_cons in Hw as [[Hn (o & Ht & Hq)] Hw]. simpl in Ht, Hq, Hn. subst t.
  csimpl. unfold MTStore.decode_update at 1. simpl. unfold mget1 in *. rewrite mget_mset_ne by done. rewrite Hq.
  rewrite (proj2 (Z.ltb_lt n q)) by done. rewrite IH; [rewrite last_cons; by destruct (last ws)|done|].
  rewrite Forall_forall in *. intros w Hin. split; [by apply (Hlt w)|by apply Hw].
Qed.

Lemma sends_keep us s :
  let s' := fold_left (λ s u, ch_send u s) us s in
  Alias s' = Alias s ∧ nextSeq s' = nextSeq s ∧ chCap s' = chCap s ∧
  (Z.of_nat (length (updateCh s)) <= chCap s → Z.of_nat (length (updateCh s')) <= chCap s).
Proof.
  cbn zeta. revert s. induction us as [|u us IH]; intros s; simpl; [done|]. destruct (IH (ch_send u s)) as (-> & -> & -> & H4).
  unfold ch_send in *. destruct (Z.ltb_spec (Z.of_nat (length (updateCh s))) (chCap s)); [|done].
  split_ands; try done. intros _. apply H4. simpl. rewrite length_app. simpl. lia.
Qed.

(** A boot brings the session back with its backlog, numbered from the newest
    of the first 5000 waiting updates. *)
Lemma boot_spec x d l :
  kept d → Forall2 same_row (rows_of d) (waiting l) → log_ok l → admissible (ERestart x) {| newest := 0; waiting := [] |} →
  ∃ m, boot x d = Some m ∧ minv m ∧ cfg m = c ∧ kept (st m) ∧ Forall2 same_row (rows_of (st m)) (waiting l) ∧
    ∃ i s, sessions m !! a = Some i ∧ objs m !! i = Some s ∧ Alias s = a ∧
      nextSeq s = default 0 (fst <$> last (take 5000 (waiting l))) ∧
      chCap s = UpdateQueueMax (MPolicy c) ∧ Z.of_nat (length (updateCh s)) <= chCap s.
Proof.
  intros Hk HR Hl Hadm. destruct (restored_spec x d Hk) as (m & Hm & Hb & Hc & Hkern & Hq & Hkey).
  destruct Hb as (i & s & r & Hi & _ & Ho & Hs & Hnb & Hrow). unfold boot. rewrite Hm. simpl. rewrite Hi. simpl.
  destruct (newborn_starts x m i s Hc Hkern Ho Hs Hnb Hadm) as (Est & Ec & Ese & Esu & s' & Eo & Ea & En & Ech & Ecap).
  set (m2 := sup_connected _ _ _ _ _ _) in *. eexists. split; [done|].
  assert (minv m2) as Hi2.
  { apply sup_connected_inv, sup_top_inv. eapply restored_inv; [|exact Hm]. by destruct Hadm as (_ & _ & _ & ?). }
  split; [by apply sup_warmed_inv|]. unfold sup_warmed. rewrite Esu. unfold upd_obj. rewrite Eo. simpl. rewrite Est. split; [done|].
  assert (rows_of (st m) = rows_of d) as Er by (unfold rows_of; by rewrite Hq).
  split; [constructor; [done|by exists r]|]. rewrite Er. split; [done|].
  exists i. eexists. rewrite Ese, lookup_insert_eq. split; [done|]. split; [done|].
  unfold replay. rewrite Ea. unfold MTStore.QueuePull.
  rewrite (pull_view (st m) l 0 5000); [|by rewrite Er|done|lia]. change (Z.to_nat 5000) with 5000%nat.
  assert (bfilter (λ w, 0 <? w.1) (waiting l) = waiting l) as ->.
  { apply bfilter_all. intros w Hw. pose proof (lo_waiting _ Hl) as Hf. rewrite Forall_forall in Hf.
    destruct (Hf w Hw) as [? _]. apply Z.ltb_lt. lia. }
  rewrite En. set (s0 := put_seq _ s'). set (us := omap _ _).
  destruct (sends_keep us s0) as (-> & -> & -> & H4). split; [done|]. unfold s0 at 1. cbn [nextSeq put_seq].
  split; [|split; [done|]].
  - unfold us. destruct Hl as [_ H2 H3]. rewrite <-(take_drop 5000 (waiting l)) in H2, H3.
    apply newest_of; [by apply StronglySorted_app in H2 as (_ & ? & _)|].
    apply Forall_app in H3 as [H3 _]. eapply Forall_impl; [exact H3|]. simpl. intros w [Hw ?]. split; [lia|done].
  - apply H4. unfold s0. simpl. rewrite Ech, Ecap. simpl. lia.
Qed.

(** ** One event *)

Lemma mget_jnorm (u : obj) k : mget (map (λ kv, (fst kv, jnorm (snd kv))) u) k = jnorm <$> mget u k.
Proof. induction u as [|[k' v] u IH]; simpl; [done|]. by destruct (k' =? k)%string. Qed.

Lemma doc_numbered now n u : in_int64 n = true → numbered (n, doc now n u).
Proof.
  intros Hn. eexists. split; [reflexivity|]. unfold mget1, stamped.
  rewrite mget_jnorm, mget_mset_ne, mget_mset_eq by done. simpl. by rewrite f2i_inject.
Qed.

Lemma push_keeps now at_ i u m s :
  objs m !! i = Some s →
  cfg (pushUpdate show jerr now at_ no_errors i u m).2 = cfg m ∧
  sessions (pushUpdate show jerr now at_ no_errors i u m).2 = sessions m ∧
  ∀ s', objs (pushUpdate show jerr now at_ no_errors i u m).2 !! i = Some s' → Alias s' = Alias s ∧ chCap s' = chCap s.
Proof.
  intros Ho. unfold pushUpdate. rewrite Ho. cbn zeta. destruct (json_marshal _) as [t|]; simpl.
  - destruct (MTStore.QueuePush _ _ _ _ _ _) as [d|]; unfold upd_obj; simpl; repeat (rewrite lookup_insert_eq; simpl);
      (split_ands; [done|done|]; intros s' [= <-]; unfold ch_push, ch_send; simpl; by repeat destruct (_ <? _)).
  - split_ands; try done. intros s'. rewrite lookup_insert_eq. by intros [= <-].
Qed.

Lemma sim_push now at_ u m l :
  sim m l → admissible (EPush now at_ u) l →
  ∃ m', run_event (EPush now at_ u) m = Some ([], m') ∧ sim m' (log_event (EPush now at_ u) l).2.
Proof.
  intros [Hc (i & s & Hi & Ho & Ha & Hn & Hcap & Hlen) HR Hk Hl Hinv] [Hj Hb]. simpl. rewrite Hi. simpl. eexists. split; [done|].
  destruct Hk as [Hk1 Hk2]. pose proof Hl as [H1 H2 H3].
  assert (can_push m s) as Hcp.
  { constructor; [|unfold int64_max; lia|lia|lia]. destruct Hk2 as (r & Hr & _). apply row_of_Some in Hr as [Hin Hr].
    apply existsb_exists. exists r. rewrite <-list_elem_of_In, Ha. split; [done|]. by apply has_key_spec. }
  destruct (push_shape show jerr now at_ no_errors i s u m Ho Hcp Hj eq_refl) as (s' & Ho' & Hn' & Hch & Hst & _).
  destruct (push_keeps now at_ i u m s Ho) as (Ec & Es & Es'). destruct (Es' s' Ho') as [Ea' Ecap'].
  set (m' := (pushUpdate _ _ _ _ _ _ _ _).2) in *.
  constructor.
  - congruence.
  - exists i, s'. rewrite Es, Ho', Hch, length_app. simpl. split_ands; try first [congruence|lia].
    destruct (Z.ltb_spec (Z.of_nat (length (updateCh s))) (chCap s)); [lia|]. rewrite length_drop. lia.
  - rewrite Hst. unfold rows_of. simpl. rewrite bfilter_app. apply Forall2_app; [done|]. simpl.
    rewrite Ha, String.eqb_refl. constructor; [|done]. split; simpl; [lia|]. by rewrite Hn.
  - rewrite Hst. by constructor.
  - constructor; simpl; [lia| |].
    + apply StronglySorted_app. split_ands; [|done|by repeat constructor]. intros x y Hx Hy%list_elem_of_singleton. subst y.
      rewrite Forall_forall in H3. destruct (H3 x Hx) as [? _]. simpl. lia.
    + apply Forall_app. split; [eapply Forall_impl; [exact H3|]; simpl; intros w [? ?]; split; [lia|done]|].
      constructor; [|done]. split; [simpl; lia|]. apply doc_numbered. unfold in_int64, int64_min, int64_max. lia.
  - by apply push_inv.
Qed.

Lemma poll_offset_calm_docs after lim deadline ws mg o mg' :
  Forall calm ws → poll_offset a after lim deadline no_faults ws mg = Some (o, mg') →
  mg' = mg ∧ documents o = map snd (MTStore.QueuePullRaw no_faults a after lim (st mg)).
Proof.
  induction ws as [|w ws IH]; intros Hc; simpl.
  - destruct (MTStore.QueuePullRaw _ _ _ _ _); [done|]. by intros [= <- <-].
  - apply Forall_cons in Hc as [[Hw Hf] Hc]. destruct (MTStore.QueuePullRaw _ _ _ _ _) eqn:E; [|by intros [= <- <-]].
    rewrite Hw, Hf. destruct (qle _ _); [by intros [= <- <-]|]. destruct (w_done w); [by intros [= <- <-]|].
    intros Hx. destruct (IH Hc Hx) as [E1 E2]. split; [done|]. by rewrite E2, ?E.
Qed.

Lemma pull_limit_pos body : 0 < pull_limit body.
Proof. unfold pull_limit. destruct (anyToInt64 (mget1 body "limit")) as [v|]; [|done]. destruct (Z.ltb_spec 0 v); lia. Qed.

(** The offset mode is one acknowledgement and one poll of at most 50 s. *)
Lemma handle_offset e r mg i s off :
  bearerOK (r_auth r) (MAppSecret (cfg mg)) = true → Get a mg = Some (i, s) →
  anyToInt64 (mget1 (body_of r) "offset") = Some off → int64_min < off <= int64_max →
  ∃ t, (t <= 50)%Q ∧ handleGetUpdates e r a mg =
    poll_offset (Alias s) (off - 1) (pull_limit (body_of r)) (poll_mono e + t) (pull_faults e) (wakes e)
      (ack (ack_faults e) (Alias s) (off - 1) mg).
Proof.
  intros Hb HG Hoff Hr. unfold handleGetUpdates. rewrite Hb, HG. fold (body_of r). rewrite Hoff.
  rewrite (wrap64_id (off - 1)) by (unfold in_int64, int64_min, int64_max in *; lia). cbn zeta. fold (pull_limit (body_of r)).
  eexists. split; [|reflexivity]. match goal with |- context [qlt 50 ?x] => destruct (qltP 50 x) end; lra.
Qed.

Lemma from_ok off l : log_ok l → log_ok {| newest := newest l; waiting := from off l |}.
Proof.
  intros [H1 H2 H3]. constructor; simpl; [done|by apply sorted_bfilter|].
  rewrite Forall_forall in *. intros w [Hw _]%elem_of_bfilter. by apply H3.
Qed.

Lemma sim_pull e r m l :
  sim m l → admissible (EPull e r) l →
  ∃ m', run_event (EPull e r) m = Some ((log_event (EPull e r) l).1, m') ∧ sim m' (log_event (EPull e r) l).2.
Proof.
  intros [Hc (i & s & Hi & Ho & Ha & Hn & Hcap & Hlen) HR Hk Hl Hinv] (Hb & (off & Hoff & Hr) & Hcalm & Hpf & Haf & Hend).
  assert (offset_of r = off) as Eoff by (unfold offset_of; by rewrite Hoff).
  assert (Get a m = Some (i, s)) as HG by (unfold Get; by rewrite Hi, Ho).
  destruct (handle_offset e r m i s off) as (t & Ht & HE); [by rewrite Hc|done|done|done|].
  destruct (poll_offset_ends (Alias s) (off - 1) (pull_limit (body_of r)) (poll_mono e + t) (pull_faults e) (wakes e)
    (ack (ack_faults e) (Alias s) (off - 1) m)) as [[o m'] HH].
  { eapply Exists_impl; [exact Hend|]. intros w [Hw|Hw]; [left; lra|by right]. }
  unfold run_event. rewrite HE, HH. simpl. rewrite Ha, Hpf, Haf in HH.
  destruct (poll_offset_calm_docs _ _ _ _ _ _ _ Hcalm HH) as [-> ->].
  pose proof (pull_limit_pos (body_of r)) as Hlim.
  assert (bfilter (λ w, off - 1 <? w.1) (waiting l) = from off l) as Efrom
    by (apply bfilter_ext; intros w _; lia).
  unfold ack. destruct (MTStore.QueueAck no_faults a (off - 1) (st m)) as [d|] eqn:Eack; [|done].
  destruct (ack_view _ _ _ _ Eack HR) as [HR' Hses]. rewrite Efrom in HR'. simpl in *. rewrite Eoff.
  pose proof (from_ok off l Hl) as Hl'.
  eexists. split.
  - rewrite (pull_view d {| newest := newest l; waiting := from off l |}) by done. simpl.
    do 4 f_equal. unfold from. rewrite bfilter_bfilter. apply bfilter_ext. intros w _. lia.
  - constructor; simpl; [done|by exists i, s|done| |done|by eapply minv_shape]. destruct Hk as [Hk1 Hk2]. constructor; by rewrite Hses.
Qed.

Lemma sim_restart x m l :
  sim m l → admissible (ERestart x) l →
  ∃ m', run_event (ERestart x) m = Some ([], m') ∧ sim m' (log_event (ERestart x) l).2.
Proof.
  intros [Hc _ HR Hk Hl _] (Hm & Hlen & Hacq & Hfree).
  destruct (boot_spec x (st m) l Hk HR Hl) as (m' & Hboot & Hinv & Hc' & Hk' & HR' & i & s & Hi & Ho & Ha & Hn & Hcap & Hch).
  { split; [done|]. split; [simpl; lia|by split]. }
  unfold run_event. rewrite Hboot. simpl. exists m'. split; [done|]. rewrite take_ge in Hn by lia.
  constructor; simpl; [done|by exists i, s|done|done| |done]. destruct Hl as [H1 H2 H3]. constructor; simpl; [|done|].
  - destruct (last (waiting l)) as [w|] eqn:Ew; simpl; [|lia]. apply last_Some_elem_of in Ew. rewrite Forall_forall in H3.
    destruct (H3 w Ew) as [? _]. lia.
  - rewrite Forall_forall in *. intros w Hw. destruct (H3 w Hw) as [Hpos Hnum]. split; [|done]. split; [lia|].
    destruct (last (waiting l)) as [v|] eqn:Ew; simpl; [|apply last_None in Ew; rewrite Ew in Hw; by apply elem_of_nil in Hw].
    apply last_Some in Ew as [ws Ew]. rewrite Ew in H2, Hw. apply StronglySorted_app in H2 as (Hlt & _ & _).
    apply elem_of_app in Hw as [Hw|Hw%list_elem_of_singleton]; [|subst; lia].
    pose proof (Hlt w v Hw ltac:(by apply list_elem_of_singleton)). simpl in *. lia.
Qed.

(** *** Other sessions *)

(** Nothing of the session changed. *)
Record apart (m m' : Manager) : Prop := {
  ap_cfg : cfg m' = cfg m;
  ap_table : sessions m' !! a = sessions m !! a;
  ap_obj : ∀ i, sessions m !! a = Some i → objs m' !! i = objs m !! i;
  ap_rows : rows_of (st m') = rows_of (st m);
  ap_store : MTStore.sessions (st m') = MTStore.sessions (st m)
}.

Lemma sim_apart m m' l : sim m l → apart m m' → minv m' → sim m' l.
Proof.
  intros [Hc (i & s & Hi & Ho & Hs) HR [Hk1 Hk2] Hl _] [A1 A2 A3 A4 A5] Hinv.
  constructor; [congruence| |by rewrite A4|constructor; by rewrite A5|done|done].
  exists i, s. rewrite A2, (A3 i Hi). done.
Qed.

(** The table names distinct objects. *)
Lemma other_object m y i j :
  minv m → y ≠ a → sessions m !! a = Some i → sessions m !! y = Some j → i ≠ j.
Proof.
  intros Hm Hy Hi Hj <-. destruct (iv_table _ Hm a i Hi) as (s & Hs & Ha), (iv_table _ Hm y i Hj) as (t & Ht & Ha'). congruence.
Qed.

Lemma rows_push d r : MTStore.q_alias r ≠ a → rows_of (MTStore.set_queue d (MTStore.update_queue d ++ [r])) = rows_of d.
Proof. intros Hr. unfold rows_of. simpl. rewrite bfilter_app. simpl. apply String.eqb_neq in Hr as ->. apply app_nil_r. Qed.

Lemma push_apart y j now at_ f u m :
  minv m → y ≠ a → sessions m !! y = Some j → apart m (pushUpdate show jerr now at_ f j u m).2.
Proof.
  intros Hm Hy Hj. destruct (iv_table _ Hm y j Hj) as (s & Ho & Ha).
  assert (∀ i t, sessions m !! a = Some i → <[j := t]> (objs m) !! i = objs m !! i) as Hobj.
  { intros i t Hi. rewrite lookup_insert_ne; [done|]. intros ->. by apply (other_object m y i i). }
  unfold pushUpdate. rewrite Ho. cbn zeta. destruct (json_marshal _) as [t|]; simpl.
  - unfold MTStore.QueuePush. simpl. destruct (f 0%nat 0%nat || _); unfold upd_obj; simpl;
      rewrite ?lookup_insert_eq; simpl; rewrite ?lookup_insert_eq; (constructor; simpl; [done|done| |try done; apply rows_push; simpl; congruence|done]);
      intros i Hi; rewrite ?insert_insert_eq; by apply Hobj.
  - constructor; simpl; [done|done|intros i Hi; by apply Hobj|..]; unfold MTStore.DeadLetter; by destruct (f 1%nat 0%nat).
Qed.

Lemma sim_other_push y now at_ f u m l :
  sim m l → admissible (EOtherPush y now at_ f u) l →
  ∃ m', run_event (EOtherPush y now at_ f u) m = Some ([], m') ∧ sim m' l.
Proof.
  intros Hs Hy. simpl. eexists. split; [done|]. pose proof (sim_inv _ _ Hs) as Hm.
  destruct (sessions m !! y) as [j|] eqn:Hj; [|done]. apply (sim_apart m); [done|by eapply push_apart|by apply push_inv].
Qed.

Lemma ack_apart f y n m : y ≠ a → apart m (ack f y n m).
Proof.
  intros Hy. unfold ack, MTStore.QueueAck. destruct (f 0%nat); constructor; try done. simpl. unfold rows_of, delete_where. simpl.
  rewrite bfilter_bfilter. apply bfilter_ext. intros r _.
  destruct (String.eqb_spec (MTStore.q_alias r) y) as [E|]; [|done]. rewrite E. apply String.eqb_neq in Hy as ->. by rewrite andb_false_r.
Qed.

Lemma ack_minv f y n m : minv m → minv (ack f y n m).
Proof. intros Hm. by eapply minv_shape. Qed.

Lemma apart_refl m : apart m m.
Proof. by constructor. Qed.

Lemma apart_trans m1 m2 m3 : apart m1 m2 → apart m2 m3 → apart m1 m3.
Proof.
  intros [A1 A2 A3 A4 A5] [B1 B2 B3 B4 B5]. constructor; [congruence|congruence| |congruence|congruence].
  intros i Hi. rewrite B3; [by apply A3|congruence].
Qed.

(** Taking from the other session's channel. *)
Lemma drain_apart y j s v m :
  minv m → y ≠ a → Get y m = Some (j, s) → apart m (set_obj j (put_ch v s) m) ∧ minv (set_obj j (put_ch v s) m).
Proof.
  intros Hm Hy [Hj Ho]%Get_obj. split; [|apply (minv_obj m j s); [done|done|by split_ands]].
  constructor; try done. intros i Hi. simpl. rewrite lookup_insert_ne; [done|]. intros ->. by apply (other_object m y i i).
Qed.

Lemma poll_offset_apart y after lim deadline f ws mg o mg' :
  Forall calm ws → poll_offset y after lim deadline f ws mg = Some (o, mg') → mg' = mg.
Proof.
  revert f. induction ws as [|w ws IH]; intros f Hc; simpl.
  - destruct (MTStore.QueuePullRaw _ _ _ _ _); [done|]. by intros [= <- <-].
  - apply Forall_cons in Hc as [[Hw Hf] Hc]. destruct (MTStore.QueuePullRaw _ _ _ _ _); [|by intros [= <- <-]].
    rewrite Hw. destruct (qle _ _); [by intros [= <- <-]|]. destruct (w_done w); [by intros [= <- <-]|]. by apply IH.
Qed.

Lemma poll_legacy_apart y j lim deadline f ws mg o mg' s :
  minv mg → y ≠ a → Get y mg = Some (j, s) → Forall calm ws →
  poll_legacy j y lim deadline f ws mg = Some (o, mg') → apart mg mg' ∧ minv mg'.
Proof.
  intros Hm Hy HG. pose proof HG as [_ Ho]%Get_obj. induction ws as [|w ws IH]; intros Hc; simpl; rewrite Ho;
    destruct (take _ (updateCh s)) as [|u us]; try done.
  2: apply Forall_cons in Hc as [[Hw Hf] Hc]; rewrite Hw; destruct (qle _ _); [intros [= <- <-]; split; [apply apart_refl|done]|];
     destruct (w_done w); [intros [= <- <-]; split; [apply apart_refl|done]|by apply IH].
  all: intros [= <- <-]; destruct (drain_apart y j s (drop (Z.to_nat lim) (updateCh s)) mg Hm Hy HG) as [H1 H2];
    split; [eapply apart_trans; [exact H1|by apply ack_apart]|by apply ack_minv].
Qed.

Lemma get_apart y e r m o m' :
  minv m → y ≠ a → Forall calm (wakes e) → handleGetUpdates e r y m = Some (o, m') → apart m m' ∧ minv m'.
Proof.
  intros Hm Hy Hc. unfold handleGetUpdates. destruct (negb _); [intros [= <- <-]; split; [apply apart_refl|done]|].
  destruct (Get y m) as [[j s]|] eqn:HG; [|intros [= <- <-]; split; [apply apart_refl|done]].
  assert (Alias s = y) as Ea.
  { pose proof HG as [Hj Ho]%Get_obj. destruct (iv_table _ Hm y j Hj) as (t & Ht & <-). congruence. }
  rewrite Ea. cbn zeta. destruct (anyToInt64 (mget1 _ "offset")) as [off|].
  - intros ->%poll_offset_apart; [|done]. split; [by apply ack_apart|by apply ack_minv].
  - destruct (Qeq_bool _ 0); [|by apply poll_legacy_apart with (s := s)].
    simpl. intros [= <- <-]. edestruct (drain_apart y j s) as [H1 H2]; [done..|].
    split; [eapply apart_trans; [exact H1|by apply ack_apart]|by apply ack_minv].
Qed.

Lemma get_returns y e r m :
  Forall calm (wakes e) → Exists (ends (poll_mono e + 50)) (wakes e) → is_Some (handleGetUpdates e r y m).
Proof.
  intros Hc Hx. apply get_updates_ends; [|done]. intros i s _.
  eapply Forall_impl; [exact Hc|]. intros w [Hw _] m0. by rewrite Hw.
Qed.

Lemma sim_other_pull y e r m l :
  sim m l → admissible (EOtherPull y e r) l →
  ∃ m', run_event (EOtherPull y e r) m = Some ([], m') ∧ sim m' l.
Proof.
  intros Hs (Hy & Hc & Hx). pose proof (sim_inv _ _ Hs) as Hm. destruct (get_returns y e r m Hc Hx) as [[o m'] E].
  simpl. rewrite E. simpl. exists m'. split; [done|]. destruct (get_apart y e r m o m' Hm Hy Hc E). by eapply sim_apart.
Qed.

Lemma sim_event ev m l :
  sim m l → admissible ev l →
  ∃ m', run_event ev m = Some ((log_event ev l).1, m') ∧ sim m' (log_event ev l).2.
Proof. destruct ev; [apply sim_push|apply sim_pull|apply sim_restart|apply sim_other_push|apply sim_other_pull]. Qed.

Lemma sim_run es m l :
  sim m l → admissible_run es l → ∃ m', run es m = Some ((log_run es l).1, m') ∧ sim m' (log_run es l).2.
Proof.
  revert m l. induction es as [|ev es IH]; intros m l Hs Ha; [by exists m|]. destruct Ha as [Ha Hes].
  destruct (sim_event ev m l Hs Ha) as (m1 & E1 & H1). simpl. rewrite E1. simpl.
  destruct (log_event ev l) as [o l1]. simpl in *. destruct (IH m1 l1 H1 Hes) as (m2 & E2 & H2). rewrite E2. simpl.
  destruct (log_run es l1) as [os l2]. by exists m2.
Qed.

Definition nothing : mlog := {| newest := 0; waiting := [] |}.

Lemma boot_sim x d :
  kept d → rows_of d = [] → admissible (ERestart x) nothing → ∃ m, boot x d = Some m ∧ sim m nothing.
Proof.
  intros Hk Hr Ha. assert (log_ok nothing) as Hl by (by repeat constructor).
  destruct (boot_spec x d nothing Hk) as (m & Hm & Hinv & Hc & Hk' & HR & Hobj); [by rewrite Hr|done|done|]. exists m. split; [done|].
  by constructor.
Qed.


(** ** What the log keeps *)

(** The event acknowledges nothing from [n] on. *)
Definition below (n : Z) (ev : event) : Prop := match ev with EPull _ r => offset_of r <= n | _ => True end.

Lemma log_keeps n t es l :
  Forall (below n) es → (n, t) ∈ waiting l → (n, t) ∈ waiting (log_run es l).2.
Proof.
  revert l. induction es as [|ev es IH]; intros l Hb Hin; [done|]. apply Forall_cons in Hb as [Hev Hb].
  assert ((n, t) ∈ waiting (log_event ev l).2) as H1.
  { destruct ev as [now at_ u|e r|x|y now at_ f u|y e r]; simpl in *; [set_solver| |done..]. apply elem_of_bfilter. split; [done|]. simpl. lia. }
  simpl. destruct (log_event ev l) as [o l1]. simpl in H1. specialize (IH l1 Hb H1).
  by destruct (log_run es l1) as [os l2].
Qed.

Lemma from_head n t l : log_ok l → (n, t) ∈ waiting l → head (from n l) = Some (n, t).
Proof.
  intros [_ Hs _]. unfold from. induction Hs as [|w ws Hs IH Hw]; intros Hin; [by apply elem_of_nil in Hin|]. simpl.
  apply elem_of_cons in Hin as [<-|Hin]; [simpl; by rewrite Z.leb_refl|].
  rewrite Forall_forall in Hw. pose proof (Hw _ Hin) as Hlt. simpl in Hlt.
  destruct (Z.leb_spec n w.1); [lia|]. by apply IH.
Qed.

Lemma log_ok_run es m l :
  sim m l → admissible_run es l → log_ok (log_run es l).2.
Proof. intros Hs Ha. destruct (sim_run es m l Hs Ha) as (m' & _ & Hs'). apply (sim_log _ _ Hs'). Qed.


(** ** Where the plane leaves the log *)

(** The replay reads 5000 rows.  When more wait, the numbering restarts in the
    middle of the backlog and the next update gets the number of a stored one. *)
Lemma restart_beyond_replay_repeats x d l n t t' now at_ u :
  kept d → Forall2 same_row (rows_of d) (waiting l) → log_ok l → admissible (ERestart x) nothing →
  json_ok (AMap u) = true → n < int64_max →
  waiting l !! 4999%nat = Some (n, t) → waiting l !! 5000%nat = Some (n + 1, t') →
  ∃ m i, boot x d = Some m ∧ sessions m !! a = Some i ∧
    let rows := rows_of (st (pushUpdate show jerr now at_ no_errors i u m).2) in
    ∃ r r', r ∈ rows ∧ same_row r (n + 1, t') ∧ last rows = Some r' ∧ same_row r' (n + 1, doc now (n + 1) u).
Proof.
  intros Hk HR Hl Hx Hj Hn Ht Ht'.
  destruct (boot_spec x d l Hk HR Hl Hx) as (m & Hm & _ & Hc & Hk' & HR' & i & s & Hi & Ho & Ha & Hseq & Hcap & Hch).
  exists m, i. split; [done|]. split; [done|]. cbn zeta.
  assert (last (take 5000 (waiting l)) = Some (n, t)) as El.
  { rewrite (take_S_r _ 4999 (n, t)) by done. by rewrite last_snoc. }
  rewrite El in Hseq. simpl in Hseq.
  assert (can_push m s) as Hcp.
  { constructor; [| |lia|lia].
    - destruct (kp_row _ Hk') as (r & Hr & _). apply row_of_Some in Hr as [Hin Hr].
      apply existsb_exists. exists r. rewrite <-list_elem_of_In, Ha. split; [done|]. by apply has_key_spec.
    - pose proof (lo_waiting _ Hl) as Hf. rewrite Forall_forall in Hf.
      destruct (Hf _ (list_elem_of_lookup_2 _ _ _ Ht)) as [? _]. simpl in *. lia. }
  destruct (push_shape show jerr now at_ no_errors i s u m Ho Hcp Hj eq_refl) as (s' & _ & _ & _ & Hst & _).
  rewrite Hst. unfold rows_of. simpl. rewrite bfilter_app. simpl. rewrite Ha, String.eqb_refl.
  apply Forall2_lookup_r with (i := 5000%nat) (y := (n + 1, t')) in HR'; [|done]. destruct HR' as (r & Hr & Hs).
  exists r. eexists. split; [apply elem_of_app; left; by eapply list_elem_of_lookup_2|]. split; [done|].
  rewrite last_snoc. split; [done|]. split; simpl; by rewrite Hseq.
Qed.

(** Between the connect and the replay the counter of a new process is 0: an
    update that arrives in that window gets number 1, whatever waits. *)
Lemma push_before_replay_repeats x d l t now at_ u :
  kept d → Forall2 same_row (rows_of d) (waiting l) → (1, t) ∈ waiting l → admissible (ERestart x) nothing →
  json_ok (AMap u) = true →
  ∃ m i, restored x d = Some m ∧ sessions m !! a = Some i ∧
    let warm := sup_connected (bt_wall x) 0 0 None i (sup_top (bt_mono x) (bt_host x) false i m) in
    sups warm !! i = Some {| pos := Warming false; backoff := 1 |} ∧
    let rows := rows_of (st (pushUpdate show jerr now at_ no_errors i u warm).2) in
    ∃ r r', r ∈ rows ∧ same_row r (1, t) ∧ last rows = Some r' ∧ same_row r' (1, doc now 1 u).
Proof.
  intros Hk HR Hin Hx Hj. destruct (restored_spec x d Hk) as (m & Hm & Hb & Hc & Hkern & Hq & Hkey).
  destruct Hb as (i & s & r & Hi & _ & Ho & Hs & Hnb & Hrow). exists m, i. split; [done|]. split; [done|]. cbn zeta.
  destruct (newborn_starts x m i s Hc Hkern Ho Hs Hnb Hx) as (Est & Ec & Ese & Esu & s' & Eo & Ea & En & Ech & Ecap).
  split; [done|]. set (warm := sup_connected _ _ _ _ _ _) in *.
  assert (can_push warm s') as Hcp.
  { constructor; [|rewrite En; unfold int64_max; lia|lia|rewrite Ech; simpl; lia].
    destruct Hrow as (Hr & _). apply row_of_Some in Hr as [Hr1 Hr2].
    apply existsb_exists. exists r. rewrite <-list_elem_of_In, Ea, Est. split; [done|]. by apply has_key_spec. }
  destruct (push_shape show jerr now at_ no_errors i s' u warm Eo Hcp Hj eq_refl) as (s2 & _ & _ & _ & Hst & _).
  rewrite Hst, Est. unfold rows_of. simpl. rewrite Hq, bfilter_app. simpl. rewrite Ea, String.eqb_refl.
  apply list_elem_of_lookup_1 in Hin as [j Hj'].
  apply Forall2_lookup_r with (i := j) (y := (1, t)) in HR; [|done]. destruct HR as (r0 & Hr0 & Hs0).
  exists r0. eexists. split; [apply elem_of_app; left; by eapply list_elem_of_lookup_2|]. split; [done|].
  rewrite last_snoc. split; [done|]. split; simpl; by rewrite En.
Qed.
End plane.

(** ** A run *)

Definition demo_machine : machine :=
  {| bt_clk _ := 0; bt_mono _ := 0%Q; bt_host := Lock.host0; bt_kern := kern0; bt_wall := 0 |}.

Definition demo_cfg : MTProto := MTProtoFromEnv (λ _, None).

Definition demo_pull (off : Q) : event := EPull (demo_env 9) (demo_req "" [] [("offset", AFloat off)]).

(** Two updates, a pull of both, a call of another session, a restart, a pull
    that acknowledges the first. *)
Definition demo_run : list event :=
  [EPush 5 6 upd_demo; EPush 7 8 upd_demo; demo_pull 1; EOtherPull "s2" (demo_env 9) (demo_req "" [] []);
   ERestart demo_machine; demo_pull 2].

Definition demo_boot : option Manager := boot toy_box demo_cfg "s1" demo_machine (st registered).

Lemma registered_kept : kept toy_box "s1" (st registered).
Proof.
  constructor; [vm_compute; repeat constructor; intros Hx; inversion Hx|].
  eexists. split; [vm_compute; reflexivity|]. split; [reflexivity|]. vm_compute. by eexists.
Qed.

Lemma toy_total r p : is_Some (Encrypt toy_box r p).
Proof. by eexists. Qed.

Lemma demo_machine_ok l : Z.of_nat (length (waiting l)) <= 5000 → admissible demo_cfg "s1" (ERestart demo_machine) l.
Proof. intros Hl. split; [simpl; lra|]. split; [done|]. split; [vm_compute; reflexivity|done]. Qed.

Lemma demo_pull_ok off l : off = 1%Q ∨ off = 2%Q → admissible demo_cfg "s1" (demo_pull off) l.
Proof.
  intros Hoff. split; [vm_compute; reflexivity|]. split.
  - destruct Hoff as [-> | ->]; eexists; (split; [vm_compute; reflexivity|unfold int64_min, int64_max; lia]).
  - split; [repeat constructor|]. split; [done|]. split; [done|]. apply Exists_cons_hd. left. simpl. lra.
Qed.


