(* ===== verification/Serve.v ===== *)
(** * The serving process (RunServe of both planes, internal/tracing)

    Both planes run the same life cycle: set up tracing, serve HTTP on one
    listener or two, and on SIGTERM or SIGINT drain the listeners for up to 25
    seconds and close the application.  The life cycle is written once, over
    the class [Plane] of what it needs of an application, with an instance per
    plane.  A process is a state machine fed by what happens to it: requests
    that arrive and finish, steps of background goroutines, signals, listener
    errors and the passing of time; RunServe's own progress ([settle]) follows
    each of them.  A hijacked WebSocket connection is not in flight: net/http
    neither waits for it nor closes it. *)
From Stdlib Require Import QArith Lqa String.
From stdpp Require Import base list strings gmap.
From S2P Require Import Prelude GoValue Sql Config.
From S2P Require Health Lock MTStore Maintenance BotSession BotApp MTSession MTApp.
Open Scope Z_scope.

(** ** Tracing *)

(** The global tracer provider. *)
Inductive provider := Noop | Batching (endpoint service version : string).

(** [new_exporter] and [new_resource] are the OpenTelemetry constructors: the
    text of their error. *)
Definition Setup (new_exporter : string → option string) (new_resource : string → string → option string)
    (endpoint plane : string) : string + provider :=
  if (endpoint =? "")%string then inr Noop else
  match new_exporter endpoint with
  | Some e => inl ("otel exporter: " +:+ e)
  | None =>
      match new_resource ("tggw-" +:+ plane) BotApp.version with
      | Some e => inl ("otel resource: " +:+ e)
      | None => inr (Batching endpoint ("tggw-" +:+ plane) BotApp.version)
      end
  end.

(** ** What the life cycle needs of an application *)

Class Plane (A : Type) := {
  plane : string;
  otelEndpoint : A → string;
  has_admin : A → bool;
  close : A → A
}.

(** ** The process *)

(** A listener's server: whether it takes connections, and the requests in it. *)
Record server := { listening : bool; inflight : nat }.

Inductive phase := Serving | DrainAdmin (deadline : Q) | DrainMain (deadline : Q) | Exited (err : option string).

Record proc (A : Type) := { app : A; srv : server; adminSrv : option server; ph : phase; clock : Q }.
Arguments app {A}. Arguments srv {A}. Arguments adminSrv {A}. Arguments ph {A}. Arguments clock {A}.

Inductive event (A : Type) :=
| Connect (admin : bool)
| Finish (admin : bool) (effect : A → A)
| Work (effect : A → A)
| Signal
| ListenReturned (admin : bool) (err : string)
| Clock (t : Q).
Arguments Connect {A}. Arguments Finish {A}. Arguments Work {A}. Arguments Signal {A}. Arguments ListenReturned {A}. Arguments Clock {A}.

Definition ErrServerClosed : string := "http: Server closed".

Definition grace : Q := 25.

Definition accept (s : server) : server := if listening s then {| listening := true; inflight := S (inflight s) |} else s.

Definition leave (s : server) : server := {| listening := listening s; inflight := pred (inflight s) |}.

(** What [http.Server.Shutdown] does first, and a listener that returned. *)
Definition shut (s : server) : server := {| listening := false; inflight := inflight s |}.

Section process.
Context `{P : Plane A}.

Definition set_app (a : A) (p : proc A) : proc A :=
  {| app := a; srv := srv p; adminSrv := adminSrv p; ph := ph p; clock := clock p |}.

Definition set_srv (s : server) (p : proc A) : proc A :=
  {| app := app p; srv := s; adminSrv := adminSrv p; ph := ph p; clock := clock p |}.

Definition set_admin (s : option server) (p : proc A) : proc A :=
  {| app := app p; srv := srv p; adminSrv := s; ph := ph p; clock := clock p |}.

Definition set_ph (x : phase) (p : proc A) : proc A :=
  {| app := app p; srv := srv p; adminSrv := adminSrv p; ph := x; clock := clock p |}.

Definition on_server (admin : bool) (f : server → server) (p : proc A) : proc A :=
  if admin then set_admin (f <$> adminSrv p) p else set_srv (f (srv p)) p.

Definition server_of (admin : bool) (p : proc A) : option server := if admin then adminSrv p else Some (srv p).

(** [Shutdown]: the admin server first, with the same deadline. *)
Definition begin_shutdown (p : proc A) : proc A :=
  let d := (clock p + grace)%Q in
  match adminSrv p with
  | Some s => set_ph (DrainAdmin d) (set_admin (Some (shut s)) p)
  | None => set_ph (DrainMain d) (set_srv (shut (srv p)) p)
  end.

(** A server's Shutdown returns when it is idle or the context expired. *)
Definition over (d : Q) (s : server) (p : proc A) : bool := (inflight s =? 0)%nat || qle d (clock p).

Definition advance (p : proc A) : proc A :=
  match ph p with
  | DrainAdmin d =>
      match adminSrv p with
      | Some s => if over d s p then set_ph (DrainMain d) (set_srv (shut (srv p)) p) else p
      | None => p
      end
  | DrainMain d => if over d (srv p) p then set_ph (Exited None) (set_app (close (app p)) p) else p
  | _ => p
  end.

Definition settle (p : proc A) : proc A := advance (advance p).

Definition happen (ev : event A) (p : proc A) : proc A :=
  match ev with
  | Connect admin => on_server admin accept p
  | Finish admin f =>
      match server_of admin p with
      | Some s => if (inflight s =? 0)%nat then p else set_app (f (app p)) (on_server admin leave p)
      | None => p
      end
  | Work f => set_app (f (app p)) p
  | Signal => match ph p with Serving => begin_shutdown p | _ => p end
  | ListenReturned true _ => on_server true shut p
  | ListenReturned false err =>
      let p := on_server false shut p in
      match ph p with
      | Serving => if (err =? ErrServerClosed)%string then begin_shutdown p else set_ph (Exited (Some err)) p
      | _ => p
      end
  | Clock t =>
      {| app := app p; srv := srv p; adminSrv := adminSrv p; ph := ph p;
         clock := if qlt (clock p) t then t else clock p |}
  end.

Definition step (ev : event A) (p : proc A) : proc A :=
  match ph p with Exited _ => p | _ => settle (happen ev p) end.

Definition run (es : list (event A)) (p : proc A) : proc A := fold_left (λ p ev, step ev p) es p.

Definition up : server := {| listening := true; inflight := 0 |}.

Definition RunServe new_exporter new_resource (now : Q) (a : A) : proc A :=
  {| app := a; srv := up; adminSrv := if has_admin a then Some up else None;
     ph := match Setup new_exporter new_resource (otelEndpoint a) plane with inl e => Exited (Some e) | inr _ => Serving end;
     clock := now |}.

(** ** Draining *)

Definition closed_and_idle (s : server) : Prop := listening s = false ∧ inflight s = 0%nat.

(** Where a process that got its signal is, for the deadline [d]. *)
Definition draining (d : Q) (p : proc A) : Prop :=
  match ph p with
  | Serving => False
  | DrainAdmin d' => d' = d ∧ (clock p < d)%Q ∧ ∃ s, adminSrv p = Some s ∧ listening s = false ∧ inflight s ≠ 0%nat
  | DrainMain d' => d' = d ∧ (clock p < d)%Q ∧ listening (srv p) = false ∧ inflight (srv p) ≠ 0%nat ∧
      (∀ s, adminSrv p = Some s → closed_and_idle s)
  | Exited e => e = None ∧ listening (srv p) = false ∧ (∀ s, adminSrv p = Some s → listening s = false) ∧
      ((clock p < d)%Q → inflight (srv p) = 0%nat ∧ ∀ s, adminSrv p = Some s → inflight s = 0%nat)
  end.

(** What holds between an event and the progress that follows it. *)
Definition loose (d : Q) (p : proc A) : Prop :=
  match ph p with
  | DrainAdmin d' => d' = d ∧ ∃ s, adminSrv p = Some s ∧ listening s = false
  | DrainMain d' => d' = d ∧ listening (srv p) = false ∧ (∀ s, adminSrv p = Some s → listening s = false) ∧
      ((clock p < d)%Q → ∀ s, adminSrv p = Some s → inflight s = 0%nat)
  | _ => False
  end.

Lemma over_cases d s p : (over d s p = true ∧ (inflight s = 0%nat ∨ (d <= clock p)%Q)) ∨ (over d s p = false ∧ inflight s ≠ 0%nat ∧ (clock p < d)%Q).
Proof.
  unfold over. destruct (Nat.eqb_spec (inflight s) 0); simpl; [by left; auto|].
  destruct (qle d (clock p)) eqn:E; [left|right].
  - split; [done|]. right. by apply Qle_bool_iff.
  - split_ands; [done|done|]. apply Qnot_le_lt. intros Hle%Qle_bool_iff. unfold qle in E. congruence.
Qed.

Lemma advance_main d p : loose d p → ph p = DrainMain d → draining d (advance p).
Proof.
  unfold loose. intros Hl E. unfold advance. rewrite E in *. destruct Hl as (_ & H1 & H2 & H3).
  destruct (over_cases d (srv p) p) as [[-> Ho]|(-> & Hn & Hc)]; unfold draining; simpl.
  - split_ands; [done|done|done|]. intros Hc. split; [|by apply H3]. destruct Ho as [Ho|Ho]; [done|lra].
  - rewrite E. split_ands; try done. intros s Hs. split; [by apply H2|by apply (H3 Hc)].
Qed.

Lemma advance_done d p : draining d p → advance p = p.
Proof.
  unfold draining, advance. destruct (ph p) as [|d'|d'|e] eqn:E; try done.
  - intros (-> & Hc & s & -> & _ & Hn). destruct (over_cases d s p) as [[_ [?|?]]|[-> _]]; [done|lra|done].
  - intros (-> & Hc & _ & Hn & _). destruct (over_cases d (srv p) p) as [[_ [?|?]]|[-> _]]; [done|lra|done].
Qed.

Lemma settle_draining d p : loose d p → draining d (settle p).
Proof.
  intros Hl. unfold settle. destruct (ph p) as [|d'|d'|e] eqn:E; [by unfold loose in Hl; rewrite E in Hl| | |by unfold loose in Hl; rewrite E in Hl].
  - unfold loose in Hl. rewrite E in Hl. destruct Hl as (-> & s & Es & Hs).
    assert (advance p = if over d s p then set_ph (DrainMain d) (set_srv (shut (srv p)) p) else p) as ->
      by (unfold advance; by rewrite E, Es).
    destruct (over_cases d s p) as [[-> Ho]|(-> & Hn & Hc)].
    + apply advance_main; [|done]. unfold loose. simpl. split_ands; [done|done|intros ? ?; congruence|].
      intros Hc t Ht. assert (t = s) as -> by congruence. destruct Ho; [done|lra].
    + assert (draining d p) as Hd by (unfold draining; rewrite E; split_ands; [done|done|by exists s]). by rewrite (advance_done d).
  - assert (d' = d) as -> by (unfold loose in Hl; rewrite E in Hl; tauto).
    pose proof (advance_main d p Hl E) as Hd. by rewrite (advance_done d).
Qed.

(** A closed listener stays closed and its requests only leave. *)
Definition shrinks (s s' : server) : Prop := listening s = false → listening s' = false ∧ (inflight s' <= inflight s)%nat.

Lemma accept_shrinks s : shrinks s (accept s).
Proof. intros Hl. unfold accept. rewrite Hl. auto. Qed.

Lemma leave_shrinks s : shrinks s (leave s).
Proof. intros Hl. simpl. split; [done|lia]. Qed.

Lemma shut_shrinks s : shrinks s (shut s).
Proof. intros Hl. simpl. split; [done|lia]. Qed.

Lemma refl_shrinks s : shrinks s s.
Proof. intros Hl. auto. Qed.

(** The servers of [p'] come from those of [p]. *)
Definition tighter (p p' : proc A) : Prop :=
  ph p' = ph p ∧ (clock p <= clock p')%Q ∧ shrinks (srv p) (srv p') ∧
  (∀ s, adminSrv p = Some s → is_Some (adminSrv p')) ∧
  (∀ s', adminSrv p' = Some s' → ∃ s, adminSrv p = Some s ∧ shrinks s s').

Lemma tighter_refl p : tighter p p.
Proof. unfold tighter. split_ands; [done|lra|apply refl_shrinks|eauto|]. intros s' Hs. exists s'. split; [done|apply refl_shrinks]. Qed.

Lemma tighter_app f p p' : tighter p p' → tighter p (set_app f p').
Proof. done. Qed.

Lemma on_server_tighter admin f p : (∀ s, shrinks s (f s)) → tighter p (on_server admin f p).
Proof.
  intros Hf. destruct admin; unfold on_server.
  - unfold tighter. split_ands; [done|simpl; lra|apply refl_shrinks| |]; simpl.
    + intros s ->. by eexists.
    + intros s' Hs. destruct (adminSrv p) as [s|]; [|done]. injection Hs as <-. by exists s.
  - unfold tighter. split_ands; [done|simpl; lra|apply Hf|eauto|]; simpl. intros s' Hs. exists s'. split; [done|apply refl_shrinks].
Qed.

Lemma happen_tighter ev p : ph p ≠ Serving → tighter p (happen ev p).
Proof.
  intros Hn. destruct ev as [ad|ad f|f| |ad err|t]; simpl.
  - apply on_server_tighter, accept_shrinks.
  - destruct (server_of ad p) as [s|]; [|apply tighter_refl]. destruct (_ =? _)%nat; [apply tighter_refl|].
    apply tighter_app, on_server_tighter, leave_shrinks.
  - apply tighter_app, tighter_refl.
  - destruct (ph p); [done|apply tighter_refl..].
  - destruct ad; [apply (on_server_tighter true), shut_shrinks|].
    pose proof (on_server_tighter false shut p shut_shrinks) as Ht. simpl ph. destruct (ph p); [done|done..].
  - destruct (tighter_refl p) as (H1 & _ & H2 & H3 & H4). unfold tighter. split_ands; try done. simpl. destruct (qltP (clock p) t); lra.
Qed.

Lemma happen_draining d ev p : draining d p → (∀ e, ph p ≠ Exited e) → loose d (happen ev p).
Proof.
  intros Hd Hn. assert (ph p ≠ Serving) as Hs by (intros E; unfold draining in Hd; by rewrite E in Hd).
  destruct (happen_tighter ev p Hs) as (Hp & Hc & Hm & Ha1 & Ha2). unfold draining, loose in *. rewrite Hp.
  destruct (ph p) as [|d'|d'|e]; [done| | |by destruct (Hn e)].
  - destruct Hd as (-> & _ & s & Es & Hl & _). split; [done|]. destruct (Ha1 s Es) as [s' Es'].
    exists s'. split; [done|]. destruct (Ha2 s' Es') as (t & Et & Ht). assert (t = s) as -> by congruence. by apply Ht.
  - destruct Hd as (-> & _ & Hl & _ & Hi). split; [done|]. split; [by apply Hm|].
    split; [|intros _]; intros s' Es'; destruct (Ha2 s' Es') as (t & Et & Ht); destruct (Hi t Et) as [Hl' Hz];
      destruct (Ht Hl'); [done|lia].
Qed.

Lemma step_draining d ev p : draining d p → draining d (step ev p).
Proof.
  intros Hd. unfold step. destruct (ph p) as [|d'|d'|e] eqn:E; [|by apply settle_draining, happen_draining; [|congruence]..|done].
  unfold draining in Hd. by rewrite E in Hd.
Qed.

Lemma run_draining d es p : draining d p → draining d (run es p).
Proof. revert p. induction es as [|ev es IH]; intros p Hd; [done|]. simpl. by apply IH, step_draining. Qed.

Lemma signal_draining p : ph p = Serving → draining (clock p + grace) (step Signal p).
Proof.
  intros E. unfold step. rewrite E. apply settle_draining. unfold happen. rewrite E. unfold begin_shutdown, loose.
  destruct (adminSrv p) as [s|] eqn:Es; simpl.
  - split; [done|]. by eexists.
  - rewrite Es. split_ands; [done|done|intros ? [=]|intros _ ? [=]].
Qed.

(** ** What the application goes through *)

(** Every effect of the run keeps [Q]. *)
Definition keeps (Q : A → Prop) (ev : event A) : Prop :=
  match ev with Finish _ f | Work f => ∀ a, Q a → Q (f a) | _ => True end.

(** An application that is open and fine, or was closed while it was. *)
Definition ended_well (Q : A → Prop) (p : proc A) : Prop :=
  match ph p with Exited None => ∃ a, Q a ∧ app p = close a | _ => Q (app p) end.

Lemma advance_well Q p : ended_well Q p → ended_well Q (advance p).
Proof.
  unfold ended_well, advance. destruct (ph p) as [|d|d|[e|]] eqn:E; rewrite ?E; try done.
  - destruct (adminSrv p) as [s|]; [|by rewrite E]. destruct (over _ _ _); simpl; [done|by rewrite E].
  - intros Hq. destruct (over _ _ _); simpl; [by exists (app p)|by rewrite E].
Qed.

Lemma begin_shutdown_keeps p : app (begin_shutdown p) = app p ∧ ∀ e, ph (begin_shutdown p) ≠ Exited e.
Proof. unfold begin_shutdown. by destruct (adminSrv p). Qed.

Lemma on_server_keeps admin f p : app (on_server admin f p) = app p ∧ ph (on_server admin f p) = ph p.
Proof. by destruct admin. Qed.

(** An event alone changes the application by its effect and never ends the
    process without an error. *)
Lemma happen_keeps Q ev p :
  keeps Q ev → Q (app p) → (∀ e, ph p ≠ Exited e) → Q (app (happen ev p)) ∧ ph (happen ev p) ≠ Exited None.
Proof.
  intros Hk Hq Hn. destruct ev as [ad|ad f|f| |ad err|t]; cbn [happen].
  - by destruct (on_server_keeps ad accept p) as [-> ->].
  - destruct (server_of ad p) as [s|]; [|done]. destruct (_ =? _)%nat; [done|]. cbn [app set_app ph].
    destruct (on_server_keeps ad leave p) as [_ ->]. split; [by apply Hk|done].
  - split; [by apply Hk|done].
  - destruct (begin_shutdown_keeps p) as [E1 E2]. destruct (ph p) eqn:E; [rewrite E1; auto|rewrite E; auto..].
  - destruct ad; [by destruct (on_server_keeps true shut p) as [-> ->]|].
    destruct (on_server_keeps false shut p) as [E1 E2]. destruct (begin_shutdown_keeps (on_server false shut p)) as [E3 E4].
    rewrite E2. destruct (ph p) eqn:E; [|rewrite E1, E2; auto..].
    destruct (_ =? _)%string; [rewrite E3, E1; auto|]. split; [by rewrite <-E1 in Hq|done].
  - done.
Qed.

Lemma step_well Q ev p : keeps Q ev → ended_well Q p → ended_well Q (step ev p).
Proof.
  intros Hk Hw. unfold step.
  assert ((∀ e, ph p ≠ Exited e) → ended_well Q (settle (happen ev p))) as Hgo.
  { intros Hn. assert (Q (app p)) as Hq by (unfold ended_well in Hw; destruct (ph p) as [| | |[]]; try done; by destruct (Hn None)).
    destruct (happen_keeps Q ev p Hk Hq Hn) as [H1 H2]. apply advance_well, advance_well. unfold ended_well.
    destruct (ph (happen ev p)) as [| | |[]]; done. }
  destruct (ph p); [by apply Hgo..|done].
Qed.

Lemma run_well Q es p : Forall (keeps Q) es → ended_well Q p → ended_well Q (run es p).
Proof. revert p. induction es as [|ev es IH]; intros p Hk Hw; [done|]. apply Forall_cons in Hk as [Hk1 Hk2]. simpl. apply IH; [done|]. by apply step_well. Qed.

(** ** Properties of the life cycle *)

Lemma settle_clock p : clock (settle p) = clock p.
Proof.
  assert (∀ p, clock (advance p) = clock p) as H by (intros q; unfold advance; repeat case_match; done).
  unfold settle. by rewrite !H.
Qed.

Lemma run_exited es p e : ph p = Exited e → run es p = p.
Proof. intros E. induction es as [|ev es IH]; [done|]. simpl. assert (step ev p = p) as -> by (unfold step; by rewrite E). done. Qed.

(** Once the deadline has passed the process is gone. *)
Lemma run_deadline d t es p : draining d p → Clock t ∈ es → (d <= t)%Q → ph (run es p) = Exited None.
Proof.
  intros Hd Hin Ht. apply list_elem_of_split in Hin as (es1 & es2 & ->). unfold run. rewrite fold_left_app. simpl.
  fold (run es1 p). set (p1 := run es1 p). assert (draining d p1) as H1 by by apply run_draining.
  pose proof (step_draining d (Clock t) p1 H1) as H2.
  assert (ph (step (Clock t) p1) = Exited None) as E.
  { unfold step in *. destruct (ph p1) as [| | |e] eqn:Ep; [by unfold draining in H1; rewrite Ep in H1| | |].
    3: { unfold draining in H1. rewrite Ep in *. by destruct H1 as (-> & _). }
    all: set (p2 := settle _) in *; assert (t <= clock p2)%Q as Hc by
      (unfold p2; rewrite settle_clock; simpl; destruct (qltP (clock p1) t); lra).
    all: unfold draining in H2; destruct (ph p2); [done|lra || (destruct H2 as (_ & H2 & _); lra)..|]; by destruct H2 as (-> & _). }
  fold (run es2 (step (Clock t) p1)). by rewrite (run_exited es2 _ None).
Qed.

(** What a signal leads to. *)
Lemma drain_spec (Q : A → Prop) p es :
  ph p = Serving → Q (app p) → Forall (keeps Q) es →
  let p' := run es (step Signal p) in
  ((∃ t, Clock t ∈ es ∧ (clock p + 25 <= t)%Q) → ph p' = Exited None) ∧
  (∀ e, ph p' ≠ Exited (Some e)) ∧
  (ph p' = Exited None →
     (∃ a, Q a ∧ app p' = close a) ∧
     listening (srv p') = false ∧ (∀ s, adminSrv p' = Some s → listening s = false) ∧
     ((clock p' < clock p + 25)%Q → inflight (srv p') = 0%nat ∧ ∀ s, adminSrv p' = Some s → inflight s = 0%nat)).
Proof.
  intros Hs Hq Hk p'. pose proof (run_draining _ es _ (signal_draining p Hs)) as Hd. fold p' in Hd.
  assert (ended_well Q p') as Hw.
  { apply run_well; [done|]. apply step_well; [done|]. unfold ended_well. by rewrite Hs. }
  split; [intros (t & Hin & Ht); apply (run_deadline (clock p + grace) t); [by apply signal_draining|done|done]|].
  unfold draining, grace in Hd. unfold ended_well in Hw. destruct (ph p') as [|d|d|e]; [done|done|done|].
  destruct Hd as (-> & H1 & H2 & H3). split; [done|]. intros _. by split_ands.
Qed.


Lemma settle_done d p : draining d p → settle p = p.
Proof. intros Hd. unfold settle. by rewrite !(advance_done d p Hd). Qed.

(** A busy admin server holds the shutdown up. *)
Definition admin_drain (s : server) (p : proc A) : proc A :=
  set_ph (DrainAdmin (clock p + grace)) (set_admin (Some (shut s)) p).

Lemma signal_busy_admin p s :
  ph p = Serving → adminSrv p = Some s → inflight s ≠ 0%nat → step Signal p = admin_drain s p.
Proof.
  intros E Es Hi. unfold step. rewrite E. unfold happen. rewrite E. unfold begin_shutdown. rewrite Es.
  apply (settle_done (clock p + grace)). unfold draining. simpl. split_ands; [done|unfold grace; lra|]. by exists (shut s).
Qed.

(** The consumer listener is open while the admin listener drains. *)
Lemma admin_drain_keeps_main_open p s :
  ph p = Serving → adminSrv p = Some s → inflight s ≠ 0%nat → listening (srv p) = true →
  inflight (srv (step (Connect false) (step Signal p))) = S (inflight (srv p)).
Proof.
  intros E Es Hi Hl. rewrite (signal_busy_admin p s) by done. unfold step. cbn [ph set_ph admin_drain happen on_server].
  rewrite (settle_done (clock p + grace)); [simpl; unfold accept; by rewrite Hl|].
  unfold draining. simpl. split_ands; [done|unfold grace; lra|]. by exists (shut s).
Qed.

(** Past the deadline the waits are over. *)
Lemma late_admin d s p :
  ph p = DrainAdmin d → adminSrv p = Some s → (d <= clock p)%Q → advance p = set_ph (DrainMain d) (set_srv (shut (srv p)) p).
Proof. intros E Es Hc. unfold advance, over. rewrite E, Es, qle_true by done. by rewrite orb_true_r. Qed.

Lemma late_main d p :
  ph p = DrainMain d → (d <= clock p)%Q → advance p = set_ph (Exited None) (set_app (close (app p)) p).
Proof. intros E Hc. unfold advance, over. rewrite E, qle_true by done. by rewrite orb_true_r. Qed.

(** One admin request that outlives the grace period uses it up: the consumer
    requests in flight get no time at all. *)
Lemma slow_admin_request_cuts_consumers p s :
  ph p = Serving → adminSrv p = Some s → inflight s ≠ 0%nat →
  let p' := run [Signal; Clock (clock p + 25)] p in
  ph p' = Exited None ∧ inflight (srv p') = inflight (srv p).
Proof.
  intros E Es Hi. simpl. rewrite (signal_busy_admin p s) by done. unfold step. cbn [ph set_ph admin_drain].
  set (p2 := happen _ _). assert (clock p + grace <= clock p2)%Q as Hc.
  { unfold p2. simpl. rewrite qlt_true by lra. unfold grace. lra. }
  unfold settle. rewrite (late_admin (clock p + grace) (shut s) p2) by done. rewrite (late_main (clock p + grace)) by done. done.
Qed.

(** A request that outlives the grace period, as a getUpdates call of up to 50
    seconds may, is cut off. *)
Lemma long_request_cut p :
  ph p = Serving → adminSrv p = None → inflight (srv p) ≠ 0%nat →
  let p' := run [Signal; Clock (clock p + 25)] p in
  ph p' = Exited None ∧ inflight (srv p') = inflight (srv p).
Proof.
  intros E Es Hi. simpl.
  assert (step Signal p = set_ph (DrainMain (clock p + grace)) (set_srv (shut (srv p)) p)) as ->.
  { unfold step. rewrite E. unfold happen. rewrite E. unfold begin_shutdown. rewrite Es. apply (settle_done (clock p + grace)).
    unfold draining. cbn [ph set_ph clock set_srv srv shut listening inflight adminSrv]. rewrite Es. split_ands; try done. unfold grace. lra. }
  unfold step. cbn [ph set_ph]. set (p2 := happen _ _). assert (clock p + grace <= clock p2)%Q as Hc.
  { unfold p2. simpl. rewrite qlt_true by lra. unfold grace. lra. }
  unfold settle. rewrite (late_main (clock p + grace) p2) by done. done.
Qed.

(** A listener that fails ends the process at once, without [Close]. *)
Lemma listener_error_skips_close p err :
  ph p = Serving → err ≠ ErrServerClosed →
  ph (step (ListenReturned false err) p) = Exited (Some err) ∧ app (step (ListenReturned false err) p) = app p.
Proof.
  intros E Hne. unfold step. rewrite E. cbn [happen on_server]. change (ph (set_srv _ p)) with (ph p). rewrite E.
  apply String.eqb_neq in Hne as ->. done.
Qed.

(** An admin listener that fails is noticed by nobody: the process goes on
    serving without its operator surface. *)
Lemma admin_listener_error_unnoticed p err :
  ph p = Serving → ph (step (ListenReturned true err) p) = Serving ∧
  app (step (ListenReturned true err) p) = app p ∧ srv (step (ListenReturned true err) p) = srv p ∧
  ∀ s, adminSrv (step (ListenReturned true err) p) = Some s → listening s = false.
Proof.
  intros E. unfold step. rewrite E. cbn [happen on_server]. set (p1 := set_admin _ p).
  assert (settle p1 = p1) as ->.
  { assert (advance p1 = p1) as E1 by (unfold advance, p1; cbn [ph set_admin]; by rewrite E). unfold settle. by rewrite !E1. }
  unfold p1. split_ands; [done|done|done|]. cbn [adminSrv set_admin]. intros s. destruct (adminSrv p); [|done]. by intros [= <-].
Qed.
End process.

(** ** The Bot API plane *)

#[global] Instance bot_plane : Plane BotApp.App := {|
  plane := "botapi";
  otelEndpoint a := OTELEndpoint (BotSession.cfg (BotApp.Mgr a));
  has_admin a := 0 <? AdminPort (BotSession.cfg (BotApp.Mgr a));
  close := BotApp.Close
|}.

(** Tearing sessions down leaves the table alone and stops their pollers. *)
Lemma teardown_all_pollers (l : list (string * nat)) m :
  BotSession.mgr_ok m → ∀ gone : list nat,
  (∀ c p, BotSession.pollers m !! c = Some p → c ∉ BotSession.cancelled m → BotSession.p_sess p ∉ gone) →
  let m' := fold_left (λ m kv, match BotSession.objs m !! kv.2 with
                               | Some s => BotSession.teardown kv.2 s m | None => m end) l m in
  BotSession.mgr_ok m' ∧ BotSession.sessions m' = BotSession.sessions m ∧
  ∀ c p, BotSession.pollers m' !! c = Some p → c ∉ BotSession.cancelled m' →
    BotSession.p_sess p ∉ gone ∧ BotSession.p_sess p ∉ l.*2.
Proof.
  revert m. induction l as [|[a i] l IH]; intros m Hm dn Hd; cbn [fold_left].
  { split_ands; [done|done|]. intros c p Hc Hn. split; [by eapply Hd|]. by intros ?%elem_of_nil. }
  destruct (BotSession.objs m !! (a, i).2) as [s|] eqn:E; simpl in E.
  - destruct (BotSession.teardown_ok i s m Hm E) as (Hm1 & Hi & Hs & _). simpl.
    destruct (IH (BotSession.teardown i s m) Hm1 (i :: dn)) as (H1 & H2 & H3).
    { intros c p Hc Hn. apply not_elem_of_cons. split; [by eapply Hi|].
      apply (Hd c p); unfold BotSession.teardown, BotSession.do_cancel in *;
        destruct (BotSession.pushCancel s), (BotSession.pollCancel s); simpl in *; set_solver. }
    split_ands; [done|congruence|]. intros c p Hc Hn. destruct (H3 c p Hc Hn) as [[G1 G2]%not_elem_of_cons G3].
    split; [done|]. by apply not_elem_of_cons.
  - destruct (IH m Hm dn Hd) as (H1 & H2 & H3). split_ands; [done|done|]. intros c p Hc Hn.
    destruct (H3 c p Hc Hn) as [G1 G2]. split; [done|]. apply not_elem_of_cons. split; [|done]. simpl.
    intros <-. destruct (BotSession.ok_live _ H1 c p Hc Hn) as (s & Hs & _ & Ht). rewrite H2 in Ht.
    destruct (BotSession.ok_table _ Hm _ _ Ht) as (s0 & Hs0 & _). congruence.
Qed.

Lemma bot_close_pollers a :
  BotSession.mgr_ok (BotApp.Mgr a) → BotApp.closed a = false →
  ∀ c p, BotSession.pollers (BotApp.Mgr (BotApp.Close a)) !! c = Some p →
    c ∈ BotSession.cancelled (BotApp.Mgr (BotApp.Close a)).
Proof.
  intros Hm Hc c p. unfold BotApp.Close. rewrite Hc. cbn [BotApp.Mgr]. unfold BotSession.Shutdown.
  destruct (teardown_all_pollers (map_to_list (BotSession.sessions (BotApp.Mgr a))) (BotApp.Mgr a) Hm [])
    as (H1 & H2 & H3); [intros; by apply not_elem_of_nil|].
  set (m' := fold_left _ _ _) in *. cbn [BotSession.pollers BotSession.cancelled BotSession.set_typing]. intros Hp.
  destruct (decide (c ∈ BotSession.cancelled m')) as [|Hn]; [done|]. exfalso.
  destruct (H3 c p Hp Hn) as [_ Hl]. destruct (BotSession.ok_live _ H1 c p Hp Hn) as (s & _ & _ & Ht). rewrite H2 in Ht.
  apply Hl. apply list_elem_of_fmap. exists (BotSession.Alias s, BotSession.p_sess p). split; [done|].
  by apply elem_of_map_to_list.
Qed.

(** ** The MTProto plane *)
Module MT.
Import MTSession.

(** One session's teardown. *)
Lemma teardown_at i s m :
  objs m !! i = Some s →
  ∃ s', objs (teardown i s m) = <[i := s']> (objs m) ∧ Alias s' = Alias s ∧ stopSupervisor s' = true ∧
    sessionLock s' = None ∧ client s' ≠ Some true ∧
    st (teardown i s m) = st m ∧ sessions (teardown i s m) = sessions m ∧ cfg (teardown i s m) = cfg m ∧
    kern (teardown i s m) = match sessionLock s with Some l => (Lock.Release l (kern m)).2 | None => kern m end.
Proof.
  intros Ho. unfold teardown, disconnect, upd_obj. cbn [objs set_obj]. rewrite lookup_insert_eq.
  set (s1 := match client _ with Some _ => _ | None => _ end).
  assert (Alias s1 = Alias s ∧ stopSupervisor s1 = true ∧ sessionLock s1 = sessionLock s ∧ client s1 ≠ Some true) as (E1 & E2 & E3 & E4).
  { unfold s1. cbn [client put_stop setState]. destruct (client s) eqn:Ec; split_ands; simpl; rewrite ?Ec; done. }
  clearbody s1. unfold releaseLock. cbn [objs set_obj]. rewrite lookup_insert_eq, E3.
  exists (put_lock None s1). destruct (sessionLock s); simpl; rewrite !insert_insert_eq; split_ands; done.
Qed.

Lemma release_free l k p : Lock.holder_of p k = None → Lock.holder_of p (Lock.Release l k).2 = None.
Proof.
  intros Hp. unfold Lock.Release. destruct (Lock.fd l); [|done]. cbn [snd]. rewrite Lock.unlock_holder. by destruct (decide _).
Qed.

Definition torn (s : Session) : Prop := stopSupervisor s = true ∧ sessionLock s = None ∧ client s ≠ Some true.

Definition tear (m : Manager) (kv : string * nat) : Manager :=
  match objs m !! kv.2 with Some s => teardown kv.2 s m | None => m end.

(** What stays torn down and free. *)
Lemma tear_keeps l m :
  st (fold_left tear l m) = st m ∧
  (∀ p, Lock.holder_of p (kern m) = None → Lock.holder_of p (kern (fold_left tear l m)) = None) ∧
  (∀ i s, objs m !! i = Some s → torn s → ∃ s', objs (fold_left tear l m) !! i = Some s' ∧ Alias s' = Alias s ∧ torn s').
Proof.
  revert m. induction l as [|[a j] l IH]; intros m; cbn [fold_left]; [split_ands; [done|done|eauto]|].
  destruct (IH (tear m (a, j))) as (H1 & H2 & H3). unfold tear in *. simpl in *.
  destruct (objs m !! j) as [t|] eqn:Ej; [|done].
  destruct (teardown_at j t m Ej) as (t' & Eo & Ea & E1 & E2 & E3 & E4 & E5 & E6 & E7). split_ands.
  - congruence.
  - intros p Hp. apply H2. rewrite E7. destruct (sessionLock t); [by apply release_free|done].
  - intros i s Hi Ht. rewrite Eo in H3. destruct (decide (j = i)) as [<-|Hne].
    + assert (t = s) as -> by congruence. destruct (H3 j t') as (s' & G1 & G2 & G3); [by rewrite lookup_insert_eq|done|].
      exists s'. split_ands; [done|congruence|done].
    + apply H3; [by rewrite lookup_insert_ne|done].
Qed.

Lemma tear_all l m a i s :
  minv m → (a, i) ∈ l → objs m !! i = Some s →
  (∃ s', objs (fold_left tear l m) !! i = Some s' ∧ Alias s' = Alias s ∧ torn s') ∧
  (∀ lk, sessionLock s = Some lk → Lock.holder_of (Lock.Path lk) (kern (fold_left tear l m)) = None).
Proof.
  revert m s. induction l as [|[b j] l IH]; intros m s Hm Hin Ho; [by apply elem_of_nil in Hin|]. cbn [fold_left].
  destruct (decide (i = j)) as [<-|Hne].
  - assert (tear m (b, i) = teardown i s m) as -> by (unfold tear; simpl; by rewrite Ho).
    destruct (teardown_at i s m Ho) as (t' & Eo & Ea & E1 & E2 & E3 & E4 & E5 & E6 & E7).
    destruct (tear_keeps l (teardown i s m)) as (_ & H2 & H3). split.
    + destruct (H3 i t') as (s' & G1 & G2 & G3); [by rewrite Eo, lookup_insert_eq|done|]. exists s'. split_ands; [done|congruence|done].
    + intros lk Hlk. apply H2. rewrite E7, Hlk. destruct (iv_own _ Hm i s lk Ho Hlk) as (_ & _ & [d Hd]).
      unfold Lock.Release. rewrite Hd. cbn [snd]. rewrite Lock.unlock_holder, decide_True; [done|]. split; [done|].
      apply (Lock.ok_held _ (iv_lock _ Hm) i lk d); [|done]. simpl. unfold locks. by rewrite lookup_omap, Ho.
  - apply elem_of_cons in Hin as [[= -> ->]|Hin]; [done|]. unfold tear at 2 4. simpl.
    destruct (objs m !! j) as [t|] eqn:Ej; [|by apply IH].
    destruct (teardown_at j t m Ej) as (t' & Eo & _). apply IH; [by apply teardown_inv|done|].
    by rewrite Eo, lookup_insert_ne.
Qed.

(** ** The final snapshot *)

Definition row (a : string) (m : Manager) : option MTStore.session_row :=
  row_of MTStore.s_alias a (MTStore.sessions (st m)).

(** A session whose state the snapshot writes. *)
Definition snapshot (p : MTStore.MTState) (s : Session) : bool :=
  bool_decide (state s = StateLive) && bool_decide (is_Some (client s))
  && (negb (MTStore.PTS p =? 0) || negb (MTStore.QTS p =? 0)).

Definition persist (f : nat → faults) (state_of : nat → MTStore.MTState) (m : Manager) (kv : string * nat) : Manager :=
  match objs m !! kv.2 with
  | Some s =>
      if snapshot (state_of kv.2) s
      then set_st m (default (st m) (MTStore.SaveState (f kv.2) (Alias s) (state_of kv.2) (st m))) else m
  | None => m
  end.

Lemma persist_store f state_of l m : ∃ d, fold_left (persist f state_of) l m = set_st m d.
Proof.
  revert m. induction l as [|kv l IH]; intros m; cbn [fold_left]; [exists (st m); by destruct m|].
  destruct (IH (persist f state_of m kv)) as [d ->]. unfold persist. destruct (objs m !! kv.2) as [s|]; [|by exists d].
  destruct (snapshot _ _); by exists d.
Qed.

Lemma save_row f a b p d :
  row_of MTStore.s_alias a (MTStore.sessions (default d (MTStore.SaveState f b p d))) =
  if bool_decide (a = b) && negb (f 0%nat) then MTStore.put_state p <$> row_of MTStore.s_alias a (MTStore.sessions d)
  else row_of MTStore.s_alias a (MTStore.sessions d).
Proof.
  unfold MTStore.SaveState. destruct (f 0%nat); simpl; [by rewrite andb_false_r|]. rewrite andb_true_r.
  rewrite row_of_update by done. destruct (row_of MTStore.s_alias a (MTStore.sessions d)) as [r|] eqn:E; simpl; [|by destruct (bool_decide _)].
  apply row_of_Some in E as [_ <-]. unfold has_key. destruct (decide (MTStore.s_alias r = b)) as [->|Hne];
    [by rewrite !bool_decide_true|by rewrite !bool_decide_false].
Qed.

(** Sessions named by the table keep their alias. *)
Definition named (l : list (string * nat)) (m : Manager) : Prop :=
  ∀ a i s, (a, i) ∈ l → objs m !! i = Some s → Alias s = a.

Lemma persist_objs' f state_of m kv : objs (persist f state_of m kv) = objs m.
Proof. unfold persist. destruct (objs m !! kv.2) eqn:E; [|done]. by destruct (snapshot _ _). Qed.

Lemma persist_other f state_of l m a :
  named l m → a ∉ l.*1 → row a (fold_left (persist f state_of) l m) = row a m.
Proof.
  revert m. induction l as [|[b j] l IH]; intros m Hn Ha; [done|]. cbn [fold_left]. csimpl in Ha.
  apply not_elem_of_cons in Ha as [Ha Hl]. rewrite IH; [|intros x i s Hin; rewrite persist_objs'; apply Hn; set_solver|done].
  unfold persist. simpl. destruct (objs m !! j) as [s|] eqn:E; [|done]. destruct (snapshot _ _); [|done].
  assert (Alias s = b) as -> by (apply (Hn b j s); [set_solver|done]). unfold row. simpl. rewrite save_row. by rewrite bool_decide_false.
Qed.

Lemma persist_saves f state_of l m a i s r :
  named l m → NoDup l.*1 → (a, i) ∈ l → objs m !! i = Some s → snapshot (state_of i) s = true → f i 0%nat = false →
  row a m = Some r → MTStore.s_state <$> row a (fold_left (persist f state_of) l m) = Some (state_of i).
Proof.
  revert m r. induction l as [|[b j] l IH]; intros m r Hn Hnd Hin Ho Hs Hf Hr; [by apply elem_of_nil in Hin|].
  cbn [fold_left]. csimpl in Hnd. apply NoDup_cons in Hnd as [Hb Hnd].
  assert (named l (persist f state_of m (b, j))) as Hn' by (intros x y t Hxy; rewrite persist_objs'; apply Hn; set_solver).
  apply elem_of_cons in Hin as [[= <- <-]|Hin].
  - rewrite persist_other by done. unfold persist. simpl. rewrite Ho, Hs.
    assert (Alias s = a) as -> by (apply (Hn a i s); [set_solver|done]). unfold row in *. cbn [st set_st].
    rewrite save_row, Hr, Hf. by rewrite bool_decide_true.
  - assert (a ≠ b) as Hab by (intros ->; apply Hb; apply list_elem_of_fmap; by exists (b, i)).
    apply (IH _ r); try done; [by rewrite persist_objs'|].
    unfold persist. simpl. destruct (objs m !! j) as [t|] eqn:E; [|done]. destruct (snapshot (state_of j) t); [|done].
    assert (Alias t = b) as -> by (apply (Hn b j t); [set_solver|done]). unfold row in *. cbn [st set_st].
    rewrite save_row. by rewrite bool_decide_false.
Qed.

(** What closing does to every session of the table. *)
Lemma close_spec f state_of m a i s :
  minv m → sessions m !! a = Some i → objs m !! i = Some s →
  let m' := MTApp.Close f state_of m in
  (∃ s', objs m' !! i = Some s' ∧ Alias s' = a ∧ torn s') ∧
  (∀ lk, sessionLock s = Some lk → Lock.holder_of (Lock.Path lk) (kern m') = None) ∧
  (snapshot (state_of i) s = true → f i 0%nat = false → is_Some (row a m) → MTStore.s_state <$> row a m' = Some (state_of i)).
Proof.
  intros Hm Ht Ho. cbn zeta. unfold MTApp.Close, Shutdown. fold tear.
  change (PersistStates f state_of m) with (fold_left (persist f state_of) (map_to_list (sessions m)) m).
  destruct (persist_store f state_of (map_to_list (sessions m)) m) as [d Ed]. rewrite Ed. cbn [sessions set_st].
  set (l := map_to_list (sessions m)) in *.
  assert ((a, i) ∈ l) as Hin by (by apply elem_of_map_to_list).
  assert (minv (set_st m d)) as Hm' by (by eapply minv_shape).
  assert (Alias s = a) as Ha by (destruct (iv_table _ Hm a i Ht) as (s0 & E0 & <-); congruence).
  change (λ (m0 : Manager) (kv : string * nat), match objs m0 !! kv.2 with Some s0 => teardown kv.2 s0 m0 | None => m0 end) with tear.
  destruct (tear_all l (set_st m d) a i s Hm' Hin Ho) as [H1 H2]. rewrite Ha in H1. split; [done|]. split; [done|].
  intros Hs Hf [r Hr]. destruct (tear_keeps l (set_st m d)) as [E _]. unfold row. rewrite E.
  change (MTStore.s_state <$> row a (set_st m d) = Some (state_of i)). rewrite <-Ed.
  apply (persist_saves f state_of l m a i s r); try done; [|apply NoDup_fst_map_to_list].
  intros x y t Hxy%elem_of_map_to_list Hy. destruct (iv_table _ Hm x y Hxy) as (s0 & E0 & <-). congruence.
Qed.
End MT.

(** [f] and [state_of]: the faults and answers of the final snapshot. *)
Definition mt_plane {C} (f : nat → faults) (state_of : nat → MTStore.MTState) : Plane (MTApp.App C) := {|
  plane := "mtproto";
  otelEndpoint a := MOTELEndpoint (MTSession.cfg (MTApp.Mgr a));
  has_admin a := 0 <? MAdminPort (MTSession.cfg (MTApp.Mgr a));
  close a := MTApp.set_mgr (MTApp.Close f state_of (MTApp.Mgr a)) a
|}.

(** One tick of the MTProto plane's maintenance loop; [None] is its panic. *)
Definition mt_maintenance_tick (f fb : nat → faults) (now : Z) (ts : string) (pid : Z) (c : MTProto) (h : Health.Storage.t)
    (fs : Maintenance.dir) : option (Health.Storage.t * Maintenance.dir) :=
  let st := MStorage c in
  if qle (MaintenanceInterval st) 0 then Some (h, fs) else
  Maintenance.MaintenancePass f fb now ts pid [MDataDir c +:+ "/mtgateway.db"] (MDataDir c +:+ "/backups")
    (BackupKeep st) (BackupInterval st) (Some Maintenance.delete_old_audit) (AuditRetentionDays st) h fs.



(** ** Runs *)

Definition mt_demo_app : MTApp.App unit := {|
  MTApp.Mgr := MTSession.live; MTApp.Boot := {| Health.BootTracker.Path := ""; Health.BootTracker.WindowS := 0; Health.BootTracker.MaxBoots := 0 |};
  MTApp.boots := None; MTApp.SafeMode := false; MTApp.beat_last := 0; MTApp.world := tt |}.

Definition demo_state : MTStore.MTState := {| MTStore.PTS := 7; MTStore.QTS := 0; MTStore.Date := 0; MTStore.Seq := 0 |}.

(** An update arrives while the process drains. *)
Definition demo_events : list (event (MTApp.App unit)) :=
  [Connect false; Work (λ a, MTApp.set_mgr (MTSession.disconnect 5 (MTApp.Mgr a)) a); Clock 60].

Lemma live_inv : MTSession.minv MTSession.live.
Proof.
  apply MTSession.sup_warmed_inv, MTSession.sup_connected_inv.
  eapply MTSession.reachable_inv; [apply MTSession.kern0_ok|apply MTSession.connecting_reached].
Qed.

Lemma demo_keeps : Forall (keeps (λ a : MTApp.App unit, MTSession.minv (MTApp.Mgr a))) demo_events.
Proof. constructor; [done|]. constructor; [|constructor; [done|constructor]]. intros a Ha. by apply MTSession.disconnect_inv. Qed.

Definition mt_demo_proc : proc (MTApp.App unit) :=
  RunServe (P := mt_plane (λ _, no_faults) (λ _, demo_state)) (λ _, None) (λ _ _, None) 0 mt_demo_app.

Definition mt_demo_end : proc (MTApp.App unit) :=
  run (P := mt_plane (λ _, no_faults) (λ _, demo_state)) demo_events
    (step (P := mt_plane (λ _, no_faults) (λ _, demo_state)) Signal mt_demo_proc).

Lemma demo_deadline : ∃ t, Clock t ∈ demo_events ∧ (clock mt_demo_proc + 25 <= t)%Q.
Proof. exists 60%Q. split; [apply elem_of_cons; right; apply elem_of_cons; right; by apply list_elem_of_singleton|]. simpl. lra. Qed.



(** The session really was live, held its lock and is saved. *)
Lemma mt_demo_end_saved :
  Lock.holder_of "/data/sessions/s1.lock" (MTSession.kern MTSession.live) = Some 0%nat ∧
  Lock.holder_of "/data/sessions/s1.lock" (MTSession.kern (MTApp.Mgr (app mt_demo_end))) = None ∧
  MTStore.s_state <$> MT.row "s1" (MTApp.Mgr (app mt_demo_end)) = Some demo_state.
Proof. split_ands; vm_compute; reflexivity. Qed.

Definition bot_demo_proc : proc BotApp.App := RunServe (λ _, None) (λ _ _, None) 0 BotApp.demo_app.

Lemma bot_demo_ok : BotSession.mgr_ok (BotApp.Mgr BotApp.demo_app).
Proof. apply BotSession.Attach_ok, BotSession.NewManager_ok. Qed.

