(* ===== verification/PyFormat.v ===== *)
(** * The message formatter (internal/mtproto/pyformat/pyformat.go)

    Pyrogram's parse modes: a markdown pass that rewrites text to HTML and an
    HTML pass that turns tags into spans and the spans into builder tokens.
    Text is bytes; [runes] decodes UTF-8 as Go does.  gotd's entity builder is
    third-party code: the tokens are the calls it receives, and [complete], its
    rendering of them, is an argument.  Standard-library tables the code only
    passes text through are arguments too: [unescape] (html.UnescapeString),
    [quote] (the verb %q), [sscan] (fmt.Sscan into an int64) and [shuffle], the
    order in which a Go map is iterated. *)
From Stdlib Require Import QArith Ascii String.
From stdpp Require Import base list strings gmap sorting.
From S2P Require Import Prelude GoValue Crypto MTClient.
Open Scope Z_scope.

(** ** Bytes *)

(** The first occurrence of [sep]: what precedes and what follows it. *)
Fixpoint cut_str (sep s : string) : option (string * string) :=
  if has_prefix sep s then Some ("", sdrop (String.length sep) s)
  else match s with
       | EmptyString => None
       | String c s' => match cut_str sep s' with Some (a, b) => Some (String c a, b) | None => None end
       end.

(** The longest prefix of bytes satisfying [p], and the rest. *)
Fixpoint break_at (p : ascii → bool) (s : string) : string * string :=
  match s with
  | String c s' => if p c then let '(a, b) := break_at p s' in (String c a, b) else ("", s)
  | EmptyString => ("", s)
  end.

Definition newline : ascii := chr 10.

Definition isSpace (c : ascii) : bool := (code c =? 32) || ((9 <=? code c) && (code c <=? 13)).

Definition is_alpha (c : ascii) : bool := ((97 <=? code c) && (code c <=? 122)) || ((65 <=? code c) && (code c <=? 90)).

Definition isWordByte (c : ascii) : bool := (c =? "_")%char || is_alpha c || is_digit c.

Definition isDigits (s : string) : bool := negb (s =? "")%string && all_digits s.

Definition replaceOnceFrom (s old new : string) (start : nat) : string :=
  if (String.length s <? start)%nat then s
  else match cut_str old (sdrop start s) with
       | None => s
       | Some (a, b) => stake start s +:+ a +:+ new +:+ b
       end.

Definition replaceOnce (s old new : string) : string := replaceOnceFrom s old new 0.

(** [strings.ReplaceAll] for a non-empty [old]. *)
Fixpoint replace_all (fuel : nat) (s old new : string) : string :=
  match fuel with
  | O => s
  | S n => match cut_str old s with None => s | Some (a, b) => a +:+ new +:+ replace_all n b old new end
  end.

Definition ReplaceAll (s old new : string) : string := replace_all (String.length s) s old new.

(** [strings.Split] at newlines, and [strings.Join] with them. *)
Fixpoint split_lines (s : string) : list string :=
  match s with
  | EmptyString => [""]
  | String c s' =>
      if (c =? newline)%char then "" :: split_lines s'
      else match split_lines s' with l :: ls => String c l :: ls | [] => [String c ""] end
  end.

Definition join_lines (l : list string) : string := String.concat (String newline "") l.

(** [html.EscapeString]. *)
Definition escape1 (c : ascii) : string :=
  if (c =? "&")%char then "&amp;" else if (c =? "'")%char then "&#39;" else if (c =? "<")%char then "&lt;"
  else if (c =? ">")%char then "&gt;" else if (code c =? 34) then "&#34;" else String c "".

Fixpoint EscapeString (s : string) : string :=
  match s with EmptyString => "" | String c s' => escape1 c +:+ EscapeString s' end.

(** ** Runes *)

Definition RuneError : Z := 65533.

Definition between (lo hi : Z) (c : ascii) : bool := (lo <=? code c) && (code c <=? hi).

(** The second byte's range depends on the first one (no overlong forms, no
    surrogates, nothing above U+10FFFF). *)
Definition second3 (a : Z) : ascii → bool :=
  between (if a =? 224 then 160 else 128) (if a =? 237 then 159 else 191).

Definition second4 (a : Z) : ascii → bool :=
  between (if a =? 240 then 144 else 128) (if a =? 244 then 143 else 191).

(** [[]rune(s)]: an invalid byte is one [RuneError]. *)
Fixpoint runes (s : string) : list Z :=
  match s with
  | EmptyString => []
  | String c1 s1 =>
      let a := code c1 in
      if a <? 128 then a :: runes s1 else
      match s1 with
      | EmptyString => [RuneError]
      | String c2 s2 =>
          if between 194 223 c1 && between 128 191 c2 then ((a - 192) * 64 + (code c2 - 128)) :: runes s2 else
          match s2 with
          | EmptyString => RuneError :: runes s1
          | String c3 s3 =>
              if between 224 239 c1 && second3 a c2 && between 128 191 c3
              then ((a - 224) * 4096 + (code c2 - 128) * 64 + (code c3 - 128)) :: runes s3 else
              match s3 with
              | EmptyString => RuneError :: runes s1
              | String c4 s4 =>
                  if between 240 244 c1 && second4 a c2 && between 128 191 c3 && between 128 191 c4
                  then ((a - 240) * 262144 + (code c2 - 128) * 4096 + (code c3 - 128) * 64 + (code c4 - 128)) :: runes s4
                  else RuneError :: runes s1
              end
          end
      end
  end.

Definition scalar (r : Z) : bool := ((0 <=? r) && (r <? 55296)) || ((57344 <=? r) && (r <=? 1114111)).

(** [string(r)]. *)
Definition encode_rune (r : Z) : string :=
  let r := if scalar r then r else RuneError in
  if r <? 128 then String (chr r) ""
  else if r <? 2048 then String (chr (192 + r / 64)) (String (chr (128 + r mod 64)) "")
  else if r <? 65536 then
    String (chr (224 + r / 4096)) (String (chr (128 + r / 64 mod 64)) (String (chr (128 + r mod 64)) ""))
  else String (chr (240 + r / 262144)) (String (chr (128 + r / 4096 mod 64))
         (String (chr (128 + r / 64 mod 64)) (String (chr (128 + r mod 64)) ""))).

Fixpoint encode (l : list Z) : string := match l with [] => "" | r :: l' => encode_rune r +:+ encode l' end.

(** ** The markdown pass *)

Inductive Mode := ModeCombined | ModeMarkdown | ModeHTML | ModeDisabled.

#[export] Instance Mode_eq_dec : EqDecision Mode.
Proof. solve_decision. Defined.

Definition ModeFromName (name : string) : Mode :=
  let n := to_lower (trim_space name) in
  if smem n ["markdown"; "md"] then ModeMarkdown
  else if (n =? "html")%string then ModeHTML
  else if smem n ["disabled"; "none"] then ModeDisabled
  else ModeCombined.

Definition preDelim : string := "```".

Definition codeDelim : string := "`".

(** [markdownRe]: the alternatives in order. *)
Definition delim_at (s : string) : option string :=
  find (λ d, has_prefix d s) [preDelim; codeDelim; "~~"; "--"; "__"; "**"; "||"].

Fixpoint delims (skip : nat) (s : string) : list string :=
  match s with
  | EmptyString => []
  | String _ s' =>
      match skip with
      | S k => delims k s'
      | O => match delim_at s with Some d => d :: delims (String.length d - 1) s' | None => delims 0 s' end
      end
  end.

Definition tag_of (delim : string) : string :=
  if (delim =? "**")%string then "b" else if (delim =? "__")%string then "i" else if (delim =? "--")%string then "u"
  else if (delim =? "~~")%string then "s" else if (delim =? codeDelim)%string then "code"
  else if (delim =? preDelim)%string then "pre" else "spoiler".

(** [codeTagRe]: sections on one line are replaced by numbered keys. *)
Fixpoint code_sections (fuel : nat) (n : Z) (s : string) : string * list (string * string) :=
  match fuel with
  | O => (s, [])
  | S fuel' =>
      match cut_str "<code>" s with
      | None => (s, [])
      | Some (a, b) =>
          match cut_str "</code>" b with
          | None => (s, [])
          | Some (body, rest) =>
              match cut_str (String newline "") body with
              | Some _ => let '(t, l) := code_sections fuel' n b in (a +:+ "<code>" +:+ t, l)
              | None =>
                  let key := "{CODE_SECTION_" +:+ itoa n +:+ "}" in
                  let '(t, l) := code_sections fuel' (n + 1) rest in
                  (a +:+ key +:+ t, (key, "<code>" +:+ body +:+ "</code>") :: l)
              end
          end
      end
  end.

Definition quote_line (st : list string * bool) (line : string) : list string * bool :=
  let '(out, inQuote) := st in
  if has_prefix ">" line then
    if inQuote then (out ++ [trim_space (sdrop 1 line)], true)
    else (out ++ [trim_space ("<blockquote>" +:+ trim_prefix ">" (trim_prefix "> " line))], true)
  else if has_prefix "**>" line then
    if inQuote then (out ++ [trim_space (sdrop 3 line)], true)
    else (out ++ [trim_space ("<blockquote expandable>" +:+ trim_prefix "**>" (trim_prefix "**> " line))], true)
  else (out ++ [if inQuote then "</blockquote>" +:+ line else line], false).

(** [out[len(out)-1] += suffix]. *)
Definition amend_last (out : list string) (suffix : string) : list string :=
  match rev out with l :: r => rev r ++ [l +:+ suffix] | [] => [] end.

Definition blockquoteParser (text : string) : string :=
  let nl := String newline "" in
  let text := ReplaceAll text (nl +:+ "&gt;") (nl +:+ ">") in
  let text := if has_prefix "&gt;" text then ">" +:+ sdrop 4 text else text in
  let '(out, inQuote) := fold_left quote_line (split_lines text) ([], false) in
  join_lines (if inQuote then amend_last out "</blockquote>" else out).

(** [urlRe], with its lazy repetitions: the text after the opening bracket, and
    after the opening parenthesis. *)
Fixpoint url_tail (s : string) : option (string * string) :=
  match s with
  | EmptyString => None
  | String c s' =>
      if (c =? newline)%char then None
      else if has_prefix ")" s' then Some (String c "", sdrop 1 s')
      else match url_tail s' with Some (u, r) => Some (String c u, r) | None => None end
  end.

Fixpoint url_label (s : string) : option (string * string) :=
  match s with
  | EmptyString => None
  | String c s' =>
      if (c =? newline)%char then None
      else match (if has_prefix "](" s' then url_tail (sdrop 2 s') else None) with
           | Some (u, _) => Some (String c "", u)
           | None => match url_label s' with Some (l, u) => Some (String c l, u) | None => None end
           end
  end.

(** A match at the start: the bang, the label and the URL. *)
Definition url_at (s : string) : option (bool * string * string) :=
  let bang := has_prefix "!" s in
  let s := if bang then sdrop 1 s else s in
  if has_prefix "[" s then match url_label (sdrop 1 s) with Some (l, u) => Some (bang, l, u) | None => None end else None.

Definition url_text (m : bool * string * string) : string :=
  let '(bang, label, url) := m in (if bang then "!" else "") +:+ "[" +:+ label +:+ "](" +:+ url +:+ ")".

Fixpoint urls (skip : nat) (s : string) : list (bool * string * string) :=
  match s with
  | EmptyString => []
  | String _ s' =>
      match skip with
      | S k => urls k s'
      | O => match url_at s with Some m => m :: urls (String.length (url_text m) - 1) s' | None => urls 0 s' end
      end
  end.

Section markdown.
Context (quote : string → string) (shuffle : list (string * string) → list (string * string)).

(** One delimiter: the fixed-width flag, the delimiters open, the text. *)
Definition delim_step (st : bool * list string * string) (delim : string) : bool * list string * string :=
  let '(fixedWidth, open, text) := st in
  let fixed := (delim =? preDelim)%string || (delim =? codeDelim)%string in
  let fixedWidth := if fixed then negb fixedWidth else fixedWidth in
  if fixedWidth && negb fixed then (fixedWidth, open, text) else
  let tag := tag_of delim in
  if negb (smem delim open) then
    let open := delim :: open in
    if (delim =? preDelim)%string then
      let opener := match cut_str preDelim text with
                    | Some (_, b) => (break_at (λ c, negb (c =? newline)%char) (preDelim +:+ b)).1
                    | None => preDelim end in
      let language := trim_prefix preDelim opener in
      (fixedWidth, open, replaceOnceFrom text opener ("<pre language=" +:+ quote language +:+ ">") 0)
    else (fixedWidth, open, replaceOnce text delim ("<" +:+ tag +:+ ">"))
  else (fixedWidth, bfilter (λ d, negb (d =? delim)%string) open, replaceOnce text delim ("</" +:+ tag +:+ ">")).

Definition url_step (text : string) (m : bool * string * string) : string :=
  let '(bang, label, url) := m in
  if negb bang then replaceOnce text (url_text m) ("<a href=" +:+ quote url +:+ ">" +:+ label +:+ "</a>")
  else
    let id := trim_prefix "tg://emoji?id=" url in
    if negb (id =? url)%string && isDigits id
    then replaceOnce text (url_text m) ("<emoji id=" +:+ id +:+ ">" +:+ label +:+ "</emoji>")
    else text.

Definition markdownToHTML (text : string) (strict : bool) : string :=
  let text := if strict then EscapeString text else text in
  let text := blockquoteParser text in
  let '(text, placeholders) := code_sections (String.length text) 0 text in
  let '(_, _, text) := fold_left delim_step (delims 0 text) (false, [], text) in
  let text := fold_left url_step (urls 0 text) text in
  fold_left (λ t ks, replaceOnce t ks.1 ks.2) (shuffle placeholders) text.
End markdown.

(** ** The HTML pass *)

(** [^\s*(<...>)\s*], as the code does it: without a tag at the start the
    leading space is dropped and the second pass skipped. *)
Definition strip_lead (text : string) : string * bool :=
  let rest := (break_at isSpace text).2 in
  if negb (has_prefix "<" rest) then (rest, false) else
  let inside c := (c =? "<")%char || (c =? "=")%char || (code c =? 34) || (c =? "_")%char || isSpace c || isWordByte c in
  let '(name, r) := break_at inside rest in
  (if has_prefix ">" r then name +:+ ">" +:+ (break_at isSpace (sdrop 1 r)).2 else rest, true).

(** The backward scan: [r] is the text before position [j], reversed, and
    [suffix] what lies between [j] and [i]; [None] when it gives up. *)
Fixpoint scan_back (r : list ascii) (suffix : string) : option (list ascii * string) :=
  match r with
  | [] => Some ([], suffix)
  | c :: r' =>
      if (c =? "<")%char then Some (r, suffix)
      else if negb ((c =? ">")%char || (c =? "/")%char || isWordByte c) then None
      else scan_back r' (String c suffix)
  end.

Fixpoint drop_spaces (l : list ascii) : list ascii :=
  match l with c :: l' => if isSpace c then drop_spaces l' else l | [] => [] end.

Definition chars (s : string) : list ascii := list_ascii_of_string s.

Definition unchars (l : list ascii) : string := string_of_list_ascii l.

(** The trailing pass. *)
Definition strip_trail (text : string) : string :=
  let upto_i := drop_spaces (rev (chars text)) in
  let spaces := unchars (drop (length upto_i) (chars text)) in
  match scan_back upto_i "" with
  | Some (_ :: _ as before, String _ _ as suffix) =>
      if has_prefix "</" (suffix +:+ spaces) then unchars (rev (drop_spaces before)) +:+ suffix else text
  | _ => text
  end.

Definition stripOuterWhitespace (text : string) : string :=
  let '(t, more) := strip_lead text in if more then strip_trail t else t.

Definition is_re_space (c : ascii) : bool := isSpace c && negb (code c =? 11).

(** [attrRe] over the text: each match's name and value, with its quotes. *)
Fixpoint attr_matches (fuel : nat) (s : string) : list (string * string) :=
  match fuel with
  | O => []
  | S fuel' =>
      match s with
      | EmptyString => []
      | String c s' =>
          if negb (is_alpha c || (c =? "_")%char || (c =? ":")%char) then attr_matches fuel' s' else
          let name_char c := is_alpha c || is_digit c || (c =? "-")%char || (c =? "_")%char || (c =? ":")%char || (c =? ".")%char in
          let '(name, r) := break_at name_char s in
          let r := (break_at is_re_space r).2 in
          let bare := (name, "") :: attr_matches fuel' r in
          match r with
          | String "=" r1 =>
              let r1 := (break_at is_re_space r1).2 in
              match r1 with
              | String q r2 =>
                  if (code q =? 34) || (q =? "'")%char then
                    match break_at (λ c, negb (c =? q)%char) r2 with
                    | (v, String _ r3) => (name, String q (v +:+ String q "")) :: attr_matches fuel' r3
                    | (_, EmptyString) => bare
                    end
                  else
                    let plain c := negb (is_re_space c || (code c =? 34) || (c =? "'")%char || (c =? ">")%char) in
                    match break_at plain r1 with
                    | (EmptyString, _) => bare
                    | (v, r3) => (name, v) :: attr_matches fuel' r3
                    end
              | EmptyString => bare
              end
          | _ => bare
          end
      end
  end.

(** Quotes around a value, if it has both. *)
Definition unquote_attr (v : string) : string :=
  match v with
  | String q r =>
      match rev (chars r) with
      | q' :: mid => if ((code q =? 34) || (q =? "'")%char) && (q' =? q)%char then unchars (rev mid) else v
      | [] => v
      end
  | EmptyString => v
  end.

Definition parseAttrs (unescape : string → string) (s : string) : list (string * string) :=
  fold_left (λ attrs m, mset attrs (to_lower m.1) (if (m.2 =? "")%string then "" else unescape (unquote_attr m.2)))
    (attr_matches (String.length s) s) [].

(** The name, the text of the attributes, whether it is a closing tag, and the
    number of bytes. *)
Definition parseTag (s : string) : option (string * string * bool * nat) :=
  if (String.length s <? 2)%nat then None else
  let rest := sdrop 1 s in
  let closing := has_prefix "/" rest in
  let rest := if closing then sdrop 1 rest else rest in
  let name_char c := negb ((c =? ">")%char || (c =? " ")%char || (code c =? 9) || (c =? newline)%char || (c =? "/")%char) in
  let '(name, body) := break_at name_char rest in
  if (name =? "")%string then None else
  match break_at (λ c, negb (c =? ">")%char) body with
  | (_, EmptyString) => None
  | (attrs, String _ _) =>
      let slashLen := if closing then 1%nat else 0%nat in
      Some (to_lower name, attrs, closing, (1 + slashLen + String.length name + String.length attrs + 1)%nat)
  end.

(** [None] is an InputUserClass that is not an InputUser. *)
Abbreviation InputUser := (option (Z * Z))%type.

(** gotd's entity formatters. *)
Inductive Formatter :=
| Bold | Italic | Underline | Strike | Blockquote (Collapsed : bool) | Code | Pre (Language : string) | Spoiler
| MentionName (u : InputUser) | TextURL (URL : string) | CustomEmoji (DocumentID : Z).

Record span := { start : Z; end_ : Z; formatter : Formatter }.

Record openFrame := { tag : string; f_formatter : option Formatter; f_start : Z; f_end : Z; sawText : bool }.

Definition mention_prefix : string := "tg://user?id=".

(** [mentionRe]. *)
Definition mention_id (url : string) : option string :=
  let id := trim_prefix mention_prefix url in
  if has_prefix mention_prefix url && isDigits id then Some id else None.

Inductive token := Plain (seg : string) | Format (seg : string) (fs : list Formatter).

Definition tok_state : Type := string * Z * list openFrame * list span.

(** A run of text: every open frame grows over it. *)
Definition appendRun (run : string) (t : tok_state) : tok_state :=
  let '(plain, base, open, closed) := t in
  let n := base + Z.of_nat (length (runes run)) in
  (plain +:+ run, n,
   map (λ f, {| tag := tag f; f_formatter := f_formatter f; f_start := if sawText f then f_start f else base; f_end := n;
                sawText := true |}) open,
   closed).

(** Pop the most recent frame of the tag; [open] is innermost first. *)
Fixpoint pop_frame (name : string) (open : list openFrame) : option (openFrame * list openFrame) :=
  match open with
  | [] => None
  | f :: open' =>
      if (tag f =? name)%string then Some (f, open')
      else match pop_frame name open' with Some (g, l) => Some (g, f :: l) | None => None end
  end.

Definition close_tag (name : string) (t : tok_state) : tok_state :=
  let '(plain, n, open, closed) := t in
  match pop_frame name open with
  | None => t
  | Some (f, open') =>
      (plain, n, open',
       match f_formatter f with
       | Some g => if sawText f then closed ++ [{| start := f_start f; end_ := f_end f; formatter := g |}] else closed
       | None => closed
       end)
  end.

Definition open_tag (name : string) (g : option Formatter) (t : tok_state) : tok_state :=
  let '(plain, n, open, closed) := t in
  (plain, n, {| tag := name; f_formatter := g; f_start := 0; f_end := 0; sawText := false |} :: open, closed).

Section html.
Context {W : Type} (unescape : string → string) (sscan : string → Z)
  (resolve : option (Z → W → result InputUser * W)).

Definition formatterForOpts (name : string) (attrs : list (string * string)) (w : W) : result (option Formatter) * W :=
  let attr k := default "" (mget attrs k) in
  let named n := (name =? n)%string in
  if named "b" || named "strong" then (Ok (Some Bold), w)
  else if named "i" || named "em" then (Ok (Some Italic), w)
  else if named "u" then (Ok (Some Underline), w)
  else if named "s" || named "del" || named "strike" then (Ok (Some Strike), w)
  else if named "blockquote" then (Ok (Some (Blockquote (bool_decide (is_Some (mget attrs "expandable"))))), w)
  else if named "code" then (Ok (Some Code), w)
  else if named "pre" then (Ok (Some (Pre (attr "language"))), w)
  else if named "spoiler" then (Ok (Some Spoiler), w)
  else if named "a" then
    match mention_id (attr "href") with
    | Some digits =>
        let id := sscan digits in
        match resolve with
        | Some f =>
            match f id w with
            | (Err e, w) => (Err ("resolve tg://user?id=" +:+ FormatInt id +:+ ": " +:+ e), w)
            | (Ok u, w) => (Ok (Some (MentionName u)), w)
            end
        | None => (Ok (Some (MentionName (Some (id, 0)))), w)
        end
    | None => (Ok (Some (TextURL (attr "href"))), w)
    end
  else if named "emoji" then (Ok (Some (CustomEmoji (sscan (attr "id")))), w)
  else (Ok None, w).

(** The loop over the tags; [None] when the fuel runs out. *)
Fixpoint tokenize (fuel : nat) (text : string) (t : tok_state) (w : W) : option (result tok_state * W) :=
  match fuel with
  | O => None
  | S fuel' =>
      match cut_str "<" text with
      | None => Some (Ok (if (text =? "")%string then t else appendRun (unescape text) t), w)
      | Some (before, after) =>
          let t := if (before =? "")%string then t else appendRun (unescape before) t in
          match parseTag (String "<" after) with
          | None => tokenize fuel' after (appendRun "<" t) w
          | Some (name, attrs, closing, consumed) =>
              let rest := sdrop consumed (String "<" after) in
              if closing then tokenize fuel' rest (close_tag name t) w
              else match formatterForOpts name (parseAttrs unescape attrs) w with
                   | (Err e, w) => Some (Err e, w)
                   | (Ok g, w) => tokenize fuel' rest (open_tag name g t) w
                   end
          end
      end
  end.

Definition tokenizeHTMLOpts (text : string) (w : W) : option (result (string * list span) * W) :=
  match tokenize (S (String.length text)) text ("", 0, [], []) w with
  | Some (Ok (plain, _, _, closed), w) => Some (Ok (plain, closed), w)
  | Some (Err e, w) => Some (Err e, w)
  | None => None
  end.

Definition dropZeroLength (spans : list span) : list span := bfilter (λ sp, start sp <? end_ sp) spans.

Fixpoint segments (points : list Z) : list (Z * Z) :=
  match points with
  | from :: rest => match rest with to :: _ => (from, to) :: segments rest | [] => [] end
  | [] => []
  end.

(** The keys of the bounds map, sorted. *)
Definition boundaries (n : Z) (spans : list span) : list Z :=
  merge_sort Z.le (remove_dups (0 :: n :: flat_map (λ sp, [start sp; end_ sp]) spans)).

(** [runes[from:to]]; [None] is the bounds panic. *)
Definition slice (l : list Z) (from to : Z) : option (list Z) :=
  if (0 <=? from) && (from <=? to) && (to <=? Z.of_nat (length l))
  then Some (take (Z.to_nat (to - from)) (drop (Z.to_nat from) l)) else None.

Definition covering (spans : list span) (from to : Z) : list Formatter :=
  map formatter (bfilter (λ sp, (start sp <=? from) && (to <=? end_ sp)) spans).

Fixpoint emit (l : list Z) (spans : list span) (segs : list (Z * Z)) : option (list token) :=
  match segs with
  | [] => Some []
  | (from, to) :: segs' =>
      if (to <=? from) || (Z.of_nat (length l) <=? from) then emit l spans segs' else
      match slice l from to with
      | None => None
      | Some rs =>
          let seg := encode rs in
          match emit l spans segs' with
          | None => None
          | Some toks =>
              if (seg =? "")%string then Some toks
              else match covering spans from to with
                   | [] => Some (Plain seg :: toks)
                   | fs => Some (Format seg fs :: toks)
                   end
          end
      end
  end.

(** The builder calls; [None] is a run-time panic. *)
Definition emitTokens (plain : string) (spans : list span) : option (list token) :=
  if (plain =? "")%string then Some [] else
  let l := runes plain in emit l spans (segments (boundaries (Z.of_nat (length l)) spans)).

Definition applyHTMLOpts (text : string) (w : W) : option (result (list token) * W) :=
  match tokenizeHTMLOpts (stripOuterWhitespace text) w with
  | None => None
  | Some (Err e, w) => Some (Err e, w)
  | Some (Ok (plain, spans), w) =>
      match emitTokens plain (dropZeroLength spans) with Some toks => Some (Ok toks, w) | None => None end
  end.

Context (quote : string → string) (shuffle : list (string * string) → list (string * string)).

Definition applyWithOptions (text : string) (mode : Mode) (w : W) : option (result (list token) * W) :=
  match mode with
  | ModeDisabled => Some (Ok [Plain text], w)
  | ModeHTML => applyHTMLOpts text w
  | ModeCombined => applyHTMLOpts (markdownToHTML quote shuffle text false) w
  | ModeMarkdown => applyHTMLOpts (markdownToHTML quote shuffle text true) w
  end.
End html.

(** ** Merging entities *)

(** An entity on the wire: one of the formatters' classes, or another class
    with its type name. *)
Record Entity := { shape : Formatter + string; e_off : Z; e_len : Z }.

Definition userIDOf (u : InputUser) : Z := match u with Some (id, _) => id | None => -1 end.

Definition shapeKey (e : Entity) : string :=
  match shape e with
  | inl (Pre l) => "pre:" +:+ l
  | inl (Blockquote c) => "quote:" +:+ (if c then "true" else "false")
  | inl (TextURL u) => "url:" +:+ u
  | inl (MentionName u) => "mention:" +:+ FormatInt (userIDOf u)
  | inl (CustomEmoji d) => "emoji:" +:+ FormatInt d
  | inl Bold => "*tg.MessageEntityBold"
  | inl Italic => "*tg.MessageEntityItalic"
  | inl Underline => "*tg.MessageEntityUnderline"
  | inl Strike => "*tg.MessageEntityStrike"
  | inl Code => "*tg.MessageEntityCode"
  | inl Spoiler => "*tg.MessageEntitySpoiler"
  | inr t => t
  end.

(** A class the code does not list keeps its length. *)
Definition setLen (e : Entity) (n : Z) : Entity :=
  match shape e with inl _ => {| shape := shape e; e_off := e_off e; e_len := n |} | inr _ => e end.

(** One entity of a group: it extends the last one of [out] (kept first here)
    or is appended. *)
Definition merge_one (key : string) (out : list Entity) (e : Entity) : list Entity :=
  match out with
  | l :: out' =>
      if (shapeKey l =? key)%string && (e_off l + e_len l =? e_off e) then setLen l (e_len l + e_len e) :: out'
      else e :: out
  | [] => [e]
  end.

Definition off_le (a b : Entity) : Prop := e_off a <= e_off b.

Definition range_le (a b : Entity) : Prop := e_off a < e_off b ∨ e_off a = e_off b ∧ e_len a <= e_len b.

#[export] Instance off_le_dec a b : Decision (off_le a b) := Z_le_dec _ _.

#[export] Instance range_le_dec a b : Decision (range_le a b).
Proof. unfold range_le. apply _. Defined.

(** The shape keys in order of appearance. *)
Definition keys_of (l : list Entity) : list string :=
  fold_left (λ order e, if smem (shapeKey e) order then order else order ++ [shapeKey e]) l [].

(** [sort.SliceStable]: insertion sort is the stable one. *)
Fixpoint insert_stable (R : Entity → Entity → Prop) `{!∀ a b, Decision (R a b)} (x : Entity) (l : list Entity) : list Entity :=
  match l with
  | [] => [x]
  | y :: l' => if decide (R x y) then x :: l else y :: insert_stable R x l'
  end.

Definition sort_stable (R : Entity → Entity → Prop) `{!∀ a b, Decision (R a b)} (l : list Entity) : list Entity :=
  foldr (insert_stable R) [] l.

Definition MergeAdjacent (l : list Entity) : list Entity :=
  match l with
  | [] | [_] => l
  | _ =>
      let group out key := fold_left (merge_one key) (sort_stable off_le (bfilter (λ e, (shapeKey e =? key)%string) l)) out in
      sort_stable range_le (rev (fold_left group (keys_of l) []))
  end.

(** The send path. *)
Definition Build {W} (unescape : string → string) (sscan : string → Z) (resolve : option (Z → W → result InputUser * W))
    (quote : string → string) (shuffle : list (string * string) → list (string * string))
    (complete : list token → string * list Entity) (text : string) (mode : Mode) (w : W)
    : option (result (string * list Entity) * W) :=
  match applyWithOptions unescape sscan resolve quote shuffle text mode w with
  | None => None
  | Some (Err e, w) => Some (Err e, w)
  | Some (Ok toks, w) => let '(msg, es) := complete toks in Some (Ok (msg, MergeAdjacent es), w)
  end.

(** ** UTF-8 *)

Lemma between_chr lo hi z : 0 <= z < 256 → between lo hi (chr z) = (lo <=? z) && (z <=? hi).
Proof. intros Hz. unfold between. by rewrite code_chr. Qed.

Ltac byte_bounds := Z.to_euclidean_division_equations; lia.

Lemma runes_encode_rune r s : scalar r = true → runes (encode_rune r +:+ s) = r :: runes s.
Proof.
  intros Hs. unfold encode_rune. rewrite Hs. assert (0 <= r < 55296 ∨ 57344 <= r <= 1114111) as Hr by (unfold scalar in Hs; lia).
  destruct (Z.ltb_spec r 128); [|destruct (Z.ltb_spec r 2048); [|destruct (Z.ltb_spec r 65536)]];
    rewrite !append_cons; cbn [runes].
  - rewrite code_chr by lia. by rewrite (proj2 (Z.ltb_lt r 128)).
  - rewrite !code_chr by byte_bounds. rewrite (proj2 (Z.ltb_ge _ 128)) by byte_bounds.
    rewrite !between_chr by byte_bounds.
    replace (_ && _) with true by (symmetry; byte_bounds). f_equal. byte_bounds.
  - rewrite !code_chr by byte_bounds. rewrite (proj2 (Z.ltb_ge _ 128)) by byte_bounds.
    unfold second3. rewrite !between_chr by byte_bounds.
    replace (_ && _ && _) with false by (symmetry; byte_bounds).
    destruct (Z.eqb_spec (224 + r / 4096) 224), (Z.eqb_spec (224 + r / 4096) 237);
      (replace (_ && _ && (_ && _)) with true by (symmetry; byte_bounds)); f_equal; byte_bounds.
  - rewrite !code_chr by byte_bounds. rewrite (proj2 (Z.ltb_ge _ 128)) by byte_bounds.
    unfold second3, second4. rewrite !between_chr by byte_bounds.
    replace ((194 <=? 240 + r / 262144) && (240 + r / 262144 <=? 223)) with false by (symmetry; byte_bounds).
    replace ((224 <=? 240 + r / 262144) && (240 + r / 262144 <=? 239)) with false by (symmetry; byte_bounds).
    cbn [andb].
    destruct (Z.eqb_spec (240 + r / 262144) 240), (Z.eqb_spec (240 + r / 262144) 244);
      (replace (_ && _ && _ && _) with true by (symmetry; byte_bounds)); f_equal; byte_bounds.
Qed.

Lemma runes_encode l s : forallb scalar l = true → runes (encode l +:+ s) = l ++ runes s.
Proof.
  induction l as [|r l IH]; [done|]. intros [Hr Hl]%andb_true_iff.
  change (encode (r :: l)) with (encode_rune r +:+ encode l). rewrite append_assoc, runes_encode_rune, IH by done. done.
Qed.

Lemma encode_rune_cons r : ∃ c s, encode_rune r = String c s.
Proof. unfold encode_rune. repeat destruct (_ <? _); eauto. Qed.

Lemma encode_nonempty r l : encode (r :: l) ≠ "".
Proof. destruct (encode_rune_cons r) as (c & s & E). simpl. by rewrite E. Qed.

Lemma code_range c : 0 <= code c < 256.
Proof. unfold code. pose proof (N_ascii_bounded c). lia. Qed.

Lemma runes_scalar s : forallb scalar (runes s) = true.
Proof.
  remember (String.length s) as n eqn:Hn. revert s Hn.
  induction (lt_wf n) as [n _ IH]. intros s ->. destruct s as [|c1 s1]; [done|]. cbn [runes]. pose proof (code_range c1).
  destruct (Z.ltb_spec (code c1) 128).
  { cbn [forallb]. rewrite (IH (String.length s1)) by (simpl; lia). unfold scalar. lia. }
  destruct s1 as [|c2 s2]; [done|]. destruct (between 194 223 c1 && between 128 191 c2) eqn:E2.
  { cbn [forallb]. rewrite (IH (String.length s2)) by (simpl; lia). unfold between in E2. unfold scalar. lia. }
  assert (forallb scalar (RuneError :: runes (String c2 s2)) = true) as Hbad
    by (cbn [forallb]; rewrite (IH (String.length (String c2 s2))) by (simpl; lia); done).
  destruct s2 as [|c3 s3]; [done|]. destruct (between 224 239 c1 && second3 (code c1) c2 && between 128 191 c3) eqn:E3.
  { cbn [forallb]. rewrite (IH (String.length s3)) by (simpl; lia). unfold second3, between in E3. unfold scalar.
    destruct (Z.eqb_spec (code c1) 224), (Z.eqb_spec (code c1) 237); lia. }
  destruct s3 as [|c4 s4]; [done|].
  destruct (between 240 244 c1 && second4 (code c1) c2 && between 128 191 c3 && between 128 191 c4) eqn:E4; [|done].
  cbn [forallb]. rewrite (IH (String.length s4)) by (simpl; lia). unfold second4, between in E4. unfold scalar.
  destruct (Z.eqb_spec (code c1) 240), (Z.eqb_spec (code c1) 244); lia.
Qed.

(** ** Tokens *)

(** What each rune of the message is formatted with, in order. *)
Definition painted (toks : list token) : list (Z * list Formatter) :=
  flat_map (λ t, match t with Plain seg => map (λ r, (r, [])) (runes seg) | Format seg fs => map (λ r, (r, fs)) (runes seg) end)
    toks.

(** The reference: rune [i] carries the formatters of the spans it lies in. *)
Definition spans_at (spans : list span) (i : Z) : list Formatter :=
  map formatter (bfilter (λ sp, (start sp <=? i) && (i <? end_ sp)) spans).

Fixpoint paint (spans : list span) (i : Z) (l : list Z) : list (Z * list Formatter) :=
  match l with [] => [] | r :: l' => (r, spans_at spans i) :: paint spans (i + 1) l' end.

Lemma paint_app spans i l1 l2 : paint spans i (l1 ++ l2) = paint spans i l1 ++ paint spans (i + Z.of_nat (length l1)) l2.
Proof.
  revert i. induction l1 as [|r l1 IH]; intros i; simpl; [by rewrite Z.add_0_r|]. rewrite IH. do 3 f_equal. lia.
Qed.

Lemma paint_const spans fs i l :
  (∀ p, i <= p < i + Z.of_nat (length l) → spans_at spans p = fs) → paint spans i l = map (λ r, (r, fs)) l.
Proof.
  revert i. induction l as [|r l IH]; intros i H; simpl; [done|]. rewrite H by (simpl; lia). f_equal.
  apply IH. intros p Hp. apply H. simpl. lia.
Qed.

(** No boundary lies strictly inside a segment. *)
Lemma covering_const spans from to p :
  (∀ sp, sp ∈ spans → (start sp <= from ∨ to <= start sp) ∧ (end_ sp <= from ∨ to <= end_ sp)) →
  from <= p < to → spans_at spans p = covering spans from to.
Proof.
  intros H Hp. unfold covering, spans_at. f_equal. induction spans as [|sp spans IH]; simpl; [done|].
  rewrite IH by (intros sp' Hsp; apply H; by right). destruct (H sp) as [H1 H2]; [by left|].
  replace ((start sp <=? p) && (p <? end_ sp)) with ((start sp <=? from) && (to <=? end_ sp)); [done|]. lia.
Qed.

Lemma emit_past l spans ps : Forall (λ p, Z.of_nat (length l) <= p) ps → emit l spans (segments ps) = Some [].
Proof.
  induction ps as [|from ps IH]; intros H; [done|]. apply Forall_cons in H as [Hf H]. simpl. destruct ps as [|to ps]; [done|].
  cbn [emit]. rewrite (proj2 (Z.leb_le _ _) Hf), orb_true_r. by apply IH.
Qed.

Lemma emit_from l spans ps from :
  let n := Z.of_nat (length l) in
  forallb scalar l = true → StronglySorted Z.lt (from :: ps) → 0 <= from <= n → n ∈ from :: ps →
  (∀ sp, sp ∈ spans → (start sp <= from ∨ start sp ∈ ps) ∧ (end_ sp <= from ∨ end_ sp ∈ ps)) →
  ∃ toks, emit l spans (segments (from :: ps)) = Some toks ∧ painted toks = paint spans from (drop (Z.to_nat from) l).
Proof.
  cbn zeta. intros Hl. revert from. induction ps as [|to ps IH]; intros from Hs Hf Hn Hb.
  { apply list_elem_of_singleton in Hn as <-. exists []. split; [done|]. rewrite drop_ge by lia. done. }
  apply StronglySorted_inv in Hs as [Hs Hlt]. pose proof (proj1 (Forall_cons _ _ _) Hlt) as [Hft _].
  destruct (decide (from = Z.of_nat (length l))) as [->|Hne].
  { exists []. rewrite drop_ge by lia. split; [|done]. apply emit_past. constructor; [lia|].
    eapply Forall_impl; [exact Hlt|]. intros x Hx. simpl in Hx. lia. }
  apply elem_of_cons in Hn as [Hn|Hn]; [lia|].
  assert (to <= Z.of_nat (length l)) as Hto.
  { apply elem_of_cons in Hn as [<-|Hn]; [lia|]. apply StronglySorted_inv in Hs as [_ Hs].
    rewrite Forall_forall in Hs. specialize (Hs _ Hn). lia. }
  destruct (IH to) as (toks & E & Hp); [done|lia|done| |].
  { intros sp Hsp. destruct (Hb sp Hsp) as [H1 H2]. rewrite !elem_of_cons in H1, H2. split; [destruct H1 as [|[|]]|destruct H2 as [|[|]]];
      auto; left; lia. }
  change (segments (from :: to :: ps)) with ((from, to) :: segments (to :: ps)). cbn [emit].
  rewrite (proj2 (Z.leb_gt to from)), (proj2 (Z.leb_gt (Z.of_nat (length l)) from)) by lia. cbn [orb].
  unfold slice. rewrite !(proj2 (Z.leb_le _ _)) by lia. cbn [andb]. rewrite E.
  set (rs := take _ _). assert (drop (Z.to_nat from) l = rs ++ drop (Z.to_nat to) l) as Hd.
  { unfold rs. replace (Z.to_nat to) with (Z.to_nat from + Z.to_nat (to - from))%nat by lia. rewrite <- drop_drop. by rewrite take_drop. }
  assert (length rs = Z.to_nat (to - from)) as Hlen by (unfold rs; rewrite length_take, length_drop; lia).
  assert (forallb scalar rs = true) as Hrs.
  { apply forallb_forall. intros r Hr. rewrite forallb_forall in Hl. apply Hl.
    apply list_elem_of_In in Hr. apply list_elem_of_In. unfold rs in Hr.
    eapply (subseteq_drop (Z.to_nat from)), subseteq_take, Hr. }
  destruct rs as [|r rs'] eqn:Er; [simpl in Hlen; lia|]. rewrite (proj2 (String.eqb_neq _ _) (encode_nonempty r rs')).
  assert (runes (encode (r :: rs')) = r :: rs') as Hre
    by (rewrite <- (append_nil_r (encode _)), runes_encode by done; by rewrite app_nil_r).
  rewrite Hd, paint_app, Hlen. replace (from + Z.of_nat (Z.to_nat (to - from))) with to by lia.
  rewrite (paint_const spans (covering spans from to) from (r :: rs')).
  - destruct (covering spans from to); (eexists; split; [done|]); cbn [painted flat_map]; fold (painted toks); by rewrite Hre, Hp.
  - intros p Hp'. apply covering_const; [|rewrite Hlen in Hp'; lia]. intros sp Hsp. destruct (Hb sp Hsp) as [H1 H2].
    apply StronglySorted_inv in Hs as [_ Hs]. rewrite Forall_forall in Hs.
    rewrite !elem_of_cons in H1, H2. split; [destruct H1 as [|[|H1]]|destruct H2 as [|[|H2]]]; try lia;
      [specialize (Hs _ H1)|specialize (Hs _ H2)]; lia.
Qed.

Lemma sorted_strict l : NoDup l → StronglySorted Z.le l → StronglySorted Z.lt l.
Proof.
  induction l as [|x l IH]; intros Hn Hs; constructor.
  - apply NoDup_cons in Hn as [_ Hn]. apply StronglySorted_inv in Hs as [Hs _]. by apply IH.
  - apply NoDup_cons in Hn as [Hx Hn]. apply StronglySorted_inv in Hs as [_ Hs]. rewrite Forall_forall in *.
    intros y Hy. specialize (Hs y Hy). assert (x ≠ y) by (by intros ->). lia.
Qed.

Lemma boundaries_spec n spans :
  StronglySorted Z.lt (boundaries n spans) ∧
  ∀ x, x ∈ boundaries n spans ↔ x = 0 ∨ x = n ∨ ∃ sp, sp ∈ spans ∧ (x = start sp ∨ x = end_ sp).
Proof.
  unfold boundaries. set (l := 0 :: n :: _).
  assert (merge_sort Z.le (remove_dups l) ≡ₚ remove_dups l) as Hp by apply merge_sort_Permutation. split.
  - apply sorted_strict; [|apply (StronglySorted_merge_sort Z.le)]. rewrite Hp. apply NoDup_remove_dups.
  - intros x. rewrite Hp, elem_of_remove_dups. unfold l. rewrite !elem_of_cons.
    assert (x ∈ flat_map (λ sp, [start sp; end_ sp]) spans ↔ ∃ sp, sp ∈ spans ∧ (x = start sp ∨ x = end_ sp)) as ->; [|done].
    rewrite list_elem_of_In, in_flat_map. split.
    + intros (sp & Hin & Hx). exists sp. rewrite list_elem_of_In. split; [done|]. destruct Hx as [|[|[]]]; auto.
    + intros (sp & Hin & Hx). exists sp. rewrite <- list_elem_of_In. split; [done|]. simpl. destruct Hx; auto.
Qed.

Definition span_ok (sp : span) : Prop := 0 <= start sp <= end_ sp.

(** Cutting the text at the span boundaries formats every rune with exactly the
    spans it lies in, and never slices out of range. *)
Lemma emit_tokens_paint plain spans :
  Forall span_ok spans → ∃ toks, emitTokens plain spans = Some toks ∧ painted toks = paint spans 0 (runes plain).
Proof.
  intros Hok. unfold emitTokens. destruct (String.eqb_spec plain "") as [->|_]; [by exists []|].
  set (l := runes plain). destruct (boundaries_spec (Z.of_nat (length l)) spans) as [Hs Hin].
  destruct (boundaries (Z.of_nat (length l)) spans) as [|x ps] eqn:Eb.
  { exfalso. apply (not_elem_of_nil 0). apply Hin. auto. }
  rewrite Forall_forall in Hok.
  assert (x = 0) as ->.
  { assert (0 ∈ x :: ps) as H0 by (apply Hin; auto). apply elem_of_cons in H0 as [H0|H0]; [done|].
    apply StronglySorted_inv in Hs as [_ Hs]. rewrite Forall_forall in Hs. specialize (Hs _ H0).
    destruct (proj1 (Hin x)) as [|[|(sp & Hsp & Hx)]]; [by left|done|lia|]. specialize (Hok sp Hsp). unfold span_ok in Hok. lia. }
  destruct (emit_from l spans ps 0) as (toks & E & Hp); [apply runes_scalar|done|lia|apply Hin; auto| |].
  - intros sp Hsp. assert (start sp ∈ 0 :: ps ∧ end_ sp ∈ 0 :: ps) as [H1 H2] by (split; apply Hin; eauto 10).
    apply elem_of_cons in H1, H2. split; [destruct H1|destruct H2]; auto; left; lia.
  - exists toks. split; [done|]. done.
Qed.

(** ** Tags *)

Lemma length_append a b : String.length (a +:+ b) = (String.length a + String.length b)%nat.
Proof. induction a as [|c a IH]; [done|]. rewrite append_cons. simpl. by rewrite IH. Qed.

Lemma length_sdrop n s : String.length (sdrop n s) = (String.length s - n)%nat.
Proof. revert s. induction n as [|n IH]; intros [|c s]; simpl; auto. Qed.

Lemma cut_str_spec sep s a b : cut_str sep s = Some (a, b) → s = a +:+ sep +:+ b.
Proof.
  revert a b. induction s as [|c s IH]; intros a b; cbn [cut_str].
  - destruct (has_prefix sep "") eqn:E; [|done]. intros [= <- <-]. apply has_prefix_true in E. exact E.
  - destruct (has_prefix sep (String c s)) eqn:E.
    + intros [= <- <-]. apply has_prefix_true in E. exact E.
    + destruct (cut_str sep s) as [[a' b']|]; [|done]. intros [= <- <-]. rewrite append_cons. f_equal. by apply IH.
Qed.

Lemma parse_tag_consumes s name attrs closing k : parseTag s = Some (name, attrs, closing, k) → (1 < k)%nat.
Proof.
  unfold parseTag. destruct (_ <? _)%nat; [done|]. destruct (break_at _ _) as [nm body].
  destruct (String.eqb_spec nm "") as [->|Hn]; [done|]. destruct (break_at _ body) as [at_ [|c r]]; [done|].
  intros [= _ _ _ <-]. destruct nm; [done|]. simpl. lia.
Qed.

(** Closed spans lie within the text written so far, open frames that saw text
    too. *)
Definition tok_ok (t : tok_state) : Prop :=
  let '(plain, n, open, closed) := t in
  0 <= n ∧ Forall (λ sp, 0 <= start sp <= end_ sp ∧ end_ sp <= n) closed ∧
  Forall (λ f, sawText f = true → 0 <= f_start f <= f_end f ∧ f_end f <= n) open.

Lemma append_run_ok run t : tok_ok t → tok_ok (appendRun run t).
Proof.
  destruct t as [[[plain n] open] closed]. intros (Hn & Hc & Ho). simpl. split; [lia|]. split.
  - eapply Forall_impl; [exact Hc|]. simpl. intros sp. lia.
  - apply Forall_map. eapply Forall_impl; [exact Ho|]. simpl. intros f Hf _. destruct (sawText f); [specialize (Hf eq_refl)|]; lia.
Qed.

Lemma pop_frame_in name open f open' : pop_frame name open = Some (f, open') → f ∈ open ∧ ∀ g, g ∈ open' → g ∈ open.
Proof.
  revert f open'. induction open as [|g open IH]; simpl; intros f open'; [done|]. destruct (tag g =? name)%string.
  - intros [= <- <-]. split; [left|by right].
  - destruct (pop_frame name open) as [[h l]|]; [|done]. intros [= <- <-]. destruct (IH h l eq_refl) as [H1 H2].
    split; [by right|]. intros x [->|Hx]%elem_of_cons; [left|right; by apply H2].
Qed.

Lemma close_tag_ok name t : tok_ok t → tok_ok (close_tag name t).
Proof.
  destruct t as [[[plain n] open] closed]. intros (Hn & Hc & Ho). simpl. destruct (pop_frame name open) as [[f open']|] eqn:E; [|done].
  apply pop_frame_in in E as [Hf Hl]. rewrite Forall_forall in Ho. simpl. split; [done|]. split.
  - destruct (f_formatter f); [|done]. destruct (sawText f) eqn:Es; [|done]. apply Forall_app. split; [done|].
    apply Forall_singleton. simpl. by apply Ho.
  - apply Forall_forall. auto.
Qed.

Lemma open_tag_ok name g t : tok_ok t → tok_ok (open_tag name g t).
Proof. destruct t as [[[plain n] open] closed]. intros (Hn & Hc & Ho). simpl. split_ands; [done|done|]. by constructor. Qed.

Section html_facts.
Context {W : Type} (unescape : string → string) (sscan : string → Z) (resolve : option (Z → W → result InputUser * W)).
Context (quote : string → string) (shuffle : list (string * string) → list (string * string)).

Lemma tokenize_total fuel text t w :
  (String.length text < fuel)%nat → tok_ok t →
  ∃ res w', tokenize unescape sscan resolve fuel text t w = Some (res, w') ∧ match res with Ok t' => tok_ok t' | Err _ => True end.
Proof.
  revert text t w. induction fuel as [|fuel IH]; intros text t w Hf Ht; [lia|]. cbn [tokenize].
  destruct (cut_str "<" text) as [[before after]|] eqn:Ec.
  - apply cut_str_spec in Ec. assert (String.length after < fuel)%nat as Hla.
    { rewrite Ec, !length_append in Hf. simpl in Hf. lia. }
    set (t1 := if (before =? "")%string then t else _).
    assert (tok_ok t1) as Ht1 by (unfold t1; destruct (before =? "")%string; [done|by apply append_run_ok]). clearbody t1.
    destruct (parseTag (String "<" after)) as [[[[name attrs] closing] k]|] eqn:Ep.
    + apply parse_tag_consumes in Ep. assert (String.length (sdrop k (String "<" after)) < fuel)%nat as Hl
        by (rewrite length_sdrop; simpl; lia).
      destruct closing; [apply IH; [done|by apply close_tag_ok]|].
      destruct (formatterForOpts _ _ _ _ w) as [[g|e] w1]; [|by eexists _, w1]. apply IH; [done|by apply open_tag_ok].
    + apply IH; [done|]. by apply append_run_ok.
  - eexists _, w. split; [done|]. destruct (text =? "")%string; [done|by apply append_run_ok].
Qed.

Lemma spans_at_nonempty spans i : spans_at (dropZeroLength spans) i = spans_at spans i.
Proof.
  unfold spans_at, dropZeroLength. f_equal. induction spans as [|sp spans IH]; simpl; [done|].
  destruct (Z.ltb_spec (start sp) (end_ sp)); simpl; [by rewrite IH|].
  rewrite IH. replace ((start sp <=? i) && (i <? end_ sp)) with false; [done|lia].
Qed.

Lemma paint_nonempty spans i l : paint (dropZeroLength spans) i l = paint spans i l.
Proof. revert i. induction l as [|r l IH]; intros i; simpl; [done|]. by rewrite spans_at_nonempty, IH. Qed.

(** The HTML a mode parses. *)
Definition html_source (text : string) (mode : Mode) : string :=
  match mode with
  | ModeCombined => markdownToHTML quote shuffle text false
  | ModeMarkdown => markdownToHTML quote shuffle text true
  | _ => text
  end.

Lemma apply_html_total html w :
  ∃ res w', applyHTMLOpts unescape sscan resolve html w = Some (res, w') ∧
  ∀ toks, res = Ok toks → ∃ plain spans,
    tokenizeHTMLOpts unescape sscan resolve (stripOuterWhitespace html) w = Some (Ok (plain, spans), w') ∧
    painted toks = paint spans 0 (runes plain).
Proof.
  unfold applyHTMLOpts, tokenizeHTMLOpts. set (h := stripOuterWhitespace html).
  destruct (tokenize_total (S (String.length h)) h ("", 0, [], []) w) as (res & w1 & -> & Hr);
    [lia|simpl; split_ands; [lia|constructor|constructor]|]. destruct res as [[[[plain n] o] spans]|e]; [|eexists _, w1; done].
  assert (Forall span_ok (dropZeroLength spans)) as Hok.
  { destruct Hr as (_ & Hr & _). apply Forall_forall. intros sp [Hsp _]%elem_of_bfilter.
    rewrite Forall_forall in Hr. by destruct (Hr sp Hsp). }
  destruct (emit_tokens_paint plain _ Hok) as (toks & -> & Hp). eexists _, w1. split; [done|].
  intros toks' [= <-]. exists plain, spans. split; [done|]. by rewrite <- paint_nonempty.
Qed.


(** Only mention look-ups touch the world. *)
Section world.
Context (R : relation W) `{!Reflexive R} `{!Transitive R}.
Hypothesis resolve_R : ∀ f id w, resolve = Some f → R w (f id w).2.

Lemma formatter_world name attrs w : R w (formatterForOpts sscan resolve name attrs w).2.
Proof.
  unfold formatterForOpts. repeat (match goal with |- context [if ?b then _ else _] => destruct b end; [done|]).
  destruct (_ =? "a")%string.
  - destruct (mention_id _) as [d|]; [|done]. destruct resolve as [f|] eqn:E; [|done].
    pose proof (resolve_R f (sscan d) w eq_refl) as H. by destruct (f (sscan d) w) as [[u|e] w'].
  - by destruct (_ =? "emoji")%string.
Qed.

Lemma tokenize_world fuel text t w res w' : tokenize unescape sscan resolve fuel text t w = Some (res, w') → R w w'.
Proof.
  revert text t w. induction fuel as [|fuel IH]; intros text t w; [done|]. cbn [tokenize].
  destruct (cut_str "<" text) as [[before after]|]; [|by intros [= _ <-]].
  destruct (parseTag _) as [[[[name attrs] []] k]|]; [by apply IH| |by apply IH].
  pose proof (formatter_world name (parseAttrs unescape attrs) w) as Hw.
  destruct (formatterForOpts _ _ _ _ w) as [[g|e] w1]; [|by intros [= _ <-]]. intros H. etrans; [exact Hw|]. by eapply IH.
Qed.

Lemma formatting_world text mode w res w' :
  applyWithOptions unescape sscan resolve quote shuffle text mode w = Some (res, w') → R w w'.
Proof.
  assert (∀ html, applyHTMLOpts unescape sscan resolve html w = Some (res, w') → R w w') as Hhtml.
  { intros html. unfold applyHTMLOpts, tokenizeHTMLOpts.
    destruct (tokenize _ _ _ _ _ _ w) as [[[[[[p n] o] c]|e] w1]|] eqn:E; [| |done]; apply tokenize_world in E.
    - destruct (emitTokens _ _); [|done]. by intros [= _ <-].
    - by intros [= _ <-]. }
  destruct mode; simpl; [apply Hhtml..|]. by intros [= _ <-].
Qed.
End world.
End html_facts.

(** ** Text without markup *)

Fixpoint free_of (p : ascii → bool) (s : string) : bool :=
  match s with EmptyString => true | String c s' => negb (p c) && free_of p s' end.

Lemma free_of_mono (p q : ascii → bool) s : (∀ c, q c = true → p c = true) → free_of p s = true → free_of q s = true.
Proof.
  intros Hpq. induction s as [|c s IH]; simpl; [done|]. intros [Hc Hs]%andb_true_iff. rewrite IH by done.
  destruct (q c) eqn:E; [by rewrite (Hpq c E) in Hc|done].
Qed.

Lemma free_of_app p a b : free_of p (a +:+ b) = free_of p a && free_of p b.
Proof. induction a as [|c a IH]; [done|]. rewrite append_cons. simpl. by rewrite IH, andb_assoc. Qed.

Lemma prefix_ne c d p s : c ≠ d → has_prefix (String c p) (String d s) = false.
Proof. intros H. unfold has_prefix. simpl. by destruct (ascii_dec c d). Qed.

Lemma prefix_free p c sep s : p c = true → free_of p s = true → has_prefix (String c sep) s = false.
Proof.
  intros Hc. destruct s as [|d s]; simpl; [done|]. intros [Hd _]%andb_true_iff. unfold has_prefix. simpl.
  destruct (ascii_dec c d) as [->|]; [|done]. by rewrite Hc in Hd.
Qed.

Lemma cut_free p c sep s : p c = true → free_of p s = true → cut_str (String c sep) s = None.
Proof.
  intros Hc. induction s as [|d s IH]; intros Hs; cbn [cut_str]; [done|].
  rewrite (prefix_free p) by done. simpl in Hs. apply andb_true_iff in Hs as [_ Hs]. by rewrite IH.
Qed.

(** Every rune once, unformatted. *)
Definition verbatim (s : string) : list (Z * list Formatter) := map (λ r, (r, [])) (runes s).

(** A text not starting with a space. *)
Definition flush (s : string) : bool := match s with String c _ => negb (isSpace c) | EmptyString => true end.

Definition open_angle (c : ascii) : bool := (c =? "<")%char.

Lemma strip_flush s : flush s = true → free_of open_angle s = true → stripOuterWhitespace s = s.
Proof.
  intros Hf Hs. unfold stripOuterWhitespace, strip_lead.
  assert ((break_at isSpace s).2 = s) as -> by (destruct s as [|c s]; [done|]; simpl in *; destruct (isSpace c); done).
  by rewrite (prefix_free open_angle).
Qed.

Lemma html_verbatim {W} unescape sscan resolve html (w : W) s :
  flush html = true → free_of open_angle html = true → unescape html = s → html ≠ "" ∨ s = "" →
  ∃ toks, applyHTMLOpts unescape sscan resolve html w = Some (Ok toks, w) ∧ painted toks = verbatim s.
Proof.
  intros Hf Hs Hu Hne. unfold applyHTMLOpts, tokenizeHTMLOpts. rewrite strip_flush by done. cbn [tokenize].
  rewrite (cut_free open_angle) by done.
  match goal with |- context [let (_, _) := ?t in _] => assert (t = (s, Z.of_nat (length (runes s)), [], [])) as -> end.
  { destruct (String.eqb_spec html "") as [->|_]; [|by rewrite Hu]. destruct Hne as [?| ->]; done. }
  destruct (emit_tokens_paint s []) as (toks & E & Hp); [constructor|]. simpl. rewrite E. exists toks. split; [done|].
  rewrite Hp. unfold verbatim. by apply paint_const.
Qed.

Lemma escape_free s : free_of open_angle (EscapeString s) = true.
Proof.
  induction s as [|c s IH]; [done|]. cbn [EscapeString]. rewrite free_of_app, IH, andb_true_r. unfold escape1.
  repeat (match goal with |- context [if ?b then _ else _] => destruct b eqn:? end; [done|]). simpl. unfold open_angle. by rewrite Heqb1.
Qed.

Lemma escape_flush s : flush s = true → flush (EscapeString s) = true.
Proof.
  destruct s as [|c s]; [done|]. cbn [EscapeString flush]. intros Hc. unfold escape1.
  repeat (match goal with |- context [if ?b then _ else _] => destruct b eqn:? end; [done|]). done.
Qed.

(** Escaping protects text: in HTML mode the escaped form of any text that
    does not start with a space is delivered as that text, every rune once and
    unformatted, with no entity. *)
Theorem escaped_text_is_verbatim {W} unescape sscan resolve quote shuffle s (w : W) :
  (∀ t, unescape (EscapeString t) = t) → flush s = true →
  ∃ toks, applyWithOptions unescape sscan resolve quote shuffle (EscapeString s) ModeHTML w = Some (Ok toks, w) ∧
    painted toks = verbatim s.
Proof.
  intros Hu Hf. cbn [applyWithOptions]. apply html_verbatim; [by apply escape_flush|apply escape_free|apply Hu|].
  destruct s as [|c s]; [by right|left]. cbn [EscapeString]. unfold escape1. by repeat case_match.
Qed.

(** The bytes with a meaning in the default mode. *)
Definition markup_byte (c : ascii) : bool :=
  existsb (λ d, (c =? d)%char) ["<"%char; "&"%char; ">"%char; "`"%char; "~"%char; "-"%char; "_"%char; "*"%char; "|"%char; "["%char].

Lemma join_split s : join_lines (split_lines s) = s.
Proof.
  unfold join_lines. induction s as [|c s IH]; [done|]. cbn [split_lines].
  assert (∃ l ls, split_lines s = l :: ls) as (l & ls & E).
  { destruct s as [|d s']; [by eexists _, _|]. simpl. destruct (d =? newline)%char; [by eexists _, _|]. destruct (split_lines s'); by eexists _, _. }
  rewrite E in *. destruct (Ascii.eqb_spec c newline) as [->|_].
  - rewrite <- IH. done.
  - rewrite <- IH. by destruct ls.
Qed.

Lemma split_free p s : free_of p s = true → Forall (λ l, free_of p l = true) (split_lines s).
Proof.
  induction s as [|c s IH]; [by constructor|]. simpl. intros [Hc Hs]%andb_true_iff. specialize (IH Hs).
  destruct (c =? newline)%char; [by constructor|]. destruct (split_lines s) as [|l ls].
  - constructor; [|constructor]. simpl. by rewrite Hc.
  - apply Forall_cons in IH as [Hl Hls]. constructor; [|done]. simpl. by rewrite Hc, Hl.
Qed.

Lemma quote_plain out ls : Forall (λ l, free_of markup_byte l = true) ls → fold_left quote_line ls (out, false) = (out ++ ls, false).
Proof.
  intros H. revert out. induction H as [|l ls Hl _ IH]; intros out; simpl; [by rewrite app_nil_r|].
  rewrite !(prefix_free markup_byte) by done. rewrite IH. by rewrite <- app_assoc.
Qed.

Lemma blockquote_plain s : free_of markup_byte s = true → blockquoteParser s = s.
Proof.
  intros Hs. unfold blockquoteParser, ReplaceAll.
  assert (∀ n, replace_all n s (String newline "" +:+ "&gt;") (String newline "" +:+ ">") = s) as ->.
  { intros [|n]; [done|]. cbn [replace_all].
    assert (cut_str (String newline "" +:+ "&gt;") s = None) as ->; [|done]. clear n. induction s as [|c s IH]; [done|].
    simpl in Hs. apply andb_true_iff in Hs as [Hc Hs]. cbn [cut_str]. rewrite IH by done.
    destruct (has_prefix _ (String c s)) eqn:E; [|done]. apply has_prefix_true in E. rewrite E in *.
    assert (free_of markup_byte s = false) as Hf; [|congruence].
    injection E as -> ->. done. }
  rewrite (prefix_free markup_byte) by done. rewrite quote_plain by (by apply split_free). apply join_split.
Qed.

Lemma delims_plain s : free_of markup_byte s = true → delims 0 s = [].
Proof.
  induction s as [|c s IH]; [done|]. intros Hs. cbn [delims].
  assert (delim_at (String c s) = None) as ->.
  { unfold delim_at. cbn [find]. unfold preDelim, codeDelim. by rewrite !(prefix_free markup_byte). }
  simpl in Hs. apply andb_true_iff in Hs as [_ Hs]. by apply IH.
Qed.

Lemma urls_plain s : free_of markup_byte s = true → urls 0 s = [].
Proof.
  induction s as [|c s IH]; [done|]. intros Hs. cbn [urls].
  assert (url_at (String c s) = None) as ->.
  { unfold url_at. simpl in Hs. apply andb_true_iff in Hs as [Hc Hs]. destruct (has_prefix "!" (String c s)).
    - simpl. by rewrite (prefix_free markup_byte).
    - rewrite (prefix_free markup_byte); [done|done|]. simpl. by rewrite Hc, Hs. }
  simpl in Hs. apply andb_true_iff in Hs as [_ Hs]. by apply IH.
Qed.

(** Plain text stays plain: in the default (combined) mode a text without
    any byte that has a meaning in markdown or HTML, over any number of lines
    and not starting with a space, is delivered as it is, every rune once and
    unformatted. *)
Theorem plain_text_is_verbatim {W} unescape sscan resolve quote shuffle s (w : W) :
  (∀ t, free_of (λ c, (c =? "&")%char) t = true → unescape t = t) → (∀ l, shuffle l ≡ₚ l) →
  flush s = true → free_of markup_byte s = true →
  ∃ toks, applyWithOptions unescape sscan resolve quote shuffle s ModeCombined w = Some (Ok toks, w) ∧
    painted toks = verbatim s.
Proof.
  intros Hu Hsh Hf Hs. cbn [applyWithOptions].
  assert (markdownToHTML quote shuffle s false = s) as ->.
  { unfold markdownToHTML. rewrite blockquote_plain by done.
    assert (code_sections (String.length s) 0 s = (s, [])) as ->
      by (destruct s as [|c s]; [done|]; cbn [String.length code_sections]; by rewrite (cut_free markup_byte)).
    rewrite delims_plain by done. cbn [fold_left]. rewrite urls_plain by done. cbn [fold_left].
    by rewrite (proj1 (Permutation_nil_r _) (Hsh [])). }
  apply html_verbatim; [done| | |].
  - by eapply free_of_mono; [|exact Hs]; intros c ->%Ascii.eqb_eq.
  - apply Hu. by eapply free_of_mono; [|exact Hs]; intros c ->%Ascii.eqb_eq.
  - destruct s; [by right|by left].
Qed.

(** ** Merged entities *)

Definition covers (l : list Entity) (k : string) (p : Z) : Prop :=
  ∃ e, e ∈ l ∧ shapeKey e = k ∧ e_off e <= p < e_off e + e_len e.

(** A non-negative length and a class the formatter emits. *)
Definition ent_ok (e : Entity) : Prop := 0 <= e_len e ∧ ∃ f, shape e = inl f.

Lemma covers_app l1 l2 k p : covers (l1 ++ l2) k p ↔ covers l1 k p ∨ covers l2 k p.
Proof. unfold covers. setoid_rewrite elem_of_app. naive_solver. Qed.

Lemma covers_cons e l k p : covers (e :: l) k p ↔ (shapeKey e = k ∧ e_off e <= p < e_off e + e_len e) ∨ covers l k p.
Proof. unfold covers. setoid_rewrite elem_of_cons. naive_solver. Qed.

Lemma covers_perm l1 l2 k p : l1 ≡ₚ l2 → covers l1 k p ↔ covers l2 k p.
Proof. intros H. unfold covers. by setoid_rewrite H. Qed.

Lemma setLen_ok e n : ent_ok e → 0 <= n →
  ent_ok (setLen e n) ∧ shapeKey (setLen e n) = shapeKey e ∧ e_off (setLen e n) = e_off e ∧ e_len (setLen e n) = n.
Proof. intros [_ [f Hf]] Hn. unfold setLen, ent_ok. destruct e as [sh o n0]. simpl in *. subst sh. simpl. naive_solver. Qed.

Section stable_sort.
Context (R : Entity → Entity → Prop) `{!∀ a b, Decision (R a b)}.

Lemma insert_stable_perm x l : insert_stable R x l ≡ₚ x :: l.
Proof. induction l as [|y l IH]; simpl; [done|]. destruct (decide (R x y)); [done|]. rewrite IH. apply Permutation_swap. Qed.

Lemma sort_stable_perm l : sort_stable R l ≡ₚ l.
Proof. induction l as [|x l IH]; simpl; [done|]. by rewrite insert_stable_perm, IH. Qed.

Lemma sort_stable_sorted l :
  (∀ a b, R a b ∨ R b a) → (∀ a b c, R a b → R b c → R a c) → StronglySorted R (sort_stable R l).
Proof.
  intros Ht Htr. induction l as [|x l IH]; simpl; [constructor|]. induction IH as [|y l' Hs IH' Hy]; simpl; [repeat constructor|].
  destruct (decide (R x y)) as [Hxy|Hxy].
  - constructor; [by constructor|]. constructor; [done|]. eapply Forall_impl; [exact Hy|]. intros z. by apply Htr.
  - constructor; [done|]. rewrite insert_stable_perm. constructor; [|done]. by destruct (Ht x y).
Qed.
End stable_sort.

Lemma merge_one_covers key out e k p :
  Forall ent_ok out → ent_ok e → shapeKey e = key →
  Forall ent_ok (merge_one key out e) ∧ (covers (merge_one key out e) k p ↔ covers (e :: out) k p).
Proof.
  intros Ho He Hk. destruct out as [|l out]; simpl; [split; [by apply Forall_singleton|done]|].
  destruct (String.eqb_spec (shapeKey l) key) as [Hl|]; simpl; [|split; [by constructor|done]].
  destruct (Z.eqb_spec (e_off l + e_len l) (e_off e)) as [Hadj|]; [|split; [by constructor|done]].
  apply Forall_cons in Ho as [Hlo Ho]. assert (0 <= e_len l ∧ 0 <= e_len e) as [H1 H2] by (split; [apply Hlo|apply He]).
  destruct (setLen_ok l (e_len l + e_len e) Hlo) as (S1 & S2 & S3 & S4); [lia|]. split; [by constructor|].
  rewrite !covers_cons, S2, S3, S4, Hl, Hk. assert (∀ A B C D : Prop, (A ↔ B ∨ C) → (A ∨ D ↔ B ∨ C ∨ D)) as Htaut by tauto.
  apply Htaut. split; [intros [-> Hp]|intros [[-> Hp]|[-> Hp]]; (split; [done|]); lia].
  destruct (Z.lt_ge_cases p (e_off e)); [right|left]; (split; [done|]); lia.
Qed.

Lemma merge_group_covers key g out k p :
  Forall ent_ok out → Forall ent_ok g → Forall (λ e, shapeKey e = key) g →
  Forall ent_ok (fold_left (merge_one key) g out) ∧
  (covers (fold_left (merge_one key) g out) k p ↔ covers out k p ∨ covers g k p).
Proof.
  intros Ho Hg Hk. revert out Ho. induction g as [|e g IH]; intros out Ho; simpl.
  { split; [done|]. split; [by left|]. intros [H|(e & He & _)]; [done|by apply elem_of_nil in He]. }
  apply Forall_cons in Hg as [He Hg], Hk as [Hke Hk].
  destruct (merge_one_covers key out e k p Ho He Hke) as [Ho' Hc]. destruct (IH Hg Hk _ Ho') as [H1 H2]. split; [done|].
  rewrite H2, Hc, !covers_cons. tauto.
Qed.

Definition entities_of (l : list Entity) (key : string) : list Entity := bfilter (λ e, (shapeKey e =? key)%string) l.

Definition merge_group (l out : list Entity) (key : string) : list Entity :=
  fold_left (merge_one key) (sort_stable off_le (entities_of l key)) out.

Lemma group_facts l key (P : Entity → Prop) :
  Forall P l → Forall P (sort_stable off_le (entities_of l key)) ∧ Forall (λ e, shapeKey e = key) (sort_stable off_le (entities_of l key)).
Proof.
  intros Hl. rewrite !sort_stable_perm. unfold entities_of. rewrite !Forall_forall in *.
  split; intros e [He Hk]%elem_of_bfilter; [by apply Hl|by apply String.eqb_eq].
Qed.

Lemma covers_group l key k p : covers (sort_stable off_le (entities_of l key)) k p ↔ k = key ∧ covers l k p.
Proof.
  rewrite (covers_perm _ _ _ _ (sort_stable_perm off_le _)). unfold covers, entities_of. setoid_rewrite elem_of_bfilter.
  setoid_rewrite String.eqb_eq. naive_solver.
Qed.

Lemma merge_groups_covers l keys out k p :
  Forall ent_ok out → Forall ent_ok l →
  Forall ent_ok (fold_left (merge_group l) keys out) ∧
  (covers (fold_left (merge_group l) keys out) k p ↔ covers out k p ∨ (k ∈ keys ∧ covers l k p)).
Proof.
  intros Ho Hl. revert out Ho. induction keys as [|key keys IH]; intros out Ho; simpl.
  { split; [done|]. rewrite elem_of_nil. tauto. }
  destruct (group_facts l key ent_ok Hl) as [G1 G2]. destruct (merge_group_covers key _ out k p Ho G1 G2) as [H1 H2].
  fold (merge_group l out key) in H1, H2. destruct (IH _ H1) as [H3 H4]. split; [done|].
  rewrite H4, H2, covers_group, elem_of_cons. tauto.
Qed.

Lemma keys_of_spec l acc :
  let keys := fold_left (λ order e, if smem (shapeKey e) order then order else order ++ [shapeKey e]) l acc in
  (∀ k, k ∈ keys ↔ k ∈ acc ∨ ∃ e, e ∈ l ∧ shapeKey e = k) ∧ (NoDup acc → NoDup keys).
Proof.
  cbn zeta. revert acc. induction l as [|e l IH]; intros acc; simpl; [setoid_rewrite elem_of_nil; naive_solver|].
  assert (smem (shapeKey e) acc = true ↔ shapeKey e ∈ acc) as Hm.
  { unfold smem. rewrite existsb_exists. setoid_rewrite String.eqb_eq. setoid_rewrite <- list_elem_of_In. naive_solver. }
  destruct (smem (shapeKey e) acc).
  - destruct (IH acc) as [H1 H2]. split; [|done]. intros k. rewrite H1. setoid_rewrite elem_of_cons. naive_solver.
  - destruct (IH (acc ++ [shapeKey e])) as [H1 H2]. split.
    + intros k. rewrite H1. setoid_rewrite elem_of_cons. rewrite elem_of_app, list_elem_of_singleton. naive_solver.
    + intros Hn. apply H2, NoDup_app. split_ands; [done| |apply NoDup_singleton].
      intros x Hx ->%list_elem_of_singleton. naive_solver.
Qed.

Definition end_of (e : Entity) : Z := e_off e + e_len e.

(** Two entities of one shape do not overlap; they have a gap between them. *)
Definition disjoint2 (a b : Entity) : Prop := shapeKey a = shapeKey b → end_of a <= e_off b ∨ end_of b <= e_off a.

Definition apart2 (a b : Entity) : Prop := shapeKey a = shapeKey b → end_of a < e_off b ∨ end_of b < e_off a.

Lemma pairs_perm (R : Entity → Entity → Prop) l1 l2 :
  (∀ a b, R a b → R b a) → l1 ≡ₚ l2 → ForallOrdPairs R l1 → ForallOrdPairs R l2.
Proof.
  intros Hs Hp. induction Hp as [|x l1 l2 Hp IH|x y l|l1 l2 l3 _ IH1 _ IH2]; intros H; [done| | |by apply IH2, IH1].
  - inversion H as [|? ? Hx Hl]; subst. constructor; [by rewrite <- Hp|by apply IH].
  - inversion H as [|? ? Hy Hl]; subst. inversion Hl as [|? ? Hx Hl']; subst. apply Forall_cons in Hy as [Hyx Hy].
    constructor; [constructor; [by apply Hs|done]|by constructor].
Qed.

Lemma pairs_filter (R : Entity → Entity → Prop) f l : ForallOrdPairs R l → ForallOrdPairs R (bfilter f l).
Proof.
  induction 1 as [|x l Hx _ IH]; simpl; [constructor|]. destruct (f x); [|done]. constructor; [|done].
  rewrite Forall_forall in *. intros y [Hy _]%elem_of_bfilter. by apply Hx.
Qed.

(** In a sorted group of disjoint entities each ends before the next starts. *)
Lemma group_ordered g :
  StronglySorted off_le g → ForallOrdPairs disjoint2 g → Forall (λ e, 0 < e_len e) g →
  (∀ a b, a ∈ g → b ∈ g → shapeKey a = shapeKey b) → StronglySorted (λ a b, end_of a <= e_off b) g.
Proof.
  induction g as [|x g IH]; intros Hs Hd Hp Hk; [constructor|]. apply StronglySorted_inv in Hs as [Hs Hx].
  inversion Hd as [|? ? Hdx Hd']; subst. apply Forall_cons in Hp as [Hpx Hp]. constructor.
  - apply IH; [done|done|done|]. intros a b Ha Hb. apply Hk; by right.
  - rewrite Forall_forall in *. intros y Hy. specialize (Hx y Hy). specialize (Hp y Hy).
    destruct (Hdx y Hy) as [H|H]; [apply Hk; [left|by right]|done|]. unfold off_le, end_of in *. lia.
Qed.

Lemma merge_group_apart key g out :
  ForallOrdPairs apart2 out → Forall ent_ok out → Forall ent_ok g → Forall (λ e, 0 < e_len e) g →
  Forall (λ e, shapeKey e = key) g → StronglySorted (λ a b, end_of a <= e_off b) g →
  (∀ x y, x ∈ out → shapeKey x = key → y ∈ g → end_of x <= e_off y) →
  (∀ x y, x ∈ tail out → shapeKey x = key → y ∈ g → end_of x < e_off y) →
  ForallOrdPairs apart2 (fold_left (merge_one key) g out).
Proof.
  revert out. induction g as [|e g IH]; intros out Hout Hoo Hgo Hpos Hk Hs H2 H3; [done|]. cbn [fold_left].
  apply StronglySorted_inv in Hs as [Hs He]. apply Forall_cons in Hgo as [Heo Hgo], Hpos as [Hpe Hpos], Hk as [Hke Hk].
  rewrite Forall_forall in He.
  destruct (merge_one_covers key out e "" 0 Hoo Heo Hke) as [Hoo' _].
  apply IH; [|done|done|done|done|done| |].
  - unfold merge_one. destruct out as [|l out']; [repeat constructor|].
    inversion Hout as [|? ? Hl Hout']; subst. rewrite Forall_forall in Hl.
    destruct (String.eqb_spec (shapeKey l) (shapeKey e)) as [Hlk|Hlk]; simpl.
    + apply Forall_cons in Hoo as [Hlo Hoo]. assert (0 <= e_len l) by apply Hlo.
      destruct (Z.eqb_spec (e_off l + e_len l) (e_off e)) as [Hadj|Hadj].
      * destruct (setLen_ok l (e_len l + e_len e) Hlo) as (_ & S2 & S3 & S4); [lia|]. constructor; [|done].
        apply Forall_forall. intros x Hx Hxk. rewrite S2 in Hxk. specialize (Hl x Hx Hxk).
        assert (end_of x < e_off e) by (apply H3; [done|congruence|left]).
        rewrite Forall_forall in Hoo. destruct (Hoo x Hx) as [Hxl _]. right. unfold end_of in *. rewrite S3. lia.
      * constructor; [|done]. constructor.
        -- intros _. right. assert (end_of l <= e_off e) by (apply H2; [left|done|left]). unfold end_of in *. lia.
        -- apply Forall_forall. intros x Hx Hxk. right. apply H3; [done|congruence|left].
    + constructor; [|done]. constructor; [intros Hc; congruence|].
      apply Forall_forall. intros x Hx Hxk. right. apply H3; [done|congruence|left].
  - intros x y Hx Hxk Hy. specialize (He y Hy). unfold merge_one in Hx. destruct out as [|l out'].
    { apply list_elem_of_singleton in Hx as ->. done. }
    assert (∀ x, x ∈ l :: out' → shapeKey x = key → end_of x <= e_off y) as Hold by (intros z Hz Hzk; apply H2; [done|done|by right]).
    destruct (_ && _) eqn:Em; apply elem_of_cons in Hx as [->|Hx]; [| |done|by apply Hold].
    + apply andb_true_iff in Em as [_ Em%Z.eqb_eq]. apply Forall_cons in Hoo as [Hlo _]. assert (0 <= e_len l) by apply Hlo.
      destruct (setLen_ok l (e_len l + e_len e) Hlo) as (_ & _ & S3 & S4); [lia|]. unfold end_of in *. rewrite S3, S4. lia.
    + apply Hold; [by right|done].
  - intros x y Hx Hxk Hy. specialize (He y Hy). unfold merge_one in Hx. destruct out as [|l out']; [by apply elem_of_nil in Hx|].
    destruct (_ && _); simpl in Hx; [apply H3; [done|done|by right]|].
    assert (end_of x <= e_off e) by (apply H2; [done|done|left]). unfold end_of in *. lia.
Qed.

Lemma setLen_key e n : shapeKey (setLen e n) = shapeKey e.
Proof. unfold setLen, shapeKey. destruct (shape e) eqn:E; simpl; by rewrite ?E. Qed.

Lemma merge_group_keys key g out x :
  Forall (λ e, shapeKey e = key) g → x ∈ fold_left (merge_one key) g out →
  shapeKey x = key ∨ ∃ y, y ∈ out ∧ shapeKey y = shapeKey x.
Proof.
  intros Hg. revert out. induction Hg as [|e g He _ IH]; intros out Hx; simpl in Hx; [eauto|].
  apply IH in Hx as [Hx|(y & Hy & Hk)]; [by left|]. unfold merge_one in Hy. destruct out as [|l out'].
  - apply list_elem_of_singleton in Hy as ->. left. congruence.
  - destruct (_ && _); apply elem_of_cons in Hy as [->|Hy]; [| |left; congruence|right; by exists y].
    + right. exists l. rewrite setLen_key in Hk. split; [left|done].
    + right. exists y. split; [by right|done].
Qed.

Lemma merge_groups_apart l keys out :
  Forall ent_ok l → Forall (λ e, 0 < e_len e) l → ForallOrdPairs disjoint2 l → NoDup keys →
  ForallOrdPairs apart2 out → Forall ent_ok out → (∀ x, x ∈ out → shapeKey x ∉ keys) →
  ForallOrdPairs apart2 (fold_left (merge_group l) keys out).
Proof.
  intros Hl Hp Hd. revert out. induction keys as [|key keys IH]; intros out Hn Ha Ho Hk; [done|]. cbn [fold_left].
  apply NoDup_cons in Hn as [Hkey Hn]. destruct (group_facts l key ent_ok Hl) as [G1 G2].
  destruct (group_facts l key _ Hp) as [G3 _].
  assert (∀ x, x ∈ out → shapeKey x ≠ key) as Hne by (intros x Hx E; apply (Hk x Hx); rewrite E; left).
  apply IH; [done| | |].
  - unfold merge_group. apply merge_group_apart; try done.
    + apply group_ordered; [|by eapply pairs_perm; [|symmetry; apply sort_stable_perm|by apply pairs_filter];
        intros a b Hab E; destruct (Hab (eq_sym E)); auto|done|].
      * apply sort_stable_sorted; unfold off_le; intros; lia.
      * rewrite Forall_forall in G2. intros a b Hain Hbin. by rewrite (G2 a Hain), (G2 b Hbin).
    + intros x y Hx E. by destruct (Hne x Hx).
    + intros x y Hx E. destruct out as [|o out']; [by apply elem_of_nil in Hx|]. by destruct (Hne x); [right|].
  - by apply (merge_group_covers key _ out "" 0 Ho G1 G2).
  - intros x Hx. unfold merge_group in Hx. apply merge_group_keys in Hx as [->|(y & Hy & <-)]; [done| |done].
    intros Hin. apply (Hk y Hy). by right.
Qed.

(** C13. Merging loses no formatting: for entities of the classes the formatter
    emits, exactly the same positions carry each shape before and after; the
    result is ordered by offset and length; and if entities of one shape did
    not overlap, those left of one shape have a gap between them, so every run
    of adjacent segments has become one entity. *)
Theorem merge_preserves_coverage l :
  Forall ent_ok l →
  (∀ k p, covers (MergeAdjacent l) k p ↔ covers l k p) ∧
  ((2 <= length l)%nat → StronglySorted range_le (MergeAdjacent l)) ∧
  (Forall (λ e, 0 < e_len e) l → ForallOrdPairs disjoint2 l → ForallOrdPairs apart2 (MergeAdjacent l)).
Proof.
  intros Hl. destruct l as [|a [|b l']]; [split_ands; [done|simpl; lia|constructor]|split_ands; [done|simpl; lia|repeat constructor]|].
  remember (a :: b :: l') as l eqn:El.
  assert (MergeAdjacent l = sort_stable range_le (rev (fold_left (merge_group l) (keys_of l) []))) as -> by (by rewrite El).
  assert (∀ m, sort_stable range_le (rev m) ≡ₚ m) as Hperm by (intros m; by rewrite sort_stable_perm, <- Permutation_rev).
  destruct (keys_of_spec l []) as [Hkeys Hnd]. fold (keys_of l) in Hkeys, Hnd. split_ands.
  - intros k p. rewrite (covers_perm _ _ _ _ (Hperm _)).
    destruct (merge_groups_covers l (keys_of l) [] k p) as [_ ->]; [constructor|done|]. split.
    + intros [(e & He & _)|[_ H]]; [by apply elem_of_nil in He|done].
    + intros H. right. split; [|done]. destruct H as (e & He & Hk & _). apply Hkeys. right. eauto.
  - intros _. apply sort_stable_sorted; unfold range_le; intros; lia.
  - intros Hp Hd. eapply pairs_perm; [|symmetry; apply Hperm|].
    + intros x y Hxy E. destruct (Hxy (eq_sym E)); auto.
    + apply merge_groups_apart; [done|done|done|apply Hnd; constructor|constructor|constructor|].
      intros x Hx. by apply elem_of_nil in Hx.
Qed.

(** ** Where the passes depart from their patterns *)

Lemma scan_back_free r suffix pre suf :
  free_of open_angle suffix = true → scan_back r suffix = Some (pre, suf) → free_of open_angle suf = true.
Proof.
  revert suffix. induction r as [|c r IH]; intros suffix Hs; simpl; [by intros [= _ <-]|].
  destruct (c =? "<")%char eqn:E; [by intros [= _ <-]|]. destruct (negb _); [done|]. apply IH. simpl. rewrite Hs. unfold open_angle. by rewrite E.
Qed.

(** The trailing pass never strips anything: the backward scan stops just
    after the bracket and then looks for the bracket there, so white space
    around the last closing tag always stays; and without a tag at the start
    the leading space is dropped although its pattern asks for one. *)
Theorem trailing_strip_is_dead text :
  stripOuterWhitespace text = (strip_lead text).1 ∧
  (free_of open_angle text = true → stripOuterWhitespace text = (break_at isSpace text).2).
Proof.
  assert (∀ t, strip_trail t = t) as Hdead.
  { intros t. unfold strip_trail. destruct (scan_back _ "") as [[[|b before] [|c suf]]|] eqn:E; try done.
    apply scan_back_free in E; [|done]. simpl in E. apply andb_true_iff in E as [E _].
    destruct (has_prefix "</" (String c suf +:+ _)) eqn:Hp; [|done].
    apply has_prefix_true in Hp. rewrite append_cons in Hp. injection Hp as -> _. done. }
  split.
  - unfold stripOuterWhitespace. destruct (strip_lead text) as [t []]; [apply Hdead|done].
  - intros Hs. unfold stripOuterWhitespace, strip_lead. rewrite (prefix_free open_angle); [done|done|].
    induction text as [|c text IH]; [done|]. simpl in *. apply andb_true_iff in Hs as [Hc Hs].
    destruct (isSpace c); [|simpl; by rewrite Hc, Hs]. specialize (IH Hs). destruct (break_at isSpace text). done.
Qed.

(** The five references [EscapeString] writes, and [%q] of text without quotes,
    backslashes or control bytes. *)
Fixpoint unescape5 (skip : nat) (s : string) : string :=
  match s with
  | EmptyString => ""
  | String c s' =>
      match skip with
      | S k => unescape5 k s'
      | O =>
          if has_prefix "&amp;" s then String "&" (unescape5 4 s') else if has_prefix "&#39;" s then String "'" (unescape5 4 s')
          else if has_prefix "&lt;" s then String "<" (unescape5 3 s') else if has_prefix "&gt;" s then String ">" (unescape5 3 s')
          else if has_prefix "&#34;" s then String (chr 34) (unescape5 4 s') else String c (unescape5 0 s')
      end
  end.

Definition plain_quote (s : string) : string := String (chr 34) (s +:+ String (chr 34) "").

Definition demo_apply (text : string) (mode : Mode) : option (result (list token) * unit) :=
  applyWithOptions (unescape5 0) (λ s, default 0 (parse_int64 s)) None plain_quote id text mode tt.

(** A delimiter in a code span is rewritten when a later one outside it is
    handled, since the replacement starts at the front of the text; a fence on
    one line takes its content for the language; a text that spells a
    placeholder is replaced by the section. *)
Lemma code_span_is_rewritten : demo_apply "`a ** b` **c**" ModeCombined =
  Some (Ok [Format "a " [Code]; Format " b" [Code; Bold]; Format " " [Bold]; Plain "c**"], tt).
Proof. vm_compute. reflexivity. Qed.

Lemma one_line_fence_is_lost : demo_apply "```code```" ModeCombined = Some (Ok [Plain (String (chr 34) ">")], tt).
Proof. vm_compute. reflexivity. Qed.

Lemma placeholder_collides : demo_apply "{CODE_SECTION_0} <code>x</code>" ModeCombined =
  Some (Ok [Format "x" [Code]; Plain " {CODE_SECTION_0}"], tt).
Proof. vm_compute. reflexivity. Qed.

(** ** A run *)

Lemma unescape5_escape t : unescape5 0 (EscapeString t) = t.
Proof.
  induction t as [|c t IH]; [done|]. cbn [EscapeString]. rewrite <- IH at 2. unfold escape1.
  destruct (Ascii.eqb_spec c "&"%char) as [->|H1]; [by simpl; destruct (EscapeString t)|].
  destruct (Ascii.eqb_spec c "'"%char) as [->|H2]; [by simpl; destruct (EscapeString t)|].
  destruct (Ascii.eqb_spec c "<"%char) as [->|H3]; [by simpl; destruct (EscapeString t)|].
  destruct (Ascii.eqb_spec c ">"%char) as [->|H4]; [by simpl; destruct (EscapeString t)|].
  destruct (Z.eqb_spec (code c) 34) as [H5|H5].
  - assert (c = chr 34) as -> by (rewrite <- H5; unfold chr, code; rewrite N2Z.id; by rewrite ascii_N_embedding).
    by simpl; destruct (EscapeString t).
  - rewrite append_cons. cbn [unescape5]. by rewrite !prefix_ne by congruence.
Qed.

Lemma unescape5_plain t : free_of (λ c, (c =? "&")%char) t = true → unescape5 0 t = t.
Proof.
  induction t as [|c t IH]; [done|]. intros H. cbn [unescape5]. rewrite !(prefix_free (λ c, (c =? "&")%char)) by done.
  simpl in H. apply andb_true_iff in H as [_ H]. by rewrite IH.
Qed.

Lemma escaped_text_is_verbatim_witness :
  ∃ toks, demo_apply (EscapeString "<b>1 & 2</b>") ModeHTML = Some (Ok toks, tt) ∧ painted toks = verbatim "<b>1 & 2</b>".
Proof. apply escaped_text_is_verbatim; [exact unescape5_escape|reflexivity]. Defined.

Lemma plain_text_is_verbatim_witness :
  ∃ toks, demo_apply "Hello, world (1 = 1)!" ModeCombined = Some (Ok toks, tt) ∧ painted toks = verbatim "Hello, world (1 = 1)!".
Proof.
  apply plain_text_is_verbatim; [exact unescape5_plain|intros l; reflexivity|reflexivity|reflexivity].
Defined.

Definition demo_entities : list Entity :=
  [{| shape := inl Bold; e_off := 0; e_len := 6 |}; {| shape := inl Bold; e_off := 6; e_len := 5 |};
   {| shape := inl Italic; e_off := 6; e_len := 5 |}; {| shape := inl Bold; e_off := 11; e_len := 5 |}].

Lemma merge_preserves_coverage_witness :
  MergeAdjacent demo_entities =
    [{| shape := inl Bold; e_off := 0; e_len := 16 |}; {| shape := inl Italic; e_off := 6; e_len := 5 |}] ∧
  covers (MergeAdjacent demo_entities) "*tg.MessageEntityBold" 8 ∧ ForallOrdPairs apart2 (MergeAdjacent demo_entities).
Proof.
  destruct (merge_preserves_coverage demo_entities) as (H1 & _ & H3).
  { repeat (constructor; [split; [simpl; lia|eexists; reflexivity]|]). constructor. }
  split; [vm_compute; reflexivity|]. split.
  - apply H1. exists {| shape := inl Bold; e_off := 6; e_len := 5 |}. split; [right; left|]. split; [reflexivity|simpl; lia].
  - apply H3; [repeat (constructor; [simpl; lia|]); constructor|].
    repeat first [apply FOP_nil | apply Forall_nil_2
                 | apply FOP_cons | apply Forall_cons_2; [intros E; first [discriminate E|unfold end_of; simpl; lia]|]].
Defined.
