(* ===== verification/Gotd.v ===== *)
(** * The gotd client (internal/mtproto/gotd_client.go)

    The production [Client]: what it asks of Telegram and what it makes of the
    answers.  All clients of a process share one [world]: the upload and nonce
    counters, each client's caches, and the log of raw requests.  gotd itself
    is third-party code: [api] gives the answer to the n-th request, and the
    message builder's [To(...).Markup(...).Reply(...).Silent().Media(...)]
    chain is one request that carries what the chain was given.  The formatter
    takes its arguments from [PyFormat]. *)
From Stdlib Require Import QArith Ascii String.
From stdpp Require Import base list strings gmap.
From S2P Require Import Prelude GoValue Sql Crypto MTWire MTClient PyFormat.
From S2P Require MTStore.
Open Scope Z_scope.

(** ** Telegram's side *)

Inductive InputPeer := InputPeerUser (UserID : Z) | InputPeerChat (ChatID : Z) | InputPeerChannel (ChannelID : Z).

Record User := { u_id : Z; u_access_hash : Z; u_username : string; FirstName : string; LastName : string }.

Inductive ChatClass := Chat (id : Z) (title : string) | Channel (id : Z) (title username : string) | ChatOther.

(** [None] is a user of another class. *)
Abbreviation UserClass := (option User).

Inductive UpdatesClass :=
| Updates (l : list Update)
| UpdatesCombined (l : list Update)
| UpdateShort (u : Update)
| UpdateShortMessage (ID UserID Date Pts : Z) (Message : string)
| UpdateShortChatMessage (ID FromID ChatID Date Pts : Z) (Message : string)
| UpdateShortSentMessage (ID Date Pts : Z)
| UpdatesTooLong.

Inductive FileLocation :=
| PhotoFileLocation (id access_hash : Z) (file_reference thumb : string)
| DocumentFileLocation (id access_hash : Z) (file_reference : string).

(** A requested user: [None] is oneself. *)
Inductive raw_call :=
| UsersGetUsers (u : option Z)
| MessagesGetDialogs (limit_ : Z)
| MessagesSendMessage (peer : InputPeer) (msg : string) (entities : list Entity) (random : Z) (silent : bool)
    (reply : option Z) (markup : option ReplyMarkup)
| SenderMedia (peer : InputPeer) (markup : option ReplyMarkup) (reply : option Z) (silent : bool) (media : InputMedia)
    (caption : list token)
| SenderAlbum (peer : InputPeer) (silent : bool) (items : list InputMedia)
| MessagesEditMessage (peer : InputPeer) (id : Z) (noweb : bool) (msg : string) (entities : list Entity)
    (markup : option ReplyMarkup)
| MessagesSetTyping (peer : InputPeer) (action : string)
| MessagesDeleteMessages (ids : list Z) (revoke : bool)
| ChannelsDeleteMessages (channel : Z) (ids : list Z)
| MessagesForwardMessages (from to : InputPeer) (ids random : list Z) (drop_author : bool)
| MessagesGetFullChat (id : Z)
| ChannelsGetChannels (id : Z)
| ContactsResolveUsername (username : string)
| MessagesSetBotCallbackAnswer (query : Z) (text : string) (alert : bool) (url : string) (cache : Z)
| UploadBytes (name data : string)
| Download (loc : FileLocation)
| UpdatesGetState.

(** The answer to the n-th request, by what is expected. *)
Record api := {
  r_users : nat → result (list UserClass); r_updates : nat → result UpdatesClass; r_done : nat → result unit;
  r_full : nat → result (list ChatClass); r_channels : nat → result (option (list ChatClass));
  r_resolved : nat → result (list UserClass * list ChatClass); r_file : nat → result InputFile;
  r_bytes : nat → result string; r_state : nat → result MTStore.MTState
}.

(** ** State *)

Record gotdClient := {
  runCancel : bool; uploads : gmap string InputFile; photoLocs : gmap Z Photo; docLocs : gmap Z Document
}.

Definition newGotdClient : gotdClient := {| runCancel := false; uploads := ∅; photoLocs := ∅; docLocs := ∅ |}.

Record world := { uploadCounter : Z; randomSrc : Z; clients : gmap nat gotdClient; log : list raw_call }.

Definition client_at (i : nat) (w : world) : gotdClient := default newGotdClient (clients w !! i).

Definition set_client (i : nat) (g : gotdClient) (w : world) : world :=
  {| uploadCounter := uploadCounter w; randomSrc := randomSrc w; clients := <[i := g]> (clients w); log := log w |}.

Definition set_uploads (m : gmap string InputFile) (g : gotdClient) : gotdClient :=
  {| runCancel := runCancel g; uploads := m; photoLocs := photoLocs g; docLocs := docLocs g |}.

Definition set_run (b : bool) (g : gotdClient) : gotdClient :=
  {| runCancel := b; uploads := uploads g; photoLocs := photoLocs g; docLocs := docLocs g |}.

(** A request and its answer. *)
Definition ask {A} (answer : nat → result A) (x : raw_call) (w : world) : result A * world :=
  (answer (length (log w)),
   {| uploadCounter := uploadCounter w; randomSrc := randomSrc w; clients := clients w; log := log w ++ [x] |}).

(** [uploadCounter.Add(1)]. *)
Definition next_upload (w : world) : Z * world :=
  let n := wrap64 (uploadCounter w + 1) in
  (n, {| uploadCounter := n; randomSrc := randomSrc w; clients := clients w; log := log w |}).

(** [now] is the clock in nanoseconds. *)
Definition randomID (now : Z) (w : world) : Z * world :=
  let src := wrap64 (randomSrc w + 2654435769) in
  (Z.lxor src now, {| uploadCounter := uploadCounter w; randomSrc := src; clients := clients w; log := log w |}).

(** ** Pure parts *)

Definition inputPeerOf (chatID : Z) : InputPeer :=
  if 0 <? chatID then InputPeerUser chatID
  else if chatID <=? -1000000000000 then InputPeerChannel (wrap64 (- wrap64 (chatID + 1000000000000)))
  else InputPeerChat (- chatID).

Definition flattenUpdates (class : UpdatesClass) : list Update :=
  match class with
  | Updates l => l
  | UpdateShort u => [u]
  | UpdateShortMessage id user date pts msg =>
      [UpdateNewMessage (Some {| ID := id; Date := date; Body := msg; PeerID := Some (PeerUser user); FromID := None;
                                 Reply := None; Markup := None; Entities := []; Media := None |}) pts 0]
  | UpdatesCombined l => l
  | _ => []
  end.

Definition media_message (u : Update) : option Message :=
  match u with
  | UpdateNewMessage m _ _ | UpdateNewChannelMessage m _ _ | UpdateEditMessage m _ _ | UpdateEditChannelMessage m _ _ => m
  | _ => None
  end.

Definition cacheMediaLocations (u : Update) (g : gotdClient) : gotdClient :=
  match media_message u ≫= Media with
  | Some (MediaPhoto (Some p)) =>
      {| runCancel := runCancel g; uploads := uploads g; photoLocs := <[p_id p := p]> (photoLocs g); docLocs := docLocs g |}
  | Some (MediaDocument (Some d)) =>
      {| runCancel := runCancel g; uploads := uploads g; photoLocs := photoLocs g; docLocs := <[d_id d := d]> (docLocs g) |}
  | _ => g
  end.

(** The updates handed to the handler, and the caches after the batch. *)
Definition onUpdatesClass (class : UpdatesClass) (g : gotdClient) : list obj * gotdClient :=
  (omap SerializeUpdate (flattenUpdates class), fold_left (λ g u, cacheMediaLocations u g) (flattenUpdates class) g).

(** The messages of an answer, in order. *)
Definition walkMessages (u : UpdatesClass) : list Message :=
  match u with
  | Updates l => omap (λ u, match u with UpdateNewMessage m _ _ | UpdateNewChannelMessage m _ _ => m | _ => None end) l
  | UpdateShort (UpdateNewMessage (Some m) _ _) => [m]
  | _ => []
  end.

Definition extractSentMessage (u : UpdatesClass) (chatID : Z) : SentMessage :=
  fold_left (λ found m, if sm_id found =? 0 then {| sm_id := ID m; sm_chat := chatID |} else found) (walkMessages u)
    {| sm_id := 0; sm_chat := 0 |}.

(** [out = append(out, ...)] from a nil slice. *)
Definition sent_list (u : UpdatesClass) (chatID : Z) : option (list SentMessage) :=
  match walkMessages u with [] => None | l => Some (map (λ m, {| sm_id := ID m; sm_chat := chatID |}) l) end.

Definition largestThumbSize (sizes : list (option PhotoSize)) : string :=
  let best := fold_left (λ acc s, match s with
    | Some z => let area := wrap64 (W z * H z) in if acc.2 <? area then (sz_type z, area) else acc
    | None => acc end) sizes ("", -1) in
  if (best.1 =? "")%string then "m" else best.1.

Definition mediaMimeTypes (kind_ : string) : string :=
  default "" (mget [("photo", "image/jpeg"); ("video", "video/mp4"); ("audio", "audio/mpeg"); ("voice", "audio/ogg");
                    ("animation", "video/mp4"); ("document", "application/octet-stream")] kind_).

(** The action classes, by name. *)
Definition chatActions : list (string * string) :=
  [("typing", "SendMessageTypingAction"); ("upload_photo", "SendMessageUploadPhotoAction");
   ("record_video", "SendMessageRecordVideoAction"); ("upload_video", "SendMessageUploadVideoAction");
   ("record_audio", "SendMessageRecordAudioAction"); ("upload_audio", "SendMessageUploadAudioAction");
   ("upload_document", "SendMessageUploadDocumentAction"); ("find_location", "SendMessageGeoLocationAction");
   ("cancel", "SendMessageCancelAction")].

(** int is 64 bits wide. *)
Definition intIDs (ids : list Z) : list Z := ids.

Definition upload_handle (n : Z) : string := "upload:" +:+ FormatInt n.

(** [fmt.Errorf] with [%q] of the handle. *)
Definition buildInputMedia (quote : string → string) (m : MediaAttach) (g : gotdClient) : result InputMedia :=
  let mime := if (MediaMime m =? "")%string then mediaMimeTypes (Kind m) else MediaMime m in
  let name := if (FileName m =? "")%string then "upload." +:+ Kind m else FileName m in
  if negb (MediaURL m =? "")%string then
    Ok (if (Kind m =? "photo")%string then InputMediaPhotoExternal (MediaURL m) else InputMediaDocumentExternal (MediaURL m))
  else
    match uploads g !! Handle m with
    | None => Err ("unknown upload handle " +:+ quote (Handle m) +:+
                   " (uploads live per session; re-POST /upload after a restart)")
    | Some file =>
        if (Kind m =? "photo")%string then Ok (InputMediaUploadedPhoto file) else
        let attrs := [AttrFilename name] in
        let attrs :=
          if smem (Kind m) ["video"; "animation"] then attrs ++ [AttrVideo true 0 0 0]
          else if (Kind m =? "audio")%string then attrs ++ [AttrAudio false]
          else if (Kind m =? "voice")%string then [AttrAudio true] else attrs in
        Ok (InputMediaUploadedDocument (Some file) mime attrs)
    end.

(** ** Session storage *)

Record session_row := { gs_alias : string; gs_blob : string }.

Inductive load := LoadErr | NotFound | Loaded (data : string).

(** Statement 0 creates the table, statement 1 reads or writes. *)
Definition LoadSession `{Fernet} (b : Box) (f : faults) (alias : string) (t : list session_row) : load :=
  if f 0%nat || f 1%nat then LoadErr else
  match row_of gs_alias alias t with
  | None => NotFound
  | Some r => match OpenBlob b (gs_blob r) with Some d => Loaded d | None => LoadErr end
  end.

(** [None] is the error return. *)
Definition StoreSession `{Fernet} (b : Box) (entropy : Z) (f : faults) (alias data : string) (t : list session_row)
    : option (list session_row) :=
  if f 0%nat then None else
  match SealBlob b entropy data with
  | None => None
  | Some sealed =>
      if f 1%nat then None
      else Some (upsert gs_alias {| gs_alias := alias; gs_blob := sealed |} (λ r, {| gs_alias := gs_alias r; gs_blob := sealed |}) t)
  end.

(** ** Connecting *)

(** What gotd reports: the authorisation status and the outcome of the bot
    login; [late]: nothing within 75 seconds. *)
Definition Connect (late : bool) (status : result bool) (bot : string → result unit) (token : string) (i : nat) (w : world)
    : result unit * world :=
  let off := set_client i (set_run false (client_at i w)) w in
  let on := set_client i (set_run true (client_at i w)) w in
  if late then (Err "connect timeout", off) else
  match status with
  | Err e => (Err e, off)
  | Ok true => (Ok tt, on)
  | Ok false => match bot token with Err e => (Err ("bot auth: " +:+ e), off) | Ok _ => (Ok tt, on) end
  end.

(** A failed read is the empty token. *)
Definition botToken `{Fernet} (b : Box) (f : faults) (alias : string) (m : MTStore.mt) : string :=
  default "" (MTStore.GetToken b f alias m).

Definition Disconnect (i : nat) (w : world) : world := set_client i (set_run false (client_at i w)) w.

Definition IsConnected (i : nat) (w : world) : bool := runCancel (client_at i w).

(** ** Requests *)

Section requests.
Context (a : api) (unescape quote : string → string) (sscan : string → Z)
  (shuffle : list (string * string) → list (string * string)) (complete : list token → string * list Entity)
  (nanos : nat → Z).

Definition Ping (w : world) : result unit * world :=
  let '(r, w) := ask (r_users a) (UsersGetUsers None) w in (match r with Ok _ => Ok tt | Err e => Err e end, w).

Definition WarmPeers (w : world) : result unit * world := ask (r_done a) (MessagesGetDialogs 500) w.

Definition gotd_Me (w : world) : result BotInfo * world :=
  match ask (r_users a) (UsersGetUsers None) w with
  | (Err e, w) => (Err e, w)
  | (Ok [], w) => (Err "empty self", w)
  | (Ok (Some u :: _), w) => (Ok {| Username := u_username u; bot_id := u_id u |}, w)
  | (Ok (None :: _), w) => (Ok {| Username := ""; bot_id := 0 |}, w)
  end.

(** Mentions are looked up for their access hash. *)
Definition resolveUser (id : Z) (w : world) : result InputUser * world :=
  match ask (r_users a) (UsersGetUsers (Some id)) w with
  | (Err e, w) => (Err e, w)
  | (Ok [], w) => (Err ("user " +:+ FormatInt id +:+ " not found for mention"), w)
  | (Ok (Some u :: _), w) => (Ok (Some (u_id u, u_access_hash u)), w)
  | (Ok (None :: _), w) => (Err ("user " +:+ FormatInt id +:+ " resolved to a non-user object"), w)
  end.

(** [pyformat.Build]; it never panics or loops ([formatting_is_total]). *)
Definition format_text (text mode : string) (w : world) : result (string * list Entity) * world :=
  default (Err "", w) (Build unescape sscan (Some resolveUser) quote shuffle complete text (ModeFromName mode) w).

(** The caption's builder calls; an empty caption has none. *)
Definition captionOption (p : SendParams) (w : world) : result (list token) * world :=
  if (sp_text p =? "")%string then (Ok [], w)
  else default (Err "", w)
         (applyWithOptions unescape sscan (Some resolveUser) quote shuffle (sp_text p) (ModeFromName (sp_mode p)) w).

Definition coerced (m : option obj) : option ReplyMarkup := m ≫= λ m, CoerceReplyMarkup (AMap m).

Definition reply_to (n : Z) : option Z := if n =? 0 then None else Some n.

Definition gotd_SendMessage (i : nat) (p : SendParams) (w : world) : result SentMessage * world :=
  let markup := coerced (sp_markup p) in
  let peer := inputPeerOf (sp_chat p) in
  let finish (r : result UpdatesClass * world) : result SentMessage * world :=
    (match r.1 with Ok u => Ok (extractSentMessage u (sp_chat p)) | Err e => Err e end, r.2) in
  match sp_media p with
  | Some m =>
      match buildInputMedia quote m (client_at i w) with
      | Err e => (Err e, w)
      | Ok input =>
          match captionOption p w with
          | (Err e, w) => (Err e, w)
          | (Ok toks, w) =>
              finish (ask (r_updates a) (SenderMedia peer markup (reply_to (sp_reply p)) (sp_silent p) input toks) w)
          end
      end
  | None =>
      match format_text (sp_text p) (sp_mode p) w with
      | (Err e, w) => (Err e, w)
      | (Ok (msg, entities), w) =>
          let '(rid, w) := randomID (nanos (length (log w))) w in
          finish (ask (r_updates a)
            (MessagesSendMessage peer msg entities rid (sp_silent p) (reply_to (sp_reply p)) markup) w)
      end
  end.

Definition as_ok (r : result unit * world) : result bool * world :=
  (match r.1 with Ok _ => Ok true | Err e => Err e end, r.2).

Definition gotd_EditMessageText (p : EditTextParams) (w : world) : result bool * world :=
  match format_text (et_text p) (et_mode p) w with
  | (Err e, w) => (Err e, w)
  | (Ok (msg, entities), w) =>
      as_ok (ask (r_done a)
        (MessagesEditMessage (inputPeerOf (et_chat p)) (et_message p) (et_noweb p) msg entities (coerced (et_markup p))) w)
  end.

Definition gotd_EditMessageReplyMarkup (p : EditMarkupParams) (w : world) : result bool * world :=
  as_ok (ask (r_done a)
    (MessagesEditMessage (inputPeerOf (em_chat p)) (em_message p) false "" [] (coerced (em_markup p))) w).

Definition gotd_SendChatAction (chatID : Z) (action : string) (w : world) : result bool * world :=
  let act := default "SendMessageTypingAction" (mget chatActions (to_lower action)) in
  as_ok (ask (r_done a) (MessagesSetTyping (inputPeerOf chatID) act) w).

Definition gotd_DeleteMessages (chatID : Z) (ids : list Z) (revoke : bool) (w : world) : result bool * world :=
  as_ok (ask (r_done a)
    (if 0 <? chatID then MessagesDeleteMessages (intIDs ids) revoke
     else ChannelsDeleteMessages (wrap64 (- chatID)) (intIDs ids)) w).

Definition gotd_ForwardMessages (p : ForwardParams) (w : world) : result (option (list SentMessage)) * world :=
  let '(rid, w) := randomID (nanos (length (log w))) w in
  match ask (r_updates a)
    (MessagesForwardMessages (inputPeerOf (fw_from p)) (inputPeerOf (fw_to p)) (intIDs (fw_ids p)) [rid] (fw_noquote p)) w with
  | (Err e, w) => (Err e, w)
  | (Ok u, w) => (Ok (sent_list u (fw_to p)), w)
  end.

Definition gotd_GetChat (chatID : Z) (w : world) : result obj * world :=
  let unresolved := Err ("cannot resolve chat " +:+ FormatInt chatID) in
  match inputPeerOf chatID with
  | InputPeerUser u =>
      match ask (r_users a) (UsersGetUsers (Some u)) w with
      | (Err e, w) => (Err e, w)
      | (Ok [], w) => (Err ("chat not found: " +:+ FormatInt chatID), w)
      | (Ok (Some u :: _), w) =>
          (Ok (mapOf [AStr "_"; AStr "Chat"; AStr "id"; AInt64 (u_id u); AStr "type"; AStr "private"; AStr "username";
                      AStr (u_username u); AStr "first_name"; AStr (FirstName u); AStr "last_name"; AStr (LastName u)]), w)
      | (Ok (None :: _), w) => (unresolved, w)
      end
  | InputPeerChat c =>
      match ask (r_full a) (MessagesGetFullChat c) w with
      | (Err e, w) => (Err e, w)
      | (Ok (Chat id title :: _), w) =>
          (Ok (mapOf [AStr "_"; AStr "Chat"; AStr "id"; AInt64 id; AStr "type"; AStr "chat"; AStr "title"; AStr title]), w)
      | (Ok _, w) => (unresolved, w)
      end
  | InputPeerChannel c =>
      match ask (r_channels a) (ChannelsGetChannels c) w with
      | (Err e, w) => (Err e, w)
      | (Ok (Some (Channel id title user :: _)), w) =>
          (Ok (mapOf [AStr "_"; AStr "Chat"; AStr "id"; AInt64 id; AStr "type"; AStr "channel"; AStr "title"; AStr title;
                      AStr "username"; AStr user]), w)
      | (Ok _, w) => (unresolved, w)
      end
  end.

Definition gotd_ResolveUsername (username : string) (w : world) : result Z * world :=
  match ask (r_resolved a) (ContactsResolveUsername (trim_prefix "@" username)) w with
  | (Err e, w) => (Err e, w)
  | (Ok (Some u :: _, _), w) => (Ok (u_id u), w)
  | (Ok (_, Chat id _ :: _), w) => (Ok id, w)
  | (Ok (_, Channel id _ _ :: _), w) => (Ok id, w)
  | (Ok _, w) => (Err ("username not found: " +:+ username), w)
  end.

Definition gotd_AnswerCallbackQuery (id text : string) (alert : bool) (url : string) (cache : Z) (w : world)
    : result bool * world :=
  as_ok (ask (r_done a) (MessagesSetBotCallbackAnswer (default 0 (sscanf_d id)) text alert url cache) w).

Fixpoint album_media (g : gotdClient) (n : nat) (items : list MediaAttach) : result (list InputMedia) :=
  match items with
  | [] => Ok []
  | m :: items' =>
      match buildInputMedia quote m g with
      | Err e => Err ("media[" +:+ FormatInt (Z.of_nat n) +:+ "]: " +:+ e)
      | Ok x => match album_media g (S n) items' with Ok l => Ok (x :: l) | Err e => Err e end
      end
  end.

Definition gotd_SendMediaGroup (i : nat) (chatID : Z) (items : list MediaAttach) (silent : bool) (w : world)
    : result (option (list SentMessage)) * world :=
  match album_media (client_at i w) 0 items with
  | Err e => (Err e, w)
  | Ok [] => (Err "empty album", w)
  | Ok l =>
      match ask (r_updates a) (SenderAlbum (inputPeerOf chatID) silent l) w with
      | (Err e, w) => (Err e, w)
      | (Ok u, w) => (Ok (sent_list u chatID), w)
      end
  end.

Definition gotd_UploadMedia (i : nat) (kind_ filename data : string) (w : world) : result string * world :=
  let name := if (filename =? "")%string then "upload." +:+ kind_ else filename in
  match ask (r_file a) (UploadBytes name data) w with
  | (Err e, w) => (Err e, w)
  | (Ok file, w) =>
      let '(n, w) := next_upload w in
      let g := client_at i w in
      (Ok (upload_handle n), set_client i (set_uploads (<[upload_handle n := file]> (uploads g)) g) w)
  end.

(** Where a file reference points. *)
Definition locate (g : gotdClient) (fileID : string) : result FileLocation :=
  match cut_at ":" fileID with
  | None => Err "file id must be photo:<id> or document:<id>"
  | Some (kind_, idStr) =>
      match parse_int64 idStr with
      | None => Err ("bad file id " +:+ quote fileID)
      | Some id =>
          if (kind_ =? "photo")%string then
            match photoLocs g !! id with
            | None => Err ("photo " +:+ FormatInt id +:+ " not seen in this session's updates (no access_hash to download it)")
            | Some p => Ok (PhotoFileLocation (p_id p) (p_access_hash p) (p_file_reference p) (largestThumbSize (Sizes p)))
            end
          else if (kind_ =? "document")%string then
            match docLocs g !! id with
            | None => Err ("document " +:+ FormatInt id +:+ " not seen in this session's updates (no access_hash to download it)")
            | Some d => Ok (DocumentFileLocation (d_id d) (d_access_hash d) (d_file_reference d))
            end
          else Err ("unknown media kind " +:+ quote kind_)
      end
  end.

(** An empty download is a nil slice. *)
Definition gotd_DownloadMedia (i : nat) (fileID : string) (w : world) : result (option string) * world :=
  match locate (client_at i w) fileID with
  | Err e => (Err e, w)
  | Ok loc =>
      let '(r, w) := ask (r_bytes a) (Download loc) w in
      (match r with Ok d => Ok (if (d =? "")%string then None else Some d) | Err e => Err e end, w)
  end.

Definition UpdateState (w : world) : MTStore.MTState * world :=
  let '(r, w) := ask (r_state a) UpdatesGetState w in (match r with Ok s => s | Err _ => MTStore.state_zero end, w).

(** Client [i] as the interface the adapters use. *)
Definition gotd_client (i : nat) : Client world := {|
  Me := gotd_Me; SendMessage := gotd_SendMessage i; EditMessageText := gotd_EditMessageText;
  EditMessageReplyMarkup := gotd_EditMessageReplyMarkup; SendChatAction := gotd_SendChatAction;
  DeleteMessages := gotd_DeleteMessages; ForwardMessages := gotd_ForwardMessages;
  SendMediaGroup := gotd_SendMediaGroup i; GetChat := gotd_GetChat; ResolveUsername := gotd_ResolveUsername;
  AnswerCallbackQuery := gotd_AnswerCallbackQuery; DownloadMedia := gotd_DownloadMedia i; UploadMedia := gotd_UploadMedia i
|}.
End requests.

(** ** One write per proxied method *)

(** The requests that change something at Telegram that others see. *)
Definition is_write (x : raw_call) : bool :=
  match x with
  | MessagesSendMessage _ _ _ _ _ _ _ | SenderMedia _ _ _ _ _ _ | SenderAlbum _ _ _ | MessagesEditMessage _ _ _ _ _ _
  | MessagesSetTyping _ _ | MessagesDeleteMessages _ _ | ChannelsDeleteMessages _ _ | MessagesForwardMessages _ _ _ _ _
  | MessagesSetBotCallbackAnswer _ _ _ _ _ => true
  | _ => false
  end.

(** The peer a write goes to. *)
Definition raw_peer (x : raw_call) : option InputPeer :=
  match x with
  | MessagesSendMessage p _ _ _ _ _ _ | SenderMedia p _ _ _ _ _ | SenderAlbum p _ _ | MessagesEditMessage p _ _ _ _ _
  | MessagesSetTyping p _ | MessagesForwardMessages _ p _ _ _ => Some p
  | _ => None
  end.

(** [reads w w']: from [w] to [w'] only requests that write nothing were made. *)
Definition reads (w w' : world) : Prop := ∃ pre, log w' = log w ++ pre ∧ Forall (λ x, is_write x = false) pre.

#[export] Instance reads_refl : Reflexive reads.
Proof. intros w. exists []. rewrite app_nil_r. by split. Qed.

#[export] Instance reads_trans : Transitive reads.
Proof.
  intros w1 w2 w3 (p1 & E1 & H1) (p2 & E2 & H2). exists (p1 ++ p2). rewrite E2, E1, <- app_assoc. split; [done|]. by apply Forall_app.
Qed.

(** [one_write P w w']: reads, then at most one write, which satisfies [P]. *)
Definition one_write (P : raw_call → Prop) (w w' : world) : Prop :=
  ∃ pre ws, log w' = log w ++ pre ++ ws ∧ Forall (λ x, is_write x = false) pre ∧
    (ws = [] ∨ ∃ x, ws = [x] ∧ is_write x = true ∧ P x).

Lemma reads_one_write P w w' : reads w w' → one_write P w w'.
Proof. intros (pre & E & H). exists pre, []. rewrite app_nil_r. auto. Qed.

Lemma one_write_after P w w' w'' : reads w w' → one_write P w' w'' → one_write P w w''.
Proof.
  intros (p1 & E1 & H1) (pre & ws & E2 & H2 & H3). exists (p1 ++ pre), ws. rewrite E2, E1, <- !app_assoc. split_ands; [done|by apply Forall_app|done].
Qed.

Lemma ask_read {A} (f : nat → result A) x w : is_write x = false → reads w (ask f x w).2.
Proof. intros Hx. exists [x]. split; [done|]. by apply Forall_singleton. Qed.

Lemma ask_write {A} (f : nat → result A) x w (P : raw_call → Prop) : is_write x = true → P x → one_write P w (ask f x w).2.
Proof. intros Hx HP. exists [], [x]. split_ands; [done|constructor|eauto]. Qed.

Section writes.
Context (a : api) (unescape quote : string → string) (sscan : string → Z)
  (shuffle : list (string * string) → list (string * string)) (complete : list token → string * list Entity)
  (nanos : nat → Z).

Abbreviation this := (gotd_client a unescape quote sscan shuffle complete nanos).

Lemma resolve_reads id w : reads w (resolveUser a id w).2.
Proof.
  unfold resolveUser. pose proof (ask_read (r_users a) (UsersGetUsers (Some id)) w eq_refl) as H.
  by destruct (ask _ _ w) as [[[|[u|] l]|e] w'].
Qed.

Lemma format_reads text mode w : reads w (format_text a unescape quote sscan shuffle complete text mode w).2.
Proof.
  unfold format_text, Build.
  destruct (applyWithOptions _ _ _ _ _ _ _ w) as [[[toks|e] w']|] eqn:E; simpl; [| |done];
    (apply (formatting_world _ _ _ _ _ reads) in E; [|by intros f id w1 [= <-]; apply resolve_reads]); [|done].
  by destruct (complete toks).
Qed.

Lemma caption_reads p w : reads w (captionOption a unescape quote sscan shuffle p w).2.
Proof.
  unfold captionOption. destruct (_ =? "")%string; [done|].
  destruct (applyWithOptions _ _ _ _ _ _ _ w) as [[r w']|] eqn:E; simpl; [|done].
  apply (formatting_world _ _ _ _ _ reads) in E; [done|]. by intros f id w1 [= <-]; apply resolve_reads.
Qed.

Lemma random_reads n w : reads w (randomID n w).2.
Proof. exists []. by rewrite app_nil_r. Qed.

(** The write of a call goes to the call's chat. *)
Definition for_target (x : call) (y : raw_call) : Prop :=
  ∀ p, raw_peer y = Some p → ∃ chat, call_target x = Some chat ∧ p = inputPeerOf chat.

Ltac write_to := match goal with |- one_write _ ?w _ => idtac end; first [eapply ask_write; [done|]; intros ? [= <-]; eexists; done
  | eapply ask_write; [done|]; intros ? [=]].

Lemma perform_one_write i x w :
  one_write (for_target x) w (perform (Client0 := this i) x w) ∧
  (is_upload x = true → reads w (perform (Client0 := this i) x w)).
Proof.
  destruct x as [|p|p|p|chat act|chat ids rv|p|chat items sl|chat|u|qid t al url ca|file|k n d];
    cbn [perform Me SendMessage EditMessageText EditMessageReplyMarkup SendChatAction DeleteMessages ForwardMessages
      SendMediaGroup GetChat ResolveUsername AnswerCallbackQuery DownloadMedia UploadMedia gotd_client]; (split; [|try done]).
  - apply reads_one_write. unfold gotd_Me. pose proof (ask_read (r_users a) (UsersGetUsers None) w eq_refl).
    by destruct (ask _ _ w) as [[[|[]]|] ?].
  - unfold gotd_SendMessage. destruct (sp_media p) as [m|].
    + destruct (buildInputMedia quote m (client_at i w)) as [input|e]; [|by apply reads_one_write].
      pose proof (caption_reads p w) as Hc. destruct (captionOption _ _ _ _ _ p w) as [[toks|e] w1]; [|by apply reads_one_write].
      eapply one_write_after; [exact Hc|]. write_to.
    + pose proof (format_reads (sp_text p) (sp_mode p) w) as Hf.
      destruct (format_text _ _ _ _ _ _ _ _ w) as [[[msg es]|e] w1]; [|by apply reads_one_write].
      eapply one_write_after; [exact Hf|]. destruct (randomID (nanos (length (log w1))) w1) as [rid w2] eqn:Er.
      pose proof (random_reads (nanos (length (log w1))) w1) as Hr. rewrite Er in Hr. eapply one_write_after; [exact Hr|]. write_to.
  - unfold gotd_EditMessageText. pose proof (format_reads (et_text p) (et_mode p) w) as Hf.
    destruct (format_text _ _ _ _ _ _ _ _ w) as [[[msg es]|e] w1]; [|by apply reads_one_write].
    eapply one_write_after; [exact Hf|]. write_to.
  - write_to.
  - write_to.
  - unfold gotd_DeleteMessages, as_ok. destruct (0 <? chat); write_to.
  - unfold gotd_ForwardMessages. destruct (randomID _ w) as [rid w1] eqn:Er.
    pose proof (random_reads (nanos (length (log w))) w) as Hr. rewrite Er in Hr. eapply one_write_after; [exact Hr|].
    match goal with |- context [ask ?f ?x ?w] => assert (one_write (for_target (CallForward p)) w (ask f x w).2) as Hw by write_to;
      by destruct (ask f x w) as [[] w2] end.
  - unfold gotd_SendMediaGroup. destruct (album_media _ _ _ _) as [[|x l]|e]; [by apply reads_one_write| |by apply reads_one_write].
    match goal with |- context [ask ?f ?x ?w] => assert (one_write (for_target (CallAlbum chat items sl)) w (ask f x w).2) as Hw by write_to;
      by destruct (ask f x w) as [[] w2] end.
  - apply reads_one_write. unfold gotd_GetChat. destruct (inputPeerOf chat) as [u|c|c].
    + pose proof (ask_read (r_users a) (UsersGetUsers (Some u)) w eq_refl). by destruct (ask _ _ w) as [[[|[]]|] ?].
    + pose proof (ask_read (r_full a) (MessagesGetFullChat c) w eq_refl). by destruct (ask _ _ w) as [[[|[] ?]|] ?].
    + pose proof (ask_read (r_channels a) (ChannelsGetChannels c) w eq_refl). by destruct (ask _ _ w) as [[[[|[] ?]|]|] ?].
  - apply reads_one_write. unfold gotd_ResolveUsername.
    pose proof (ask_read (r_resolved a) (ContactsResolveUsername (trim_prefix "@" u)) w eq_refl).
    by destruct (ask _ _ w) as [[[[|[] ?] [|[] ?]]|] ?].
  - write_to.
  - apply reads_one_write. unfold gotd_DownloadMedia. destruct (locate _ _ _) as [loc|]; [|done].
    pose proof (ask_read (r_bytes a) (Download loc) w eq_refl). by destruct (ask _ _ w) as [[] ?].
  - apply reads_one_write. unfold gotd_UploadMedia.
    pose proof (ask_read (r_file a) (UploadBytes (if (n =? "")%string then "upload." +:+ k else n) d) w eq_refl).
    by destruct (ask _ _ w) as [[f|e] w'].
  - intros _. unfold gotd_UploadMedia.
    pose proof (ask_read (r_file a) (UploadBytes (if (n =? "")%string then "upload." +:+ k else n) d) w eq_refl).
    by destruct (ask _ _ w) as [[f|e] w'].
Qed.

Lemma uploads_read i ups w : Forall (λ x, is_upload x = true) ups → reads w (performs (Client0 := this i) ups w).
Proof.
  intros H. revert w. induction H as [|x ups Hx _ IH]; intros w; [done|]. simpl. etrans; [|apply IH]. by apply perform_one_write.
Qed.

End writes.

(** ** File references *)

Lemma free_no_char c a : free_of (λ d, (d =? c)%char) a = true → has_char c a = false.
Proof. induction a as [|d a IH]; [done|]. cbn [free_of has_char]. intros [Hd Ha]%andb_true_iff. by rewrite (proj1 (negb_true_iff _) Hd), IH. Qed.

Definition carries_photo (p : Photo) (u : Update) : Prop := media_message u ≫= Media = Some (MediaPhoto (Some p)).

Lemma cache_one u g id :
  (∃ q, carries_photo q u ∧ p_id q = id ∧ photoLocs (cacheMediaLocations u g) !! id = Some q) ∨
  (photoLocs (cacheMediaLocations u g) !! id = photoLocs g !! id ∧ ∀ q, carries_photo q u → p_id q ≠ id).
Proof.
  unfold carries_photo, cacheMediaLocations. destruct (media_message u ≫= Media) as [[[q|]|[d|]| |]|]; try (right; by split).
  simpl. destruct (decide (p_id q = id)) as [<-|Hne]; [left; exists q; by rewrite lookup_insert_eq|right].
  rewrite lookup_insert_ne by done. split; [done|]. by intros q' [= ->].
Qed.

(** The cache after a batch holds the last photo of each id. *)
Lemma cached_photo us g u p :
  u ∈ us → carries_photo p u →
  ∃ u' p', u' ∈ us ∧ carries_photo p' u' ∧ p_id p' = p_id p ∧
    photoLocs (fold_left (λ g u, cacheMediaLocations u g) us g) !! p_id p = Some p'.
Proof.
  intros Hu Hp. revert Hu. induction us as [|v us IH] using rev_ind; intros Hu; [by apply elem_of_nil in Hu|].
  rewrite fold_left_app. simpl. set (g1 := fold_left _ us g) in *.
  destruct (cache_one v g1 (p_id p)) as [(q & Hq & Hid & Hl)|[Hl Hno]].
  - exists v, q. split; [apply elem_of_app; right; left|done].
  - apply elem_of_app in Hu as [Hu|Hu]; [|apply list_elem_of_singleton in Hu as ->; by destruct (Hno p Hp)].
    destruct (IH Hu) as (u' & p' & H1 & H2 & H3 & H4). exists u', p'. rewrite Hl. split; [apply elem_of_app; by left|done].
Qed.

(** A file reference in a delivered update can be downloaded: after a batch
    in which some message carried a photo, downloading the reference its
    dictionary shows asks Telegram for a photo of that id from the batch, with
    the access hash and file reference Telegram requires, and answers the
    bytes. *)
Theorem seen_photo_downloads a quote i class u p w :
  u ∈ flattenUpdates class → carries_photo p u → in_int64 (p_id p) = true →
  let w1 := set_client i (onUpdatesClass class (client_at i w)).2 w in
  ∃ u' p', u' ∈ flattenUpdates class ∧ carries_photo p' u' ∧ p_id p' = p_id p ∧
    gotd_DownloadMedia a quote i (formatFileRef "photo" (p_id p)) w1 =
      (match r_bytes a (length (log w)) with Ok d => Ok (if (d =? "")%string then None else Some d) | Err e => Err e end,
       (ask (r_bytes a) (Download (PhotoFileLocation (p_id p') (p_access_hash p') (p_file_reference p')
          (largestThumbSize (Sizes p')))) w1).2).
Proof.
  intros Hu Hm Hid. cbn zeta. destruct (cached_photo _ (client_at i w) u p Hu Hm) as (u' & p' & H1 & H2 & H3 & H4).
  exists u', p'. split_ands; [done|done|done|]. set (w1 := set_client _ _ w).
  assert (client_at i w1 = (onUpdatesClass class (client_at i w)).2) as Hc
    by (unfold client_at at 1, w1; simpl; by rewrite lookup_insert_eq).
  unfold gotd_DownloadMedia. rewrite Hc. unfold locate, formatFileRef.
  change ("photo" +:+ ":" +:+ FormatInt (p_id p)) with ("photo" +:+ String ":" (FormatInt (p_id p))).
  rewrite cut_at_app by (by apply free_no_char). rewrite parse_FormatInt by done. simpl. by rewrite H4.
Qed.

(** ** Upload handles *)

(** A client operation or a batch of updates, by some client. *)
Inductive gop :=
| GCall (i : nat) (x : call)
| GUpdates (i : nat) (class : UpdatesClass).

Section handles.
Context (a : api) (unescape quote : string → string) (sscan : string → Z)
  (shuffle : list (string * string) → list (string * string)) (complete : list token → string * list Entity)
  (nanos : nat → Z).

Definition gstep (w : world) (o : gop) : world :=
  match o with
  | GCall i x => perform (Client0 := gotd_client a unescape quote sscan shuffle complete nanos i) x w
  | GUpdates i class => set_client i (onUpdatesClass class (client_at i w)).2 w
  end.

(** [quiet w w']: nothing but the log and the nonce source changed. *)
Definition quiet (w w' : world) : Prop := uploadCounter w' = uploadCounter w ∧ clients w' = clients w.

#[local] Instance quiet_refl : Reflexive quiet.
Proof. by intros w. Qed.

#[local] Instance quiet_trans : Transitive quiet.
Proof. intros w1 w2 w3 [] []. split; congruence. Qed.

Lemma ask_quiet {A} (f : nat → result A) x w : quiet w (ask f x w).2.
Proof. done. Qed.

Lemma resolve_quiet id w : quiet w (resolveUser a id w).2.
Proof. unfold resolveUser. simpl. by destruct (r_users a _) as [[|[u|] l]|e]. Qed.

Lemma format_quiet text mode w : quiet w (format_text a unescape quote sscan shuffle complete text mode w).2.
Proof.
  unfold format_text, Build.
  destruct (applyWithOptions _ _ _ _ _ _ _ w) as [[[toks|e] w']|] eqn:E; simpl; [| |done];
    (apply (formatting_world _ _ _ _ _ quiet) in E; [|by intros f id w1 [= <-]; apply resolve_quiet]); [|done].
  by destruct (complete toks).
Qed.

Lemma caption_quiet p w : quiet w (captionOption a unescape quote sscan shuffle p w).2.
Proof.
  unfold captionOption. destruct (_ =? "")%string; [done|].
  destruct (applyWithOptions _ _ _ _ _ _ _ w) as [[r w']|] eqn:E; simpl; [|done].
  apply (formatting_world _ _ _ _ _ quiet) in E; [done|]. by intros f id w1 [= <-]; apply resolve_quiet.
Qed.

Lemma perform_quiet i x w :
  is_upload x = false → quiet w (perform (Client0 := gotd_client a unescape quote sscan shuffle complete nanos i) x w).
Proof.
  destruct x as [|p|p|p|chat act|chat ids rv|p|chat items sl|chat|u|qid t al url ca|file|k n d]; intros Hx; try done;
    cbn [perform Me SendMessage EditMessageText EditMessageReplyMarkup SendChatAction DeleteMessages ForwardMessages
      SendMediaGroup GetChat ResolveUsername AnswerCallbackQuery DownloadMedia UploadMedia gotd_client].
  - unfold gotd_Me. simpl. by destruct (r_users a _) as [[|[]]|].
  - unfold gotd_SendMessage. destruct (sp_media p) as [m|].
    + destruct (buildInputMedia quote m (client_at i w)); [|done].
      pose proof (caption_quiet p w) as Hc. by destruct (captionOption _ _ _ _ _ p w) as [[toks|e] w1].
    + pose proof (format_quiet (sp_text p) (sp_mode p) w) as Hf. by destruct (format_text _ _ _ _ _ _ _ _ w) as [[[msg es]|e] w1].
  - unfold gotd_EditMessageText. pose proof (format_quiet (et_text p) (et_mode p) w) as Hf.
    by destruct (format_text _ _ _ _ _ _ _ _ w) as [[[msg es]|e] w1].
  - unfold gotd_ForwardMessages. simpl. by destruct (r_updates a _).
  - unfold gotd_SendMediaGroup. destruct (album_media _ _ _ _) as [[|x l]|e]; try done. simpl. by destruct (r_updates a _).
  - unfold gotd_GetChat. destruct (inputPeerOf chat); simpl; [by destruct (r_users a _) as [[|[]]|]
      |by destruct (r_full a _) as [[|[]]|]|by destruct (r_channels a _) as [[[|[]]|]|]].
  - unfold gotd_ResolveUsername. simpl. by destruct (r_resolved a _) as [[[|[]] [|[]]]|].
  - unfold gotd_DownloadMedia. by destruct (locate _ _ _).
Qed.

Lemma batch_uploads class g : uploads (onUpdatesClass class g).2 = uploads g.
Proof.
  unfold onUpdatesClass. simpl. generalize (flattenUpdates class). intros us. revert g.
  induction us as [|u us IH]; intros g; simpl; [done|]. rewrite IH. unfold cacheMediaLocations.
  by destruct (media_message u ≫= Media) as [[[]|[]| |]|].
Qed.

(** An upload takes the next handle; no other step touches handles. *)
Lemma gstep_uploads w o :
  (uploadCounter (gstep w o) = uploadCounter w ∧ ∀ j, uploads (client_at j (gstep w o)) = uploads (client_at j w)) ∨
  ∃ i f, let n := wrap64 (uploadCounter w + 1) in uploadCounter (gstep w o) = n ∧
    ∀ j, uploads (client_at j (gstep w o)) =
      if decide (j = i) then <[upload_handle n := f]> (uploads (client_at i w)) else uploads (client_at j w).
Proof.
  destruct o as [i x|i class].
  - destruct (is_upload x) eqn:Ex.
    + destruct x; try done. cbn [gstep perform UploadMedia gotd_client]. unfold gotd_UploadMedia. simpl.
      destruct (r_file a (length (log w))) as [f|e]; [right|by left]. exists i, f. split; [done|]. intros j.
      unfold client_at. simpl. destruct (decide (j = i)) as [->|Hne]; [by rewrite lookup_insert_eq|by rewrite lookup_insert_ne].
    + left. destruct (perform_quiet i x w Ex) as [H1 H2]. split; [done|]. intros j. unfold client_at. simpl. by rewrite H2.
  - left. split; [done|]. intros j. unfold client_at. simpl. destruct (decide (j = i)) as [->|Hne]; [|by rewrite lookup_insert_ne].
    rewrite lookup_insert_eq. cbn [default]. apply batch_uploads.
Qed.

Lemma handle_inj n m : in_int64 n = true → in_int64 m = true → upload_handle n = upload_handle m → n = m.
Proof.
  intros Hn Hm E. apply (f_equal (sdrop 7)) in E. change (FormatInt n = FormatInt m) in E.
  apply parse_FormatInt in Hn, Hm. congruence.
Qed.

Lemma handle_survives ops w i n f :
  0 < n <= uploadCounter w → uploadCounter w + Z.of_nat (length ops) <= int64_max →
  uploads (client_at i w) !! upload_handle n = Some f →
  uploads (client_at i (fold_left gstep ops w)) !! upload_handle n = Some f.
Proof.
  revert w. induction ops as [|o ops IH]; intros w Hn Hb Hl; [done|]. simpl.
  simpl in Hb. destruct (gstep_uploads w o) as [[Hc Hu]|(j & g & Hc & Hu)].
  - apply IH; [lia|lia|by rewrite Hu].
  - rewrite wrap64_id in Hc, Hu by (unfold in_int64, int64_min, int64_max in *; lia). apply IH; [lia|lia|]. rewrite Hu.
    destruct (decide (i = j)) as [<-|]; [|done]. rewrite lookup_insert_ne; [done|]. intros E.
    apply handle_inj in E; [lia|unfold in_int64, int64_min, int64_max in *; lia..].
Qed.

(** The uploaded file a media sends. *)
Definition media_file (x : InputMedia) : option InputFile :=
  match x with InputMediaUploadedPhoto f => Some f | InputMediaUploadedDocument f _ _ => f | _ => None end.

(** An upload can be sent later: the handle an upload returned names that
    very file for the rest of the process, whatever calls and updates of this
    and other sessions come in between, as a photo, document or any other
    kind. *)
Theorem upload_handle_resolves i kind_ name data w h w1 ops m :
  0 <= uploadCounter w → uploadCounter w + 1 + Z.of_nat (length ops) <= int64_max →
  gotd_UploadMedia a i kind_ name data w = (Ok h, w1) → Handle m = h → MediaURL m = "" →
  ∃ x f, r_file a (length (log w)) = Ok f ∧
    buildInputMedia quote m (client_at i (fold_left gstep ops w1)) = Ok x ∧ media_file x = Some f.
Proof.
  intros Hc Hb. unfold gotd_UploadMedia. simpl. destruct (r_file a (length (log w))) as [f|e]; [|done].
  rewrite wrap64_id by (unfold in_int64, int64_min, int64_max in *; lia). intros [= <- <-] Hh Hu.
  set (w1 := set_client _ _ _).
  assert (uploads (client_at i (fold_left gstep ops w1)) !! upload_handle (uploadCounter w + 1) = Some f) as Hl.
  { apply handle_survives; [simpl; lia|simpl; lia|]. unfold client_at at 1, w1. simpl. rewrite lookup_insert_eq. simpl. apply lookup_insert_eq. }
  unfold buildInputMedia. rewrite Hu, Hh, Hl. simpl. destruct (Kind m =? "photo")%string; by eexists _, f.
Qed.
End handles.

(** ** Sessions at rest *)

(** C38. A stored session loads back: what gotd saved for a session is what it
    loads, in this process or a later one with the same key, and other
    sessions' blobs are untouched; a row from before sealing loads as it is. *)
Theorem session_roundtrip `{FernetLaws} b entropy f alias data t t' :
  keyed gs_alias t → StoreSession b entropy f alias data t = Some t' →
  LoadSession b no_faults alias t' = Loaded data ∧ keyed gs_alias t' ∧
  (∀ alias', alias' ≠ alias → LoadSession b no_faults alias' t' = LoadSession b no_faults alias' t) ∧
  (∀ alias' r, row_of gs_alias alias' t = Some r → IsSealed (gs_blob r) = false →
     LoadSession b no_faults alias' t = Loaded (gs_blob r)).
Proof.
  intros Hk. unfold StoreSession. destruct (f 0%nat); [done|]. destruct (SealBlob b entropy data) as [sealed|] eqn:Es; [|done].
  destruct (f 1%nat); [done|]. intros [= <-].
  destruct (seal_open b entropy data sealed Es) as [Ho _].
  split_ands.
  - unfold LoadSession. cbn [no_faults orb]. rewrite row_of_upsert by done. unfold has_key. rewrite bool_decide_true by done.
    destruct (row_of gs_alias alias t); simpl; by rewrite Ho.
  - by apply upsert_keyed.
  - intros alias' Hne. unfold LoadSession. cbn [no_faults orb]. rewrite row_of_upsert by done. unfold has_key. simpl.
    by rewrite bool_decide_false by congruence.
  - intros alias' r Hr Hs. unfold LoadSession. cbn [no_faults orb]. rewrite Hr. unfold OpenBlob, IsSealed in *. by rewrite Hs.
Qed.

(** ** Chat identifiers *)

(** The Bot API's marked identifier of a peer. *)
Definition marked_id (p : Peer) : Z :=
  match p with PeerUser u => u | PeerChat c => - c | PeerChannel c => - 1000000000000 - c end.

Definition as_input (p : Peer) : InputPeer :=
  match p with PeerUser u => InputPeerUser u | PeerChat c => InputPeerChat c | PeerChannel c => InputPeerChannel c end.

(** The ranges of Telegram's identifiers. *)
Definition peer_ok (p : Peer) : bool :=
  match p with
  | PeerUser u => (0 <? u) && (u <=? int64_max)
  | PeerChat c => (0 <? c) && (c <? 1000000000000)
  | PeerChannel c => (0 <=? c) && (c <? 1000000000000)
  end.

(** The id a delivered message shows for its chat. *)
Definition shown_id (p : Peer) : Z := default 0 (anyToInt64 (mget1 (SerializeChat (Some p)) "id")).

(** Marked identifiers reach their peer and shown ones only users and
    groups: every user, group and channel is addressed by its Bot API
    identifier; the identifier a delivered update shows for its chat is that
    one for users and groups, but for a channel it is the bare id, which
    addresses the user of the same number. *)
Theorem chat_ids_reach_peers p :
  peer_ok p = true →
  inputPeerOf (marked_id p) = as_input p ∧
  match p with
  | PeerChannel c => 0 < c → inputPeerOf (shown_id p) = InputPeerUser c
  | _ => inputPeerOf (shown_id p) = as_input p
  end.
Proof.
  unfold peer_ok, marked_id, inputPeerOf, int64_max. intros Hp. destruct p as [u|c|c].
  - rewrite (proj2 (Z.ltb_lt 0 u)) by lia. split; [done|]. unfold shown_id. simpl. by rewrite (proj2 (Z.ltb_lt 0 u)) by lia.
  - assert (shown_id (PeerChat c) = - c) as -> by (apply wrap64_id; unfold in_int64, int64_min, int64_max; lia).
    rewrite (proj2 (Z.ltb_ge 0 (- c))), (proj2 (Z.leb_gt (- c) _)) by lia. split; simpl; f_equal; lia.
  - rewrite (proj2 (Z.ltb_ge 0 _)), (proj2 (Z.leb_le _ _)) by lia.
    split; [rewrite (wrap64_id (-1000000000000 - c + 1000000000000)), wrap64_id by (unfold in_int64, int64_min, int64_max; lia); simpl; f_equal; lia|]. intros Hc.
    unfold shown_id. simpl. by rewrite (proj2 (Z.ltb_lt 0 c)).
Qed.

(** ** Answers and requests that go astray *)

(** Telegram's short answer to a sent message carries its id; the code reports
    message 0 of chat 0. *)
Lemma short_answer_loses_id id date pts chat : extractSentMessage (UpdateShortSentMessage id date pts) chat = {| sm_id := 0; sm_chat := 0 |}.
Proof. done. Qed.

(** A short group message is neither delivered nor cached. *)
Lemma short_chat_message_is_dropped id from chat date pts msg g :
  onUpdatesClass (UpdateShortChatMessage id from chat date pts msg) g = ([], g).
Proof. done. Qed.

(** Deleting in a channel names a channel that is not the chat's. *)
Lemma delete_names_wrong_channel a c ids rv w :
  0 <= c < 1000000000000 →
  log (gotd_DeleteMessages a (marked_id (PeerChannel c)) ids rv w).2 = log w ++ [ChannelsDeleteMessages (1000000000000 + c) ids].
Proof.
  intros Hc. unfold gotd_DeleteMessages, marked_id. rewrite (proj2 (Z.ltb_ge 0 _)) by lia.
  rewrite wrap64_id by (unfold in_int64, int64_min, int64_max; lia). simpl. do 3 f_equal. lia.
Qed.

(** Forwarding several messages sends one nonce for all of them. *)
Lemma forward_sends_one_nonce a nanos p w :
  ∃ rid, log (gotd_ForwardMessages a nanos p w).2 = log w ++
    [MessagesForwardMessages (inputPeerOf (fw_from p)) (inputPeerOf (fw_to p)) (fw_ids p) [rid] (fw_noquote p)].
Proof. eexists. unfold gotd_ForwardMessages. simpl. destruct (r_updates a _); reflexivity. Qed.

(** ** A run *)

Definition demo_api : api := {|
  r_users _ := Ok []; r_updates _ := Ok (UpdateShortSentMessage 7 0 0); r_done _ := Ok tt; r_full _ := Ok []; r_channels _ := Ok None;
  r_resolved _ := Ok ([], []); r_file _ := Ok {| f_id := 11; f_parts := 1; f_name := "cat" |}; r_bytes _ := Ok "bytes";
  r_state _ := Err "" |}.

Definition world0 : world := {| uploadCounter := 0; randomSrc := 0; clients := ∅; log := [] |}.

Definition demo_complete (toks : list token) : string * list Entity :=
  (fold_right (λ t s, match t with Plain x | Format x _ => x +:+ s end) "" toks, []).

Definition demo_gotd (i : nat) : Client world :=
  gotd_client demo_api (unescape5 0) plain_quote (λ s, default 0 (parse_int64 s)) id demo_complete Z.of_nat i.

Definition demo_body : obj := [("chat_id", AFloat (inject_Z (-1000000000042))); ("text", AStr "hi"); ("data", AStr "Y2F0")].


Definition demo_photo : Photo := {| p_id := 5; p_access_hash := 99; p_file_reference := "ref"; Sizes := [] |}.

Definition demo_update : Update :=
  UpdateNewMessage (Some {| ID := 1; Date := 0; Body := ""; PeerID := None; FromID := None; Reply := None; Markup := None;
    Entities := []; Media := Some (MediaPhoto (Some demo_photo)) |}) 0 0.

Lemma seen_photo_downloads_witness :
  ∃ p', p_id p' = 5 ∧
    (gotd_DownloadMedia demo_api plain_quote 0 "photo:5" (set_client 0 (onUpdatesClass (Updates [demo_update]) newGotdClient).2 world0)).1
      = Ok (Some "bytes").
Proof.
  destruct (seen_photo_downloads demo_api plain_quote 0 (Updates [demo_update]) demo_update demo_photo world0)
    as (u' & p' & _ & _ & H3 & H4); [left|reflexivity|reflexivity|].
  exists p'. split; [exact H3|]. exact (f_equal fst H4).
Defined.

Definition demo_attach : MediaAttach :=
  {| Kind := "photo"; Handle := "upload:1"; MediaURL := ""; MediaMime := ""; FileName := "" |}.

Definition demo_ops : list gop := [GCall 1 (CallUpload "photo" "" "dog"); GUpdates 0 (Updates [demo_update]); GCall 0 CallMe].

Lemma upload_handle_resolves_witness :
  ∃ x f, f_id f = 11 ∧ media_file x = Some f ∧
    buildInputMedia plain_quote demo_attach (client_at 0 (fold_left
      (gstep demo_api (unescape5 0) plain_quote (λ s, default 0 (parse_int64 s)) id demo_complete Z.of_nat) demo_ops
      (gotd_UploadMedia demo_api 0 "photo" "cat.jpg" "cat" world0).2)) = Ok x.
Proof.
  destruct (upload_handle_resolves demo_api (unescape5 0) plain_quote (λ s, default 0 (parse_int64 s)) id demo_complete Z.of_nat
    0 "photo" "cat.jpg" "cat" world0 "upload:1" (gotd_UploadMedia demo_api 0 "photo" "cat.jpg" "cat" world0).2 demo_ops demo_attach)
    as (x & f & H1 & H2 & H3); [vm_compute; discriminate|vm_compute; discriminate|vm_compute; reflexivity|reflexivity|reflexivity|].
  exists x, f. injection H1 as <-. split; [reflexivity|]. split; [exact H3|exact H2].
Defined.

Lemma session_roundtrip_witness :
  ∃ t', StoreSession toy_box 0 no_faults "s1" "auth-key" [{| gs_alias := "s2"; gs_blob := "old" |}] = Some t' ∧
    LoadSession toy_box no_faults "s1" t' = Loaded "auth-key" ∧ LoadSession toy_box no_faults "s2" t' = Loaded "old".
Proof.
  destruct (session_roundtrip toy_box 0 no_faults "s1" "auth-key" [{| gs_alias := "s2"; gs_blob := "old" |}]
    (default [] (StoreSession toy_box 0 no_faults "s1" "auth-key" [{| gs_alias := "s2"; gs_blob := "old" |}])))
    as (H1 & _ & H3 & H4); [apply NoDup_singleton|vm_compute; reflexivity|].
  eexists. split; [vm_compute; reflexivity|]. split; [exact H1|].
  refine (eq_trans (H3 "s2" _) (H4 "s2" {| gs_alias := "s2"; gs_blob := "old" |} _ _)); [discriminate|reflexivity|reflexivity].
Defined.

Lemma chat_ids_reach_peers_witness :
  inputPeerOf (-1000000000042) = InputPeerChannel 42 ∧ inputPeerOf (shown_id (PeerChannel 42)) = InputPeerUser 42.
Proof.
  destruct (chat_ids_reach_peers (PeerChannel 42)) as [H1 H2]; [reflexivity|]. split; [exact H1|]. apply H2. lia.
Defined.
