(* ===== verification/Migrate.v ===== *)
(** * The cutover tool (internal/migrate/migrate.go)

    Converts the .session files of the Python gateway into gotd session blobs
    in mtgateway.db, seals what is not sealed and counts the logins that would
    still be needed.  What gotd does is a parameter: the fingerprint of a key
    and the encoding of a session.  The tables are [Gotd.session_row]s and the
    aliases of the sessions table; [None] for the latter is a failing query. *)
From Stdlib Require Import Ascii String.
From stdpp Require Import base list strings gmap.
From S2P Require Import Prelude GoValue Sql Crypto.
From S2P Require Health Maintenance Gotd.
Open Scope Z_scope.

(** ** The source files *)

(** One row of pyrogram's sessions table, as the columns hold it. *)
Record pyro_row := { y_dc : Z; y_api : Z; y_test : Z; y_key : string; y_user : option Z; y_bot : Z }.

(** A .session file: why it could not be read, or its row. *)
Definition session_file : Type := string + pyro_row.

Record pyroforkSession := {
  DCID : Z; APIID : Z; TestMode : bool; AuthKey : string; UserID : Z; IsBot : bool
}.

Definition readPyroforkSession (x : session_file) : string + pyroforkSession :=
  match x with
  | inl err => inl err
  | inr r =>
      if negb (String.length (y_key r) =? 256)%nat
      then inl ("auth_key has " +:+ itoa (Z.of_nat (String.length (y_key r))) +:+ " bytes, want 256")
      else inr {| DCID := y_dc r; APIID := y_api r; TestMode := negb (y_test r =? 0); AuthKey := y_key r;
                  UserID := default 0 (y_user r); IsBot := negb (y_bot r =? 0) |}
  end.

(** What gotd's loader is given to save. *)
Record Data := { d_dc : Z; d_key : string; d_key_id : string; d_test : bool }.

(** [fmt.Sprintf("%x")] of bytes. *)
Definition hex_nibble (n : Z) : ascii := chr (if n <? 10 then 48 + n else 87 + n).

Fixpoint hex (s : string) : string :=
  match s with
  | EmptyString => ""
  | String c s' => String (hex_nibble (code c / 16)) (String (hex_nibble (code c mod 16)) (hex s'))
  end.

Section gotd.
Context (key_id : string → string) (save : Data → string + string).

Definition buildGotdBlob (s : pyroforkSession) : string + string * string :=
  let id := key_id (AuthKey s) in
  match save {| d_dc := DCID s; d_key := AuthKey s; d_key_id := id; d_test := TestMode s |} with
  | inl err => inl err
  | inr blob => inr (blob, hex id)
  end.

(** ** The report *)

Inductive action := Migrated_ | WouldMigrate | AlreadyMigrated | Failed (err : string).

Definition action_text (a : action) : string :=
  match a with
  | Migrated_ => "migrated" | WouldMigrate => "would migrate"
  | AlreadyMigrated => "skipped (already migrated)" | Failed _ => "error"
  end.

Record SessionReport := {
  s_alias : string; s_dc : Z; s_user : Z; s_bot : bool; s_test : bool; s_key_id : string; s_action : action
}.

Record Report := {
  Sessions : list SessionReport; Migrated : Z; Skipped : Z; Reencrypted : Z; Errors : Z; NeedsNewLogin : Z;
  LoginsRequired : Z
}.

Definition empty_report : Report :=
  {| Sessions := []; Migrated := 0; Skipped := 0; Reencrypted := 0; Errors := 0; NeedsNewLogin := 0; LoginsRequired := 0 |}.

Definition is_failed (a : action) : bool := match a with Failed _ => true | _ => false end.

Definition b2z (b : bool) : Z := if b then 1 else 0.

(** A session's entry, with the counter its outcome increments. *)
Definition add_session (r : SessionReport) (p : Report) : Report :=
  {| Sessions := Sessions p ++ [r];
     Migrated := Migrated p + match s_action r with Migrated_ | WouldMigrate => 1 | _ => 0 end;
     Skipped := Skipped p + match s_action r with AlreadyMigrated => 1 | _ => 0 end;
     Reencrypted := Reencrypted p; Errors := Errors p + b2z (is_failed (s_action r));
     NeedsNewLogin := NeedsNewLogin p; LoginsRequired := LoginsRequired p |}.

Definition add_sealed (ok : bool) (p : Report) : Report :=
  {| Sessions := Sessions p; Migrated := Migrated p; Skipped := Skipped p; Reencrypted := Reencrypted p + b2z ok;
     Errors := Errors p + b2z (negb ok); NeedsNewLogin := NeedsNewLogin p; LoginsRequired := LoginsRequired p |}.

Definition add_needs (n : Z) (p : Report) : Report :=
  {| Sessions := Sessions p; Migrated := Migrated p; Skipped := Skipped p; Reencrypted := Reencrypted p;
     Errors := Errors p; NeedsNewLogin := NeedsNewLogin p + n; LoginsRequired := Errors p + (NeedsNewLogin p + n) |}.

(** ** The run *)

(** [f_query], [f_write], [f_reseal]: the statement for this alias fails. *)
Record mig_env := {
  f_create : bool; f_list : bool; f_query : string → bool; f_write : string → bool; f_reseal : string → bool;
  rnd : string → Z; rnd_reseal : string → Z
}.

Context `{Fernet}.
Implicit Types (b : Box) (t : list Gotd.session_row).

Definition put_blob (alias sealed : string) t : list Gotd.session_row :=
  upsert Gotd.gs_alias {| Gotd.gs_alias := alias; Gotd.gs_blob := sealed |}
    (λ r, {| Gotd.gs_alias := Gotd.gs_alias r; Gotd.gs_blob := sealed |}) t.

(** What happens to a session whose blob was built: the stored blob as far as
    it could be read, then the write. *)
Definition store_blob (e : mig_env) b (dryRun : bool) (alias blob : string) t : action * list Gotd.session_row :=
  let write :=
    if dryRun then (WouldMigrate, t) else
    match SealBlob b (rnd e alias) blob with
    | None => (Failed "seal", t)
    | Some sealed => if f_write e alias then (Failed "write", t) else (Migrated_, put_blob alias sealed t)
    end in
  match (if f_query e alias then None else row_of Gotd.gs_alias alias t) with
  | None => write
  | Some r =>
      match OpenBlob b (Gotd.gs_blob r) with
      | None => (Failed "open", t)
      | Some plain => if (plain =? blob)%string then (AlreadyMigrated, t) else write
      end
  end.

(** One file: its entry, whether its key is usable ([byFile]), the table. *)
Definition migrate_file (e : mig_env) b (dryRun : bool) (alias : string) (x : session_file) t
    : SessionReport * bool * list Gotd.session_row :=
  let entry dc user bot test id act :=
    {| s_alias := alias; s_dc := dc; s_user := user; s_bot := bot; s_test := test; s_key_id := id; s_action := act |} in
  match readPyroforkSession x with
  | inl err => (entry 0 0 false false "" (Failed err), false, t)
  | inr ps =>
      match buildGotdBlob ps with
      | inl err => (entry (DCID ps) (UserID ps) (IsBot ps) (TestMode ps) "" (Failed err), false, t)
      | inr (blob, id) =>
          let '(act, t) := store_blob e b dryRun alias blob t in
          (entry (DCID ps) (UserID ps) (IsBot ps) (TestMode ps) id act, true, t)
      end
  end.

Fixpoint migrate_files (e : mig_env) b (dryRun : bool) (l : list (string * session_file)) (p : Report) (byFile : list string) t
    : Report * list string * list Gotd.session_row :=
  match l with
  | [] => (p, byFile, t)
  | (alias, x) :: l' =>
      let '(r, ok, t) := migrate_file e b dryRun alias x t in
      migrate_files e b dryRun l' (add_session r p) (if ok then alias :: byFile else byFile) t
  end.

(** The rows that are not sealed, as read. *)
Definition legacy_rows t : list Gotd.session_row := bfilter (λ r, negb (IsSealed (Gotd.gs_blob r))) t.

Definition reseal (e : mig_env) b (r : Gotd.session_row) t : bool * list Gotd.session_row :=
  match SealBlob b (rnd_reseal e (Gotd.gs_alias r)) (Gotd.gs_blob r) with
  | None => (false, t)
  | Some sealed =>
      if f_reseal e (Gotd.gs_alias r) then (false, t)
      else (true, update_where (has_key Gotd.gs_alias (Gotd.gs_alias r))
                    (λ x, {| Gotd.gs_alias := Gotd.gs_alias x; Gotd.gs_blob := sealed |}) t)
  end.

Fixpoint reseal_all (e : mig_env) b (dryRun : bool) (l : list Gotd.session_row) (p : Report) t
    : Report * list Gotd.session_row :=
  match l with
  | [] => (p, t)
  | r :: l' =>
      if dryRun then reseal_all e b dryRun l' (add_sealed true p) t
      else let '(ok, t) := reseal e b r t in reseal_all e b dryRun l' (add_sealed ok p) t
  end.

(** filepath.Glob of sessions/*.session: the matching names in order, each with
    the alias it stands for. *)
Definition suffix : string := ".session".

Definition stem (name : string) : string := stake (String.length name - String.length suffix) name.

Definition session_entries (dir : gmap string session_file) : list (string * session_file) :=
  omap (λ n, pair (stem n) <$> dir !! n)
    (Health.Storage.sortStrings (bfilter (Maintenance.has_suffix suffix) (map fst (map_to_list dir)))).

(** The report ([None] is the error return), the table and the key files. *)
Definition Run (e : mig_env) (fernetKey dataDir : string) (entropy : Z) (fk : nat → bool) (dryRun : bool)
    (dir : gmap string session_file) (registered : option (list string)) (keys : gmap string string) t
    : option Report * list Gotd.session_row * gmap string string :=
  match LoadKey fernetKey dataDir entropy fk keys with
  | (None, keys) => (None, t, keys)
  | (Some b, keys) =>
      if f_create e then (None, t, keys) else
      let '(p, byFile, t) := migrate_files e b dryRun (session_entries dir) empty_report [] t in
      if f_list e then (None, t, keys) else
      let '(p, t) := reseal_all e b dryRun (legacy_rows t) p t in
      let needs := match registered with
                   | Some l => Z.of_nat (length (bfilter (λ a, negb (smem a byFile)) l))
                   | None => 0
                   end in
      (Some (add_needs needs p), t, keys)
  end.

(** ** Lemmas *)

Context `{!FernetLaws}.

Lemma errors_nonneg a : 0 <= b2z a.
Proof. by destruct a. Qed.

Lemma put_blob_load b r alias sealed blob t :
  SealBlob b r blob = Some sealed → keyed Gotd.gs_alias t →
  keyed Gotd.gs_alias (put_blob alias sealed t) ∧
  Gotd.LoadSession b no_faults alias (put_blob alias sealed t) = Gotd.Loaded blob ∧
  ∀ a, a ≠ alias → row_of Gotd.gs_alias a (put_blob alias sealed t) = row_of Gotd.gs_alias a t.
Proof.
  intros [Ho _]%seal_open Hk. unfold put_blob. split; [by apply upsert_keyed|]. split.
  - unfold Gotd.LoadSession. cbn [no_faults orb]. rewrite row_of_upsert by done. unfold has_key. rewrite bool_decide_true by done.
    destruct (row_of Gotd.gs_alias alias t); simpl; by rewrite Ho.
  - intros a Hne. rewrite row_of_upsert by done. unfold has_key. simpl. by rewrite bool_decide_false by congruence.
Qed.

(** A session that did not fail is in the table, and nothing else changed. *)
Lemma store_blob_ok e b alias blob t act t' :
  store_blob e b false alias blob t = (act, t') → is_failed act = false → keyed Gotd.gs_alias t →
  keyed Gotd.gs_alias t' ∧ Gotd.LoadSession b no_faults alias t' = Gotd.Loaded blob ∧
  ∀ a, a ≠ alias → row_of Gotd.gs_alias a t' = row_of Gotd.gs_alias a t.
Proof.
  unfold store_blob. intros E Hf Hk.
  assert (match SealBlob b (rnd e alias) blob with
    | None => (Failed "seal", t)
    | Some sealed => if f_write e alias then (Failed "write", t) else (Migrated_, put_blob alias sealed t) end = (act, t') →
    keyed Gotd.gs_alias t' ∧ Gotd.LoadSession b no_faults alias t' = Gotd.Loaded blob ∧
    ∀ a, a ≠ alias → row_of Gotd.gs_alias a t' = row_of Gotd.gs_alias a t) as Hw.
  { destruct (SealBlob b (rnd e alias) blob) as [sealed|] eqn:Es; [|by intros [= <- <-]].
    destruct (f_write e alias); intros [= <- <-]; [done|]. by eapply put_blob_load. }
  destruct (if f_query e alias then _ else _) as [r|] eqn:Er; [|by apply Hw].
  destruct (OpenBlob b (Gotd.gs_blob r)) as [plain|] eqn:Eo; [|by injection E as <- <-].
  destruct (String.eqb_spec plain blob) as [->|]; [|by apply Hw]. injection E as <- <-. split_ands; [done| |done].
  destruct (f_query e alias); [done|]. unfold Gotd.LoadSession. cbn [no_faults orb]. by rewrite Er, Eo.
Qed.

(** The blob a .session file stands for. *)
Definition blob_of (x : session_file) (blob : string) : Prop :=
  ∃ ps id, readPyroforkSession x = inr ps ∧ buildGotdBlob ps = inr (blob, id).

Lemma migrate_file_ok e b alias x t r ok t' :
  migrate_file e b false alias x t = (r, ok, t') → is_failed (s_action r) = false → keyed Gotd.gs_alias t →
  ok = true ∧ keyed Gotd.gs_alias t' ∧ (∃ blob, blob_of x blob ∧ Gotd.LoadSession b no_faults alias t' = Gotd.Loaded blob) ∧
  ∀ a, a ≠ alias → row_of Gotd.gs_alias a t' = row_of Gotd.gs_alias a t.
Proof.
  unfold migrate_file. destruct (readPyroforkSession x) as [err|ps] eqn:Er; [by intros [= <- <- <-]|].
  destruct (buildGotdBlob ps) as [err|[blob id]] eqn:Eb; [by intros [= <- <- <-]|].
  destruct (store_blob e b false alias blob t) as [act t1] eqn:Es. intros [= <- <- <-] Hf Hk. simpl in Hf.
  destruct (store_blob_ok _ _ _ _ _ _ _ Es Hf Hk) as (H1 & H2 & H3). split_ands; [done|done| |done].
  exists blob. split; [|done]. by exists ps, id.
Qed.

Lemma load_row b a t t' :
  row_of Gotd.gs_alias a t' = row_of Gotd.gs_alias a t → Gotd.LoadSession b no_faults a t' = Gotd.LoadSession b no_faults a t.
Proof. intros E. unfold Gotd.LoadSession. by rewrite E. Qed.

Lemma migrate_files_errors e b dry l p by_ t p' by' t' :
  migrate_files e b dry l p by_ t = (p', by', t') → Errors p <= Errors p'.
Proof.
  revert p by_ t. induction l as [|[alias x] l IH]; intros p by_ t; cbn [migrate_files]; [intros [= <- <- <-]; lia|].
  destruct (migrate_file e b dry alias x t) as [[r ok] t1]. intros E%IH. simpl in E.
  pose proof (errors_nonneg (is_failed (s_action r))). lia.
Qed.

(** A pass over the files without an error. *)
Lemma migrate_files_ok e b l p by_ t p' by' t' :
  migrate_files e b false l p by_ t = (p', by', t') → Errors p' = Errors p → NoDup l.*1 → keyed Gotd.gs_alias t →
  keyed Gotd.gs_alias t' ∧
  (∀ a, a ∉ l.*1 → row_of Gotd.gs_alias a t' = row_of Gotd.gs_alias a t) ∧
  (∀ a x, (a, x) ∈ l → ∃ blob, blob_of x blob ∧ Gotd.LoadSession b no_faults a t' = Gotd.Loaded blob) ∧
  (∀ a, a ∈ by' → a ∈ by_ ∨ a ∈ l.*1).
Proof.
  revert p by_ t. induction l as [|[alias x] l IH]; intros p by_ t; cbn [migrate_files].
  { intros [= <- <- <-] _ _ Hk. split_ands; [done|done| |by left]. intros a x Hx. by apply elem_of_nil in Hx. }
  destruct (migrate_file e b false alias x t) as [[r ok] t1] eqn:Ef. intros E He Hnd Hk.
  rewrite fmap_cons in *. apply NoDup_cons in Hnd as [Hn Hnd]. simpl in Hn.
  pose proof (migrate_files_errors _ _ _ _ _ _ _ _ _ _ E) as Hle. simpl in Hle.
  destruct (is_failed (s_action r)) eqn:Efl; simpl in Hle; [lia|].
  destruct (migrate_file_ok _ _ _ _ _ _ _ _ Ef Efl Hk) as (-> & K1 & (blob & B1 & B2) & F1).
  destruct (IH _ _ _ E) as (K2 & R2 & L2 & Y2); [simpl; rewrite Efl; simpl; lia|done|done|].
  split_ands; [done| | |].
  - intros a Ha. apply not_elem_of_cons in Ha as [Ha1 Ha2]. rewrite R2 by done. by apply F1.
  - intros a y [[= -> ->]|Hy]%elem_of_cons; [|by apply L2]. exists blob. split; [done|]. rewrite <-B2. by apply load_row, R2.
  - intros a Ha. destruct (Y2 a Ha) as [[->|Hb]%elem_of_cons|Hl]; [right; by left|by left|right; by right].
Qed.

Lemma reseal_ok e b r t ok t' :
  reseal e b r t = (ok, t') → ok = true → IsSealed (Gotd.gs_blob r) = false →
  row_of Gotd.gs_alias (Gotd.gs_alias r) t = Some r → keyed Gotd.gs_alias t →
  keyed Gotd.gs_alias t' ∧ (∀ a, Gotd.LoadSession b no_faults a t' = Gotd.LoadSession b no_faults a t) ∧
  (∀ a, a ≠ Gotd.gs_alias r → row_of Gotd.gs_alias a t' = row_of Gotd.gs_alias a t) ∧
  ∃ r', row_of Gotd.gs_alias (Gotd.gs_alias r) t' = Some r' ∧ IsSealed (Gotd.gs_blob r') = true.
Proof.
  unfold reseal. destruct (SealBlob b _ (Gotd.gs_blob r)) as [sealed|] eqn:Es; [|by intros [= <- <-]].
  destruct (f_reseal e _); intros [= <- <-]; [done|]. intros _ Hl Hr Hk. destruct (seal_open _ _ _ _ Es) as [Ho Hi].
  assert (∀ a, a ≠ Gotd.gs_alias r → row_of Gotd.gs_alias a (update_where (has_key Gotd.gs_alias (Gotd.gs_alias r))
    (λ x, {| Gotd.gs_alias := Gotd.gs_alias x; Gotd.gs_blob := sealed |}) t) = row_of Gotd.gs_alias a t) as Hne.
  { intros a Ha. rewrite row_of_update by done. destruct (row_of Gotd.gs_alias a t) as [x|] eqn:Ex; [|done]. simpl.
    apply row_of_Some in Ex as [_ <-]. unfold has_key. by rewrite bool_decide_false. }
  assert (row_of Gotd.gs_alias (Gotd.gs_alias r) (update_where (has_key Gotd.gs_alias (Gotd.gs_alias r))
    (λ x, {| Gotd.gs_alias := Gotd.gs_alias x; Gotd.gs_blob := sealed |}) t) =
    Some {| Gotd.gs_alias := Gotd.gs_alias r; Gotd.gs_blob := sealed |}) as Heq.
  { rewrite row_of_update by done. rewrite Hr. simpl. unfold has_key. by rewrite bool_decide_true. }
  split_ands; [by apply update_keyed| |done|by eexists].
  intros a. destruct (decide (a = Gotd.gs_alias r)) as [->|Ha]; [|by apply load_row, Hne].
  unfold Gotd.LoadSession. cbn [no_faults orb]. rewrite Heq, Hr. simpl. rewrite Ho.
  unfold OpenBlob, IsSealed in *. by rewrite Hl.
Qed.

Lemma reseal_all_errors e b dry l p t p' t' :
  reseal_all e b dry l p t = (p', t') → Errors p <= Errors p' ∧ NeedsNewLogin p' = NeedsNewLogin p ∧
    Migrated p' = Migrated p ∧ Skipped p' = Skipped p.
Proof.
  revert p t. induction l as [|r l IH]; intros p t; cbn [reseal_all]; [intros [= <- <-]; lia|].
  destruct dry; [intros E%IH; simpl in E; lia|]. destruct (reseal e b r t) as [ok t1]. intros E%IH. simpl in E.
  pose proof (errors_nonneg (negb ok)). lia.
Qed.

Lemma reseal_all_ok e b l p t p' t' :
  reseal_all e b false l p t = (p', t') → Errors p' = Errors p →
  Forall (λ r, IsSealed (Gotd.gs_blob r) = false ∧ row_of Gotd.gs_alias (Gotd.gs_alias r) t = Some r) l →
  NoDup (Gotd.gs_alias <$> l) → keyed Gotd.gs_alias t →
  keyed Gotd.gs_alias t' ∧ (∀ a, Gotd.LoadSession b no_faults a t' = Gotd.LoadSession b no_faults a t) ∧
  (∀ a, a ∉ Gotd.gs_alias <$> l → row_of Gotd.gs_alias a t' = row_of Gotd.gs_alias a t) ∧
  (∀ a, a ∈ Gotd.gs_alias <$> l → ∃ r', row_of Gotd.gs_alias a t' = Some r' ∧ IsSealed (Gotd.gs_blob r') = true).
Proof.
  revert p t. induction l as [|r l IH]; intros p t; cbn [reseal_all].
  { intros [= <- <-] _ _ _ Hk. split_ands; try done. by intros a Ha%elem_of_nil. }
  destruct (reseal e b r t) as [ok t1] eqn:Er. intros E He Hf Hnd Hk. apply Forall_cons in Hf as [[Hl Hr] Hf].
  rewrite fmap_cons in *. apply NoDup_cons in Hnd as [Hn Hnd].
  pose proof (proj1 (reseal_all_errors _ _ _ _ _ _ _ _ E)) as Hle. simpl in Hle.
  destruct ok; simpl in Hle; [|lia].
  destruct (reseal_ok _ _ _ _ _ _ Er eq_refl Hl Hr Hk) as (K1 & L1 & N1 & r1 & R1 & S1).
  destruct (IH _ _ E) as (K2 & L2 & N2 & S2); [simpl; lia| |done|done|].
  { apply Forall_forall. intros x Hx. rewrite Forall_forall in Hf. destruct (Hf x Hx) as [F1 F2]. split; [done|].
    rewrite N1; [done|]. intros Ex. apply Hn. rewrite <-Ex. by apply list_elem_of_fmap_2. }
  split_ands; [done|intros a; by rewrite L2| |].
  - intros a Ha. apply not_elem_of_cons in Ha as [Ha1 Ha2]. rewrite N2 by done. by apply N1.
  - intros a [->|Ha]%elem_of_cons; [|by apply S2]. exists r1. rewrite N2 by done. done.
Qed.

(** After the second pass everything is sealed and opens as before. *)
Lemma legacy_ok e b p t p' t' :
  reseal_all e b false (legacy_rows t) p t = (p', t') → Errors p' = Errors p → keyed Gotd.gs_alias t →
  keyed Gotd.gs_alias t' ∧ (∀ a, Gotd.LoadSession b no_faults a t' = Gotd.LoadSession b no_faults a t) ∧
  Forall (λ r, IsSealed (Gotd.gs_blob r) = true) t'.
Proof.
  intros E He Hk.
  destruct (reseal_all_ok _ _ _ _ _ _ _ E He) as (K & L & N & S).
  { apply Forall_forall. intros r. unfold legacy_rows. rewrite elem_of_bfilter. intros [Hr Hs]. split; [by apply negb_true_iff|by apply row_of_elem]. }
  { by apply NoDup_fmap_bfilter. }
  { done. }
  split_ands; [done|done|]. apply Forall_forall. intros r' Hr'.
  pose proof (row_of_elem Gotd.gs_alias t' r' K Hr') as Hrow'.
  destruct (decide (Gotd.gs_alias r' ∈ Gotd.gs_alias <$> legacy_rows t)) as [Hin|Hout].
  - destruct (S _ Hin) as (y & Hy & Hs). congruence.
  - rewrite N in Hrow' by done. apply row_of_Some in Hrow' as [Ht _].
    destruct (IsSealed (Gotd.gs_blob r')) eqn:Es; [done|]. destruct Hout. apply list_elem_of_fmap_2.
    unfold legacy_rows. apply elem_of_bfilter. split; [done|]. by rewrite Es.
Qed.

(** ** File names *)

Lemma stem_suffix n : Maintenance.has_suffix suffix n = true → n = stem n +:+ suffix.
Proof.
  unfold Maintenance.has_suffix, stem. intros [_ Hs]%andb_true_iff. apply String.eqb_eq in Hs.
  set (k := (String.length n - String.length suffix)%nat) in *. rewrite <-Hs. by rewrite stake_sdrop.
Qed.

Lemma elem_of_entries dir a x :
  (a, x) ∈ session_entries dir → dir !! (a +:+ suffix) = Some x.
Proof.
  unfold session_entries. rewrite list_elem_of_omap. intros (n & Hn & E).
  rewrite Health.Storage.sortStrings_Permutation, elem_of_bfilter in Hn. destruct Hn as [_ Hn].
  destruct (dir !! n) as [y|] eqn:Ey; [|done]. injection E as <- <-. by rewrite <-stem_suffix.
Qed.

Lemma entries_NoDup dir : NoDup (session_entries dir).*1.
Proof.
  unfold session_entries. set (ns := Health.Storage.sortStrings _).
  assert (NoDup ns ∧ Forall (λ n, n = stem n +:+ suffix) ns) as [Hnd Hst].
  { unfold ns. rewrite Health.Storage.sortStrings_Permutation. split.
    - eapply sublist_NoDup; [exact (NoDup_fst_map_to_list dir)|]. apply bfilter_sublist.
    - apply Forall_forall. intros n. rewrite elem_of_bfilter. intros [_ Hn]. by apply stem_suffix. }
  clearbody ns. induction ns as [|n ns IH]; csimpl; [constructor|].
  apply NoDup_cons in Hnd as [Hn Hnd]. apply Forall_cons in Hst as [Hs Hst].
  destruct (dir !! n) as [y|]; [|by apply IH]. csimpl. apply NoDup_cons. split; [|by apply IH].
  intros Hin. apply list_elem_of_fmap in Hin as ([a z] & Ea & Hz). simpl in Ea. subst a.
  apply list_elem_of_omap in Hz as (m & Hm & Em). destruct (dir !! m) as [w|]; [|done]. injection Em as Em _.
  apply Hn. rewrite Forall_forall in Hst. rewrite Hs, <-Em, <-(Hst m Hm). done.
Qed.

Lemma mem_smem a l : smem a l = true ↔ a ∈ l.
Proof.
  unfold smem. rewrite existsb_exists. split.
  - intros (x & Hx & E). apply String.eqb_eq in E as ->. by apply list_elem_of_In.
  - intros Ha. exists a. split; [by apply list_elem_of_In|apply String.eqb_refl].
Qed.

(** C18. A clean report means no logins: when a run that writes (and could list
    the registered sessions) reports zero required logins, every registered
    alias has its .session file with a 256-byte key, the store the sidecar
    opens loads for it exactly the gotd session of that key, and every stored
    blob is sealed. *)
Theorem clean_cutover e fernetKey dataDir ent fk dir reg keys t rep t' keys' :
  Run e fernetKey dataDir ent fk false dir (Some reg) keys t = (Some rep, t', keys') →
  keyed Gotd.gs_alias t → LoginsRequired rep = 0 →
  ∃ b, LoadKey fernetKey dataDir ent fk keys = (Some b, keys') ∧
    Forall (λ r, IsSealed (Gotd.gs_blob r) = true) t' ∧
    ∀ alias, alias ∈ reg → ∃ x blob, dir !! (alias +:+ ".session") = Some x ∧ blob_of x blob ∧
      Gotd.LoadSession b no_faults alias t' = Gotd.Loaded blob.
Proof.
  unfold Run. destruct (LoadKey _ _ _ _ _) as [[b|] ks]; [|done]. destruct (f_create e); [done|].
  destruct (migrate_files e b false (session_entries dir) empty_report [] t) as [[p1 by1] t1] eqn:E1.
  destruct (f_list e); [done|]. destruct (reseal_all e b false (legacy_rows t1) p1 t1) as [p2 t2] eqn:E2.
  intros [= <- <- <-] Hk Hz. simpl in Hz.
  pose proof (migrate_files_errors _ _ _ _ _ _ _ _ _ _ E1) as Le1. simpl in Le1.
  destruct (reseal_all_errors _ _ _ _ _ _ _ _ E2) as (Le2 & Hn & _).
  assert (NeedsNewLogin p1 = 0) as Hn1.
  { clear -E1. revert E1. change 0 with (NeedsNewLogin empty_report). generalize empty_report, (@nil string), t.
    induction (session_entries dir) as [|[a x] l IH]; intros p by_ t0; cbn [migrate_files]; [by intros [= <- <- <-]|].
    destruct (migrate_file e b false a x t0) as [[r ok] t1']. intros E%IH. exact E. }
  assert (bfilter (λ a, negb (smem a by1)) reg = []) as Hreg.
  { destruct (bfilter _ reg) as [|y l]; [done|]. simpl in Hz. lia. }
  rewrite Hreg in Hz. simpl in Hz.
  destruct (migrate_files_ok _ _ _ _ _ _ _ _ _ E1) as (K1 & R1 & L1 & Y1); [simpl; lia|apply entries_NoDup|done|].
  destruct (legacy_ok _ _ _ _ _ _ E2) as (K2 & L2 & S2); [lia|done|].
  exists b. split_ands; [done|done|]. intros alias Ha.
  assert (alias ∈ by1) as Hb.
  { apply mem_smem. destruct (smem alias by1) eqn:Es; [done|].
    assert (alias ∈ bfilter (λ a, negb (smem a by1)) reg) as Hx by (apply elem_of_bfilter; by rewrite Es).
    rewrite Hreg in Hx. by apply elem_of_nil in Hx. }
  destruct (Y1 alias Hb) as [?%elem_of_nil|([a x] & -> & Hx)%list_elem_of_fmap]; [done|].
  destruct (L1 a x Hx) as (blob & B1 & B2). exists x, blob. split_ands; [by apply elem_of_entries|done|]. simpl. by rewrite L2.
Qed.

(** A pass over files that are all in the table. *)
Lemma migrate_files_again e b dry l p by_ t :
  (∀ a x, (a, x) ∈ l → ∃ blob, blob_of x blob ∧ Gotd.LoadSession b no_faults a t = Gotd.Loaded blob) →
  (∀ a, f_query e a = false) →
  ∃ p' by', migrate_files e b dry l p by_ t = (p', by', t) ∧ Errors p' = Errors p ∧ Migrated p' = Migrated p ∧
    Skipped p' = Skipped p + Z.of_nat (length l) ∧ Reencrypted p' = Reencrypted p.
Proof.
  intros Hl Hq. revert p by_. induction l as [|[a x] l IH]; intros p by_; cbn [migrate_files].
  { exists p, by_. simpl. split_ands; (done || lia). }
  destruct (Hl a x) as (blob & (ps & id & Er & Eb) & Hload); [by left|].
  unfold migrate_file. rewrite Er, Eb. unfold store_blob. rewrite Hq.
  unfold Gotd.LoadSession in Hload. cbn [no_faults orb] in Hload.
  destruct (row_of Gotd.gs_alias a t) as [r|]; [|done]. destruct (OpenBlob b (Gotd.gs_blob r)) as [d|]; [|done].
  injection Hload as ->. rewrite String.eqb_refl.
  destruct (IH (λ a x Hx, Hl a x ltac:(by right)) (add_session {| s_alias := a; s_dc := DCID ps; s_user := UserID ps; s_bot := IsBot ps;
    s_test := TestMode ps; s_key_id := id; s_action := AlreadyMigrated |} p) (a :: by_)) as (p' & by' & E & H1 & H2 & H3 & H4).
  exists p', by'. rewrite E. simpl in *. split_ands; (done || lia).
Qed.

(** C19. The tool is idempotent: after a run without errors, running it again
    with the same key and files (as a dry run or not, with any entropy) changes
    neither the table nor the key file, migrates and re-encrypts nothing, skips
    every session, and reports no error. *)
Theorem migrate_twice e e2 fernetKey dataDir ent ent2 fk fk2 dry2 dir reg reg2 keys t rep t' keys' :
  Run e fernetKey dataDir ent fk false dir reg keys t = (Some rep, t', keys') →
  keyed Gotd.gs_alias t → Errors rep = 0 → fk 0%nat = false → fk2 0%nat = false →
  f_create e2 = false → f_list e2 = false → (∀ a, f_query e2 a = false) →
  ∃ rep2, Run e2 fernetKey dataDir ent2 fk2 dry2 dir reg2 keys' t' = (Some rep2, t', keys') ∧
    Errors rep2 = 0 ∧ Migrated rep2 = 0 ∧ Reencrypted rep2 = 0 ∧
    Skipped rep2 = Z.of_nat (length (session_entries dir)).
Proof.
  unfold Run at 1. destruct (LoadKey _ _ _ _ keys) as [[b|] ks] eqn:Ek; [|done]. destruct (f_create e); [done|].
  destruct (migrate_files e b false (session_entries dir) empty_report [] t) as [[p1 by1] t1] eqn:E1.
  destruct (f_list e); [done|]. destruct (reseal_all e b false (legacy_rows t1) p1 t1) as [p2 t2] eqn:E2.
  intros [= <- <- <-] Hk Hz Hf1 Hf2 Hc2 Hl2 Hq2. simpl in Hz.
  pose proof (migrate_files_errors _ _ _ _ _ _ _ _ _ _ E1) as Le1. simpl in Le1.
  destruct (reseal_all_errors _ _ _ _ _ _ _ _ E2) as (Le2 & _).
  destruct (migrate_files_ok _ _ _ _ _ _ _ _ _ E1) as (K1 & _ & L1 & _); [simpl; lia|apply entries_NoDup|done|].
  destruct (legacy_ok _ _ _ _ _ _ E2) as (K2 & L2 & S2); [lia|done|].
  assert (legacy_rows t2 = []) as Hleg.
  { unfold legacy_rows. apply bfilter_none. intros r Hr. rewrite Forall_forall in S2. by rewrite (S2 r Hr). }
  destruct (migrate_files_again e2 b dry2 (session_entries dir) empty_report [] t2) as (p' & by' & E & G1 & G2 & G3 & G4); [|done|].
  { intros a x Hx. destruct (L1 a x Hx) as (blob & B1 & B2). exists blob. split; [done|]. by rewrite L2. }
  unfold Run. rewrite (LoadKey_again _ _ _ ent2 _ fk2 _ _ _ Ek Hf1 Hf2), Hc2, E, Hl2, Hleg. cbn [reseal_all].
  eexists. split; [reflexivity|]. simpl in *. split_ands; lia.
Qed.

(** A dry run leaves the table alone. *)
Lemma dry_run_keeps_table e fernetKey dataDir ent fk dir reg keys t :
  (Run e fernetKey dataDir ent fk true dir reg keys t).1.2 = t.
Proof.
  unfold Run. destruct (LoadKey _ _ _ _ _) as [[b|] ks]; [|done]. destruct (f_create e); [done|].
  assert (∀ l p by_, (migrate_files e b true l p by_ t).2 = t) as H1.
  { induction l as [|[a x] l IH]; intros p by_; [done|]. cbn [migrate_files]. unfold migrate_file.
    destruct (readPyroforkSession x); [apply IH|]. destruct (buildGotdBlob p0) as [|[blob id]]; [apply IH|].
    assert ((store_blob e b true a blob t).2 = t) as Hs by (unfold store_blob; repeat case_match; done).
    destruct (store_blob e b true a blob t) as [act t0]. simpl in Hs. subst t0. apply IH. }
  specialize (H1 (session_entries dir) empty_report []).
  destruct (migrate_files e b true _ _ _ t) as [[p1 by1] t1]. simpl in H1. subst t1. destruct (f_list e); [done|].
  assert (∀ l p, (reseal_all e b true l p t).2 = t) as H2 by (induction l as [|r l IH]; intros p; [done|apply IH]).
  specialize (H2 (legacy_rows t) p1). destruct (reseal_all e b true _ p1 t) as [p2 t2]. simpl in *. by subst.
Qed.
End gotd.

(** ** Witnesses and concrete runs *)

Definition calm : mig_env :=
  {| f_create := false; f_list := false; f_query := λ _, false; f_write := λ _, false; f_reseal := λ _, false;
     rnd := λ _, 0; rnd_reseal := λ _, 0 |}.

(** A toy gotd: the fingerprint is the first two bytes, the blob the key. *)
Definition toy_id (k : string) : string := stake 2 k.

Definition toy_save (d : Data) : string + string := inr (itoa (d_dc d) +:+ ":" +:+ d_key d).

Fixpoint fill (n : nat) (c : ascii) : string := match n with O => "" | S n' => String c (fill n' c) end.

Definition good_file (c : ascii) : session_file :=
  inr {| y_dc := 2; y_api := 1; y_test := 0; y_key := fill 256 c; y_user := Some 7; y_bot := 1 |}.

Definition two_files : gmap string session_file := {["a.session" := good_file "p"; "b.session" := good_file "q"]}.

Definition old_table : list Gotd.session_row :=
  [{| Gotd.gs_alias := "b"; Gotd.gs_blob := "stale" |}; {| Gotd.gs_alias := "c"; Gotd.gs_blob := "plain" |}].

Definition run_demo (dry : bool) (reg : option (list string)) (keys : gmap string string) (t : list Gotd.session_row) :=
  Run toy_id toy_save calm "" "/data" 0 (λ _, false) dry two_files reg keys t.

Lemma old_keyed : keyed Gotd.gs_alias old_table.
Proof. apply NoDup_cons; split; [|by apply NoDup_singleton]. intros H%list_elem_of_singleton. done. Qed.

Lemma run_some dry reg keys t :
  bool_decide (is_Some (run_demo dry reg keys t).1.1) = true →
  ∃ rep, run_demo dry reg keys t = (Some rep, (run_demo dry reg keys t).1.2, (run_demo dry reg keys t).2).
Proof. intros [rep E]%bool_decide_eq_true. exists rep. destruct (run_demo dry reg keys t) as [[r t'] k]. simpl in *. by subst. Qed.

Definition demo_out := run_demo false (Some ["a"; "b"]) ∅ old_table.

Lemma clean_cutover_witness :
  ∃ b, LoadKey "" "/data" 0 (λ _, false) ∅ = (Some b, demo_out.2) ∧
    Gotd.LoadSession b no_faults "a" demo_out.1.2 = Gotd.Loaded ("2:" +:+ fill 256 "p") ∧
    Forall (λ r, IsSealed (Gotd.gs_blob r) = true) demo_out.1.2.
Proof.
  destruct (run_some false (Some ["a"; "b"]) ∅ old_table) as [rep E]; [vm_compute; reflexivity|].
  assert (LoginsRequired rep = 0) as Hz.
  { assert ((LoginsRequired <$> (run_demo false (Some ["a"; "b"]) ∅ old_table).1.1) = Some 0) as Hr by (vm_compute; reflexivity).
    rewrite E in Hr. by injection Hr. }
  destruct (clean_cutover toy_id toy_save calm "" "/data" 0 (λ _, false) two_files ["a"; "b"] ∅ old_table rep _ _ E old_keyed Hz)
    as (b & Hb & Hs & Ha).
  exists b. split; [exact Hb|]. split; [|exact Hs].
  destruct (Ha "a") as (x & blob & Hx & (ps & id & Er & Eb) & Hl); [by left|].
  vm_compute in Hx. injection Hx as <-. vm_compute in Er. injection Er as <-. vm_compute in Eb. injection Eb as <- _.
  etransitivity; [exact Hl|]. vm_compute. reflexivity.
Defined.

Lemma migrate_twice_witness :
  ∃ rep2, run_demo true None demo_out.2 demo_out.1.2 = (Some rep2, demo_out.1.2, demo_out.2) ∧
    Migrated rep2 = 0 ∧ Skipped rep2 = 2.
Proof.
  destruct (run_some false (Some ["a"; "b"]) ∅ old_table) as [rep E]; [vm_compute; reflexivity|].
  assert (Errors rep = 0) as Hz.
  { assert ((Errors <$> (run_demo false (Some ["a"; "b"]) ∅ old_table).1.1) = Some 0) as Hr by (vm_compute; reflexivity).
    rewrite E in Hr. by injection Hr. }
  destruct (migrate_twice toy_id toy_save calm calm "" "/data" 0 0 (λ _, false) (λ _, false) true two_files (Some ["a"; "b"]) None
    ∅ old_table rep _ _ E old_keyed Hz eq_refl eq_refl eq_refl eq_refl (λ _, eq_refl)) as (rep2 & E2 & _ & H1 & _ & H2).
  exists rep2. split; [exact E2|]. split; [exact H1|]. rewrite H2. vm_compute. reflexivity.
Defined.

(** "Nothing is written" is not true of the key: a dry run on a volume without
    one generates and stores it. *)
Lemma dry_run_writes_key : (run_demo true None ∅ []).2 = {["/data/.fernet_key" := "k"]}.
Proof. vm_compute. reflexivity. Qed.

(** When the registered sessions cannot be listed the report still says that no
    login is required. *)
Lemma failed_listing_looks_clean :
  LoginsRequired <$> (run_demo false None ∅ []).1.1 = Some 0 ∧
  LoginsRequired <$> (run_demo false (Some ["a"; "z"]) ∅ []).1.1 = Some 1.
Proof. vm_compute. done. Qed.

(** A dry run counts a stale unsealed row twice: as to be migrated and as to be
    re-encrypted; the run itself only migrates it. *)
Lemma dry_run_counts_twice :
  Reencrypted <$> (run_demo true None ∅ old_table).1.1 = Some 2 ∧ Reencrypted <$> (run_demo false None ∅ old_table).1.1 = Some 1.
Proof. vm_compute. done. Qed.
