(* ===== verification/Sdk.v ===== *)
(** * The consumer SDK (pkg/client/client.go)

    The client's requests, the envelope it decodes and its cursor.  The other
    side is a [transport]: a function from a request and the world's state to
    an answer and a new state, so that the client runs against an arbitrary
    server and against the model of the gateway itself ([BotApp]).  A response
    is a document with its size in bytes. *)
From Stdlib Require Import QArith Ascii String Sorted.
From stdpp Require Import base list strings gmap.
From S2P Require Import Prelude GoValue Sql Idempotency Crypto Config Http Mux BotSession BotApp.
From S2P Require Health Queue BotProxy MTStore MTSession MTClient MTApp.
Open Scope Z_scope.

Record Client := { base : string; appSecret : string; botToken : string; alias_ : string; offset : Z }.

(** [strings.TrimRight(s, "/")]. *)
Fixpoint trim_slashes (s : string) : string :=
  match s with
  | EmptyString => ""
  | String c s' =>
      match trim_slashes s' with
      | EmptyString => if (c =? "/")%char then "" else String c ""
      | r => String c r
      end
  end.

Definition NewBotAPI (base_ secret token : string) : Client :=
  {| base := trim_slashes base_; appSecret := secret; botToken := token; alias_ := ""; offset := 0 |}.

Definition NewMTProto (base_ secret al : string) : Client :=
  {| base := trim_slashes base_; appSecret := secret; botToken := ""; alias_ := al; offset := 0 |}.

Definition Offset (c : Client) : Z := offset c.

Definition SetOffset (id : Z) (c : Client) : Client :=
  {| base := base c; appSecret := appSecret c; botToken := botToken c; alias_ := alias_ c; offset := id |}.

Definition methodURL (c : Client) (method : string) : string :=
  if negb (botToken c =? "")%string then base c +:+ "/tgapi/bot" +:+ botToken c +:+ "/" +:+ method
  else base c +:+ "/v1/sessions/" +:+ alias_ c +:+ "/" +:+ method.

(** ** The round trip *)

Record sdk_request := { q_url : string; q_auth : string; q_idem : string; q_body : json_text }.

Record sdk_answer := { h_status : Z; h_body : json_text; h_size : Z }.

Inductive sdk_error :=
| EncodeError | TransportError (msg : string) | BadEnvelope (status : Z) | DecodeError (what : string) | ErrReplayed
| APIError (code : Z) (description : string) (retryAfter : Q).

Definition IsRateLimited (err : sdk_error) : option Q :=
  match err with APIError 429 _ retry => Some retry | _ => None end.

Definition IsForbidden (err : sdk_error) : bool := match err with APIError 403 _ _ => true | _ => false end.

Definition IsUnsupported (err : sdk_error) : bool := match err with APIError 501 _ _ => true | _ => false end.

(** A JSON number into an int64. *)
Definition as_int (v : any) : option Z :=
  match v with
  | AFloat f => if Qeq_bool f (inject_Z (qtrunc f)) && in_int64 (qtrunc f) then Some (qtrunc f) else None
  | _ => None
  end.

(** A RawMessage member: the last value under the name, as it is. *)
Fixpoint raw_field (name : string) (m : obj) (acc : option any) : option any :=
  match m with
  | [] => acc
  | (k, v) :: m' => raw_field name m' (if (to_lower k =? name)%string then Some v else acc)
  end.

Record envelope := {
  e_ok : bool; e_result : option any; e_code : Z; e_description : string; e_replay : bool; e_retry : option Q
}.

(** The member "parameters": a pointer to a struct. *)
Fixpoint params_field (m : obj) (acc : option Q) (ok : bool) : option Q * bool :=
  match m with
  | [] => (acc, ok)
  | (k, v) :: m' =>
      if (to_lower k =? "parameters")%string then
        match v with
        | ANil => params_field m' None ok
        | AMap p => let '(r, o) := val_field as_float "retry_after" p (default 0%Q acc) true in params_field m' (Some r) (ok && o)
        | _ => params_field m' acc false
        end
      else params_field m' acc ok
  end.

Definition decode_envelope (t : json_text) : option envelope :=
  let '(m, o0) := members t in
  let '(okv, o1) := val_field as_bool "ok" m false true in
  let '(ec, o2) := val_field as_int "error_code" m 0 true in
  let '(ds, o3) := val_field as_str "description" m "" true in
  let '(rp, o4) := val_field as_bool "idempotent_replay" m false true in
  let '(rt, o5) := params_field m None true in
  if o0 && o1 && o2 && o3 && o4 && o5
  then Some {| e_ok := okv; e_result := raw_field "result" m None; e_code := ec; e_description := ds; e_replay := rp; e_retry := rt |}
  else None.

(** What the first MiB of a response parses to: a document cut short is none. *)
Definition read_body (h : sdk_answer) : json_text := if 2 ^ 20 <? h_size h then JBad "" else h_body h.

Section client.
Context {W : Type} (transport : sdk_request → W → (string + sdk_answer) * W).

(** A nil body is encoded as null. *)
Definition encode (body : option obj) : option json_text :=
  match body with Some o => json_marshal o | None => Some (JText ANil) end.

Definition do (c : Client) (method : string) (body : option obj) (idemKey : string) (w : W)
    : (sdk_error + option any * bool) * W :=
  match encode body with
  | None => (inl EncodeError, w)
  | Some payload =>
      let req := {| q_url := methodURL c method; q_auth := "Bearer " +:+ appSecret c; q_idem := idemKey; q_body := payload |} in
      match transport req w with
      | (inl err, w) => (inl (TransportError err), w)
      | (inr h, w) =>
          (match decode_envelope (read_body h) with
           | None => inl (BadEnvelope (h_status h))
           | Some v =>
               if negb (e_ok v)
               then inl (APIError (if e_code v =? 0 then h_status h else e_code v) (e_description v) (default 0%Q (e_retry v)))
               else inr (e_result v, e_replay v)
           end, w)
      end
  end.

Definition Call (c : Client) (method : string) (body : option obj) (w : W) : (sdk_error + option any) * W :=
  match do c method body "" w with
  | (inl err, w) => (inl err, w)
  | (inr (raw, _), w) => (inr raw, w)
  end.

Record Message := { m_id : Z; m_raw : option any }.

(** Decoding into a struct with one number; [None] is the error. *)
Definition id_member (name : string) (raw : option any) : option Z :=
  match raw with
  | Some (AMap m) => let '(n, ok) := val_field as_int name m 0 true in if ok then Some n else None
  | Some ANil => Some 0
  | _ => None
  end.

(** The parameters of a send; the extra ones win. *)
Definition send_body (chatID : Z) (text : string) (extra : obj) : obj :=
  fold_left (λ m kv, mset m kv.1 kv.2) extra [("chat_id", AInt64 chatID); ("text", AStr text)].

Definition SendMessageIdempotent (c : Client) (idemKey : string) (chatID : Z) (text : string) (extra : obj) (w : W)
    : (sdk_error + Message) * W :=
  match do c "sendMessage" (Some (send_body chatID text extra)) idemKey w with
  | (inl err, w) => (inl err, w)
  | (inr (raw, true), w) => (inl ErrReplayed, w)
  | (inr (raw, false), w) =>
      match id_member "message_id" raw with
      | None => (inl (DecodeError "message"), w)
      | Some n => (inr {| m_id := n; m_raw := raw |}, w)
      end
  end.

(** 16 random bytes in hex, or the clock when there are none. *)
Definition newIdemKey (rand : option string) (now : Z) : string :=
  match rand with Some h => h | None => "tggw-" +:+ itoa now end.

Definition SendMessage (rand : option string) (now : Z) (c : Client) (chatID : Z) (text : string) (extra : obj) (w : W)
    : (sdk_error + Message) * W := SendMessageIdempotent c (newIdemKey rand now) chatID text extra w.

(** The body of a pull: the cursor is acknowledged when there is one. *)
Definition pull_body (c : Client) (wait limit_ : Z) : obj :=
  let body := [("timeout", AInt (Z.quot wait 1000000000)); ("limit", AInt limit_)] in
  if 0 <? offset c then body ++ [("offset", AInt64 (wrap64 (offset c + 1)))] else body.

Record Update := { UpdateID : Z; Raw : any }.

(** The updates of an answer and the cursor after them. *)
Fixpoint read_updates (l : list any) (off : Z) : option (list Update * Z) :=
  match l with
  | [] => Some ([], off)
  | u :: l' =>
      match id_member "update_id" (Some u) with
      | None => None
      | Some n =>
          match read_updates l' (if off <? n then n else off) with
          | None => None
          | Some (out, off) => Some ({| UpdateID := n; Raw := u |} :: out, off)
          end
      end
  end.

Definition PullUpdates (c : Client) (wait : Z) (limit_ : Z) (w : W) : (sdk_error + list Update) * Client * W :=
  match do c "getUpdates" (Some (pull_body c wait limit_)) "" w with
  | (inl err, w) => (inl err, c, w)
  | (inr (raw, _), w) =>
      match raw with
      | Some (AList l) =>
          match read_updates l (offset c) with
          | None => (inl (DecodeError "update_id"), c, w)
          | Some (out, off) => (inr out, SetOffset off c, w)
          end
      | Some ANil => (inr [], c, w)
      | _ => (inl (DecodeError "updates"), c, w)
      end
  end.

(** [k] pulls in a row; [None] is an error. *)
Fixpoint drain (k : nat) (wait limit_ : Z) (c : Client) (w : W) : option (list Update) * Client * W :=
  match k with
  | O => (Some [], c, w)
  | S k' =>
      match PullUpdates c wait limit_ w with
      | (inl _, c, w) => (None, c, w)
      | (inr out, c, w) =>
          let '(rest, c, w) := drain k' wait limit_ c w in
          (match rest with Some l => Some (out ++ l) | None => None end, c, w)
      end
  end.
End client.

(** ** The gateway as the other side *)

Section gateway.
Context `{Fernet} (bx : Box) (enc : json_text → string) (size : json_text → Z).

(** The request as the gateway's listener sees it: [enc] is the text of a document. *)
Definition gateway_request (base_ : string) (q : sdk_request) : request :=
  {| r_method := "POST"; r_path := tail (split_on "/" (trim_prefix base_ (q_url q))); r_query := ""; r_auth := q_auth q;
     r_ctype := "application/json"; r_idem := q_idem q; r_length := Z.of_nat (String.length (enc (q_body q)));
     r_raw := enc (q_body q); r_cut := false; r_doc := q_body q; r_first := q_body q |}.

(** The document of a response, and its size. *)
Definition content_doc (p : content) : json_text :=
  match p with
  | BJson v => default (JBad "") (json_marshal v)
  | BRaw t | BFile _ t => t
  | BMetrics _ | BNone => JBad ""
  end.

Definition gateway_answer (o : outcome) : string + sdk_answer :=
  match o with
  | Reply r => inr {| h_status := code_ r; h_body := content_doc (pay r); h_size := size (content_doc (pay r)) |}
  | Panicked => inl "EOF"
  end.

(** The gateway and what it sent to Telegram: one environment per request; a
    request that never ends times out. *)
Definition gw_world : Type := list app_env * App * list httpRequest.

Definition gateway (base_ : string) (q : sdk_request) (w : gw_world) : (string + sdk_answer) * gw_world :=
  let '(es, a, log) := w in
  match es with
  | [] => (inl "timeout", w)
  | e :: es =>
      match serve e bx false (gateway_request base_ q) a with
      | Some (o, reqs, a) => (gateway_answer o, (es, a, log ++ reqs))
      | None => (inl "timeout", (es, a, log))
      end
  end.
End gateway.

(** ** The cursor *)

Lemma read_updates_spec l off out off' :
  read_updates l off = Some (out, off') → Raw <$> out = l ∧ off' = fold_left Z.max (UpdateID <$> out) off.
Proof.
  revert off out off'. induction l as [|u l IH]; intros off out off'; cbn [read_updates]; [by intros [= <- <-]|].
  destruct (id_member _ _) as [n|]; [|done].
  destruct (read_updates l _) as [[o x]|] eqn:E; [|done]. intros [= <- <-].
  destruct (IH _ _ _ E) as [H1 H2]. rewrite 2!fmap_cons. cbn. rewrite H1. split; [done|]. rewrite H2. f_equal.
  destruct (Z.ltb_spec off n); lia.
Qed.

(** Whatever the server answers, the cursor is the largest id ever returned
    (or the seed), and an error leaves it where it was: an acknowledgement
    never covers an update the caller was not handed. *)
Lemma cursor_follows_returns {W} (T : sdk_request → W → (string + sdk_answer) * W) c wait lim w r c' w' :
  PullUpdates T c wait lim w = (r, c', w') →
  match r with
  | inl _ => c' = c
  | inr out => c' = SetOffset (fold_left Z.max (UpdateID <$> out) (offset c)) c
  end.
Proof.
  unfold PullUpdates. destruct (do _ _ _ _ _ _) as [[err|[raw rp]] w1]; [by intros [= <- <- <-]|].
  assert (c = SetOffset (offset c) c) as Hc by by destruct c.
  destruct raw as [[]|]; try (by intros [= <- <- <-]).
  destruct (read_updates _ _) as [[out off]|] eqn:E; intros [= <- <- <-]; [|done].
  by destruct (read_updates_spec _ _ _ _ E) as [_ ->].
Qed.

(** ** Draining the gateway's queue *)

(** The updates a queue still has to deliver. *)
Definition pending (s : Queue.Queue) : list Queue.QueuedUpdate :=
  bfilter (λ u, Queue.consumerOffset s <? Queue.UpdateID u) (Queue.q s).

Definition after_id (o : Z) (l : list Queue.QueuedUpdate) : list Queue.QueuedUpdate :=
  bfilter (λ u, o <? Queue.UpdateID u) l.

Lemma ack_pending n f s w :
  let s' := (Queue.Ack n f s w).1 in pending s' = after_id n (pending s) ∧ Queue.consumerOffset s' = Z.max (Queue.consumerOffset s) n.
Proof.
  cbn. split; [|destruct (Z.ltb_spec (Queue.consumerOffset s) n); lia].
  unfold pending, after_id. cbn. rewrite bfilter_drop_while, bfilter_bfilter. apply bfilter_ext. intros u _.
  destruct (Z.ltb_spec (Queue.consumerOffset s) n), (Z.ltb_spec (Queue.consumerOffset s) (Queue.UpdateID u)), (Z.ltb_spec n (Queue.UpdateID u));
    cbn; lia.
Qed.

Lemma scan_pending lim s : Queue.pull_scan lim s = Queue.Update <$> take (Z.to_nat lim) (pending s).
Proof. unfold Queue.pull_scan. by rewrite <- fmap_take. Qed.

(** A pull that acknowledges [o] answers at once when something is left. *)
Lemma pull_after o s w timeout lim now f evs :
  0 <= o < 2 ^ 63 - 1 → 0 < lim → Forall (λ u, 0 < Queue.UpdateID u) (pending s) → after_id o (pending s) ≠ [] →
  ∃ s' w', Queue.Pull (if 0 <? o then Some (o + 1) else None) timeout lim now f s w evs =
             (Some (Queue.Update <$> take (Z.to_nat lim) (after_id o (pending s))), s', w') ∧
           pending s' = after_id o (pending s).
Proof.
  intros Ho Hl Hp Hne. unfold Queue.Pull. destruct (Z.leb_spec lim 0) as [|_]; [lia|].
  set (x := match (if 0 <? o then Some (o + 1) else None) with Some o0 => Queue.Ack (wrap64 (o0 - 1)) f s w | None => (s, w) end).
  assert (pending x.1 = after_id o (pending s)) as Hx.
  { subst x. destruct (Z.ltb_spec 0 o).
    - replace (o + 1 - 1) with o by lia. rewrite wrap64_id by (unfold in_int64, int64_min, int64_max; lia). apply ack_pending.
    - unfold after_id. rewrite bfilter_all; [done|]. intros u Hu. rewrite Forall_forall in Hp. specialize (Hp u Hu). lia. }
  destruct x as [s' w']. cbn in Hx. exists s', w'. split; [|done].
  set (loop := Queue.pull_loop _ _ _ _).
  assert (loop = Some (Queue.Update <$> take (Z.to_nat lim) (after_id o (pending s)))) as ->; [|done].
  subst loop. destruct (after_id o (pending s)) as [|u l]; [done|].
  destruct (Z.to_nat lim) as [|n] eqn:En; [lia|].
  destruct evs; cbn [Queue.pull_loop]; by rewrite scan_pending, Hx, En.
Qed.

Lemma split_on_app c a b : has_char c a = false → split_on c (a +:+ String c b) = a :: split_on c b.
Proof.
  induction a as [|d a IH]; [by simpl; rewrite Ascii.eqb_refl|]. cbn [has_char]. intros [Hd Ha]%orb_false_iff.
  rewrite append_cons. simpl. by rewrite Hd, IH.
Qed.

Lemma method_url c m : botToken c ≠ "" → methodURL c m = base c +:+ "/tgapi/bot" +:+ botToken c +:+ "/" +:+ m.
Proof. intros H. unfold methodURL. by destruct (String.eqb_spec (botToken c) ""). Qed.

Section drain.
Context `{Fernet} (bx : Box) (enc : json_text → string) (size : json_text → Z).

(** The methods the typed calls use. *)
Definition sdk_method (m : string) : Prop := m = "getUpdates" ∨ m = "sendMessage".

Lemma request_path base_ tok m q :
  sdk_method m → has_char "/" tok = false → q_url q = base_ +:+ "/tgapi/bot" +:+ tok +:+ "/" +:+ m →
  r_path (gateway_request enc base_ q) = ["tgapi"; "bot" +:+ tok; m].
Proof.
  intros Hm Ht Hu. cbn [gateway_request r_path]. rewrite Hu, trim_prefix_app.
  change ("/tgapi/bot" +:+ tok +:+ "/" +:+ m) with (String "/" ("tgapi" +:+ String "/" (("bot" +:+ tok) +:+ String "/" m))).
  cbn [split_on Ascii.eqb]. cbn [tail]. rewrite split_on_app by done. f_equal.
  rewrite split_on_app; [by destruct Hm as [-> | ->]|]. rewrite !append_cons. cbn. done.
Qed.

Lemma serve_method e a tok m base_ q i s :
  sdk_method m → has_char "/" tok = false → q_url q = base_ +:+ "/tgapi/bot" +:+ tok +:+ "/" +:+ m →
  FindByToken tok (Mgr a) = Some i → objs (Mgr a) !! i = Some s →
  serve e bx false (gateway_request enc base_ q) a = lift a (callRoute e (gateway_request enc base_ q) i s m (Mgr a)).
Proof.
  intros Hm Ht Hu Hf Hs. unfold serve. pose proof (request_path base_ tok m q Hm Ht Hu) as Hp.
  assert (lookup_route (r_method (gateway_request enc base_ q)) (r_path (gateway_request enc base_ q))
            (listener_routes (cfg (Mgr a)) false) = Found HPost []) as ->.
  { rewrite Hp. unfold listener_routes, routes, adminRoutes.
    destruct Hm as [-> | ->]; (destruct (0 <? _); [|destruct (Pprof _)]; vm_compute; reflexivity). }
  cbn [run_handler]. unfold handleTGAPIPost, url_path. rewrite Hp.
  assert (splitBotTokenPath ("/" +:+ String.concat "/" ["tgapi"; "bot" +:+ tok; m]) "/tgapi" = cut_at "/" (tok +:+ String "/" m)) as ->
    by by destruct tok.
  by rewrite cut_at_app, Hf, Hs.
Qed.

(** What the handler does with a JSON body. *)
Lemma route_json e i s m mg base_ q body :
  q_body q = JText (AMap body) → 0 < Z.of_nat (String.length (enc (q_body q))) <= maxJSONBody →
  callRoute e (gateway_request enc base_ q) i s m mg =
    reply_gw (BotProxy.Call (calls e) (once e) (QueueWaitTimeout (Policy (cfg mg))) i s m body "" None (q_idem q) mg).
Proof.
  intros Hq Hn. unfold callRoute, isTooLarge. cbn [gateway_request r_ctype r_raw r_doc r_idem r_length].
  change (has_prefix "multipart/" "application/json") with false.
  change (has_prefix "application/x-www-form-urlencoded" "application/json") with false. cbv iota zeta.
  destruct (Z.ltb_spec maxJSONBody (Z.of_nat (String.length (enc (q_body q))))) as [|_]; [lia|].
  destruct (String.eqb_spec (enc (q_body q)) "") as [He|_]; [rewrite He in Hn; cbn in Hn; lia|].
  by rewrite Hq.
Qed.

Lemma call_pull e k timeout i s body key mg :
  mget1 body "chat_id" = ANil →
  BotProxy.Call e k timeout i s "getUpdates" body "" None key mg = BotProxy.internalGetUpdates e i body mg.
Proof.
  intros Hc. unfold BotProxy.Call, BotProxy.resolveUsernameChat. rewrite Hc.
  change (gatewayOwned (to_lower "getUpdates")) with true. change (to_lower "getUpdates" =? "getupdates")%string with true. cbv iota zeta.
  by destruct (BotProxy.internalGetUpdates _ _ _ _) as [[[r reqs] m]|].
Qed.

(** A queued update the SDK can read: encodable, its id a positive int64 with a successor. *)
Definition readable (u : Queue.QueuedUpdate) : Prop :=
  json_ok (AMap (Queue.Update u)) = true ∧
  id_member "update_id" (Some (jnorm (AMap (Queue.Update u)))) = Some (Queue.UpdateID u) ∧
  0 < Queue.UpdateID u < 2 ^ 63 - 1.

Definition to_update (u : Queue.QueuedUpdate) : Update :=
  {| UpdateID := Queue.UpdateID u; Raw := jnorm (AMap (Queue.Update u)) |}.

(** The document that delivers a batch. *)
Definition batch_doc (b : list Queue.QueuedUpdate) : json_text :=
  JText (AMap [("ok", ABool true); ("result", AList (Raw <$> (to_update <$> b)))]).

Definition newest_of (o : Z) (l : list Update) : Z := fold_left Z.max (UpdateID <$> l) o.

Lemma batch_marshal b :
  Forall readable b →
  json_marshal [("ok", ABool true); ("result", AList (AMap <$> (Queue.Update <$> b)))] = Some (batch_doc b).
Proof.
  intros Hb. unfold json_marshal, batch_doc.
  assert (forallb json_ok (AMap <$> (Queue.Update <$> b)) = true ∧
          map jnorm (AMap <$> (Queue.Update <$> b)) = Raw <$> (to_update <$> b)) as [H1 H2].
  { induction Hb as [|u b (Hu & _) _ [IH1 IH2]]; [done|]. rewrite !fmap_cons. cbn [forallb]. split; [by rewrite Hu, IH1|].
    by rewrite <- IH2. }
  change (json_ok (AMap _)) with (forallb json_ok (AMap <$> (Queue.Update <$> b)) && true).
  rewrite H1. cbn [andb jnorm map fst snd]. by rewrite H2.
Qed.

Lemma batch_decode b :
  decode_envelope (batch_doc b) =
    Some {| e_ok := true; e_result := Some (AList (Raw <$> (to_update <$> b))); e_code := 0; e_description := ""; e_replay := false; e_retry := None |}.
Proof. reflexivity. Qed.

Lemma batch_read b o :
  Forall readable b →
  read_updates (Raw <$> (to_update <$> b)) o = Some (to_update <$> b, newest_of o (to_update <$> b)).
Proof.
  intros Hb. revert o. induction Hb as [|u b (_ & Hu & _) _ IH]; intros o; [done|]. rewrite !fmap_cons. cbn [read_updates].
  change (Raw (to_update u)) with (jnorm (AMap (Queue.Update u))). rewrite Hu, IH. unfold newest_of. rewrite fmap_cons. cbn [fold_left].
  replace (if o <? Queue.UpdateID u then Queue.UpdateID u else o) with (o `max` UpdateID (to_update u)); [done|].
  cbn. destruct (Z.ltb_spec o (Queue.UpdateID u)); lia.
Qed.

Lemma find_set_obj tok mg i s s' :
  objs mg !! i = Some s → Token s' = Token s → FindByToken tok (set_obj mg i s') = FindByToken tok mg.
Proof.
  intros Hs Ht. unfold FindByToken. cbn. f_equal. induction (map_to_list (sessions mg)) as [|[al j] l IH]; [done|].
  cbn. rewrite IH. destruct (decide (j = i)) as [->|Hne]; [by rewrite lookup_insert_eq, Hs, Ht|by rewrite lookup_insert_ne].
Qed.

(** The body of a pull as the gateway decodes it. *)
Definition pull_norm (o wait lim : Z) : obj :=
  [("timeout", AFloat (inject_Z (Z.quot wait 1000000000))); ("limit", AFloat (inject_Z lim))] ++
  (if 0 <? o then [("offset", AFloat (inject_Z (o + 1)))] else []).

Definition pull_doc (o wait lim : Z) : json_text := JText (AMap (pull_norm o wait lim)).

Lemma pull_marshal c wait lim :
  0 <= offset c < 2 ^ 63 - 1 → json_marshal (pull_body c wait lim) = Some (pull_doc (offset c) wait lim).
Proof.
  intros Ho. unfold pull_body, pull_doc, pull_norm. destruct (Z.ltb_spec 0 (offset c)); [|done].
  by rewrite wrap64_id by (unfold in_int64, int64_min, int64_max; lia).
Qed.

(** Nothing else touches the manager after the pull. *)
Definition calm (e : app_env) : Prop := ∀ mg, BotProxy.during (calls e) 2%nat mg = mg.

Lemma internal_pull e i o wait lim mg s :
  calm e → objs mg !! i = Some s → 0 <= o < 2 ^ 63 - 1 → 0 < lim < 2 ^ 63 →
  Forall readable (pending (queue s)) → after_id o (pending (queue s)) ≠ [] →
  let b := take (Z.to_nat lim) (after_id o (pending (queue s))) in
  ∃ q w, BotProxy.internalGetUpdates (calls e) i (pull_norm o wait lim) mg =
      Some (BotProxy.jsonResp 200 [("ok", ABool true); ("result", AList (AMap <$> (Queue.Update <$> b)))], [],
            set_obj (set_world mg w) i (upd_queue q s)) ∧
    pending q = after_id o (pending (queue s)).
Proof.
  intros He Hs Ho Hl Hp Hne b. unfold BotProxy.internalGetUpdates.
  change (mget1 (pull_norm o wait lim) "limit") with (AFloat (inject_Z lim)). cbn [numberOf].
  rewrite (f2i_inject lim) by (unfold in_int64, int64_min, int64_max; lia). destruct (Z.eqb_spec lim 0) as [|_]; [lia|].
  assert (match mget1 (pull_norm o wait lim) "offset" with
          | AFloat n => Some (f2i n) | AInt64 n => Some n | AStr s => parse_int64 s | _ => None end =
          (if 0 <? o then Some (o + 1) else None)) as ->.
  { unfold pull_norm. destruct (Z.ltb_spec 0 o); [|done]. cbn -[f2i]. by rewrite f2i_inject by (unfold in_int64, int64_min, int64_max; lia). }
  rewrite Hs. cbv zeta.
  destruct (pull_after o (queue s) (qworld mg) (let t := fmin (numberOf (mget1 (pull_norm o wait lim) "timeout")) 50 in
      if qle t 0 then (1 # 100)%Q else t) lim (BotProxy.pull_at (calls e)) (BotProxy.pull_faults (calls e)) (BotProxy.pull_events (calls e)))
    as (q & w & E & Hq); [done|lia| |done|].
  { eapply Forall_impl; [exact Hp|]. intros u (_ & _ & Hu). lia. }
  cbv zeta in E. rewrite E. exists q, w. split; [|done]. by rewrite He.
Qed.

(** The request of a pull, and the batch due to it. *)
Definition pull_request (c : Client) (wait lim : Z) : sdk_request :=
  {| q_url := methodURL c "getUpdates"; q_auth := "Bearer " +:+ appSecret c; q_idem := ""; q_body := pull_doc (offset c) wait lim |}.

Definition due (c : Client) (s : BotSession) : list Queue.QueuedUpdate := after_id (offset c) (pending (queue s)).

(** A bot client of session [i], whose queue the SDK can read. *)
Record consumes (c : Client) (i : nat) (s : BotSession) (wait lim : Z) (a : App) : Prop := {
  cs_token : botToken c ≠ "" ∧ has_char "/" (botToken c) = false;
  cs_find : FindByToken (botToken c) (Mgr a) = Some i ∧ objs (Mgr a) !! i = Some s;
  cs_range : 0 <= offset c < 2 ^ 63 - 1 ∧ 0 < lim < 2 ^ 63;
  cs_enc : ∀ o, 0 < Z.of_nat (String.length (enc (pull_doc o wait lim))) <= maxJSONBody;
  cs_read : Forall readable (pending (queue s))
}.

(** The round trip of a pull: the answer is the batch due, and what is left to
    deliver is what was due. *)
Lemma pull_round_trip e es a log c i s wait lim :
  calm e → consumes c i s wait lim a → due c s ≠ [] →
  let doc := batch_doc (take (Z.to_nat lim) (due c s)) in
  ∃ a' s', gateway bx enc size (base c) (pull_request c wait lim) (e :: es, a, log) =
      (inr {| h_status := 200; h_body := doc; h_size := size doc |}, (es, a', log)) ∧
    FindByToken (botToken c) (Mgr a') = Some i ∧ objs (Mgr a') !! i = Some s' ∧ pending (queue s') = due c s.
Proof.
  intros He [[Ht0 Ht] [Hf Hs] [Ho Hl] Hn Hp] Hne doc.
  destruct (internal_pull e i (offset c) wait lim (Mgr a) s He Hs Ho Hl Hp Hne) as (q & w & E & Hq).
  exists (set_mgr (set_obj (set_world (Mgr a) w) i (upd_queue q s)) a), (upd_queue q s).
  split; [|split; [|split; [apply lookup_insert_eq|done]]].
  - unfold gateway. erewrite serve_method; [|by left|exact Ht|by apply method_url|exact Hf|exact Hs].
    erewrite route_json; [|reflexivity|apply Hn]. rewrite call_pull by (unfold pull_norm; by destruct (0 <? offset c)).
    rewrite E. cbn [reply_gw lift gateway_answer pay code_ writeGwResponse BotProxy.jsonResp BotProxy.raw BotProxy.status BotProxy.jsonBody content_doc writeJSON].
    by rewrite app_nil_r, batch_marshal by (by apply Forall_take, Forall_bfilter).
  - rewrite <- Hf. by apply (find_set_obj _ (set_world (Mgr a) w) i s).
Qed.

(** One pull over the gateway: the next batch, and the cursor at its end. *)
Lemma pull_gateway e es a log c i s wait lim :
  calm e → consumes c i s wait lim a → due c s ≠ [] →
  let b := take (Z.to_nat lim) (due c s) in
  size (batch_doc b) <= 2 ^ 20 →
  ∃ a' s', PullUpdates (gateway bx enc size (base c)) c wait lim (e :: es, a, log) =
      (inr (to_update <$> b), SetOffset (newest_of (offset c) (to_update <$> b)) c, (es, a', log)) ∧
    FindByToken (botToken c) (Mgr a') = Some i ∧ objs (Mgr a') !! i = Some s' ∧ pending (queue s') = due c s.
Proof.
  intros He Hc Hne b Hsz. destruct (pull_round_trip e es a log c i s wait lim He Hc Hne) as (a' & s' & E & H1).
  exists a', s'. split; [|done]. unfold PullUpdates, do, encode. rewrite pull_marshal by apply Hc. fold (pull_request c wait lim). rewrite E.
  unfold read_body. cbn [h_size h_body]. fold b. destruct (Z.ltb_spec (2 ^ 20) (size (batch_doc b))) as [|_]; [lia|].
  rewrite batch_decode. cbn. rewrite batch_read; [done|]. apply Forall_take, Forall_bfilter, Hc.
Qed.

(** A batch whose answer is longer than the SDK reads is never delivered: the
    pull fails, the cursor stays, and the same updates are due again. *)
Lemma oversize_batch_wedges e es a log c i s wait lim :
  calm e → consumes c i s wait lim a → due c s ≠ [] → 2 ^ 20 < size (batch_doc (take (Z.to_nat lim) (due c s))) →
  ∃ a' s', PullUpdates (gateway bx enc size (base c)) c wait lim (e :: es, a, log) = (inl (BadEnvelope 200), c, (es, a', log)) ∧
    consumes c i s' wait lim a' ∧ due c s' = due c s.
Proof.
  intros He Hc Hne Hsz. destruct (pull_round_trip e es a log c i s wait lim He Hc Hne) as (a' & s' & E & H1 & H2 & H3).
  exists a', s'. split; [|split].
  - unfold PullUpdates, do, encode. rewrite pull_marshal by apply Hc. fold (pull_request c wait lim). rewrite E.
    unfold read_body. cbn [h_size h_body]. by destruct (Z.ltb_spec (2 ^ 20) (size (batch_doc (take (Z.to_nat lim) (due c s))))); [|lia].
  - destruct Hc. constructor; try done. rewrite H3. by apply Forall_bfilter.
  - unfold due in *. rewrite H3. apply bfilter_idem.
Qed.

Lemma due_after c s : Forall (λ u, offset c < Queue.UpdateID u) (due c s).
Proof. apply Forall_forall. intros u [_ Hu]%elem_of_bfilter. lia. Qed.

Lemma newest_app o a b : newest_of o (a ++ b) = newest_of (newest_of o a) b.
Proof. unfold newest_of. by rewrite fmap_app, fold_left_app. Qed.

Lemma newest_last o b :
  StronglySorted (λ u v, Queue.UpdateID u < Queue.UpdateID v) b → Forall (λ u, o < Queue.UpdateID u) b →
  newest_of o (to_update <$> b) = default o (last (Queue.UpdateID <$> b)).
Proof.
  intros Hs. revert o. induction Hs as [|u b Hs IH Hu]; intros o Ho; [done|]. apply Forall_cons in Ho as [Ho _].
  rewrite !fmap_cons. unfold newest_of. rewrite fmap_cons. cbn [fold_left UpdateID to_update].
  replace (o `max` Queue.UpdateID u) with (Queue.UpdateID u) by lia. fold (newest_of (Queue.UpdateID u) (to_update <$> b)).
  rewrite IH, last_cons by done. by destruct (last _).
Qed.

(** On a sorted list the cursor ends at the last id, and what is past it is the rest. *)
Lemma newest_sorted o b l :
  StronglySorted (λ u v, Queue.UpdateID u < Queue.UpdateID v) (b ++ l) → Forall (λ u, o < Queue.UpdateID u) (b ++ l) →
  let o' := newest_of o (to_update <$> b) in
  o <= o' ∧ after_id o' (b ++ l) = l ∧ Forall (λ u, o' < Queue.UpdateID u) l ∧ (o' = o ∨ ∃ u, u ∈ b ∧ o' = Queue.UpdateID u).
Proof.
  revert o. induction b as [|u b IH]; intros o Hs Ho o'.
  { cbn in *. split; [subst o'; cbn; lia|]. split; [|by split; [|left]]. apply bfilter_all. intros x Hx.
    rewrite Forall_forall in Ho. specialize (Ho x Hx). subst o'. cbn. lia. }
  cbn [app] in Hs, Ho. apply StronglySorted_inv in Hs as [Hs Hu]. apply Forall_cons in Ho as [Hou Ho].
  destruct (IH (Queue.UpdateID u) Hs Hu) as (H1 & H2 & H3 & H4).
  assert (o' = newest_of (Queue.UpdateID u) (to_update <$> b)) as ->.
  { subst o'. unfold newest_of. rewrite !fmap_cons. cbn [fold_left]. f_equal. cbn. lia. }
  split; [lia|]. split; [|split; [done|]].
  - cbn. destruct (Z.ltb_spec (newest_of (Queue.UpdateID u) (to_update <$> b)) (Queue.UpdateID u)); [lia|exact H2].
  - right. destruct H4 as [->|(v & Hv & ->)]; [exists u|exists v]; (split; [set_solver|done]).
Qed.

Lemma drain_gateway k es a log c i s wait lim :
  Forall calm es → (k <= length es)%nat → consumes c i s wait lim a →
  StronglySorted (λ u v, Queue.UpdateID u < Queue.UpdateID v) (pending (queue s)) →
  Z.of_nat k * lim < Z.of_nat (length (due c s)) + lim →
  (∀ m, size (batch_doc (take (Z.to_nat lim) (drop m (due c s)))) <= 2 ^ 20) →
  let out := to_update <$> take (k * Z.to_nat lim) (due c s) in
  ∃ w', drain (gateway bx enc size (base c)) k wait lim c (es, a, log) = (Some out, SetOffset (newest_of (offset c) out) c, w').
Proof.
  revert es a c s. induction k as [|k IH]; intros es a c s Hes Hk Hc Hss Hlen Hsz out.
  { exists (es, a, log). by destruct c. }
  destruct es as [|e es]; [cbn in Hk; lia|]. apply Forall_cons in Hes as [He Hes]. cbn [length] in Hk.
  assert (0 < lim) as Hl by apply Hc.
  assert (due c s ≠ []) as Hne by (intros E; rewrite E in Hlen; cbn in Hlen; lia).
  destruct (pull_gateway e es a log c i s wait lim He Hc Hne (Hsz 0%nat)) as (a1 & s1 & E & Hf1 & Hs1 & Hp1).
  set (b := take (Z.to_nat lim) (due c s)) in *. set (rest := drop (Z.to_nat lim) (due c s)).
  assert (due c s = b ++ rest) as Hdue by (symmetry; apply take_drop).
  assert (StronglySorted (λ u v, Queue.UpdateID u < Queue.UpdateID v) (due c s)) as Hsr by by apply StronglySorted_bfilter.
  assert (Forall readable (due c s)) as Hrr by apply Forall_bfilter, Hc.
  set (c1 := SetOffset (newest_of (offset c) (to_update <$> b)) c) in *.
  destruct (newest_sorted (offset c) b rest) as (N1 & N2 & _ & N4); [by rewrite <- Hdue|rewrite <- Hdue; apply due_after|].
  assert (due c1 s1 = rest) as Hd1 by (unfold due at 1; by rewrite Hp1, Hdue).
  destruct (IH es a1 c1 s1) as [w' E']; [done|lia| |by rewrite Hp1|rewrite Hd1; subst rest; rewrite length_drop; lia| |].
  { destruct Hc as [C1 C2 [C3 C3'] C4 C5]. constructor; [done|done| |done|by rewrite Hp1]. split; [|done].
    cbn [c1 SetOffset offset]. destruct N4 as [->|(u & Hu & ->)]; [lia|].
    rewrite Forall_forall in Hrr. destruct (Hrr u) as (_ & _ & ?); [rewrite Hdue; set_solver|lia]. }
  { rewrite Hd1. intros m. subst rest. rewrite drop_drop. apply Hsz. }
  rewrite Hd1 in E'. exists w'. cbn [drain]. rewrite E. change (base c1) with (base c) in E'. rewrite E'.
  subst out. replace (take (S k * Z.to_nat lim) (due c s)) with (b ++ take (k * Z.to_nat lim) rest) by apply take_take_drop.
  by rewrite fmap_app, newest_app.
Qed.

(** C14. Consumption end to end, from the SDK through the gateway's routes to the
    queue: a client of a registered bot, seeded with any cursor (0 when fresh,
    [SetOffset] after a restart), that calls PullUpdates repeatedly is handed
    exactly the pending updates past its cursor, in order, each once, up to
    the batch size times the number of calls, and its cursor ends at the last
    one returned. This holds whatever the clocks and the statement faults are,
    while every batch fits in the megabyte the SDK reads and updates remain. *)
Theorem sdk_drains_in_order base_ secret tok seed k es a log i s wait lim :
  let c := SetOffset seed (NewBotAPI base_ secret tok) in
  Forall calm es → (k <= length es)%nat → consumes c i s wait lim a →
  StronglySorted (λ u v, Queue.UpdateID u < Queue.UpdateID v) (pending (queue s)) →
  Z.of_nat k * lim < Z.of_nat (length (due c s)) + lim →
  (∀ m, size (batch_doc (take (Z.to_nat lim) (drop m (due c s)))) <= 2 ^ 20) →
  let out := take (k * Z.to_nat lim) (due c s) in
  ∃ c' w', drain (gateway bx enc size (base c)) k wait lim c (es, a, log) = (Some (to_update <$> out), c', w') ∧
    Offset c' = default seed (last (Queue.UpdateID <$> out)).
Proof.
  intros c Hes Hk Hc Hss Hlen Hsz out. destruct (drain_gateway k es a log c i s wait lim Hes Hk Hc Hss Hlen Hsz) as [w' E].
  eexists _, w'. split; [exact E|]. apply newest_last.
  - apply StronglySorted_take. by apply StronglySorted_bfilter.
  - apply Forall_take, (due_after c s).
Qed.
End drain.

(** ** Sending with a key *)

(** The document of a proxy answer, and whether the SDK takes it for a success. *)
Definition gw_doc (r : BotProxy.gwResponse) : json_text := content_doc (pay (writeGwResponse r)).

Definition accepted (t : json_text) : Prop := ∃ v, decode_envelope t = Some v ∧ e_ok v = true.

(** Telegram answers ok only with a status below 400. *)
Definition telegram_status (e : app_env) : Prop :=
  ∀ q resp, BotProxy.client (calls e) 1%nat q = inr resp → accepted (RBody resp) → StatusCode resp < 400.

Definition norm_members (m : obj) : obj := map (λ kv, (fst kv, jnorm (snd kv))) m.

Lemma accepted_json code body :
  accepted (gw_doc (BotProxy.jsonResp code body)) → (val_field as_bool "ok" (norm_members body) false true).1 = true.
Proof.
  intros (v & E & Hv). revert E. unfold gw_doc. cbn [writeGwResponse BotProxy.jsonResp BotProxy.raw pay writeJSON content_doc BotProxy.jsonBody].
  unfold json_marshal. destruct (json_ok (AMap body)); [|done]. cbn [default from_option]. unfold decode_envelope. cbn [members jnorm id].
  fold (norm_members body). destruct (val_field as_bool "ok" _ _ _) as [okv o1]. repeat (destruct (val_field _ _ _ _ _)). destruct (params_field _ _ _).
  destruct (_ && _); [|done]. intros [= <-]. done.
Qed.

Lemma refusals_known timeout i m chatID kind waited ks mg r w mg' :
  BotProxy.admission_loop timeout i m chatID kind waited ks mg = Some (BotProxy.Refused r, w, mg') → ¬ accepted (gw_doc r).
Proof.
  revert waited mg. induction ks as [|k ks IH]; intros waited mg; cbn [BotProxy.admission_loop]; [done|].
  destruct (objs mg !! i) as [s|]; [|done]. destruct (RateGuard.TryAcquire _ _ _ _ _) as [[] g]; [done|].
  destruct (RateGuard.WaitTime _ _ _ _ _) as [wt g']. destruct (_ || _).
  { intros [= <- _ _] H%accepted_json. done. }
  destruct (qlt _ _); [intros [= <- _ _] H%accepted_json; done|].
  destruct (BotProxy.t_done k); [intros [= <- _ _] H%accepted_json; done|]. apply IH.
Qed.

(** An accepted answer to a write is a replay or came with a status below 400. *)
Lemma call_accepted e timeout i s method body key mg r reqs mg' :
  telegram_status e → gatewayOwned (to_lower method) = false → to_lower method ≠ "sendchataction" →
  BotProxy.Call (calls e) (once e) timeout i s method body "" None key mg = Some (r, reqs, mg') →
  accepted (gw_doc r) → r = BotProxy.replayed ∨ BotProxy.status r < 400.
Proof.
  intros Ht Ho Hm. unfold BotProxy.Call. destruct (BotProxy.resolveUsernameChat _ _ _ _ _) as [[b rq] mg0]. rewrite Ho.
  unfold BotProxy.call_open. cbv zeta. destruct (if _ && _ then _ else _) as [v g]. destruct (_ && (v =? "replay")%string); [intros [= <- _ _]; by left|].
  unfold BotProxy.typing_stage. destruct (String.eqb_spec (to_lower method) "sendchataction"); [done|].
  set (t := if (to_lower method =? "answercallbackquery")%string then _ else _). destruct t as [[x|] mg1] eqn:Et.
  { exfalso. subst t. destruct (_ =? "answercallbackquery")%string; [done|]. by destruct (_ && _). }
  unfold BotProxy.paid_stage. cbv zeta. destruct (_ && negb _); [intros [= <- _ _] H%accepted_json; done|].
  unfold BotProxy.admitAndForward. destruct (BotProxy.admission_loop _ _ _ _ _ _ _ _) as [[[[|x] w] mg2]|] eqn:Ea; [| |done].
  - unfold BotProxy.forward. destruct (json_marshal _); [|intros [= <- _ _] H%accepted_json; done]. cbv zeta.
    destruct (BotProxy.client _ _ _) as [err|resp] eqn:Ec; intros [= <- _ _] Ha; [by apply accepted_json in Ha|].
    right. by apply (Ht _ _ Ec).
  - intros [= <- _ _] Ha. by apply refusals_known in Ea.
Qed.

Section send.
Context `{Fernet} (bx : Box) (enc : json_text → string) (size : json_text → Z).

(** A bot client whose token is that of session [i]. *)
Record client_of (c : Client) (i : nat) (s : BotSession) (a : App) : Prop := {
  co_token : botToken c ≠ "" ∧ has_char "/" (botToken c) = false;
  co_find : FindByToken (botToken c) (Mgr a) = Some i ∧ objs (Mgr a) !! i = Some s
}.

Definition send_request (c : Client) (key : string) (doc : json_text) : sdk_request :=
  {| q_url := methodURL c "sendMessage"; q_auth := "Bearer " +:+ appSecret c; q_idem := key; q_body := doc |}.

(** The proxy call a send becomes. *)
Lemma send_round_trip e es a log c i s key body :
  client_of c i s a → 0 < Z.of_nat (String.length (enc (JText (AMap body)))) <= maxJSONBody →
  gateway bx enc size (base c) (send_request c key (JText (AMap body))) (e :: es, a, log) =
    match BotProxy.Call (calls e) (once e) (QueueWaitTimeout (Policy (cfg (Mgr a)))) i s "sendMessage" body "" None key (Mgr a) with
    | Some (r, reqs, mg) => (inr {| h_status := BotProxy.status r; h_body := gw_doc r; h_size := size (gw_doc r) |}, (es, set_mgr mg a, log ++ reqs))
    | None => (inl "timeout", (es, a, log))
    end.
Proof.
  intros [[Ht0 Ht] [Hf Hs]] Hn. unfold gateway.
  erewrite serve_method; [|by right|exact Ht|by apply method_url|exact Hf|exact Hs].
  erewrite route_json; [|reflexivity|exact Hn]. cbn [send_request q_idem].
  destruct (BotProxy.Call _ _ _ _ _ _ _ _ _ _ _) as [[[r reqs] mg]|]; [|done]. cbn [reply_gw lift].
  unfold gw_doc, writeGwResponse. by destruct (BotProxy.raw r).
Qed.

(** What a successful send says of the round trip. *)
Lemma sent_answer {W} (T : sdk_request → W → (string + sdk_answer) * W) c key chat text extra w m w' :
  SendMessageIdempotent T c key chat text extra w = (inr m, w') →
  ∃ body h v, json_marshal (send_body chat text extra) = Some (JText (AMap body)) ∧
    T (send_request c key (JText (AMap body))) w = (inr h, w') ∧
    decode_envelope (h_body h) = Some v ∧ e_ok v = true ∧ e_replay v = false.
Proof.
  unfold SendMessageIdempotent, do, encode, json_marshal. destruct (json_ok _); [|done]. cbn [jnorm].
  fold (norm_members (send_body chat text extra)). fold (send_request c key (JText (AMap (norm_members (send_body chat text extra))))).
  destruct (T _ w) as [[err|h] w1] eqn:ET; [done|]. unfold read_body. destruct (_ <? _); [done|].
  destruct (decode_envelope (h_body h)) as [v|] eqn:Ev; [|done]. destruct (e_ok v) eqn:Eo; [|done]. cbn.
  destruct (e_replay v) eqn:Er; [done|]. destruct (id_member _ _); [|done]. intros [= _ <-]. by exists (norm_members (send_body chat text extra)), h, v.
Qed.

Lemma replay_decodes : ∃ v, decode_envelope (gw_doc BotProxy.replayed) = Some v ∧ e_ok v = true ∧ e_replay v = true.
Proof. eexists. split; [vm_compute; reflexivity|done]. Qed.

(** C15. The SDK's promise about keys, through the gateway: once
    SendMessageIdempotent has returned a message, the same call with the same
    key, from this or another process, within 300 s of the first one's end and
    in any later state of the gateway in which the key's row is still there
    (a restarted gateway, other requests in between), returns ErrReplayed and
    sends nothing to Telegram but a possible getChat lookup. It needs that
    Telegram answers ok only below status 400. *)
Theorem sdk_keyed_send_once c key chat text extra e1 es1 a log1 m a1 log1' i s e2 es2 a2 log2 i2 s2 :
  SendMessageIdempotent (gateway bx enc size (base c)) c key chat text extra (e1 :: es1, a, log1) = (inr m, (es1, a1, log1')) →
  (∀ body, json_marshal (send_body chat text extra) = Some body → 0 < Z.of_nat (String.length (enc body)) <= maxJSONBody) →
  client_of c i s a → key ≠ "" → telegram_status e1 → BotProxy.settle_faults (calls e1) 0%nat = false →
  BotProxy.others_spare (Alias s) key (calls e1) → GatewayStore.store_ok (gstore (Mgr a)) →
  client_of c i2 s2 a2 → Alias s2 = Alias s → BotProxy.others_spare (Alias s) key (calls e2) → GatewayStore.store_ok (gstore (Mgr a2)) →
  BotProxy.key_state (Alias s) key (Mgr a2) = BotProxy.key_state (Alias s) key (Mgr a1) →
  (secs (BotProxy.claim_at (calls e2)) <= secs (BotProxy.settle_at (calls e1)) + IdempotencyTTL)%Q →
  size (gw_doc BotProxy.replayed) <= 2 ^ 20 →
  ∃ a3 reqs, SendMessageIdempotent (gateway bx enc size (base c)) c key chat text extra (e2 :: es2, a2, log2) =
      (inl ErrReplayed, (es2, a3, log2 ++ reqs)) ∧
    Forall (λ q, URL q = "/bot" +:+ Token s2 +:+ "/getChat") reqs.
Proof.
  intros E Hn Hc Hk Ht Hf Hs Hok Hc2 Hal Hs2 Hok2 Hkey Httl Hsz.
  destruct (sent_answer _ _ _ _ _ _ _ _ _ E) as (body & h & v & Em & ET & Ev & Eo & Er).
  specialize (Hn _ Em). rewrite (send_round_trip e1 es1 a log1 c i s key body Hc Hn) in ET.
  destruct (BotProxy.Call _ _ _ _ _ _ _ _ _ _ _) as [[[r reqs] mg]|] eqn:EC in ET; [|done]. injection ET as <- <- _. cbn [h_body] in Ev.
  assert (r ≠ BotProxy.replayed) as Hr.
  { intros ->. destruct replay_decodes as (v' & Ev' & _ & Er'). congruence. }
  destruct (call_accepted e1 _ i s "sendMessage" body key (Mgr a) r reqs mg Ht eq_refl ltac:(done) EC) as [|Hst]; [by exists v|done|].
  assert (BotProxy.key_state (Alias s) key mg = Some (Done, secs (BotProxy.settle_at (calls e1)))) as Hd.
  { by eapply BotProxy.call_marks_done in EC. }
  change (Mgr (set_mgr mg a)) with mg in Hkey. rewrite Hd, <- Hal in Hkey. rewrite <- Hal in Hs2.
  destruct (BotProxy.call_replays (calls e2) (once e2) (QueueWaitTimeout (Policy (cfg (Mgr a2)))) i2 s2 "sendMessage" body "" key (Mgr a2) _
    eq_refl eq_refl Hk Hs2 Hok2 Hkey Httl) as (rq & mg3 & E2 & Hrq).
  exists (set_mgr mg3 a2), rq. split; [|done].
  unfold SendMessageIdempotent, do, encode. rewrite Em. fold (send_request c key (JText (AMap body))).
  rewrite (send_round_trip e2 es2 a2 log2 c i2 s2 key body Hc2 Hn), E2. unfold read_body. cbn [h_size h_body h_status].
  destruct (Z.ltb_spec (2 ^ 20) (size (gw_doc BotProxy.replayed))); [lia|].
  destruct replay_decodes as (v' & -> & -> & ->). done.
Qed.
End send.

(** ** Concrete runs *)

Definition upd_of (n : Z) : obj := [("update_id", AFloat (inject_Z n)); ("message", AStr "hi")].

(** The bot of [demo_app] with three updates in its queue. *)
Definition queued_session : BotSession :=
  match objs (Mgr demo_app) !! 0%nat with
  | Some s =>
      match Queue.PushAll 5 6 no_faults (upd_of <$> [7; 8; 9]) (queue s) Queue.w_empty with
      | Some (_, q, _) => upd_queue q s
      | None => s
      end
  | None => demo_session
  end.

Definition queued_app : App := set_mgr (set_obj (Mgr demo_app) 0 queued_session) demo_app.

Definition short_text (t : json_text) : string := "{}".

Definition small (t : json_text) : Z := 0.

Definition demo_client (seed : Z) : Client := SetOffset seed (NewBotAPI "http://gw:8080/" "app" "1:t").

Lemma demo_consumes seed : 0 <= seed < 10 → consumes short_text (demo_client seed) 0 queued_session 0 2 queued_app.
Proof.
  intros Hs. constructor; [by split|split; vm_compute; reflexivity|cbn; lia|cbn; unfold maxJSONBody; lia|].
  assert (pending (queue queued_session) = (λ n, {| Queue.UpdateID := n; Queue.Update := upd_of n; Queue.Enqueued := 5 |}) <$> [7; 8; 9])
    as -> by (vm_compute; reflexivity).
  repeat constructor; cbn; lia.
Qed.

(** A fresh consumer reads the three updates in two pulls of at most two; one
    that restarts after 7 reads the other two. *)
Lemma sdk_drains_in_order_witness :
  let run k seed := drain (gateway toy_box short_text small "http://gw:8080") k 0 2 (demo_client seed) ([demo_env; demo_env], queued_app, []) in
  (UpdateID <$> default [] (run 2%nat 0).1.1) = [7; 8; 9] ∧ (UpdateID <$> default [] (run 1%nat 7).1.1) = [8; 9] ∧
  Offset (run 2%nat 0).1.2 = 9.
Proof.
  intros run. split; [vm_compute; reflexivity|]. split; [vm_compute; reflexivity|].
  destruct (sdk_drains_in_order toy_box short_text small "http://gw:8080/" "app" "1:t" 0 2 [demo_env; demo_env] queued_app [] 0 queued_session 0 2)
    as (c' & w' & E & Hc).
  - repeat constructor.
  - cbn. lia.
  - apply demo_consumes. lia.
  - assert (pending (queue queued_session) = (λ n, {| Queue.UpdateID := n; Queue.Update := upd_of n; Queue.Enqueued := 5 |}) <$> [7; 8; 9])
      as -> by (vm_compute; reflexivity). repeat constructor.
  - vm_compute. reflexivity.
  - intros m. unfold small. lia.
  - change (run 2%nat 0) with (drain (gateway toy_box short_text small (base (SetOffset 0 (NewBotAPI "http://gw:8080/" "app" "1:t"))))
      2 0 2 (SetOffset 0 (NewBotAPI "http://gw:8080/" "app" "1:t")) ([demo_env; demo_env], queued_app, [])).
    rewrite E. cbn [fst snd]. rewrite Hc. vm_compute. reflexivity.
Defined.

(** ** The MTProto plane *)

(** The document of an MTProto answer. *)
Definition mt_doc (p : MTApp.payload) : json_text :=
  match p with
  | MTApp.PJson v => default (JBad "") (json_marshal v)
  | MTApp.PSplice l => JText (AMap [("ok", ABool true); ("result", AList (omap (λ t, match t with JText v => Some v | JBad _ => None end) l))])
  | _ => JBad ""
  end.

Definition mt_answer (o : MTApp.outcome) : string + sdk_answer :=
  match o with
  | MTApp.Reply r => inr {| h_status := MTApp.code_ r; h_body := mt_doc (MTApp.pay r); h_size := 0 |}
  | MTApp.Dropped | MTApp.Panicked => inl "EOF"
  end.

Definition mt_gateway (base_ : string) (q : sdk_request) (a : MTApp.App (list MTClient.call))
    : (string + sdk_answer) * MTApp.App (list MTClient.call) :=
  let r := {| MTApp.r_method := "POST"; MTApp.r_path := tail (split_on "/" (trim_prefix base_ (q_url q))); MTApp.r_url := "";
              MTApp.r_auth := q_auth q; MTApp.r_body := {| MTApp.braw := Some (q_body q); MTApp.too_large := false |} |} in
  match MTApp.serve MTApp.demo_clients (MTApp.demo_env 9) toy_box 0 false r a with
  | Some (o, a) => (mt_answer o, a)
  | None => (inl "timeout", a)
  end.

Definition mt_app : MTApp.App (list MTClient.call) :=
  {| MTApp.Mgr := MTApp.pushed; MTApp.Boot := {| Health.BootTracker.Path := ""; Health.BootTracker.WindowS := 0; Health.BootTracker.MaxBoots := 0 |};
     MTApp.boots := None; MTApp.SafeMode := false; MTApp.beat_last := 0; MTApp.world := [] |}.

Definition mt_client : Client := NewMTProto "http://mt:8081" "" "s1".

(** On the MTProto plane the typed send never works: the method name it uses is
    not one of the plane's. *)
Lemma mt_typed_send_unsupported :
  match SendMessage (mt_gateway "http://mt:8081") (Some "k") 0 mt_client 5 "hi" [] mt_app with
  | (inl err, a) => IsUnsupported err = true ∧ MTApp.world a = []
  | _ => False
  end.
Proof. vm_compute. split; reflexivity. Qed.

(** ... and a pull has no cursor: updates of that plane are numbered by
    _gw_seq, so the id is 0, the cursor never moves and no pull ever sends an
    offset. Each one is in the delivery-is-acknowledgement mode, and the update
    is gone from the store before the caller sees it. *)
Lemma mt_pull_has_no_cursor :
  match PullUpdates (mt_gateway "http://mt:8081") mt_client 0 10 mt_app with
  | (inr out, c, a) => UpdateID <$> out = [0] ∧ Offset c = 0 ∧ MTStore.update_queue (MTSession.st (MTApp.Mgr a)) = []
  | _ => False
  end.
Proof. vm_compute. split; [|split]; reflexivity. Qed.

(** ** A keyed send and its retry *)

Definition sent_answer_doc : httpResponse :=
  {| StatusCode := 200; RBody := JText (AMap [("ok", ABool true); ("result", AMap [("message_id", AFloat 41)])]); RType := "" |}.

Definition send_env : app_env :=
  {| calls := BotProxy.env_demo sent_answer_doc [BotProxy.idle_tick 1] 1000000000; once := once demo_env; clock := clock demo_env;
     admin_faults := admin_faults demo_env; restore_faults := restore_faults demo_env; entropy := 0; attach_error := "";
     meanwhile := λ mg, mg; probe := λ _, None; probe_others := λ mg, mg; beat_now := 0; unresolved := 0; quote := λ s, s; show := λ _, "" |}.

Definition keyed (w : gw_world) : (sdk_error + Message) * gw_world :=
  SendMessageIdempotent (gateway toy_box short_text small "http://gw:8080") (demo_client 0) "k1" 5 "hi" [] w.

Definition after_send : App := (keyed ([send_env], demo_app, [])).2.1.2.

Definition sent_session : BotSession := default demo_session (objs (Mgr after_send) !! 0%nat).

Definition first_session : BotSession := default demo_session (objs (Mgr demo_app) !! 0%nat).

Lemma demo_spared : BotProxy.others_spare "b1" "k1" (calls send_env).
Proof. split; [apply Forall_singleton|]; by intros. Qed.

Lemma first_store : GatewayStore.store_ok (gstore (Mgr demo_app)).
Proof. constructor; vm_compute; repeat constructor; try (intros Hx; inversion Hx). Qed.

Lemma sent_store : GatewayStore.store_ok (gstore (Mgr after_send)).
Proof. constructor; vm_compute; repeat constructor; try (intros Hx; inversion Hx). Qed.

(** The message goes out once; the retry is recognised and sends nothing. *)
Lemma sdk_keyed_send_once_witness :
  (m_id <$> match (keyed ([send_env], demo_app, [])).1 with inr m => Some m | inl _ => None end) = Some 41 ∧
  ∃ a3 reqs, keyed ([send_env], after_send, []) = (inl ErrReplayed, ([], a3, [] ++ reqs)) ∧
    Forall (λ q, URL q = "/bot" +:+ Token sent_session +:+ "/getChat") reqs.
Proof.
  split; [vm_compute; reflexivity|].
  assert (∃ m log, keyed ([send_env], demo_app, []) = (inr m, ([], after_send, log))) as (m & log & E).
  { unfold after_send. destruct (keyed ([send_env], demo_app, [])) as [x [[es a] l]] eqn:Ek.
    assert (match (keyed ([send_env], demo_app, [])).1 with inr _ => true | inl _ => false end = true ∧ (keyed ([send_env], demo_app, [])).2.1.1 = []) as [H1 H2]
      by (split; vm_compute; reflexivity).
    rewrite Ek in H1, H2. cbn in H1, H2. destruct x; [discriminate H1|]. subst es. eexists _, _. reflexivity. }
  refine (sdk_keyed_send_once toy_box short_text small (demo_client 0) "k1" 5 "hi" [] send_env [] demo_app [] m after_send log 0 first_session
    send_env [] after_send [] 0 sent_session E _ _ _ _ _ _ _ _ _ _ _ _ _ _).
  - intros body _. cbn. unfold maxJSONBody. lia.
  - constructor; split; try (vm_compute; reflexivity). discriminate.
  - discriminate.
  - intros q resp [= <-] _. cbn. lia.
  - reflexivity.
  - exact demo_spared.
  - exact first_store.
  - constructor; split; try (vm_compute; reflexivity). discriminate.
  - vm_compute. reflexivity.
  - exact demo_spared.
  - exact sent_store.
  - reflexivity.
  - vm_compute. discriminate.
  - unfold small. lia.
Defined.
