(* ===== verification/Command.v ===== *)
(** * The command line (cmd/tggw)

    The subcommands, the start-up checks of the two gateways, the opening of
    their stores and the construction of the applications.  The [host] is what
    outlives a process: the devices of the paths that exist, key files,
    database files, the boot history, the session files of the old client.
    What a database file holds is read through [content] and [mt_content]. *)
From Stdlib Require Import QArith Ascii String.
From stdpp Require Import base list strings gmap.
From S2P Require Import Prelude GoValue Sql Health Crypto Config Mux.
From S2P Require Lock Queue GatewayStore MTStore Maintenance BotSession BotProxy BotApp MTSession MTApp Gotd Migrate.
Open Scope Z_scope.

(** ** Paths *)

(** [filepath.Clean] of an absolute path, as its segments. *)
Definition clean_step (acc : list string) (s : string) : list string :=
  if (s =? "")%string || (s =? ".")%string then acc
  else if (s =? "..")%string then removelast acc
  else acc ++ [s].

Definition clean (s : string) : list string := fold_left clean_step (split_on "/" s) [].

Definition Abs (cwd : option string) (p : string) : option (list string) :=
  if has_prefix "/" p then Some (clean p)
  else match cwd with Some d => Some (clean (d +:+ "/" +:+ p)) | None => None end.

Definition path_of (segs : list string) : string := "/" +:+ String.concat "/" segs.

(** The index of the last slash. *)
Fixpoint last_slash (p : string) : option nat :=
  match p with
  | EmptyString => None
  | String c p' =>
      match last_slash p' with
      | Some n => Some (S n)
      | None => if (c =? "/")%char then Some O else None
      end
  end.

Definition filepathDir (p : string) : string :=
  match last_slash p with Some (S n) => stake (S n) p | _ => "/" end.

(** The device of each path that exists. *)
Abbreviation devices := (gmap string Z).

Definition sameDevice (a b : Z) : bool := a =? b.

Definition isRootMount (ds : devices) (path : string) : bool :=
  match ds !! path with
  | None => false
  | Some st => match ds !! filepathDir path with None => false | Some pst => negb (sameDevice st pst) end
  end.

(** The walk up; the segments come last first. *)
Fixpoint climb (ds : devices) (rs : list string) : bool :=
  match ds !! path_of (reverse rs) with
  | Some _ => isRootMount ds (path_of (reverse rs))
  | None => match rs with [] => false | _ :: rs' => climb ds rs' end
  end.

Definition isMount (ds : devices) (cwd : option string) (path : string) : bool :=
  match Abs cwd path with None => false | Some segs => climb ds (reverse segs) end.

(** [os.MkdirAll]: new directories are on their parent's device. *)
Fixpoint mkdirs (pre rest : list string) (dev : Z) (ds : devices) : devices :=
  match rest with
  | [] => ds
  | x :: rest' =>
      match ds !! path_of (pre ++ [x]) with
      | Some d => mkdirs (pre ++ [x]) rest' d ds
      | None => mkdirs (pre ++ [x]) rest' dev (<[path_of (pre ++ [x]) := dev]> ds)
      end
  end.

Definition MkdirAll (cwd : option string) (path : string) (ds : devices) : devices :=
  match Abs cwd path, ds !! "/" with Some segs, Some d => mkdirs [] segs d ds | _, _ => ds end.

(** ** What outlives a process *)

Record host := {
  devs : devices; cwd : option string;
  key_files : gmap string string; dbs : Maintenance.dir; queue_db : Queue.disk; boot_file : BootTracker.history;
  locks : Lock.kernel; session_files : gmap string Migrate.session_file;
  gotd_table : list Gotd.session_row; listed : option (list string)
}.

Definition set_devs (ds : devices) (h : host) : host :=
  {| devs := ds; cwd := cwd h; key_files := key_files h; dbs := dbs h; queue_db := queue_db h; boot_file := boot_file h;
     locks := locks h; session_files := session_files h; gotd_table := gotd_table h; listed := listed h |}.

Definition set_keys (k : gmap string string) (h : host) : host :=
  {| devs := devs h; cwd := cwd h; key_files := k; dbs := dbs h; queue_db := queue_db h; boot_file := boot_file h;
     locks := locks h; session_files := session_files h; gotd_table := gotd_table h; listed := listed h |}.

Definition set_dbs (d : Maintenance.dir) (h : host) : host :=
  {| devs := devs h; cwd := cwd h; key_files := key_files h; dbs := d; queue_db := queue_db h; boot_file := boot_file h;
     locks := locks h; session_files := session_files h; gotd_table := gotd_table h; listed := listed h |}.

Definition set_boots (b : BootTracker.history) (h : host) : host :=
  {| devs := devs h; cwd := cwd h; key_files := key_files h; dbs := dbs h; queue_db := queue_db h; boot_file := b;
     locks := locks h; session_files := session_files h; gotd_table := gotd_table h; listed := listed h |}.

Definition set_table (t : list Gotd.session_row) (h : host) : host :=
  {| devs := devs h; cwd := cwd h; key_files := key_files h; dbs := dbs h; queue_db := queue_db h; boot_file := boot_file h;
     locks := locks h; session_files := session_files h; gotd_table := t; listed := listed h |}.

(** ** Start-up checks *)

Definition environ : Type := string → option string.

Definition Getenv (env : environ) (name : string) : string := default "" (env name).

Definition preflight (env : environ) (fernetKey dataDir : string) (h : host) : option string :=
  if (fernetKey =? "")%string then Some "GW_FERNET_KEY is required"
  else if negb (Getenv env "GW_ALLOW_EPHEMERAL_DATA" =? "1")%string && negb (isMount (devs h) (cwd h) dataDir)
  then Some (dataDir +:+ " must be a mounted volume")
  else None.

(** ** Opening the stores *)

(** [f_key] the key file, [f_check] the integrity check, [f_open] the pragmas,
    [f_schema] the schema script, [f_idem] the key-table migration, [f_ver],
    [f_snap] and [f_mig] the schema version; [ver] is user_version. *)
Record open_env := {
  o_now : Z; o_ts : string; o_pid : Z; o_entropy : Z; ver : Z;
  f_key : nat → bool; f_check : faults; f_open : faults; f_schema : bool; f_idem : faults;
  f_ver : faults; f_snap : faults; f_mig : nat → faults
}.

(** A file SQLite has just created. *)
Definition new_db (now : Z) : Maintenance.file :=
  {| Maintenance.check := Some "ok"; Maintenance.pages := ""; Maintenance.mtime := now; Maintenance.audit_ts := None |}.

Definition touch (now : Z) (path : string) (d : Maintenance.dir) : Maintenance.dir :=
  match d !! path with Some _ => d | None => <[path := new_db now]> d end.

Section stores.
Context `{Fernet}.

(** The result of opening a store: its key, its health and its file. *)
Inductive opened := Opened (b : Box) (hs : Storage.t) (x : Maintenance.file) | OpenFailed (err : string) | OpenPanicked.

(** The part both planes share: [path] is the database, [fk] its foreign-keys
    pragma, [scripts] whether the scripts between the pragmas and the version
    check succeed. *)
Definition open_store (e : open_env) (path durability backupsDir : string) (fk scripts : bool) (b : Box) (h : host) : opened * host :=
  let '(hs, d) := Maintenance.CheckOrQuarantine (f_check e) (o_now e) (o_ts e) path backupsDir (Some Storage.NewStorage) (dbs h) in
  match Maintenance.Open (f_open e) durability fk with
  | None => (OpenFailed "open", set_dbs d h)
  | Some _ =>
      let d := touch (o_now e) path d in
      if negb scripts then (OpenFailed "schema", set_dbs d h) else
      match Maintenance.EnsureSchema (f_ver e) (f_snap e) (f_mig e) (o_now e) (o_ts e) (o_pid e) 1 ∅ path backupsDir d
              {| Maintenance.user_version := ver e; Maintenance.applied := [] |} with
      | None => (OpenPanicked, set_dbs d h)
      | Some (ok, _, d) =>
          (if ok then Opened b (default Storage.NewStorage hs) (default (new_db (o_now e)) (d !! path)) else OpenFailed "version", set_dbs d h)
      end
  end.

Definition OpenGateway (e : open_env) (dataDir fernetKey durability backupsDir : string) (h : host) : opened * host :=
  let h := set_devs (MkdirAll (cwd h) dataDir (devs h)) h in
  match LoadKey fernetKey dataDir (o_entropy e) (f_key e) (key_files h) with
  | (None, k) => (OpenFailed "key", set_keys k h)
  | (Some b, k) => open_store e (dataDir +:+ "/gateway.db") durability backupsDir false (negb (f_schema e)) b (set_keys k h)
  end.

(** [idem]: the idempotency tables of the file before the migration. *)
Definition OpenMT (e : open_env) (idem : MTStore.idem_db) (dataDir fernetKey durability backupsDir : string) (h : host) : opened * host :=
  let h := set_devs (MkdirAll (cwd h) (dataDir +:+ "/sessions") (MkdirAll (cwd h) dataDir (devs h))) h in
  match LoadKey fernetKey dataDir (o_entropy e) (f_key e) (key_files h) with
  | (None, k) => (OpenFailed "key", set_keys k h)
  | (Some b, k) =>
      open_store e (dataDir +:+ "/mtgateway.db") durability backupsDir true
        (negb (f_schema e) && (MTStore.open_idem (f_idem e) idem).1) b (set_keys k h)
  end.

(** ** The applications *)

(** [world0] is the state of the Telegram clients; [idem0] see [OpenMT]. *)
Context (content : Maintenance.file → GatewayStore.gateway) (mt_content : Maintenance.file → MTStore.mt) {C : Type} (world0 : C).

Record start_env := {
  opening : open_env; idem0 : MTStore.idem_db; clk : nat → Z; boot_at : Z; history_writable : bool;
  f_restore : faults; f_verify : faults; f_rows : nat → nat → faults
}.

Definition boot_tracker (dataDir : string) : BootTracker.t :=
  {| BootTracker.Path := dataDir +:+ "/boot_history.json"; BootTracker.WindowS := 0; BootTracker.MaxBoots := 0 |}.

(** How a command ends: an exit code, or a gateway that serves. *)
Inductive ending :=
| Exit (code : Z) | ServingBot (b : Box) (a : BotApp.App) | ServingMT (b : Box) (a : MTApp.App C) | Crashed.

Definition NewApp (e : start_env) (c : BotAPI) (h : host) : ending * host :=
  match OpenGateway (opening e) (DataDir c) (FernetKey c) (Durability (BStorage c)) (BackupsDir c) h with
  | (OpenFailed _, h) => (Exit 1, h)
  | (OpenPanicked, h) => (Crashed, h)
  | (Opened b hs x, h) =>
      let a := {| BotApp.Mgr := BotSession.NewManager c (content x) {| Queue.dsk := queue_db h; Queue.hs := hs |};
                  BotApp.Boot := boot_tracker (DataDir c); BotApp.boots := boot_file h; BotApp.SafeMode := false;
                  BotApp.beat_last := boot_at e; BotApp.closed := false |} in
      let a := (BotApp.buildLifecycle (clk e) (boot_at e) (history_writable e) (f_restore e) (f_verify e) (f_rows e) b a).2 in
      (ServingBot b a, set_boots (BotApp.boots a) h)
  end.

(** The store with the key table the migration left. *)
Definition with_idem (d : MTStore.idem_db) (m : MTStore.mt) : MTStore.mt :=
  {| MTStore.sessions := MTStore.sessions m; MTStore.update_queue := MTStore.update_queue m; MTStore.admin_audit := MTStore.admin_audit m;
     MTStore.idempotency_keys := match MTStore.idem_keys d with Some (MTStore.TableV2 t) => t | _ => [] end;
     MTStore.dead_letters := MTStore.dead_letters m; MTStore.dead_seq := MTStore.dead_seq m |}.

Definition newMTApp (e : start_env) (c : MTProto) (skipRestore : bool) (h : host) : ending * host :=
  match OpenMT (opening e) (idem0 e) (MDataDir c) (MFernetKey c) (Durability (MStorage c)) (MDataDir c +:+ "/backups") h with
  | (OpenFailed _, h) => (Exit 1, h)
  | (OpenPanicked, h) => (Crashed, h)
  | (Opened b hs x, h) =>
      let st := with_idem (MTStore.open_idem (f_idem (opening e)) (idem0 e)).2 (mt_content x) in
      let a := {| MTApp.Mgr := MTSession.NewManager c st hs (locks h); MTApp.Boot := boot_tracker (MDataDir c); MTApp.boots := boot_file h;
                  MTApp.SafeMode := false; MTApp.beat_last := boot_at e; MTApp.world := world0 |} in
      match MTApp.buildLifecycle (clk e) (boot_at e) (history_writable e) (f_restore e) (f_rows e) b skipRestore a with
      | None => (Crashed, h)
      | Some a => (ServingMT b a, set_boots (MTApp.boots a) h)
      end
  end.

Definition runBotAPI (e : start_env) (env : environ) (h : host) : ending * host :=
  let c := BotAPIFromEnv env in
  match Validate c with
  | Some _ => (Exit 1, h)
  | None => match preflight env (FernetKey c) (DataDir c) h with Some _ => (Exit 1, h) | None => NewApp e c h end
  end.

Definition runMTProto (e : start_env) (env : environ) (h : host) : ending * host :=
  let c := MTProtoFromEnv env in
  match ValidateMT c with
  | Some _ => (Exit 1, h)
  | None => match preflight env (MFernetKey c) (MDataDir c) h with Some _ => (Exit 1, h) | None => newMTApp e c false h end
  end.
(** ** The flags of migrate *)

Record flags := { from : string; dry_run : bool; as_json : bool }.

Definition ParseBool (s : string) : option bool :=
  if smem s ["1"; "t"; "T"; "TRUE"; "true"; "True"] then Some true
  else if smem s ["0"; "f"; "F"; "FALSE"; "false"; "False"] then Some false
  else None.

(** The name of a flag argument and its value, if it carries one; [None] is a
    syntax error. *)
Definition split_flag (name : string) : option (string * option string) :=
  match name with
  | EmptyString => None
  | String c rest =>
      if (c =? "-")%char || (c =? "=")%char then None
      else Some match cut_at "=" rest with
                | Some (n, v) => (String c n, Some v)
                | None => (name, None)
                end
  end.

(** [fs.Parse]; [None] is an error.  A non-flag or "--" ends the flags. *)
Fixpoint parse_flags (args : list string) (fl : flags) : option flags :=
  match args with
  | [] => Some fl
  | s :: args' =>
      match s with
      | String "-" (String c r) =>
          if (c =? "-")%char && (r =? "")%string then Some fl else
          match split_flag (if (c =? "-")%char then r else String c r) with
          | None => None
          | Some (n, v) =>
              if (n =? "from")%string then
                match v, args' with
                | Some x, _ => parse_flags args' {| from := x; dry_run := dry_run fl; as_json := as_json fl |}
                | None, [] => None
                | None, x :: args'' => parse_flags args'' {| from := x; dry_run := dry_run fl; as_json := as_json fl |}
                end
              else if (n =? "dry-run")%string || (n =? "json")%string then
                match (match v with Some x => ParseBool x | None => Some true end) with
                | None => None
                | Some b =>
                    parse_flags args' (if (n =? "dry-run")%string
                                       then {| from := from fl; dry_run := b; as_json := as_json fl |}
                                       else {| from := from fl; dry_run := dry_run fl; as_json := b |})
                end
              else None
          end
      | _ => Some fl
      end
  end.

(** ** The commands *)

Inductive output := Line (s : string) | JsonReport (r : Migrate.Report) | TextReport (r : Migrate.Report) (dry : bool).

(** [get] is a GET of the health check, [kill] the error of the signal. *)
Record cmd_env := {
  starting : start_env; migrating : Migrate.mig_env; mig_keys : nat → bool; mig_entropy : Z; gen_entropy : Z;
  get : string → string + Z; kill : option string
}.

(** The key fingerprint and the serialiser of gotd, see [Migrate]. *)
Context (key_id : string → string) (save : Migrate.Data → string + string).

(** A command's output and its error. *)
Definition runMigrate (e : cmd_env) (env : environ) (args : list string) (h : host) : list output * bool * host :=
  match parse_flags args {| from := ""; dry_run := false; as_json := false |} with
  | None => ([], false, h)
  | Some fl =>
      let dataDir := if (from fl =? "")%string then MDataDir (MTProtoFromEnv env) else from fl in
      if (dataDir =? "")%string then ([], false, h) else
      let '(rep, t, k) := Migrate.Run key_id save (migrating e) (MFernetKey (MTProtoFromEnv env)) dataDir (mig_entropy e) (mig_keys e) (dry_run fl)
                            (session_files h) (listed h) (key_files h) (gotd_table h) in
      let h := set_table t (set_keys k h) in
      match rep with
      | None => ([], false, h)
      | Some r => ([if as_json fl then JsonReport r else TextReport r (dry_run fl)], true, h)
      end
  end.

Definition runHealthcheck (e : cmd_env) (args : list string) : bool :=
  let addr := match args with a :: _ => if (a =? "")%string then "http://127.0.0.1:8080" else a | [] => "http://127.0.0.1:8080" end in
  match get e (addr +:+ "/healthz") with
  | inl _ => false
  | inr status => status =? 200
  end.

Definition runTerminate (e : cmd_env) : bool := match kill e with Some _ => false | None => true end.

(** The exit code of a command that ran to its end. *)
Definition exit_of (ok : bool) : ending := Exit (if ok then 0 else 1).

(** [args] are the arguments after the program's name. *)
Definition main (e : cmd_env) (env : environ) (args : list string) (h : host) : list output * ending * host :=
  match args with
  | [] => ([], Exit 2, h)
  | cmd :: rest =>
      if (cmd =? "botapi")%string then let '(x, h) := runBotAPI (starting e) env h in ([], x, h)
      else if (cmd =? "mtproto")%string then let '(x, h) := runMTProto (starting e) env h in ([], x, h)
      else if (cmd =? "genkey")%string then
        match GenerateKey (gen_entropy e) with Some k => ([Line k], Exit 0, h) | None => ([], Exit 1, h) end
      else if (cmd =? "migrate")%string then let '(out, ok, h) := runMigrate e env rest h in (out, exit_of ok, h)
      else if (cmd =? "healthcheck")%string then ([], exit_of (runHealthcheck e rest), h)
      else if (cmd =? "terminate")%string then ([], exit_of (runTerminate e), h)
      else if (cmd =? "version")%string then ([Line BotApp.version], Exit 0, h)
      else ([], Exit 2, h)
  end.
End stores.

(** ** The mount check *)

(** A segment of a clean path. *)
Definition segment (s : string) : Prop := s ≠ "" ∧ has_char "/" s = false.

Lemma split_on_free c s : Forall (λ x, has_char c x = false) (split_on c s).
Proof.
  induction s as [|a s IH]; cbn [split_on]; [by repeat constructor|]. destruct (a =? c)%char eqn:E; [by constructor|].
  destruct (split_on c s) as [|w ws]; [constructor; [by cbn; rewrite E|constructor]|]. apply Forall_cons in IH as [Hw Hws].
  constructor; [|done]. cbn. by rewrite E.
Qed.

Lemma clean_segments s : Forall segment (clean s).
Proof.
  unfold clean. pose proof (split_on_free "/" s) as Hl. revert Hl. generalize (split_on "/" s) as l. intros l Hl.
  assert (Forall segment []) as H0 by constructor. revert H0. generalize (@nil string) as acc.
  induction Hl as [|x l Hx _ IH]; intros acc Ha; [done|]. cbn [fold_left]. apply IH. unfold clean_step.
  destruct (String.eqb_spec x "") as [|Hne]; [done|]. destruct (String.eqb_spec x "."); [done|]. cbn.
  destruct (String.eqb_spec x ".."); [|by apply Forall_app; split; [|repeat constructor]].
  rewrite removelast_firstn_len. by apply Forall_take.
Qed.

Lemma Abs_segments cwd p segs : Abs cwd p = Some segs → Forall segment segs.
Proof. unfold Abs. destruct (has_prefix _ _); [intros [= <-]; apply clean_segments|]. destruct cwd; [|done]. intros [= <-]. apply clean_segments. Qed.

Lemma last_slash_none b : has_char "/" b = false → last_slash b = None.
Proof. induction b as [|c b IH]; [done|]. cbn. intros [Hc Hb]%orb_false_iff. by rewrite IH, Hc. Qed.

Lemma last_slash_app a b : has_char "/" b = false → last_slash (a +:+ String "/" b) = Some (String.length a).
Proof.
  intros Hb. induction a as [|c a IH]; [by simpl; rewrite last_slash_none|]. rewrite append_cons. cbn. by rewrite IH.
Qed.

Lemma stake_app a b : stake (String.length a) (a +:+ b) = a.
Proof. induction a as [|c a IH]; [by destruct b|]. rewrite append_cons. cbn. by rewrite IH. Qed.

Lemma concat_snoc (l : list string) x : l ≠ [] → String.concat "/" (l ++ [x]) = String.concat "/" l +:+ String "/" x.
Proof.
  induction l as [|y l IH]; [done|]. intros _. destruct l as [|z l]; [done|]. specialize (IH ltac:(done)).
  cbn [app] in *. change (String.concat "/" (y :: z :: l ++ [x])) with (y +:+ "/" +:+ String.concat "/" (z :: l ++ [x])).
  rewrite IH. change (String.concat "/" (y :: z :: l)) with (y +:+ "/" +:+ String.concat "/" (z :: l)). by rewrite !append_assoc.
Qed.

(** The hand-written parent function is right on clean paths. *)
Lemma filepathDir_parent segs x : segment x → filepathDir (path_of (segs ++ [x])) = path_of segs.
Proof.
  intros [_ Hx]. unfold filepathDir. destruct segs as [|y l].
  - change (path_of ([] ++ [x])) with ("" +:+ String "/" x). by rewrite last_slash_app.
  - assert (path_of ((y :: l) ++ [x]) = path_of (y :: l) +:+ String "/" x) as ->.
    { unfold path_of. rewrite concat_snoc by done. by rewrite append_assoc. }
    rewrite last_slash_app by done. change (String.length (path_of (y :: l))) with (S (String.length (String.concat "/" (y :: l)))).
    cbn iota. change (S (String.length (String.concat "/" (y :: l)))) with (String.length (path_of (y :: l))). apply stake_app.
Qed.

(** The deepest ancestor that exists is a mount point: it and its parent exist,
    on different devices. *)
Definition mounted (ds : devices) (segs : list string) : Prop :=
  ∃ pre x post d d', segs = pre ++ x :: post ∧ ds !! path_of (pre ++ [x]) = Some d ∧ ds !! path_of pre = Some d' ∧ d ≠ d' ∧
    ∀ q q', post = q ++ q' → q ≠ [] → ds !! path_of (pre ++ x :: q) = None.

Lemma climb_spec ds segs : Forall segment segs → climb ds (reverse segs) = true ↔ mounted ds segs.
Proof.
  induction segs as [|x segs IH] using rev_ind; intros Hs.
  { cbn. split; [|by intros ([] & ? & ? & ? & ? & ? & _)].
    unfold isRootMount. change (reverse []) with (@nil string). change (filepathDir (path_of [])) with (path_of []).
    destruct (ds !! path_of []) as [d|]; [|done]. unfold sameDevice. by rewrite Z.eqb_refl. }
  apply Forall_app in Hs as [Hs Hx]. apply Forall_cons in Hx as [Hx _]. specialize (IH Hs).
  rewrite reverse_snoc. cbn [climb]. rewrite reverse_cons, reverse_involutive.
  destruct (ds !! path_of (segs ++ [x])) as [d|] eqn:Ed.
  - unfold isRootMount, sameDevice. rewrite Ed, filepathDir_parent by done. split.
    + destruct (ds !! path_of segs) as [d'|] eqn:Ed'; [|done]. intros Hne. exists segs, x, [], d, d'.
      split_ands; [done|done|done|by apply negb_true_iff, Z.eqb_neq in Hne|]. by intros [] q' ? ?.
    + intros (pre & y & post & d1 & d2 & E & H1 & H2 & Hne & Hq).
      destruct post as [|z post] using rev_ind; [|clear IHpost].
      * apply app_inj_tail in E as [<- <-]. rewrite Ed in H1. injection H1 as <-. rewrite H2. by apply negb_true_iff, Z.eqb_neq.
      * specialize (Hq (post ++ [z]) [] ltac:(by rewrite app_nil_r) ltac:(by destruct post)). rewrite <- E in Hq. congruence.
  - rewrite IH. split; intros (pre & y & post & d1 & d2 & E & H1 & H2 & Hne & Hq).
    + exists pre, y, (post ++ [x]), d1, d2. split_ands; [by rewrite E, <- app_assoc|done|done|done|].
      intros q q' Eq Hqne. destruct q' as [|z q'] using rev_ind; [|clear IHq'].
      * rewrite app_nil_r in Eq. subst q. change (pre ++ y :: post ++ [x]) with (pre ++ (y :: post) ++ [x]). by rewrite app_assoc, <- E.
      * rewrite app_assoc in Eq. apply app_inj_tail in Eq as [Eq _]. by apply (Hq q q').
    + destruct post as [|z post] using rev_ind; [|clear IHpost].
      * apply app_inj_tail in E as [<- <-]. congruence.
      * rewrite app_comm_cons, app_assoc in E. apply app_inj_tail in E as [-> ->]. exists pre, y, post, d1, d2. split_ands; try done.
        intros q q' -> Hqne. apply (Hq q (q' ++ [z])); [by rewrite app_assoc|done].
Qed.

Lemma isMount_spec ds cwd path : isMount ds cwd path = true ↔ ∃ segs, Abs cwd path = Some segs ∧ mounted ds segs.
Proof.
  unfold isMount. destruct (Abs cwd path) as [segs|] eqn:E; [|naive_solver].
  rewrite climb_spec by (by eapply Abs_segments). naive_solver.
Qed.

(** ** Starting *)

(** What the start-up checks ask for. *)
Definition startable (env : environ) (valid : option string) (fernetKey dataDir : string) (h : host) : Prop :=
  valid = None ∧ fernetKey ≠ "" ∧
  (Getenv env "GW_ALLOW_EPHEMERAL_DATA" = "1" ∨ ∃ segs, Abs (cwd h) dataDir = Some segs ∧ mounted (devs h) segs).

Lemma preflight_spec env key dir h : preflight env key dir h = None ↔ startable env None key dir h.
Proof.
  unfold preflight, startable. rewrite <- isMount_spec. destruct (String.eqb_spec key "") as [->|Hk]; [naive_solver|].
  destruct (String.eqb_spec (Getenv env "GW_ALLOW_EPHEMERAL_DATA") "1"), (isMount (devs h) (cwd h) dir); cbn; naive_solver.
Qed.

Section starting.
Context `{Fernet} (content : Maintenance.file → GatewayStore.gateway) (mt_content : Maintenance.file → MTStore.mt) {C : Type} (world0 : C)
  (key_id : string → string) (save : Migrate.Data → string + string).

Lemma open_store_box e path dur bdir fk sc b h :
  match open_store e path dur bdir fk sc b h with
  | (Opened b' _ _, h') => b' = b ∧ key_files h' = key_files h
  | (_, h') => key_files h' = key_files h
  end.
Proof.
  unfold open_store. destruct (Maintenance.CheckOrQuarantine _ _ _ _ _ _ _) as [hs d].
  destruct (Maintenance.Open _ _ _); [|done]. destruct (negb sc); [done|].
  destruct (Maintenance.EnsureSchema _ _ _ _ _ _ _ _ _ _ _ _) as [[[[] d'] d'']|]; done.
Qed.

(** With a key in the environment the key files are not touched. *)
Lemma LoadKey_explicit key dir ent f ks :
  key ≠ "" → LoadKey key dir ent f ks = ((λ k, {| Crypto.key := k |}) <$> DecodeKey key, ks).
Proof. intros Hk. unfold LoadKey. destruct (String.eqb_spec key ""); [done|]. cbn. by destruct (DecodeKey key). Qed.

Lemma open_gateway_box e dir key dur bdir h :
  key ≠ "" →
  match OpenGateway e dir key dur bdir h with
  | (Opened b _ _, h') => DecodeKey key = Some (Crypto.key b) ∧ key_files h' = key_files h
  | (_, h') => key_files h' = key_files h
  end.
Proof.
  intros Hk. unfold OpenGateway. rewrite LoadKey_explicit by done. destruct (DecodeKey key) as [k|]; [|done]. cbn [fmap option_fmap option_map].
  match goal with |- context [open_store ?a ?b ?c ?d ?e ?f ?g ?h] => pose proof (open_store_box a b c d e f g h) as Hb; destruct (open_store a b c d e f g h) as [[] h'] end;
    [destruct Hb as [-> Hb]; by split|done..].
Qed.

Lemma open_mt_box e idem dir key dur bdir h :
  key ≠ "" →
  match OpenMT e idem dir key dur bdir h with
  | (Opened b _ _, h') => DecodeKey key = Some (Crypto.key b) ∧ key_files h' = key_files h
  | (_, h') => key_files h' = key_files h
  end.
Proof.
  intros Hk. unfold OpenMT. rewrite LoadKey_explicit by done. destruct (DecodeKey key) as [k|]; [|done]. cbn [fmap option_fmap option_map].
  match goal with |- context [open_store ?a ?b ?c ?d ?e ?f ?g ?h] => pose proof (open_store_box a b c d e f g h) as Hb; destruct (open_store a b c d e f g h) as [[] h'] end;
    [destruct Hb as [-> Hb]; by split|done..].
Qed.

(** ** A registration outlives the process *)

Lemma attach_new_token `{!FernetLaws} t1 t2 t3 fs b ent alias token ol pb m i m' :
  BotSession.attach_new t1 t2 t3 fs b ent alias token ol pb m = Some (i, m') → fs 2%nat = no_faults → is_Some (Encrypt b ent token) →
  GatewayStore.GetToken b no_faults alias (BotSession.gstore m') = Some token.
Proof.
  intros E Hf [enc He]. revert E. unfold BotSession.attach_new. destruct (Queue.OpenQueue _ _ _ _ _ _ _ _ _) as [[q w]|]; [|done].
  cbv zeta. destruct (BotSession.restoreBackoffs _ _ _ _ _ _) as [s g]. rewrite Hf.
  cbn [BotSession.set_store BotSession.gstore BotSession.set_world]. set (x := GatewayStore.RegisterBot _ _ _ _ _ _ _).
  destruct x as [g'|] eqn:Ex; subst x; [|by revert Ex; unfold GatewayStore.RegisterBot; rewrite He].
  intros [= _ <-]. apply GatewayStore.register_recovers_token in Ex as [Ex _]. exact Ex.
Qed.

(** An acknowledged registration of a token the session does not have yet is in
    the store. *)
Lemma register_persists `{!FernetLaws} ae bx r mg resp mg' b :
  BotApp.adminRegister ae bx r mg = (BotApp.Reply resp, mg') → BotApp.code_ resp = 200 →
  BotApp.decode_register (BotApp.r_first r) = Some b → BotApp.admin_faults ae 2%nat = no_faults →
  is_Some (Encrypt bx (BotApp.entropy ae) (BotApp.g_token b)) →
  (∀ i s, BotSession.Get (BotApp.register_alias ae b) mg = Some (i, s) → BotSession.Token s ≠ BotApp.g_token b) →
  GatewayStore.GetToken bx no_faults (BotApp.register_alias ae b) (BotSession.gstore mg') = Some (BotApp.g_token b).
Proof.
  intros E Hc Hd Hf He Hfresh. revert E. unfold BotApp.adminRegister. rewrite Hd.
  destruct (negb (BotApp.adminAuthed r mg)); [by intros [= <- _]|].
  destruct (BotApp.g_token b =? "")%string; [by intros [= <- _]|]. destruct (negb _); [by intros [= <- _]|].
  destruct (BotSession.Attach _ _ _ _ _ _ _ _ _ _ _) as [[i|] m1] eqn:EA; [|by intros [= <- _]]. cbv zeta.
  destruct (BotSession.objs m1 !! i) as [s|]; [|done]. intros [= _ <-].
  assert (GatewayStore.GetToken bx no_faults (BotApp.register_alias ae b) (BotSession.gstore m1) = Some (BotApp.g_token b)) as Ht.
  { revert EA. unfold BotSession.Attach. destruct (BotSession.Get _ mg) as [[j s0]|] eqn:EG.
    - destruct (String.eqb_spec (BotSession.Token s0) (BotApp.g_token b)) as [Heq|_]; [by apply (Hfresh _ _ eq_refl) in Heq|].
      destruct (BotSession.attach_new _ _ _ _ _ _ _ _ _ _ _) as [[k m2]|] eqn:EN; [|done]. intros [= -> ->]. by eapply attach_new_token.
    - destruct (BotSession.attach_new _ _ _ _ _ _ _ _ _ _ mg) as [[k m2]|] eqn:EN; [|done]. intros [= -> ->]. by eapply attach_new_token. }
  unfold BotApp.audit, BotProxy.upd_store. cbn [BotSession.gstore BotSession.set_store]. unfold GatewayStore.Audit.
  by destruct (BotApp.admin_faults ae 9%nat 0%nat).
Qed.
(** A start in which nothing fails. *)
Record sound (e : start_env) : Prop := {
  so_open : f_open (opening e) = no_faults; so_schema : f_schema (opening e) = false; so_ver : f_ver (opening e) = no_faults;
  so_version : 0 <= ver (opening e); so_restore : f_restore e = no_faults; so_rows : f_rows e = (λ _ _, no_faults)
}.

Lemma open_sound f dur fk : f = no_faults → Maintenance.Open f dur fk = Some 384.
Proof. intros ->. by destruct fk. Qed.

(** An intact database opens as it is. *)
Lemma open_intact e path dur bdir b h x :
  sound e → dbs h !! path = Some x → Maintenance.check x = Some "ok" →
  ∃ h', open_store (opening e) path dur bdir false true b h = (Opened b Storage.NewStorage x, h') ∧
    queue_db h' = queue_db h ∧ boot_file h' = boot_file h.
Proof.
  intros [H1 _ H3 H4 _ _] Hx Hok. unfold open_store, Maintenance.CheckOrQuarantine, Maintenance.QuickCheck. rewrite Hx, Hok.
  rewrite bool_decide_true by done. rewrite (open_sound _ _ _ H1). cbn [negb]. unfold touch. rewrite Hx.
  unfold Maintenance.EnsureSchema. rewrite H3. cbn [no_faults]. rewrite Hx. rewrite bool_decide_true by done. cbn [Maintenance.user_version].
  destruct (Z.eqb_spec (ver (opening e)) 0); cbn [andb negb].
  - rewrite Hx. eexists. done.
  - destruct (Z.leb_spec 1 (ver (opening e))); [|lia]. rewrite Hx. eexists. done.
Qed.

Lemma start_serves e env h x bx :
  let c := BotAPIFromEnv env in
  sound e → startable env (Validate c) (FernetKey c) (DataDir c) h → DecodeKey (FernetKey c) = Some (Crypto.key bx) →
  dbs h !! (DataDir c +:+ "/gateway.db") = Some x → Maintenance.check x = Some "ok" →
  ∃ h', runBotAPI (C := C) content e env h =
    (ServingBot bx (BotApp.buildLifecycle (clk e) (boot_at e) (history_writable e) no_faults (f_verify e) (λ _ _, no_faults) bx
       {| BotApp.Mgr := BotSession.NewManager c (content x) {| Queue.dsk := queue_db h; Queue.hs := Storage.NewStorage |};
          BotApp.Boot := boot_tracker (DataDir c); BotApp.boots := boot_file h; BotApp.SafeMode := false;
          BotApp.beat_last := boot_at e; BotApp.closed := false |}).2, h').
Proof.
  intros c He Hs Hk Hx Hok. unfold runBotAPI. fold c. destruct Hs as (Hv & Hne & Hm). rewrite Hv.
  rewrite (proj2 (preflight_spec env (FernetKey c) (DataDir c) h)) by done.
  unfold NewApp, OpenGateway. rewrite LoadKey_explicit, Hk by done. cbn [fmap option_fmap option_map].
  rewrite (so_schema _ He). cbn [negb].
  set (h1 := set_keys _ _).
  destruct (open_intact e (DataDir c +:+ "/gateway.db") (Durability (BStorage c)) (BackupsDir c) {| Crypto.key := Crypto.key bx |} h1 x He Hx Hok) as (h2 & -> & Hq & Hb).
  rewrite Hq, Hb, (so_restore _ He), (so_rows _ He). destruct bx as [kx]. by eexists.
Qed.

End starting.

(** ** Concrete runs *)

Definition quiet_open : open_env :=
  {| o_now := 0; o_ts := "t"; o_pid := 1; o_entropy := 0; ver := 0; f_key := λ _, false; f_check := no_faults; f_open := no_faults;
     f_schema := false; f_idem := no_faults; f_ver := no_faults; f_snap := no_faults; f_mig := λ _, no_faults |}.

Definition quiet_start : start_env :=
  {| opening := quiet_open; idem0 := {| MTStore.idem_keys := None; MTStore.idem_keys_v2 := None |}; clk := λ _, 0; boot_at := 0;
     history_writable := true; f_restore := no_faults; f_verify := no_faults; f_rows := λ _ _, no_faults |}.

Definition quiet_cmd (answer : string + Z) : cmd_env :=
  {| starting := quiet_start; migrating := Migrate.calm; mig_keys := λ _, false; mig_entropy := 0; gen_entropy := 0;
     get := λ _, answer; kill := None |}.

(** A container with a volume at /data and nothing on it. *)
Definition container : host :=
  {| devs := {["/" := 1; "/data" := 2]}; cwd := Some "/"; key_files := ∅; dbs := ∅; queue_db := Queue.dsk Queue.w_empty; boot_file := None;
     locks := MTSession.kern0; session_files := ∅; gotd_table := []; listed := Some [] |}.

Definition config_of (l : list (string * string)) (n : string) : option string :=
  snd <$> List.find (λ kv, (kv.1 =? n)%string) l.

Definition secrets : list (string * string) := [("GW_ADMIN_SECRET", "adm"); ("GW_APP_SECRET", "app"); ("GW_API_ID", "1"); ("GW_API_HASH", "h")].

Definition run_tggw (extra : list (string * string)) (args : list string) (h : host) : list output * ending * host :=
  main (λ _, GatewayStore.gateway_empty) (λ _, MTStore.mt_empty) tt Migrate.toy_id Migrate.toy_save (quiet_cmd (inr 200)) (config_of (extra ++ secrets)) args h.

Definition serves {C} (x : ending (C := C)) : bool := match x with ServingBot _ _ | ServingMT _ _ => true | _ => false end.

Definition with_key : list (string * string) := [("GW_FERNET_KEY", "k")].

Lemma surjective_pairing3 {A B D} (x : A * B * D) : x = (x.1.1, x.1.2, x.2).
Proof. by destruct x as [[]]. Qed.


(** The mount check looks at the data directory only once it exists: with the
    volume at /data and GW_DATA_DIR=/data/gw the first start succeeds and
    creates the directory, and every later start is refused. *)
Lemma second_start_refused :
  let env := ("GW_DATA_DIR", "/data/gw") :: with_key in
  let first := run_tggw env ["botapi"] container in
  serves first.1.2 = true ∧ (run_tggw env ["botapi"] first.2).1.2 = Exit 1.
Proof. vm_compute. split; reflexivity. Qed.

(** A migration, even a dry run, does invent a key. *)
Lemma migrate_invents_key : key_files (run_tggw [] ["migrate"; "--dry-run"] container).2 ≠ key_files container.
Proof. vm_compute. discriminate. Qed.

(** /healthz answers 200 whether or not the heartbeat is alive, so the health
    check of a wedged process succeeds. *)
Lemma healthcheck_ignores_heartbeat ae last args :
  (∃ r, BotApp.handleHealthz ae last = BotApp.Reply r ∧ runHealthcheck (quiet_cmd (inr (BotApp.code_ r))) args = true) ∧
  Beat.Alive 0 (6 * 1000000000) = false.
Proof. split; [|vm_compute; reflexivity]. eexists. split; reflexivity. Qed.

(** ** A bot registered before a restart *)

Definition before_restart : BotApp.outcome * BotSession.Manager :=
  BotApp.adminRegister BotApp.demo_env toy_box (BotApp.register_req "b1" "1:t") (BotApp.fresh_mgr GatewayStore.gateway_empty).

Definition used_volume : host := set_dbs {["/data/gateway.db" := new_db 0]} container.

Definition restarted : list output * ending (C := unit) * host :=
  main (λ _, BotSession.gstore before_restart.2) (λ _, MTStore.mt_empty) tt Migrate.toy_id Migrate.toy_save (quiet_cmd (inr 200))
    (config_of (with_key ++ secrets)) ["botapi"] used_volume.


(** A registration whose row cannot be written is answered 200 all the same, and
    is gone after a restart. *)
Lemma unwritten_registration_is_ok :
  let ae := {| BotApp.calls := BotApp.calls BotApp.demo_env; BotApp.once := BotApp.once BotApp.demo_env; BotApp.clock := λ _, 0;
    BotApp.admin_faults := λ n _, (n =? 2)%nat; BotApp.restore_faults := λ _ _, no_faults; BotApp.entropy := 0; BotApp.attach_error := "";
    BotApp.meanwhile := λ mg, mg; BotApp.probe := λ _, None; BotApp.probe_others := λ mg, mg; BotApp.beat_now := 0; BotApp.unresolved := 0;
    BotApp.quote := λ s, s; BotApp.show := λ _, "" |} in
  match BotApp.adminRegister ae toy_box (BotApp.register_req "b1" "1:t") (BotApp.fresh_mgr GatewayStore.gateway_empty) with
  | (BotApp.Reply resp, mg) => BotApp.code_ resp = 200 ∧ GatewayStore.bots (BotSession.gstore mg) = []
  | _ => False
  end.
Proof. vm_compute. split; reflexivity. Qed.
