(* ===== verification/Consumer.v ===== *)
(** * The example consumer (examples/go-consumer/main.go)

    An echo bot on the SDK, over an arbitrary transport and over the gateway. *)
From Stdlib Require Import QArith Ascii String.
From stdpp Require Import base list strings gmap.
From S2P Require Import Prelude GoValue Sql Crypto Http BotSession BotApp Sdk.
From S2P Require Queue BotProxy.
Open Scope Z_scope.

Definition env (environ : string → option string) (k def : string) : string :=
  let v := default "" (environ k) in if (v =? "")%string then def else v.

(** [None] is the fatal log line. *)
Definition new_client (environ : string → option string) : option Client :=
  let base_ := env environ "TGGW_BASE" "http://127.0.0.1:8080" in
  let secret := default "" (environ "TGGW_APP_SECRET") in
  let token := default "" (environ "BOT_TOKEN") in
  if (secret =? "")%string || (token =? "")%string then None else Some (NewBotAPI base_ secret token).

(** A struct member: the fields of an object merge into it, null leaves it. *)
Fixpoint struct_field {A} (dec : obj → A → A * bool) (name : string) (m : obj) (acc : A) (ok : bool) : A * bool :=
  match m with
  | [] => (acc, ok)
  | (k, v) :: m' =>
      if (to_lower k =? name)%string then
        match v with
        | ANil => struct_field dec name m' acc ok
        | AMap o => let '(a, b) := dec o acc in struct_field dec name m' a (ok && b)
        | _ => struct_field dec name m' acc false
        end
      else struct_field dec name m' acc ok
  end.

(** The chat id and the text of the message, as the anonymous struct reads them. *)
Definition decode_chat (m : obj) (id : Z) : Z * bool := val_field as_int "id" m id true.

Definition decode_message (m : obj) (x : Z * string) : (Z * string) * bool :=
  let '(id, o1) := struct_field decode_chat "chat" m x.1 true in
  let '(t, o2) := val_field as_str "text" m x.2 true in
  ((id, t), o1 && o2).

Definition echo_target (raw : any) : option (Z * string) :=
  let decoded := match raw with
                 | AMap m => struct_field decode_message "message" m (0, "") true
                 | ANil => ((0, ""), true)
                 | _ => ((0, ""), false)
                 end in
  let '(id, text, ok) := decoded in
  if negb ok || (id =? 0) then None else Some (id, text).

Section loop.
Context {W : Type} (transport : sdk_request → W → (string + sdk_answer) * W).

(** The replies to a batch; [rand n] and [clock n] are the key material of the
    n-th send. *)
Fixpoint echo_all (rand : nat → option string) (now : nat → Z) (n : nat) (c : Client) (l : list Update) (w : W) : W :=
  match l with
  | [] => w
  | u :: l' =>
      match echo_target (Raw u) with
      | None => echo_all rand now n c l' w
      | Some (chat, text) =>
          let '(_, w) := SendMessage transport (rand n) (now n) c chat ("echo: " +:+ text) [] w in
          echo_all rand now (S n) c l' w
      end
  end.

(** One turn of the loop. *)
Definition turn (rand : nat → option string) (now : nat → Z) (c : Client) (w : W) : Client * W :=
  match PullUpdates transport c 25000000000 100 w with
  | (inl _, c, w) => (c, w)
  | (inr updates, c, w) => (c, echo_all rand now 0 c updates w)
  end.
End loop.

(** ** A crash between the reply and the next pull *)

Definition text_update : obj :=
  [("update_id", AFloat 7); ("message", AMap [("chat", AMap [("id", AFloat 5)]); ("text", AStr "hi")])].

Definition waiting_session : BotSession :=
  match Queue.PushAll 5 6 no_faults [text_update] (queue first_session) Queue.w_empty with
  | Some (_, q, _) => upd_queue q first_session
  | None => first_session
  end.

Definition waiting_app : App := set_mgr (set_obj (Mgr demo_app) 0 waiting_session) demo_app.

Definition incarnation (key : string) (w : gw_world) : gw_world :=
  (turn (gateway toy_box short_text small "http://gw:8080") (λ _, Some key) (λ _, 0) (demo_client 0) w).2.

(** The consumer dies after its first turn and starts again: the pull that would
    have acknowledged the update never happened, the update comes again, and
    the new process replies under a new random key, so Telegram gets the
    message twice.  With the same key the second reply is suppressed. *)
Lemma crash_sends_twice :
  let before := ([send_env; send_env; send_env; send_env], waiting_app, []) in
  URL <$> (incarnation "k2" (incarnation "k1" before)).2 = ["/bot1:t/sendMessage"; "/bot1:t/sendMessage"] ∧
  URL <$> (incarnation "k1" (incarnation "k1" before)).2 = ["/bot1:t/sendMessage"].
Proof. vm_compute. split; reflexivity. Qed.
